(* ===== verification/_CoqProject ===== *)
-Q . S2P
Prelude.v
Algebra.v
Interpolation.v
Primitives.v
Toy.v
Codec.v
Common.v
WireCommitment.v
Wire.v
Dkg.v
DkgSpec.v
Feldman.v
Ceremony.v
DkgTheorems.v
Context.v
Sigma.v
Shares.v
Pre.v
PreTheorems.v
Pet.v
PetTheorems.v
SignDerivation.v
Pairing.v
Bls.v
BlsTheorems.v
Frost.v
FrostTheorems.v
Signer.v
SignerContract.v
DkgSession.v
DkgSessionTheorems.v
ReportCodec.v
ReportStatements.v
ReportDkg.v
ReportPet.v
Evidence.v
Identity.v
NodeState.v
Envelope.v
Collection.v
Responses.v
Auth.v
Routes.v
Bulletin.v
RingState.v
PetNode.v
Reporting.v
Relay.v
PetProtocol.v
SignHelpers.v
PreNode.v
Registry.v
SignNode.v
SignResponder.v
PreInitiator.v
SignInitiator.v
SignRelease.v
DkgEvidence.v
PetAdmission.v
PetHonest.v
PreRelease.v
PreCollect.v
SignCollect.v
Convictions.v
DkgConvictions.v
PetScenario.v
PreScenario.v
ReportScenario.v
SignScenario.v
DkgScenario.v
