(* ===== verification/Prelude.v ===== *)
(** * Orbis: a verification library for the threshold cryptography node

    The program is a Rust workspace.  [crates/crypto] holds the threshold
    cryptography: distributed key generation (DKG) with refresh and reshare,
    proxy re-encryption (PRE), a private equality test (PET), and threshold
    signatures over BLS12-381 (BLS) and Jubjub (FROST).  [crates/reporting]
    holds the statements nodes sign and the fault reports built from them,
    [crates/authn] verifies callers, [crates/bulletin] and [crates/common] the
    payloads and identifiers shared through the chain, [crates/local-storage]
    the storage interface.  [bin/orbis-node] runs the protocols: it resolves a
    ring and its committee from the bulletin, authenticates and authorizes
    callers, collects responses from peers, keeps one-use secrets and shares,
    and reports faulty contributions.

    This library embeds that code in Rocq.  A Rust function is a Rocq function;
    [Result] is [res], with [Panic] for an unwinding panic and [OutOfFuel] for a
    loop that has not ended; a method that changes an object is a [method], a
    state transformer with a result; a machine integer is a [Z] with its
    wrap-around written out; a string is its bytes.  Format arguments of error
    messages are not interpolated.

    ** Files

    The foundations: [Prelude] (results, methods, bytes, lists, tactics),
    [Algebra] (scalar field and prime-order group as classes, with the laws
    ark and blst document), [Interpolation] (polynomials and Lagrange
    interpolation), [Primitives] (hashes, ciphers, random streams), [Toy] (a
    small instance of every class, over which the concrete examples run).

    The crypto crate, its definitions first and its theorems in the file after:
    - [Codec], [Common], [Wire]: encodings ([trait/serialize.rs],
      [trait/types.rs], [bls12_381/common.rs]), polynomial evaluation,
      commitments and Feldman verification ([helpers.rs], [ct.rs]);
      [WireCommitment] is the form in which the node sends a commitment
      ([dkg/v0/helpers/commitment.rs]).
    - [Dkg], [DkgSpec], [Feldman], [Ceremony], [DkgTheorems]:
      [bls12_381/dkg.rs].  [Dkg] has a record [DKGNode] with the fields of the
      struct and one definition per method; [DkgSpec] its invariant and its
      preservation; [Feldman] the outputs against the polynomials behind the
      commitments; [Ceremony] a complete honest run in any order of delivery.
    - [Context]: [context.rs], [pet_context.rs].  [Sigma], [Shares]: the Schnorr
      and Chaum-Pedersen equations and the share combination that the protocols
      share.
    - [Pre], [PreTheorems]: [bls12_381/pre.rs].  [Pet], [PetTheorems]:
      [bls12_381/pet.rs].
    - [SignDerivation], [Pairing], [Bls], [BlsTheorems]: [bls12_381/sign.rs].
      [Frost], [FrostTheorems]: [jubjub/sign.rs].
    - [Signer]: the trait of [trait/sign.rs] as a class, with the two signers as
      instances; [SignerContract]: what a client may rely on, and that both
      signers provide it.

    Reports: [ReportCodec] is [reporting/src/codec.rs], a decoder that carries
    the bytes and an offset; [ReportStatements], [ReportDkg], [ReportPet] are
    [lib.rs], [pre_sign.rs], [relay.rs], [dkg.rs] and [pet_blind.rs];
    [Evidence] is [invalid_crypto.rs]; [Envelope] is [envelope.rs].

    The node, its state first: [DkgSession], [DkgSessionTheorems] are the DKG
    state machine and the atomic section that claims its transitions
    ([dkg/v0/coordinator/state_machine.rs], [phases/mod.rs]); [Identity] and
    [Routes] number a committee and resolve its routes ([helpers/identity.rs],
    [helpers/node_routes.rs], [common/src/peer_id.rs]); [NodeState] is the two
    stores of one-use secrets ([pet/v0/pending_blind.rs],
    [sign/v0/response_state.rs]), [Responses] the store of collected responses
    ([helpers/response_manager.rs]); [Auth] is [authn/src] and the token replay
    guard ([helpers/jti_replay.rs]); [Bulletin] has the ring, document and
    version payloads and the identifiers ([bulletin/src], [orbis/ids.rs],
    [helpers/protocol_version.rs]); [RingState] the stored and the pending share
    bundles ([ring_state.rs]).

    The protocols of the node.  Each has its definitions, its theorems, and a
    scenario, a complete run over [Toy] that instantiates the theorems:
    - The equality test ([pet/v0]): [PetNode] and [PetProtocol] have the
      contributions, certificates, the three request handlers, the verification
      of responses and the admission gate, over the record [PetApp] of what a
      call sees of the node; [PetAdmission], [PetHonest]; [PetScenario].
    - Re-encryption ([pre/v0]): [PreNode] is the responder with its messages and
      [PreInitiator] the coordinator of a request; [PreRelease], [PreCollect];
      [PreScenario].
    - Signing ([sign/v0]): [SignHelpers] is the encoding of commitment lists,
      [SignNode] the messages and the checks of a context ([messages.rs],
      [helpers.rs]), [SignResponder] the two request handlers
      ([coordinator/handlers.rs]), [SignInitiator] the two rounds
      ([coordinator/rounds], [verification.rs], [network.rs]); all are generic in
      the signer.  [SignRelease] is proved for any signer, [SignCollect] against
      [SignerContract]; [SignScenario].
    - Evidence about dealers ([dkg/v0/coordinator]): [DkgEvidence] has what a
      dealer signs ([evidence], [phases/phase1.rs], [phase2.rs]) and how a
      receiver decides on a share and a commitment ([message_handlers]);
      [DkgConvictions]; [DkgScenario].
    - Fault reports ([reporting/v0]): [Reporting] is the set of reports in flight
      ([state.rs], [observation.rs]), [Relay] the binding of a relayed request
      ([relay_binding.rs]), [Registry] the validation of every kind of report
      ([registry], [pipeline.rs]); [Convictions]; [ReportScenario].
    - [Collection] is the loop the initiators share: arrivals are checked until
      enough of them count.

    The PET, PRE and DKG modules of the node follow the BLS12-381 build.

    ** What the theorems show

    - Key generation: whatever the dealers send, a node's share lies on the
      public polynomial, as long as the index it receives at does not change
      after it took a share; an honest run ends, in any order, with agreement;
      refresh and reshare keep the key; fewer shares than the threshold hide it;
      the only panic is that of a polynomial too large for the address space.
    - Re-encryption, signatures, equality test: what honest parties produce
      verifies and combines to the plaintext, a valid signature, the right
      answer; a proof is bound to its context up to an explicit collision of the
      hash; a proof of a false statement is accepted for one value of the
      challenge only.
    - Formats: every decoder accepts exactly the canonical encodings of
      well-formed values, and returns on every input; a report is acceptable in
      exactly its window.
    - The node: one-use secrets are handed out once and to their peer only;
      responses come from the peers asked; a token counts once; the numbering
      and the routes of a committee are the same for everybody; a DKG side
      effect is claimed once while the phase does not move back, the completion
      of a departing dealer apart; an admitted PET audit is for the owner of the
      document, unless a contribution it rests on passed its check with a wrong
      point; the contributions of honest responders are accepted.
    - Release of shares: a share of a re-encryption or of a signature leaves a
      node for authorized requests only, and what a refused request leaves
      behind is accounted for; the signing handlers implement the one-use nonce
      store: every share answered is made with a nonce behind a commitment
      answered, and no two with the same one.
    - Service: a re-encryption or a signature that enough members answer is
      completed, whatever else arrives and in whatever order.
    - Reports: the fault a co-signer has established when it signs a report; the
      answers of an honest responder do not convict it, also across refreshes
      that keep the history of polynomials, nor does what an honest dealer signs;
      a share that a receiver refuses with evidence convicts its dealer where the
      bulletin lists the receiver in its place and the evidence is well sized.
    - Where the code does less than it says, the files have lemmas that show it:
      an index that moves under shares already taken, a completion claimed twice,
      a write to the history that is lost, evidence that is queued and not
      confirmed, a route that escapes reports.

    Hash functions are not assumed to be injective: where a digest binds its
    input, the theorem offers a concrete collision as the alternative.

    ** Fuel and bounds

    Rejection sampling is the only unbounded loop of the crypto crate.  It runs
    on fuel, also under the signing handlers, which draw nonces; [healthy fuel
    rng] says that among any [fuel] consecutive draws one is not zero, and under
    it the sampling functions return, so theorems of success are stated with it.
    All other recursions are structural: the collection loops run over the list
    of arrivals before the deadline, and the bounded retries over a count of the
    source ([DEPARTED_KEY_DELETE_RETRY_ATTEMPTS] and the like). Lengths that the
    code casts to [u32] wrap in the model ([as_u32]); the well-formedness
    predicates of the formats say when they do not.

    ** Parameters

    Third-party code is a class: the curve and field arithmetic, SHA-2,
    AES-GCM, HKDF, the pairing and hash-to-curve suites, ECDSA, the JWT library,
    hexadecimal, JSON, the storage backend, the policy service, the bulletin.
    Each class states what the code relies on, and each theorem over it has an
    instance in [Toy] or beside its witness.

    ** Not modelled

    Constant-time execution and zeroization; the transport with its delivery,
    repair and timing of DKG messages ([crates/network], [dkg/v0/network],
    [dkg/v0/transport]), so that an operation under a lock is one step and
    executions are sequences of such steps; the evidence about those transport
    messages and its validators, which are a parameter of [Registry]; the set-up
    of a session, the selection of dealers and the persistence after the last
    phase of a DKG; the PET initiator; the gRPC services; the ring index and the
    scheduling of refreshes; metrics and logging; the Jubjub instances of DKG,
    PRE and PET, which repeat the BLS12-381 ones over another curve; chain
    clients, command-line tools, benchmarks and test support. *)
From stdpp Require Export base list gmap strings numbers sorting.
From Stdlib Require Export ZArith Lia Strings.Byte.
From coqutil Require Export Byte.
From coqutil Require Import Word.LittleEndianList.

Global Open Scope Z_scope.

(** ** Scope of the development's own notations *)
Declare Scope orbis_scope.
Delimit Scope orbis_scope with orbis.
Global Open Scope orbis_scope.

(** ** Bytes *)

Abbreviation bytes := (list Byte.byte).

#[global] Instance byte_eq_dec : EqDecision Byte.byte := Byte.byte_eq_dec.

(** A byte-string literal [b"..."]. *)
Definition bstr (s : string) : bytes := String.list_byte_of_string s.

(** ** Outcomes of fallible code

    [Ok]/[Err] are Rust's [Result]; [Panic] is an unwinding panic (an index or
    a slice out of range, an [expect] on [None]); [OutOfFuel] is a loop that
    has not ended within the fuel it was given. *)
Inductive res (E A : Type) : Type :=
  | Ok (a : A)
  | Err (e : E)
  | Panic
  | OutOfFuel.
Arguments Ok {E A} a.
Arguments Err {E A} e.
Arguments Panic {E A}.
Arguments OutOfFuel {E A}.

Definition res_bind {E A B} (m : res E A) (f : A -> res E B) : res E B :=
  match m with
  | Ok a => f a
  | Err e => Err e
  | Panic => Panic
  | OutOfFuel => OutOfFuel
  end.

Notation "'let?' x ':=' m 'in' k" := (res_bind m (fun x => k))
  (at level 10, x name, m at level 100, k at level 200) : orbis_scope.
Notation "'let?' ' p ':=' m 'in' k" := (res_bind m (fun p => k))
  (at level 10, p strict pattern, m at level 100, k at level 200) : orbis_scope.
Notation "m ;? k" := (res_bind m (fun _ => k))
  (at level 199, right associativity) : orbis_scope.

(** [ok_or]: [Option::ok_or]. *)
Definition ok_or {E A} (o : option A) (e : E) : res E A :=
  match o with Some a => Ok a | None => Err e end.

(** [map_err]: [Result::map_err] with a constant error. *)
Definition map_err {E E' A} (m : res E A) (e : E') : res E' A :=
  match m with
  | Ok a => Ok a
  | Err _ => Err e
  | Panic => Panic
  | OutOfFuel => OutOfFuel
  end.

(** [ensure]: an early [return Err(e)] when the condition fails. *)
Definition ensure {E} (b : bool) (e : E) : res E unit := if b then Ok tt else Err e.

(** [reject]: an early [return Err(e)] when the condition holds. *)
Definition reject {E} (b : bool) (e : E) : res E unit := if b then Err e else Ok tt.

(** [.map(f).collect::<Result<Vec<_>>>()]. *)
Fixpoint res_mapM {E A B} (f : A -> res E B) (l : list A) : res E (list B) :=
  match l with
  | [] => Ok []
  | x :: l' => let? y := f x in let? ys := res_mapM f l' in Ok (y :: ys)
  end.

(** A [for] loop that updates an accumulator and may leave early with [?]. *)
Fixpoint res_foldl {E A B} (f : A -> B -> res E A) (l : list B) (acc : A) : res E A :=
  match l with
  | [] => Ok acc
  | x :: l' => let? acc' := f acc x in res_foldl f l' acc'
  end.

(** ** Methods on [&mut self]

    A method gets the state and returns its outcome together with the state it
    leaves behind: updates made before an early return stay. *)
Definition method (S E A : Type) : Type := S -> res E A * S.

Definition m_bind {S E A B} (m : method S E A) (f : A -> method S E B) : method S E B :=
  fun s =>
    match m s with
    | (Ok a, s') => f a s'
    | (Err e, s') => (Err e, s')
    | (Panic, s') => (Panic, s')
    | (OutOfFuel, s') => (OutOfFuel, s')
    end.

Definition m_ret {S E A} (a : A) : method S E A := fun s => (Ok a, s).
Definition m_get {S E} : method S E S := fun s => (Ok s, s).
Definition m_modify {S E} (f : S -> S) : method S E unit := fun s => (Ok tt, f s).
Definition m_lift {S E A} (r : res E A) : method S E A := fun s => (r, s).

(** The state after a successful call. *)
Definition run {S E A} (m : method S E A) (s : S) : res E S :=
  let '(r, s') := m s in r ;? Ok s'.

Notation "'let!' x ':=' m 'in' k" := (m_bind m (fun x => k))
  (at level 10, x name, m at level 100, k at level 200) : orbis_scope.
Notation "'let!' ' p ':=' m 'in' k" := (m_bind m (fun p => k))
  (at level 10, p strict pattern, m at level 100, k at level 200) : orbis_scope.
Notation "m ;! k" := (m_bind m (fun _ => k))
  (at level 199, right associativity) : orbis_scope.

(** Does not end in a panic. *)
Definition no_panic {E A} (m : res E A) : Prop := m <> Panic.

(** ** Machine integers *)

Definition u32_max : Z := 2 ^ 32.
Definition is_u32 (z : Z) : Prop := 0 <= z < 2 ^ 32.
Definition is_usize (z : Z) : Prop := 0 <= z < 2 ^ 64.

(** [x as u32] from a [usize]. *)
Definition as_u32 (z : Z) : Z := z mod 2 ^ 32.

(** [to_le_bytes]/[to_be_bytes] of an [n]-byte unsigned integer and back. *)
Definition to_le_bytes (n : nat) (z : Z) : bytes := LittleEndianList.le_split n z.
Definition from_le_bytes (b : bytes) : Z := LittleEndianList.le_combine b.
Arguments to_le_bytes : simpl never.
Definition to_be_bytes (n : nat) (z : Z) : bytes := reverse (to_le_bytes n z).

(** [a - b] on [usize]. *)
Definition usize_sub {E} (a b : Z) : res E Z := if a <? b then Panic else Ok (a - b).

(** [Vec::with_capacity(n)] for elements of [elem_size] bytes: panics when the
    vector would be larger than [isize::MAX] bytes.  It is written out where [n]
    is an argument; a vector made for the elements of another one is not larger
    than an address space. *)
Definition isize_max : Z := 2 ^ 63 - 1.
Definition vec_with_capacity {E} (elem_size n : Z) : res E unit := if isize_max <? n * elem_size then Panic else Ok tt.

(** [v[i]]: panics when [i] is out of range. *)
Definition index {E A} (v : list A) (i : nat) : res E A :=
  match v !! i with Some x => Ok x | None => Panic end.

(** [Vec::sort_unstable] and [Vec::dedup] (adjacent duplicates). *)
Definition sort_unstable (l : list Z) : list Z := merge_sort Z.le l.
Fixpoint dedup (l : list Z) : list Z :=
  match l with
  | x :: ((y :: _) as l') => if x =? y then dedup l' else x :: dedup l'
  | _ => l
  end.

(** [b[lo..hi]]: panics when [lo > hi] or [hi > b.len()]. *)
Definition slice {E} (b : bytes) (lo hi : nat) : res E bytes :=
  if (lo <=? hi)%nat && (hi <=? length b)%nat then Ok (take (hi - lo) (drop lo b)) else Panic.

(** ** Lemmas on outcomes *)

Lemma res_bind_Ok {E A B} (m : res E A) (f : A -> res E B) b :
  res_bind m f = Ok b <-> exists a, m = Ok a /\ f a = Ok b.
Proof. destruct m; cbn; split; try naive_solver. Qed.

Lemma Ok_inj {E A} (a b : A) : Ok (E:=E) a = Ok b -> a = b.
Proof. by intros [=]. Qed.

Lemma ok_or_Ok {E A} (o : option A) (e : E) a : ok_or o e = Ok a <-> o = Some a.
Proof. destruct o; cbn; naive_solver. Qed.

Lemma map_err_Ok {E E' A} (m : res E A) (e : E') a : map_err m e = Ok a <-> m = Ok a.
Proof. destruct m; cbn; naive_solver. Qed.

Lemma ensure_Ok {E} b (e : E) u : ensure b e = Ok u <-> b = true.
Proof. destruct b, u; cbn; naive_solver. Qed.

Lemma reject_Ok {E} b (e : E) u : reject b e = Ok u <-> b = false.
Proof. destruct b, u; cbn; naive_solver. Qed.

Lemma res_mapM_Ok {E A B} (f : A -> res E B) l l' :
  res_mapM f l = Ok l' <-> Forall2 (fun x y => f x = Ok y) l l'.
Proof.
  revert l'; induction l as [|x l IH]; intros l'; cbn.
  - split; [intros [= <-]; constructor | by inversion 1].
  - rewrite res_bind_Ok. split.
    + intros (y & Hy & (ys & Hys & [= <-])%res_bind_Ok). constructor; [done|by apply IH].
    + inversion 1 as [|? y ? ys Hy Hys]; subst. exists y; split; [done|].
      apply res_bind_Ok. exists ys. split; [by apply IH|done].
Qed.

Lemma res_mapM_pure {E A B} (f : A -> res E B) (g : A -> B) l :
  (forall x, x ∈ l -> f x = Ok (g x)) -> res_mapM f l = Ok (g <$> l).
Proof.
  intros H. apply res_mapM_Ok. induction l as [|x l IH]; constructor.
  - apply H. left.
  - apply IH. intros y Hy. apply H. by right.
Qed.

Lemma res_mapM_length {E A B} (f : A -> res E B) l l' :
  res_mapM f l = Ok l' -> length l' = length l.
Proof. intros H%res_mapM_Ok. symmetry. eapply Forall2_length, H. Qed.

Lemma res_foldl_pure {E A B} (f : A -> B -> res E A) (g : A -> B -> A) l acc :
  (forall a x, x ∈ l -> f a x = Ok (g a x)) -> res_foldl f l acc = Ok (fold_left g l acc).
Proof.
  revert acc; induction l as [|x l IH]; intros acc H; cbn; [done|].
  rewrite (H acc x) by left. cbn. apply IH. intros a y Hy. apply H. by right.
Qed.

(** The accumulators of a loop stay related to those of a total one. *)
Lemma res_foldl_rel {E A B C} (R : A -> C -> Prop) (f : A -> B -> res E A) (g : C -> B -> C) l a c b :
  (forall a' c' x y, x ∈ l -> R a' c' -> f a' x = Ok y -> R y (g c' x)) ->
  R a c -> res_foldl f l a = Ok b -> R b (fold_left g l c).
Proof.
  revert a c; induction l as [|x l IH]; intros a c H HR; cbn; [by intros <-%Ok_inj|].
  intros (y & Hy & Hb)%res_bind_Ok. apply (IH y); [|eapply H; [left|done|done]|done].
  intros a' c' x' y' Hx. apply H. by right.
Qed.

Lemma res_foldl_Ok {E A B} (f : A -> B -> res E A) (P : B -> Prop) l a b :
  (forall a' x y, f a' x = Ok y -> P x) -> res_foldl f l a = Ok b -> Forall P l.
Proof.
  intros H. revert a; induction l as [|x l IH]; intros a; cbn; [constructor|].
  intros (y & Hy & Hb)%res_bind_Ok. constructor; eauto.
Qed.

Lemma no_panic_bind {E A B} (m : res E A) (f : A -> res E B) :
  no_panic m -> (forall a, m = Ok a -> no_panic (f a)) -> no_panic (res_bind m f).
Proof. unfold no_panic. destruct m; cbn; naive_solver. Qed.

Lemma no_panic_ok {E A} (a : A) : no_panic (E:=E) (Ok a). Proof. done. Qed.
Lemma no_panic_err {E A} (e : E) : no_panic (A:=A) (Err e). Proof. done. Qed.
Lemma no_panic_ensure {E} b (e : E) : no_panic (ensure b e). Proof. by destruct b. Qed.
Lemma no_panic_reject {E} b (e : E) : no_panic (reject b e). Proof. by destruct b. Qed.
Lemma no_panic_ok_or {E A} (o : option A) (e : E) : no_panic (ok_or o e). Proof. by destruct o. Qed.
Lemma no_panic_map_err {E E' A} (m : res E A) (e : E') : no_panic m -> no_panic (map_err m e).
Proof. by destruct m. Qed.

Lemma no_panic_mapM {E A B} (f : A -> res E B) l :
  (forall x, x ∈ l -> no_panic (f x)) -> no_panic (res_mapM f l).
Proof.
  induction l as [|x l IH]; intros H; cbn; [done|].
  apply no_panic_bind; [apply H; left|]. intros y _.
  apply no_panic_bind; [|by intros]. apply IH. intros z Hz. apply H. by right.
Qed.

Lemma no_panic_foldl {E A B} (f : A -> B -> res E A) l acc :
  (forall a x, x ∈ l -> no_panic (f a x)) -> no_panic (res_foldl f l acc).
Proof.
  revert acc; induction l as [|x l IH]; intros acc H; cbn; [done|].
  apply no_panic_bind; [apply H; left|]. intros y _. apply IH.
  intros a z Hz. apply H. by right.
Qed.

(** The same with an invariant of the accumulator. *)
Lemma no_panic_foldl_inv {E A B} (I : A -> Prop) (f : A -> B -> res E A) l acc :
  I acc ->
  (forall a x, x ∈ l -> I a -> no_panic (f a x) /\ forall y, f a x = Ok y -> I y) ->
  no_panic (res_foldl f l acc).
Proof.
  revert acc; induction l as [|x l IH]; intros acc Hi H; cbn; [done|].
  destruct (H acc x) as [Hp Hy]; [left|done|]. apply no_panic_bind; [done|]. intros y E0.
  apply IH; [by apply Hy|]. intros a z Hz. apply H. by right.
Qed.

(** *** Methods *)

Lemma m_bind_reject {S E A} b (e : E) (k : unit -> method S E A) s :
  m_bind (m_lift (reject b e)) k s = if b then (Err e, s) else k tt s.
Proof. by destruct b. Qed.

Lemma m_bind_ensure {S E A} b (e : E) (k : unit -> method S E A) s :
  m_bind (m_lift (ensure b e)) k s = if b then k tt s else (Err e, s).
Proof. by destruct b. Qed.

Lemma m_bind_ok_or {S E A B} (o : option B) (e : E) (k : B -> method S E A) s :
  m_bind (m_lift (ok_or o e)) k s = match o with Some b => k b s | None => (Err e, s) end.
Proof. by destruct o. Qed.

Lemma m_bind_Ok {S E A B} (b : B) (k : B -> method S E A) s : m_bind (m_lift (Ok b)) k s = k b s.
Proof. done. Qed.

Lemma m_bind_get {S E A} (k : S -> method S E A) s : m_bind m_get k s = k s s.
Proof. done. Qed.

Lemma m_bind_modify {S E A} f (k : unit -> method S E A) s : m_bind (m_modify f) k s = k tt (f s).
Proof. done. Qed.

Lemma m_bind_assoc {S E A B C} (m : method S E A) (f : A -> method S E B) (g : B -> method S E C) s :
  m_bind (m_bind m f) g s = m_bind m (fun a => m_bind (f a) g) s.
Proof. unfold m_bind. by destruct (m s) as [[] ?]. Qed.

Lemma m_bind_inv {S E A B} (m : method S E A) (k : A -> method S E B) s b s' :
  m_bind m k s = (Ok b, s') -> exists a s1, m s = (Ok a, s1) /\ k a s1 = (Ok b, s').
Proof. unfold m_bind. destruct (m s) as [[a| | |] s1]; [|done..]. eauto. Qed.

Lemma m_lift_inv {S E A B} (r : res E A) (k : A -> method S E B) s b s' :
  m_bind (m_lift r) k s = (Ok b, s') -> exists a, r = Ok a /\ k a s = (Ok b, s').
Proof. intros (a & s1 & [= -> ->] & H)%m_bind_inv. eauto. Qed.

(** What a method does to the state, whatever it returns. *)
Definition m_preserves {S E A} (R : relation S) (m : method S E A) : Prop := forall s, R s (m s).2.

Section Preserves.
Context {S E : Type} (R : relation S) {HR : PreOrder R}.

Lemma m_preserves_bind {A B} (m : method S E A) (f : A -> method S E B) :
  m_preserves R m -> (forall a, m_preserves R (f a)) -> m_preserves R (m_bind m f).
Proof.
  intros Hm Hf s. specialize (Hm s). unfold m_bind. destruct (m s) as [[a| | |] s1]; [|done..].
  by transitivity s1; [|apply Hf].
Qed.

Lemma m_preserves_lift {A} (r : res E A) : m_preserves R (m_lift r).
Proof. by intros s. Qed.
Lemma m_preserves_ret {A} (a : A) : m_preserves R (m_ret (E:=E) a).
Proof. by intros s. Qed.
Lemma m_preserves_get : m_preserves R (m_get (E:=E)).
Proof. by intros s. Qed.
End Preserves.

#[export] Instance invariant_PreOrder {S} (I : S -> Prop) : PreOrder (fun s s' => I s -> I s').
Proof. split; [by intros s|by intros s s1 s2 H1 H2 H%H1%H2]. Qed.
#[export] Instance same_field_PreOrder {S T} (f : S -> T) : PreOrder (fun s s' => f s' = f s).
Proof. split; [by intros s|intros s s1 s2 H1 H2; by rewrite H2]. Qed.

(** Runs a method up to its next condition; a branch that leaves early is
    closed when it fits the goal. *)
Ltac m_run := rewrite ?m_bind_get, ?m_bind_modify, ?m_bind_assoc.
Ltac m_step :=
  m_run; first [rewrite m_bind_reject | rewrite m_bind_ensure | rewrite m_bind_ok_or];
  case_match; try by eauto.

Create HintDb orbis.
#[export] Hint Resolve no_panic_ok no_panic_err no_panic_ensure no_panic_reject
  no_panic_ok_or no_panic_map_err : orbis.

(** ** Lemmas on lists *)

Lemma filter_neq_notin `{EqDecision A} (x : A) (l : list A) : x ∉ l -> filter (fun y => y <> x) l = l.
Proof.
  induction l as [|y l IH]; intros H; [done|].
  apply not_elem_of_cons in H as [Hne H].
  rewrite filter_cons_True by auto. by rewrite IH.
Qed.

(** *** Loops over maps *)

Lemma map_fold_rel {A B C} (R : B -> C -> Prop) (f : Z -> A -> B -> B) (g : Z -> A -> C -> C)
    (m : gmap Z A) b c :
  R b c -> (forall i x b' c', m !! i = Some x -> R b' c' -> R (f i x b') (g i x c')) ->
  R (map_fold f b m) (map_fold g c m).
Proof.
  intros H0 H. rewrite !map_fold_foldr.
  assert (forall p, p ∈ map_to_list m -> m !! p.1 = Some p.2) as Hl.
  { intros [i x]. apply elem_of_map_to_list. }
  induction (map_to_list m) as [|[i x] l IH]; cbn; [done|].
  apply H; [apply (Hl (i, x)); left|]. apply IH. intros p Hp. apply Hl. by right.
Qed.

Lemma map_fold_check {E A} (b : A -> bool) (e : E) (m : gmap Z A) :
  map_fold (fun _ x acc => acc ;? reject (b x) e) (Ok tt) m = Ok tt <->
  (forall i x, m !! i = Some x -> b x = false).
Proof.
  rewrite map_fold_foldr. setoid_rewrite <- elem_of_map_to_list.
  induction (map_to_list m) as [|[i x] l IH]; cbn.
  - split; [by intros _ i x ?%elem_of_nil|done].
  - rewrite res_bind_Ok. setoid_rewrite reject_Ok. split.
    + intros ([] & Hl & Hx) j y [[= <- <-]|Hy]%elem_of_cons; [done|].
      by apply (proj1 IH Hl j).
    + intros H. exists tt. split; [|by apply (H i x); left].
      apply IH. intros j y Hy. apply (H j). by right.
Qed.

(** *** Sorting and removing duplicates *)

Lemma sort_unstable_perm l : sort_unstable l ≡ₚ l.
Proof. apply merge_sort_Permutation. Qed.

Lemma sort_unstable_sorted l : Sorted Z.le (sort_unstable l).
Proof. apply Sorted_merge_sort. intros x y. lia. Qed.

Lemma dedup_sublist l : dedup l `sublist_of` l.
Proof.
  induction l as [|x [|y l] IH]; [done|done|]. cbn [dedup]. case_match.
  - by apply sublist_cons.
  - by apply sublist_skip.
Qed.

Lemma sublist_same_length {A} (l k : list A) : l `sublist_of` k -> length l = length k -> l = k.
Proof.
  induction 1 as [|x l k Hs IH|x l k Hs IH]; cbn; intros E; [done|f_equal; apply IH; lia|].
  apply sublist_length in Hs. lia.
Qed.

Lemma dedup_NoDup l : Sorted Z.le l -> NoDup (dedup l).
Proof.
  intros Hs. apply Sorted_StronglySorted in Hs; [|intros x y z; lia].
  induction Hs as [|x l Hs IH Hx]; [constructor|].
  destruct l as [|y l]; [apply NoDup_singleton|]. cbn [dedup]. case_match eqn:E; [done|].
  apply Z.eqb_neq in E. constructor; [|done]. intros Hin.
  apply (sublist_subseteq _ _ (dedup_sublist (y :: l))) in Hin.
  apply Forall_cons in Hx as [Hxy Hx]. apply StronglySorted_inv in Hs as [_ Hy].
  apply elem_of_cons in Hin as [->|Hin]; [done|].
  rewrite Forall_forall in Hy. specialize (Hy x Hin). cbn in *. lia.
Qed.

Lemma NoDup_dedup l : NoDup l -> dedup l = l.
Proof.
  induction 1 as [|x l Hx Hnd IH]; [done|]. destruct l as [|y l]; [done|].
  change (dedup (x :: y :: l)) with (if x =? y then dedup (y :: l) else x :: dedup (y :: l)).
  case_match eqn:E; [|by rewrite IH]. apply Z.eqb_eq in E as ->. exfalso. apply Hx. left.
Qed.

(** Comparing the length before and after detects duplicates. *)
Lemma canonical_length l :
  length (dedup (sort_unstable l)) = length l <->
  NoDup l /\ dedup (sort_unstable l) = sort_unstable l.
Proof.
  rewrite <- (sort_unstable_perm l) at 2 3. split.
  - intros E. assert (dedup (sort_unstable l) = sort_unstable l) as Hd.
    { apply sublist_same_length; [apply dedup_sublist|done]. }
    split; [|done]. rewrite <- Hd. apply dedup_NoDup, sort_unstable_sorted.
  - by intros [_ ->].
Qed.

Lemma canonical_NoDup l : NoDup l -> dedup (sort_unstable l) = sort_unstable l.
Proof. intros H. apply NoDup_dedup. by rewrite sort_unstable_perm. Qed.

Lemma index_Ok {E A} (v : list A) i x : index (E:=E) v i = Ok x <-> v !! i = Some x.
Proof. unfold index. destruct (v !! i); naive_solver. Qed.

(** A loop over the indices [0..n] that collects the elements of a list. *)
Lemma res_mapM_seq {E A} (f : nat -> res E A) (l : list A) :
  (forall i x, l !! i = Some x -> f i = Ok x) -> res_mapM f (seq 0 (length l)) = Ok l.
Proof.
  intros H. apply res_mapM_Ok, Forall2_same_length_lookup. rewrite length_seq. split; [done|].
  intros i j x [-> _]%lookup_seq Hx. by apply H.
Qed.

Lemma res_mapM_seq_inv {E A} (f : nat -> res E A) n (l : list A) :
  res_mapM f (seq 0 n) = Ok l -> length l = n /\ forall i x, l !! i = Some x -> f i = Ok x.
Proof.
  intros H. pose proof (res_mapM_length _ _ _ H) as L. rewrite length_seq in L.
  split; [done|]. intros i x Hx. apply res_mapM_Ok in H.
  assert (seq 0 n !! i = Some i) as Hi.
  { apply lookup_seq. split; [done|]. rewrite <- L. by eapply lookup_lt_Some. }
  eapply Forall2_lookup_lr in H; eauto.
Qed.

(** Cutting a byte string into chunks of [k] bytes and joining them again. *)
Lemma mjoin_chunks (k : nat) (chunks : list bytes) (d : bytes) :
  length d = (length chunks * k)%nat ->
  (forall i c, chunks !! i = Some c -> take k (drop (i * k) d) = c) -> mjoin chunks = d.
Proof.
  revert d; induction chunks as [|c chunks IH]; intros d L H; cbn in *.
  - by apply nil_length_inv in L.
  - rewrite <- (take_drop k d). f_equal.
    + rewrite <- (H 0%nat c) by done. cbn. by rewrite drop_0.
    + apply IH; [rewrite length_drop; lia|]. intros i c' Hc.
      rewrite drop_drop. by apply (H (S i)).
Qed.

Lemma length_mjoin_chunks (k : nat) (chunks : list bytes) :
  Forall (fun c => length c = k) chunks -> length (mjoin chunks) = (length chunks * k)%nat.
Proof.
  induction 1 as [|c l Hc Hl IH]; [done|].
  change (mjoin (c :: l)) with (c ++ mjoin l). rewrite length_app, IH, Hc. cbn. lia.
Qed.

(** ** Lemmas on bytes and slices *)

Lemma length_to_le_bytes n z : length (to_le_bytes n z) = n.
Proof. apply LittleEndianList.length_le_split. Qed.

Lemma length_to_be_bytes n z : length (to_be_bytes n z) = n.
Proof. unfold to_be_bytes. by rewrite length_reverse, length_to_le_bytes. Qed.

Lemma from_to_le_bytes n z : 0 <= z < 2 ^ (Z.of_nat n * 8) -> from_le_bytes (to_le_bytes n z) = z.
Proof.
  intros H. unfold from_le_bytes, to_le_bytes.
  rewrite LittleEndianList.le_combine_split. by apply Z.mod_small.
Qed.

Lemma to_from_le_bytes b n : length b = n -> to_le_bytes n (from_le_bytes b) = b.
Proof. intros <-. apply LittleEndianList.split_le_combine. Qed.

Lemma from_le_bytes_range b : 0 <= from_le_bytes b < 2 ^ (Z.of_nat (length b) * 8).
Proof.
  unfold from_le_bytes. pose proof (LittleEndianList.le_combine_bound b).
  by rewrite (Z.mul_comm _ 8).
Qed.

Lemma to_le_bytes_inj n a b :
  0 <= a < 2 ^ (Z.of_nat n * 8) -> 0 <= b < 2 ^ (Z.of_nat n * 8) ->
  to_le_bytes n a = to_le_bytes n b -> a = b.
Proof. intros Ha Hb H. by rewrite <- (from_to_le_bytes n a), H, from_to_le_bytes. Qed.

Lemma to_be_bytes_inj n a b :
  0 <= a < 2 ^ (Z.of_nat n * 8) -> 0 <= b < 2 ^ (Z.of_nat n * 8) ->
  to_be_bytes n a = to_be_bytes n b -> a = b.
Proof. intros Ha Hb H%(inj reverse). by eapply to_le_bytes_inj. Qed.

(** A slice of a concatenation that starts at its second part. *)
Lemma slice_app {E} (a b c : bytes) lo hi :
  lo = length a -> hi = (length a + length b)%nat ->
  slice (E:=E) (a ++ b ++ c) lo hi = Ok b.
Proof.
  intros -> ->. unfold slice. rewrite !length_app.
  replace (length a <=? length a + length b)%nat with true by (symmetry; apply Nat.leb_le; lia).
  replace (length a + length b <=? _)%nat with true by (symmetry; apply Nat.leb_le; lia).
  cbn. rewrite drop_app_length. f_equal.
  replace (length a + length b - length a)%nat with (length b) by lia.
  apply take_app_length.
Qed.

Lemma slice_Ok {E} (b : bytes) lo hi s :
  slice (E:=E) b lo hi = Ok s <->
  (lo <= hi <= length b)%nat /\ s = take (hi - lo) (drop lo b).
Proof.
  unfold slice. destruct (Nat.leb_spec lo hi), (Nat.leb_spec hi (length b)); cbn; naive_solver lia.
Qed.

Lemma no_panic_slice {E} (b : bytes) lo hi :
  (lo <= hi)%nat -> (hi <= length b)%nat -> no_panic (slice (E:=E) b lo hi).
Proof.
  intros H1%Nat.leb_le H2%Nat.leb_le. unfold slice. by rewrite H1, H2.
Qed.

Lemma slice_length {E} (b : bytes) lo hi s :
  slice (E:=E) b lo hi = Ok s -> length s = (hi - lo)%nat.
Proof. intros [? ->]%slice_Ok. rewrite length_take, length_drop. lia. Qed.

(** Slices of a concatenation that start behind, or at, its first part. *)
Lemma slice_skip {E} (a r : bytes) lo hi :
  (length a <= lo)%nat -> (lo <= hi)%nat ->
  slice (E:=E) (a ++ r) lo hi = slice r (lo - length a) (hi - length a).
Proof.
  intros H1 H2. unfold slice. rewrite length_app, drop_app_ge by done.
  replace (lo - length a <=? hi - length a)%nat with (lo <=? hi)%nat by (apply eq_true_iff_eq; rewrite !Nat.leb_le; lia).
  replace (hi - length a <=? length r)%nat with (hi <=? length a + length r)%nat
    by (apply eq_true_iff_eq; rewrite !Nat.leb_le; lia).
  by replace (hi - length a - (lo - length a))%nat with (hi - lo)%nat by lia.
Qed.

Lemma slice_head {E} (a r : bytes) lo hi :
  lo = 0%nat -> hi = length a -> slice (E:=E) (a ++ r) lo hi = Ok a.
Proof. intros -> ->. by apply (slice_app []). Qed.

Lemma slice_all {E} (a : bytes) lo hi :
  lo = 0%nat -> hi = length a -> slice (E:=E) a lo hi = Ok a.
Proof. intros. rewrite <- (app_nil_r a) at 1. by apply slice_head. Qed.

(** A slice is the front of what is left of the input. *)
Lemma slice_split {E} (b : bytes) lo hi s :
  slice (E:=E) b lo hi = Ok s -> drop lo b = s ++ drop hi b.
Proof.
  intros [H ->]%slice_Ok. rewrite <- (take_drop (hi - lo) (drop lo b)) at 1.
  f_equal. rewrite drop_drop. f_equal. lia.
Qed.

Lemma slice_chunk {E} (k : nat) (chunks : list bytes) i c :
  Forall (fun c => length c = k) chunks -> chunks !! i = Some c ->
  slice (E:=E) (mjoin chunks) (i * k) (i * k + k) = Ok c.
Proof.
  intros H. revert i; induction H as [|d chunks L H IH]; intros [|i] Hi; cbn in *; try done.
  - injection Hi as ->. apply slice_head; lia.
  - rewrite slice_skip by lia. rewrite <- (IH i Hi). f_equal; lia.
Qed.

Lemma is_u32_le_bytes b : length b = 4%nat -> is_u32 (from_le_bytes b).
Proof. intros H. pose proof (from_le_bytes_range b) as R. by rewrite H in R. Qed.

Create HintDb lens.
#[export] Hint Rewrite @length_app @length_to_le_bytes @length_to_be_bytes @length_replicate : lens.

(** Evaluates a slice of a concatenation of parts of known length. *)
Ltac slice_eval :=
  repeat (rewrite slice_skip by (autorewrite with lens; lia));
  first [ rewrite slice_head by (autorewrite with lens; lia)
        | rewrite slice_all by (autorewrite with lens; lia) ].

(** ** Tactics *)

(** Turns a hypothesis [_ = Ok _] about a sequence of binds, guards and early
    returns into what each of the steps says. *)
Ltac inv_ok :=
  repeat match goal with
  | H : res_bind _ _ = Ok _ |- _ => apply res_bind_Ok in H as (? & ? & ?)
  | H : ok_or _ _ = Ok _ |- _ => apply ok_or_Ok in H
  | H : map_err _ _ = Ok _ |- _ => apply map_err_Ok in H
  | H : ensure _ _ = Ok _ |- _ => apply ensure_Ok in H
  | H : reject _ _ = Ok _ |- _ => apply reject_Ok in H
  | H : Ok _ = Ok _ |- _ => apply Ok_inj in H; simplify_eq
  | H : Err _ = Ok _ |- _ => discriminate H
  | H : Panic = Ok _ |- _ => discriminate H
  | H : OutOfFuel = Ok _ |- _ => discriminate H
  | H : (_, _) = (_, _) |- _ => injection H as H; subst
  end.

(** One step of a sequence of binds, with names for its value and its equation. *)
Tactic Notation "bind_ok" hyp(H) "as" simple_intropattern(x) simple_intropattern(E) :=
  apply res_bind_Ok in H as (x & E & H).

(** Applies a lemma to the first hypothesis it fits. *)
Ltac apply_any lem :=
  match goal with H : _ |- _ => apply lem in H end.

(** Splits the goal [no_panic (...)] along the binds of the program. *)
Ltac no_panic_steps :=
  repeat (apply no_panic_bind; [auto with orbis | intros ? ?]); auto with orbis.
