(* ===== verification/Algebra.v ===== *)
(** * The algebra the crypto crate is built on

    The scalar field and the curve groups come from [ark_bls12_381] and
    [jubjub]; they are interfaces here.  [ScalarField] is the field of scalars
    with its integer embedding and its canonical byte encoding, [CurveGroup] a
    curve group together with its prime-order subgroup.  A value of the point
    type need not lie in the subgroup (the BLS12-381 G1 curve has a cofactor):
    the laws only speak of the multiples of the generator, and the subgroup
    test recognises exactly those. *)
From S2P Require Import Prelude.
From Stdlib Require Export Field.

(** ** Scalars *)

Class ScalarField (F : Type) := {
  f_eq_dec :: EqDecision F;
  fzero : F;
  fone : F;
  fadd : F -> F -> F;
  fmul : F -> F -> F;
  fsub : F -> F -> F;
  fopp : F -> F;
  fdiv : F -> F -> F;
  finv : F -> F;
  f_theory : field_theory fzero fone fadd fmul fsub fopp fdiv finv eq;
  (* [Fr::from(u64)] *)
  from_u64 : Z -> F;
  from_u64_zero : from_u64 0 = fzero;
  from_u64_inj a b : is_u32 a -> is_u32 b -> from_u64 a = from_u64 b -> a = b;
  (* [serialize_compressed]/[deserialize_compressed] *)
  fr_size : nat;
  fr_serialize : F -> bytes;
  fr_deserialize : bytes -> option F;
  fr_serialize_length x : length (fr_serialize x) = fr_size;
  fr_deserialize_serialize x : fr_deserialize (fr_serialize x) = Some x;
  (* [Fr::from_le_bytes_mod_order] *)
  from_le_bytes_mod_order : bytes -> F;
}.

Declare Scope fr_scope.
Delimit Scope fr_scope with fr.
Notation "0" := fzero : fr_scope.
Notation "1" := fone : fr_scope.
Infix "+" := fadd : fr_scope.
Infix "*" := fmul : fr_scope.
Infix "-" := fsub : fr_scope.
Infix "/" := fdiv : fr_scope.
Notation "- x" := (fopp x) : fr_scope.

(** [x.is_zero()]. *)
Definition f_is_zero `{ScalarField F} (x : F) : bool := bool_decide (x = fzero).

(** [Field::inverse]: [None] for zero. *)
Definition inverse `{ScalarField F} (x : F) : option F :=
  if decide (x = fzero) then None else Some (finv x).

(** ** Points *)

Class CurveGroup (F G : Type) `{ScalarField F} := {
  g_eq_dec :: EqDecision G;
  g_zero : G;
  g_add : G -> G -> G;
  g_sub : G -> G -> G;
  g_mul : G -> F -> G;
  generator : G;
  (* [is_in_correct_subgroup_assuming_on_curve] *)
  in_subgroup : G -> bool;
  in_subgroup_spec P : in_subgroup P = true <-> exists x, P = g_mul generator x;
  generator_inj x y : g_mul generator x = g_mul generator y -> x = y;
  generator_zero : g_zero = g_mul generator fzero;
  generator_one : generator = g_mul generator fone;
  generator_add x y : g_add (g_mul generator x) (g_mul generator y) = g_mul generator (fadd x y);
  generator_sub x y : g_sub (g_mul generator x) (g_mul generator y) = g_mul generator (fsub x y);
  generator_mul x y : g_mul (g_mul generator x) y = g_mul generator (fmul x y);
  (* compressed encoding; decoding validates the point *)
  g_size : nat;
  g_serialize : G -> bytes;
  g_deserialize : bytes -> option G;
  g_serialize_length P : length (g_serialize P) = g_size;
  g_deserialize_serialize P : in_subgroup P = true -> g_deserialize (g_serialize P) = Some P;
  g_deserialize_subgroup b P : g_deserialize b = Some P -> in_subgroup P = true;
}.

Infix "⊕" := g_add (at level 50, left associativity) : orbis_scope.
Infix "⊖" := g_sub (at level 50, left associativity) : orbis_scope.
Infix "⊙" := g_mul (at level 40, left associativity) : orbis_scope.

(** [p.is_zero()]. *)
Definition g_is_zero `{CurveGroup F G} (P : G) : bool := bool_decide (P = g_zero).

Section Laws.
Context {F G : Type} {SF : ScalarField F} {CG : CurveGroup F G}.
Local Open Scope fr_scope.
Add Field FField : (f_theory (F:=F)).

Lemma f_is_zero_true (x : F) : f_is_zero x = true <-> x = 0.
Proof. unfold f_is_zero. apply bool_decide_eq_true. Qed.

Lemma f_is_zero_false (x : F) : f_is_zero x = false <-> x <> 0.
Proof. unfold f_is_zero. apply bool_decide_eq_false. Qed.

Lemma g_is_zero_true (P : G) : g_is_zero P = true <-> P = g_zero.
Proof. unfold g_is_zero. apply bool_decide_eq_true. Qed.

Lemma g_is_zero_false (P : G) : g_is_zero P = false <-> P <> g_zero.
Proof. unfold g_is_zero. apply bool_decide_eq_false. Qed.

Lemma f_one_neq_zero : (1 : F) <> 0.
Proof. apply (F_1_neq_0 f_theory). Qed.

Lemma f_mul_zero (x y : F) : x * y = 0 -> x = 0 \/ y = 0.
Proof.
  intros H. destruct (decide (x = 0)) as [|Hx]; [by left|right].
  transitivity (finv x * (x * y)); [field; done|]. rewrite H. ring.
Qed.

Lemma f_sub_zero (x y : F) : x - y = 0 -> x = y.
Proof. intros H. transitivity (x - y + y); [ring|]. rewrite H. ring. Qed.

Lemma f_sub_nonzero (x y : F) : x <> y -> x - y <> 0.
Proof. intros H E. by apply H, f_sub_zero. Qed.

Lemma inverse_Some (x : F) : x <> 0 -> inverse x = Some (finv x).
Proof. intros H. unfold inverse. by rewrite decide_False. Qed.

Lemma from_u64_nonzero a : is_u32 a -> a <> 0%Z -> from_u64 (F:=F) a <> 0.
Proof.
  intros Ha Hz E. apply Hz. apply (from_u64_inj (F:=F)); [done|unfold is_u32; lia|].
  by rewrite from_u64_zero.
Qed.

Lemma gen_in_subgroup (x : F) : in_subgroup (generator (G:=G) ⊙ x) = true.
Proof. apply in_subgroup_spec. by eexists. Qed.

Lemma generator_in_subgroup : in_subgroup (generator (G:=G)) = true.
Proof. rewrite generator_one. apply gen_in_subgroup. Qed.

Lemma zero_in_subgroup : in_subgroup (g_zero (G:=G)) = true.
Proof. rewrite generator_zero. apply gen_in_subgroup. Qed.

Lemma add_in_subgroup (P Q : G) :
  in_subgroup P = true -> in_subgroup Q = true -> in_subgroup (P ⊕ Q) = true.
Proof.
  intros [x ->]%in_subgroup_spec [y ->]%in_subgroup_spec.
  rewrite generator_add. apply gen_in_subgroup.
Qed.

Lemma sub_in_subgroup (P Q : G) :
  in_subgroup P = true -> in_subgroup Q = true -> in_subgroup (P ⊖ Q) = true.
Proof.
  intros [x ->]%in_subgroup_spec [y ->]%in_subgroup_spec.
  rewrite generator_sub. apply gen_in_subgroup.
Qed.

Lemma mul_in_subgroup (P : G) (x : F) : in_subgroup P = true -> in_subgroup (P ⊙ x) = true.
Proof. intros [y ->]%in_subgroup_spec. rewrite generator_mul. apply gen_in_subgroup. Qed.

Lemma gen_zero_iff (x : F) : generator (G:=G) ⊙ x = g_zero <-> x = 0.
Proof.
  rewrite generator_zero. split; [apply generator_inj | by intros ->].
Qed.

Lemma g_serialize_inj (P Q : G) :
  in_subgroup P = true -> in_subgroup Q = true -> g_serialize P = g_serialize Q -> P = Q.
Proof.
  intros HP HQ E. apply (inj Some).
  by rewrite <- (g_deserialize_serialize P HP), E, g_deserialize_serialize.
Qed.

Lemma g_serialize_ne (P : G) : g_serialize P <> [].
Proof.
  intros E. pose proof (g_serialize_length P) as L. rewrite E in L. cbn in L.
  assert (forall Q : G, g_serialize Q = []) as H.
  { intros Q. apply nil_length_inv. by rewrite g_serialize_length. }
  apply f_one_neq_zero, (generator_inj (G:=G)). rewrite <- generator_zero, <- generator_one.
  apply g_serialize_inj; [apply generator_in_subgroup|apply zero_in_subgroup|by rewrite !H].
Qed.

Lemma fr_serialize_inj (x y : F) : fr_serialize x = fr_serialize y -> x = y.
Proof. intros E. apply (inj Some). by rewrite <- !fr_deserialize_serialize, E. Qed.

Lemma g_zero_add (P : G) : in_subgroup P = true -> g_zero ⊕ P = P.
Proof.
  intros [y ->]%in_subgroup_spec. rewrite generator_zero, generator_add. f_equal. ring.
Qed.

Lemma g_mul_zero (P : G) : in_subgroup P = true -> P ⊙ 0 = g_zero.
Proof.
  intros [y ->]%in_subgroup_spec. rewrite generator_zero, generator_mul. f_equal. ring.
Qed.

(** A list of subgroup points is a list of multiples of the generator. *)
Lemma subgroup_list (Ps : list G) :
  Forall (fun P => in_subgroup P = true) Ps <-> exists xs, Ps = (fun x => generator ⊙ x) <$> xs.
Proof.
  split.
  - induction 1 as [|P Ps [x ->]%in_subgroup_spec _ [xs ->]]; [by exists []|].
    by exists (x :: xs).
  - intros [xs ->]. induction xs; cbn; constructor; [apply gen_in_subgroup|done].
Qed.

End Laws.

#[export] Hint Resolve gen_in_subgroup generator_in_subgroup zero_in_subgroup
  add_in_subgroup sub_in_subgroup mul_in_subgroup : orbis.

Create HintDb dlog.
#[export] Hint Rewrite @generator_mul @generator_add @generator_sub : dlog.

(** Replaces every subgroup point by a multiple of the generator and brings
    the goal to an equation between scalars. *)
Ltac dlog_intro :=
  repeat match goal with
  | H : in_subgroup ?P = true |- _ =>
      is_var P; apply in_subgroup_spec in H as [? ->]
  end.
Ltac dlog := dlog_intro; rewrite ?generator_zero; autorewrite with dlog.
