(* ===== verification/Interpolation.v ===== *)
(** * Polynomials over the scalar field and Lagrange interpolation

    The reference mathematics every threshold operation of the crypto crate is
    compared with: [peval] evaluates a coefficient list, [lagrange_weights]
    are the interpolation weights at zero.  [lagrange_zero] says that the
    weights recover the constant term of every polynomial with at most as many
    coefficients as there are points; [interpolant_exists] that fewer points
    determine nothing about it. *)
From S2P Require Import Prelude Algebra.

Section Poly.
Context {F : Type} {SF : ScalarField F}.
Local Open Scope fr_scope.
Add Field FField : (f_theory (F:=F)).

Fixpoint peval (cs : list F) (x : F) : F :=
  match cs with
  | [] => 0
  | c :: cs' => c + x * peval cs' x
  end.

Fixpoint fsum (l : list F) : F :=
  match l with
  | [] => 0
  | x :: l' => x + fsum l'
  end.

Fixpoint fprod (l : list F) : F :=
  match l with
  | [] => 1
  | x :: l' => x * fprod l'
  end.

(** The other points of [xs]. *)
Definition others (x : F) (xs : list F) : list F := filter (fun y => y <> x) xs.

(** Value at [X] of the basis polynomial of the point [x] among [xs]. *)
Definition basis (xs : list F) (x X : F) : F :=
  fprod ((fun y => X - y) <$> others x xs) / fprod ((fun y => x - y) <$> others x xs).

(** The weight of [x] at zero, in the form the code computes it. *)
Definition weight (xs : list F) (x : F) : F :=
  fprod (others x xs) * finv (fprod ((fun y => y - x) <$> others x xs)).

(** ** Sums and products *)

Lemma fsum_app l k : fsum (l ++ k) = fsum l + fsum k.
Proof. induction l as [|x l IH]; csimpl; [ring|]. rewrite IH. ring. Qed.

Lemma fprod_app l k : fprod (l ++ k) = fprod l * fprod k.
Proof. induction l as [|x l IH]; csimpl; [ring|]. rewrite IH. ring. Qed.

Lemma fsum_permutation l k : l ≡ₚ k -> fsum l = fsum k.
Proof. induction 1; csimpl; try congruence; ring. Qed.

Lemma fprod_permutation l k : l ≡ₚ k -> fprod l = fprod k.
Proof. induction 1; csimpl; try congruence; ring. Qed.

Lemma fsum_scale {A} (g : A -> F) c l : fsum ((fun x => c * g x) <$> l) = c * fsum (g <$> l).
Proof. induction l as [|x l IH]; csimpl in *; [ring|]. rewrite IH. ring. Qed.

Lemma fsum_plus {A} (g h : A -> F) l :
  fsum ((fun x => g x + h x) <$> l) = fsum (g <$> l) + fsum (h <$> l).
Proof. induction l as [|x l IH]; csimpl in *; [ring|]. rewrite IH. ring. Qed.

Lemma fsum_swap {A B} (g : A -> B -> F) l k :
  fsum ((fun x => fsum (g x <$> k)) <$> l) = fsum ((fun y => fsum ((fun x => g x y) <$> l)) <$> k).
Proof.
  induction l as [|x l IH]; csimpl.
  - induction k as [|y k IHk]; csimpl; [done|]. rewrite <- IHk. ring.
  - rewrite IH, <- fsum_plus. done.
Qed.

Lemma fsum_ext {A} (g h : A -> F) l :
  (forall x, x ∈ l -> g x = h x) -> fsum (g <$> l) = fsum (h <$> l).
Proof.
  intros E. f_equal. apply list_fmap_ext. intros i x Hx. apply E.
  by eapply list_elem_of_lookup_2.
Qed.

Lemma fsum_zero {A} (g : A -> F) l : (forall x, x ∈ l -> g x = 0) -> fsum (g <$> l) = 0.
Proof.
  induction l as [|x l IH]; intros E; csimpl; [done|].
  rewrite (E x) by left. rewrite IH; [ring|]. intros y Hy. apply E. by right.
Qed.

(** A sum with a single non-zero term. *)
Lemma fsum_single (g : F -> F) x l :
  NoDup l -> x ∈ l -> (forall y, y ∈ l -> y <> x -> g y = 0) -> fsum (g <$> l) = g x.
Proof.
  intros Hnd Hin E. induction Hnd as [|y l Hy Hnd IH]; [by apply elem_of_nil in Hin|].
  cbn. apply elem_of_cons in Hin as [->|Hin].
  - rewrite (fsum_zero g l); [ring|]. intros z Hz. apply E; [by right|]. by intros ->.
  - rewrite IH; [|done|]; [|by intros; apply E; [right|]].
    rewrite (E y); [ring|left|]. by intros ->.
Qed.

Lemma fprod_nonzero l : (forall x, x ∈ l -> x <> 0) -> fprod l <> 0.
Proof.
  induction l as [|x l IH]; intros H; csimpl; [apply f_one_neq_zero|].
  intros [E|E]%f_mul_zero; [by apply (H x); [left|]|].
  apply IH; [|done]. intros y Hy. apply H. by right.
Qed.

Lemma fprod_zero l : 0 ∈ l -> fprod l = 0.
Proof.
  induction l as [|x l IH]; intros H; csimpl; [by apply elem_of_nil in H|].
  apply elem_of_cons in H as [<-|H]; [ring|]. rewrite IH by done. ring.
Qed.

Lemma elem_of_others x y xs : y ∈ others x xs <-> y <> x /\ y ∈ xs.
Proof. unfold others. by rewrite list_elem_of_filter. Qed.

Lemma others_nonzero x xs : forall d, d ∈ (fun y => x - y) <$> others x xs -> d <> 0.
Proof.
  intros d (y & -> & [Hy _]%elem_of_others)%list_elem_of_fmap. by apply f_sub_nonzero.
Qed.

(** ** Evaluation *)

Lemma peval_scale a cs x : peval (fmul a <$> cs) x = a * peval cs x.
Proof. induction cs as [|c cs IH]; csimpl in *; [ring|]. rewrite IH. ring. Qed.

Lemma peval_app cs ds x : peval (cs ++ ds) x = peval cs x + fprod (replicate (length cs) x) * peval ds x.
Proof. induction cs as [|c cs IH]; csimpl in *; [ring|]. rewrite IH. ring. Qed.

Lemma peval_zeros n x : peval (replicate n 0) x = 0.
Proof. induction n as [|n IH]; csimpl in *; [done|]. rewrite IH. ring. Qed.

Lemma peval_zero cs : peval cs 0 = default 0 (head cs).
Proof. destruct cs; csimpl; [done|]. ring. Qed.

(** Coefficient-wise sum, the shorter list padded with zeros. *)
Fixpoint padd (cs ds : list F) : list F :=
  match cs, ds with
  | [], _ => ds
  | _, [] => cs
  | c :: cs', d :: ds' => (c + d) :: padd cs' ds'
  end.

Lemma padd_length cs ds : length (padd cs ds) = Nat.max (length cs) (length ds).
Proof. revert ds; induction cs as [|c cs IH]; intros [|d ds]; csimpl; auto. Qed.

Lemma peval_padd cs ds x : peval (padd cs ds) x = peval cs x + peval ds x.
Proof.
  revert ds; induction cs as [|c cs IH]; intros [|d ds]; csimpl in *; [ring|ring|ring|].
  rewrite IH. ring.
Qed.

Lemma peval_padd_list (css : list (list F)) x :
  peval (foldr padd [] css) x = fsum ((fun cs => peval cs x) <$> css).
Proof. induction css as [|cs css IH]; csimpl; [done|]. by rewrite peval_padd, IH. Qed.

(** ** Polynomial functions with at most [n] coefficients *)

Definition poly_fn (n : nat) (f : F -> F) : Prop :=
  exists cs, length cs = n /\ forall x, f x = peval cs x.

Lemma poly_fn_le n m f : (n <= m)%nat -> poly_fn n f -> poly_fn m f.
Proof.
  intros Hle (cs & Hl & E). exists (cs ++ replicate (m - n) 0). split.
  - rewrite length_app, length_replicate. lia.
  - intros x. rewrite E, peval_app, peval_zeros. ring.
Qed.

Lemma poly_fn_add n f g : poly_fn n f -> poly_fn n g -> poly_fn n (fun x => f x + g x).
Proof.
  intros (cs & Hc & Ec) (ds & Hd & Ed). exists (padd cs ds). split.
  - rewrite padd_length. lia.
  - intros x. by rewrite peval_padd, Ec, Ed.
Qed.

Lemma poly_fn_scale n a f : poly_fn n f -> poly_fn n (fun x => a * f x).
Proof.
  intros (cs & Hc & Ec). exists (fmul a <$> cs). split; [by rewrite length_fmap|].
  intros x. by rewrite peval_scale, Ec.
Qed.

Lemma poly_fn_root n a f : poly_fn n f -> poly_fn (S n) (fun x => (x - a) * f x).
Proof.
  intros (cs & Hc & Ec). exists (padd (0 :: cs) (fmul (- a) <$> cs)). split.
  - rewrite padd_length, length_fmap. cbn. lia.
  - intros x. rewrite peval_padd, peval_scale, Ec. cbn. fold (peval cs x). ring.
Qed.

Lemma poly_fn_roots l : poly_fn (S (length l)) (fun x => fprod ((fun y => x - y) <$> l)).
Proof.
  induction l as [|a l IH]; csimpl.
  - exists [1]. split; [done|]. intros x. cbn. ring.
  - apply (poly_fn_root _ a). exact IH.
Qed.

Lemma poly_fn_sum {A} n (g : A -> F -> F) l :
  (forall a, a ∈ l -> poly_fn n (g a)) -> poly_fn n (fun x => fsum ((fun a => g a x) <$> l)).
Proof.
  induction l as [|a l IH]; intros H; csimpl.
  - exists (replicate n 0). split; [apply length_replicate|]. intros x. by rewrite peval_zeros.
  - apply poly_fn_add; [apply H; left|]. apply IH. intros b Hb. apply H. by right.
Qed.

(** Division by [X - a]. *)
Lemma synthetic_division cs a :
  exists qs, length qs = pred (length cs) /\
    forall x, peval cs x = peval cs a + (x - a) * peval qs x.
Proof.
  induction cs as [|c [|c' cs] IH].
  - exists []. split; [done|]. intros x; csimpl. ring.
  - exists []. split; [done|]. intros x; csimpl. ring.
  - destruct IH as (qs & Hl & E). exists (peval (c' :: cs) a :: qs).
    split; [csimpl in *; lia|]. intros x. 
    change (peval (c :: c' :: cs) ?y) with (c + y * peval (c' :: cs) y).
    change (peval (?q :: qs) ?y) with (q + y * peval qs y). rewrite (E x). ring.
Qed.

(** A polynomial with no more coefficients than it has distinct roots is zero. *)
Lemma roots_zero xs cs :
  NoDup xs -> (length cs <= length xs)%nat -> (forall x, x ∈ xs -> peval cs x = 0) ->
  forall x, peval cs x = 0.
Proof.
  intros Hnd. revert cs. induction Hnd as [|a xs Ha Hnd IH]; intros cs Hl H x.
  - destruct cs; [done|cbn in Hl; lia].
  - destruct (synthetic_division cs a) as (qs & Hq & E).
    rewrite E, (H a) by left. rewrite (IH qs); [ring| csimpl in *; lia|].
    intros y Hy. assert (y - a <> 0) as Hya by (apply f_sub_nonzero; by intros ->).
    assert (peval cs y = 0) as Hcy by (apply H; by right).
    rewrite E, (H a) in Hcy by left.
    destruct (f_mul_zero (y - a) (peval qs y)); [|done|done].
    rewrite <- Hcy. ring.
Qed.

(** ** Interpolation *)

Lemma length_others x xs : NoDup xs -> x ∈ xs -> S (length (others x xs)) = length xs.
Proof.
  intros Hnd Hin. apply list_elem_of_split in Hin as (l1 & l2 & ->).
  apply NoDup_app in Hnd as (_ & Hx & [Hx2 _]%NoDup_cons).
  unfold others. rewrite filter_app, filter_cons_False by (intros E; by apply E).
  rewrite !filter_neq_notin; [rewrite !length_app; csimpl; lia|done|].
  intros Hx1. apply (Hx x Hx1). left.
Qed.

Lemma basis_same xs x : basis xs x x = 1.
Proof.
  unfold basis. field. apply fprod_nonzero, others_nonzero.
Qed.

Lemma basis_other xs x y : y ∈ xs -> y <> x -> basis xs x y = 0.
Proof.
  intros Hy Hne. unfold basis.
  rewrite fprod_zero.
  - field. apply fprod_nonzero, others_nonzero.
  - apply list_elem_of_fmap. exists y. split; [ring|]. by apply elem_of_others.
Qed.

Lemma basis_poly xs x : NoDup xs -> x ∈ xs -> poly_fn (length xs) (basis xs x).
Proof.
  intros Hnd Hin. rewrite <- (length_others x xs Hnd Hin).
  destruct (poly_fn_scale _ (finv (fprod ((fun y => x - y) <$> others x xs))) _
    (poly_fn_roots (others x xs))) as (cs & Hl & E).
  exists cs. split; [done|]. intros X. rewrite <- E. unfold basis. field.
  apply fprod_nonzero, others_nonzero.
Qed.

(** The Lagrange form of the interpolant of [f] at [xs]. *)
Definition interpolate (f : F -> F) (xs : list F) (X : F) : F :=
  fsum ((fun x => f x * basis xs x X) <$> xs).

Lemma interpolate_at f xs x : NoDup xs -> x ∈ xs -> interpolate f xs x = f x.
Proof.
  intros Hnd Hin. unfold interpolate.
  rewrite (fsum_single (fun y => f y * basis xs y x) x xs Hnd Hin).
  - rewrite basis_same. ring.
  - intros y Hy Hne. rewrite basis_other; [ring|done|done].
Qed.

Lemma interpolate_poly f xs : NoDup xs -> poly_fn (length xs) (interpolate f xs).
Proof.
  intros Hnd. apply (poly_fn_sum (length xs) (fun x X => f x * basis xs x X)).
  intros x Hx. apply poly_fn_scale. by apply basis_poly.
Qed.

Lemma interpolation cs xs X :
  NoDup xs -> (length cs <= length xs)%nat -> interpolate (peval cs) xs X = peval cs X.
Proof.
  intros Hnd Hl. destruct (interpolate_poly (peval cs) xs Hnd) as (ds & Hd & E).
  apply f_sub_zero. transitivity (peval (padd ds (fmul (- (1)) <$> cs)) X).
  { rewrite peval_padd, peval_scale, E. ring. }
  apply (roots_zero xs); [done| rewrite padd_length, length_fmap; lia|].
  intros x Hx. rewrite peval_padd, peval_scale, <- E, interpolate_at by done. ring.
Qed.

(** The weights the code computes are the basis polynomials at zero. *)
Lemma fprod_signs (f g : F -> F) l :
  (forall y, y ∈ l -> f y = - g y) ->
  exists s, (s * s = 1) /\ fprod (f <$> l) = s * fprod (g <$> l) /\
    forall f' g' : F -> F, (forall y, y ∈ l -> f' y = - g' y) -> fprod (f' <$> l) = s * fprod (g' <$> l).
Proof.
  induction l as [|y l IH]; intros H; csimpl.
  - exists 1. split; [ring|]. split; [ring|]. intros. ring.
  - destruct IH as (s & Hs & E & E'); [by intros; apply H; right|].
    exists (- s). split; [rewrite <- Hs; ring|]. split.
    + rewrite E, (H y) by left. ring.
    + intros f' g' H'. rewrite (E' f' g') by (intros; apply H'; by right).
      rewrite (H' y) by left. ring.
Qed.

Lemma weight_basis xs x : weight xs x = basis xs x 0.
Proof.
  unfold weight, basis.
  destruct (fprod_signs (fun y => 0 - y) (fun y => y) (others x xs)) as (s & Hs & E & E').
  { intros y _. ring. }
  rewrite E, (E' (fun y => x - y) (fun y => y - x)) by (intros; ring).
  rewrite list_fmap_id.
  assert (s <> 0) as Hs0.
  { intros ->. apply f_one_neq_zero. rewrite <- Hs. ring. }
  field. split; [|done]. apply fprod_nonzero.
  intros d (y & -> & [Hy _]%elem_of_others)%list_elem_of_fmap. by apply f_sub_nonzero.
Qed.

(** Interpolation at zero recovers the constant term. *)
Lemma lagrange_zero cs xs :
  NoDup xs -> (length cs <= length xs)%nat ->
  fsum ((fun x => weight xs x * peval cs x) <$> xs) = peval cs 0.
Proof.
  intros Hnd Hl. rewrite <- (interpolation cs xs 0 Hnd Hl). unfold interpolate.
  apply fsum_ext. intros x _. rewrite weight_basis. ring.
Qed.

(** Values at distinct points are always those of some polynomial. *)
Lemma interpolant_exists (f : F -> F) xs :
  NoDup xs -> exists cs, length cs = length xs /\ forall x, x ∈ xs -> peval cs x = f x.
Proof.
  intros Hnd. destruct (interpolate_poly f xs Hnd) as (cs & Hl & E).
  exists cs. split; [done|]. intros x Hx. rewrite <- E. by apply interpolate_at.
Qed.

(** The points of a list of node ids. *)
Lemma ids_NoDup (ids : list Z) :
  Forall is_u32 ids -> NoDup ids -> NoDup (from_u64 (F:=F) <$> ids).
Proof.
  intros Hu Hnd. induction Hnd as [|i ids Hi Hnd IH]; csimpl; [constructor|].
  apply Forall_cons in Hu as [Hui Hu]. constructor; [|by apply IH].
  intros (j & E & Hj)%list_elem_of_fmap. apply Hi.
  rewrite Forall_forall in Hu. apply (from_u64_inj (F:=F)) in E; [by subst|done|by apply Hu].
Qed.

Lemma others_ids (ids : list Z) i :
  Forall is_u32 ids -> is_u32 i ->
  others (from_u64 (F:=F) i) (from_u64 <$> ids) = from_u64 <$> filter (fun j => j <> i) ids.
Proof.
  intros Hu Hi. unfold others. induction ids as [|j ids IH]; [done|].
  apply Forall_cons in Hu as [Hj Hu]. rewrite fmap_cons.
  destruct (decide (j = i)) as [->|Hne].
  - rewrite !filter_cons_False by auto. by apply IH.
  - rewrite filter_cons_True, filter_cons_True; [|done|].
    + rewrite fmap_cons. f_equal. by apply IH.
    + intros E. apply Hne. by apply (from_u64_inj (F:=F)).
Qed.

End Poly.
