(* ===== verification/Primitives.v ===== *)
(** * External primitives and the crypto error type

    What [crates/crypto] takes from other packages: the SHA-2 hashes, the
    AES-256-GCM cipher, HKDF, the [blst] backend used for constant-time
    arithmetic, and the operating system's random generator.  Each is an
    interface whose laws state the documented behaviour the code relies on. *)
From S2P Require Import Prelude Algebra.

(** [crates/crypto/src/error.rs].  Diagnostic texts are kept as the literal
    format strings of the source; interpolated values are dropped. *)
Inductive CryptoError : Type :=
  | DKGError (msg : string)
  | ElGamalError (msg : string)
  | SerializationError
  | InvalidSignatureShare
  | InvalidSignature
  | SigningError (msg : string)
  | ParseError (msg : string)
  | CommitmentMissing (id : Z).

#[global] Instance CryptoError_eq_dec : EqDecision CryptoError.
Proof. solve_decision. Defined.

Abbreviation result := (res CryptoError).

(** ** Hashes *)

Class Sha2 := {
  sha256 : bytes -> bytes;
  sha512 : bytes -> bytes;
  sha256_length m : length (sha256 m) = 32%nat;
  sha512_length m : length (sha512 m) = 64%nat;
}.

(** [Fr::from_le_bytes_mod_order(&hasher.finalize())] over SHA-512. *)
Definition hash_to_scalar `{Sha2} `{ScalarField F} (transcript : bytes) : F :=
  from_le_bytes_mod_order (sha512 transcript).

(** ** Authenticated encryption and key derivation *)

Class Aead := {
  aes_encrypt : forall (key nonce aad msg : bytes), option bytes;
  aes_decrypt : forall (key nonce aad ct : bytes), option bytes;
  (* the limit of a GCM message, 2^36 - 32 bytes *)
  aes_encrypt_total key nonce aad msg :
    Z.of_nat (length msg) <= 2 ^ 36 - 32 -> exists ct, aes_encrypt key nonce aad msg = Some ct;
  aes_decrypt_encrypt key nonce aad msg ct :
    aes_encrypt key nonce aad msg = Some ct -> aes_decrypt key nonce aad ct = Some msg;
  (* the output ends with a 16-byte tag *)
  aes_encrypt_length key nonce aad msg ct :
    aes_encrypt key nonce aad msg = Some ct -> length ct = (length msg + 16)%nat;
}.

Class Kdf := {
  (* [Hkdf::<Sha256>::new(None, ikm).expand(info, &mut [0; len])] *)
  hkdf_expand : forall (ikm info : bytes) (len : nat), option bytes;
  hkdf_expand_total ikm info len :
    (len <= 255 * 32)%nat -> exists k, hkdf_expand ikm info len = Some k;
}.

(** ** The [blst] backend

    [blst_scalar_of] and [blst_point_of] name the value a [blst] object
    represents; they are used by the laws only. *)

Class Blst (F G S P : Type) `{CurveGroup F G} := {
  blst_scalar_of : F -> S;
  blst_point_of : G -> P;
  blst_scalar_from_bytes_le : bytes -> option S;
  blst_scalar_to_bytes_le : S -> bytes;
  blst_scalar_add : S -> S -> S;
  blst_scalar_mul : S -> S -> S;
  blst_from_compressed : bytes -> option P;
  blst_to_compressed : P -> bytes;
  blst_point_mul : P -> S -> P;
  blst_scalar_from_ok x : blst_scalar_from_bytes_le (fr_serialize x) = Some (blst_scalar_of x);
  blst_scalar_to_ok x : blst_scalar_to_bytes_le (blst_scalar_of x) = fr_serialize x;
  blst_scalar_add_ok x y :
    blst_scalar_add (blst_scalar_of x) (blst_scalar_of y) = blst_scalar_of (fadd x y);
  blst_scalar_mul_ok x y :
    blst_scalar_mul (blst_scalar_of x) (blst_scalar_of y) = blst_scalar_of (fmul x y);
  (* decompression checks that the point lies in the prime-order subgroup *)
  blst_from_compressed_ok Q :
    blst_from_compressed (g_serialize Q) = if in_subgroup Q then Some (blst_point_of Q) else None;
  blst_to_compressed_ok Q : blst_to_compressed (blst_point_of Q) = g_serialize Q;
  blst_point_mul_ok Q x : blst_point_mul (blst_point_of Q) (blst_scalar_of x) = blst_point_of (Q ⊙ x);
}.

(** ** Randomness

    [OsRng] as the stream of the scalars and of the bytes still to be drawn. *)

Record Rng (F : Type) := MkRng {
  rng_scalars : nat -> F;
  rng_bytes : nat -> Byte.byte;
}.
Arguments MkRng {F} _ _.
Arguments rng_scalars {F} _ _.
Arguments rng_bytes {F} _ _.

(** [Fr::rand(&mut rng)]. *)
Definition rand_scalar {F} (r : Rng F) : F * Rng F :=
  (rng_scalars r 0, MkRng (fun n => rng_scalars r (S n)) (rng_bytes r)).

(** [rng.fill_bytes(&mut [0; n])]. *)
Definition fill_bytes {F} (n : nat) (r : Rng F) : bytes * Rng F :=
  (rng_bytes r <$> seq 0 n, MkRng (rng_scalars r) (fun k => rng_bytes r (n + k))).

(** [helpers.rs: sample_nonzero]: draw until the scalar is not zero. *)
Fixpoint sample_nonzero `{ScalarField F} {E} (fuel : nat) (r : Rng F) : res E (F * Rng F) :=
  match fuel with
  | O => OutOfFuel
  | S fuel' =>
      let '(candidate, r') := rand_scalar r in
      if negb (f_is_zero candidate) then Ok (candidate, r') else sample_nonzero fuel' r'
  end.

(** Among any [fuel] consecutive scalars one is not zero. *)
Definition healthy `{ScalarField F} (fuel : nat) (r : Rng F) : Prop :=
  forall n, exists k, (k < fuel)%nat /\ rng_scalars r (n + k) <> fzero.

Section Rng.
Context {F : Type} {SF : ScalarField F}.

Lemma healthy_rand fuel (r : Rng F) : healthy fuel r -> healthy fuel (rand_scalar r).2.
Proof. intros H n. destruct (H (S n)) as (k & Hk & E). by exists k. Qed.

Lemma healthy_fill fuel n (r : Rng F) : healthy fuel r -> healthy fuel (fill_bytes n r).2.
Proof. intros H k. apply (H k). Qed.

Lemma length_fill_bytes n (r : Rng F) : length (fill_bytes n r).1 = n.
Proof. cbn. by rewrite length_fmap, length_seq. Qed.

(** The loop returns the first non-zero draw when there is one. *)
Lemma sample_nonzero_first {E} k fuel (r : Rng F) :
  (k < fuel)%nat -> rng_scalars r k <> fzero ->
  exists x r', sample_nonzero (E:=E) fuel r = Ok (x, r') /\ x <> fzero.
Proof.
  revert k r; induction fuel as [|fuel IH]; intros k r Hk E0; [lia|]. cbn [sample_nonzero].
  cbn. destruct (f_is_zero (rng_scalars r 0)) eqn:Hz; cbn.
  - apply f_is_zero_true in Hz. destruct k as [|k]; [done|].
    apply (IH k); [lia|done].
  - apply f_is_zero_false in Hz. eauto.
Qed.

Lemma sample_nonzero_healthy {E} fuel (r : Rng F) :
  healthy fuel r ->
  exists x r', sample_nonzero (E:=E) fuel r = Ok (x, r') /\ x <> fzero /\ healthy fuel r'.
Proof.
  intros H. destruct (H 0%nat) as (k & Hk & E0).
  destruct (sample_nonzero_first (E:=E) k fuel r Hk E0) as (x & r' & Hs & Hx).
  exists x, r'. split; [done|split; [done|]]. clear k Hk E0 Hx.
  assert (forall fuel0 (r0 : Rng F), healthy fuel r0 -> 
    sample_nonzero (E:=E) fuel0 r0 = Ok (x, r') -> healthy fuel r') as HH; [|by eapply HH].
  induction fuel0 as [|fuel0 IH]; intros r0 H0; cbn; [done|].
  case_match; cbn; [intros [= _ <-]; by apply healthy_rand|].
  intros. eapply IH; [|done]. by apply healthy_rand.
Qed.

Lemma sample_nonzero_Ok {E} fuel (r : Rng F) x r' :
  sample_nonzero (E:=E) fuel r = Ok (x, r') -> x <> fzero.
Proof.
  revert r; induction fuel as [|fuel IH]; intros r; cbn; [done|].
  case_match eqn:Hz; [|apply IH]. intros [= <- _].
  by apply negb_true_iff, f_is_zero_false in Hz.
Qed.

Lemma no_panic_sample {E} fuel (r : Rng F) : no_panic (sample_nonzero (E:=E) fuel r).
Proof. revert r; induction fuel; intros r; cbn; [done|]. by case_match. Qed.

End Rng.

#[export] Hint Resolve no_panic_sample : orbis.
