(* ===== verification/Toy.v ===== *)
(** * Concrete instances of the interfaces

    A small world in which every hypothesis about external code holds and the
    model runs: scalars are the integers modulo the prime [2^32 + 15] (the
    first above the range of the node ids), a curve point is a scalar together
    with a bit that plays the part of the cofactor (the subgroup is where the
    bit is clear), and the hashes and the cipher are simple functions with the
    required lengths.  The witnesses of the theorems are evaluated here. *)
From S2P Require Import Prelude Algebra Primitives.
From Stdlib Require Import Znumtheory Zmod.

(** ** The prime *)

Definition toy_p : Z := 4294967311.

(** no [6k-1], [6k+1] with [k] from the counter divides [n] *)
Fixpoint no_div (n : Z) (d : Z) (fuel : nat) : bool :=
  match fuel with
  | O => true
  | S f => if (n mod d =? 0) then false else
           if (n mod (d + 2) =? 0) then false else no_div n (d + 6) f
  end.

Lemma no_div_spec n fuel d k :
  no_div n d fuel = true -> 0 <= k < Z.of_nat fuel ->
  n mod (d + 6 * k) <> 0 /\ n mod (d + 6 * k + 2) <> 0.
Proof.
  revert d k; induction fuel as [|f IH]; intros d k H Hk; [lia|].
  cbn [no_div] in H.
  destruct (Z.eqb_spec (n mod d) 0); [discriminate|].
  destruct (Z.eqb_spec (n mod (d + 2)) 0); [discriminate|].
  destruct (Z.eq_dec k 0) as [->|Hk0].
  { rewrite Z.mul_0_r, Z.add_0_r; auto. }
  specialize (IH (d + 6) (k - 1) H ltac:(lia)).
  replace (d + 6 * k) with (d + 6 + 6 * (k - 1)) by lia. exact IH.
Qed.

Lemma toy_no_div : no_div toy_p 5 (Z.to_nat 10923) = true.
Proof. vm_compute. reflexivity. Qed.

Lemma toy_small d : 2 <= d <= 65536 -> toy_p mod d <> 0.
Proof.
  intros Hd Hm.
  assert (Hdv : (d | toy_p)) by (apply Z.mod_divide; lia).
  assert (H2 : ~ (2 | d)).
  { intros H. assert (H2 : (2 | toy_p)) by (eapply Z.divide_trans; eauto).
    apply Z.mod_divide in H2; [|lia]. vm_compute in H2. discriminate. }
  assert (H3 : ~ (3 | d)).
  { intros H. assert (H3 : (3 | toy_p)) by (eapply Z.divide_trans; eauto).
    apply Z.mod_divide in H3; [|lia]. vm_compute in H3. discriminate. }
  rewrite <- Z.mod_divide in H2, H3 by lia.
  assert (H5 : 5 <= d) by (destruct (Z.eq_dec d 2), (Z.eq_dec d 3), (Z.eq_dec d 4); subst; try lia; exfalso; vm_compute in H2, H3; congruence).
  assert (Hc : d mod 6 = 1 \/ d mod 6 = 5).
  { assert (d mod 2 = (d mod 6) mod 2) by (rewrite Z.mod_mod_divide; [reflexivity|exists 3; lia]).
    assert (d mod 3 = (d mod 6) mod 3) by (rewrite Z.mod_mod_divide; [reflexivity|exists 2; lia]).
    pose proof (Z.mod_pos_bound d 6 ltac:(lia)).
    assert (d mod 6 = 0 \/ d mod 6 = 1 \/ d mod 6 = 2 \/ d mod 6 = 3 \/ d mod 6 = 4 \/ d mod 6 = 5) as C by lia.
    destruct C as [C|[C|[C|[C|[C|C]]]]]; rewrite C in *; auto; exfalso;
      first [apply H2; assumption | apply H3; assumption]. }
  pose proof (Z.div_mod d 6 ltac:(lia)).
  assert (F : Z.of_nat (Z.to_nat 10923) = 10923) by (apply Z2Nat.id; lia).
  destruct Hc as [Hc|Hc].
  - destruct (no_div_spec toy_p (Z.to_nat 10923) 5 (d / 6 - 1) toy_no_div) as [_ N]; [lia|].
    apply N. replace (5 + 6 * (d / 6 - 1) + 2) with d by lia. exact Hm.
  - destruct (no_div_spec toy_p (Z.to_nat 10923) 5 (d / 6) toy_no_div) as [N _]; [lia|].
    apply N. replace (5 + 6 * (d / 6)) with d by lia. exact Hm.
Qed.

Lemma toy_prime : Z.prime toy_p.
Proof.
  split; [unfold toy_p; lia|]. intros n Hn Hd.
  destruct (Z.le_gt_cases n 65536) as [Hle|Hgt].
  - apply (toy_small n); [lia|]. apply Z.mod_divide; [lia|assumption].
  - destruct Hd as [q Hq].
    apply (toy_small q); [unfold toy_p in *; nia|].
    apply Z.mod_divide; [unfold toy_p in *; nia|]. exists n. lia.
Qed.

(** ** Scalars *)

Definition ToyF : Type := Zmod toy_p.

#[global] Instance ToyF_eq_dec : EqDecision ToyF.
Proof.
  intros x y. destruct (decide (Zmod.to_Z x = Zmod.to_Z y)) as [E|E].
  - left. by apply Zmod.to_Z_inj.
  - right. by intros ->.
Defined.

Definition toy_fr_serialize (x : ToyF) : bytes := to_le_bytes 32 (Zmod.to_Z x).
Definition toy_fr_deserialize (b : bytes) : option ToyF :=
  if (length b =? 32)%nat && (from_le_bytes b <? toy_p)
  then Some (Zmod.of_Z toy_p (from_le_bytes b)) else None.

Lemma toy_to_Z_range (x : ToyF) : 0 <= Zmod.to_Z x < toy_p.
Proof. pose proof (Zmod.to_Z_range x). unfold toy_p in *. lia. Qed.

Lemma toy_fr_deserialize_serialize x : toy_fr_deserialize (toy_fr_serialize x) = Some x.
Proof.
  unfold toy_fr_deserialize, toy_fr_serialize. pose proof (toy_to_Z_range x) as H.
  rewrite length_to_le_bytes, from_to_le_bytes by (split; [lia|]; eapply Z.lt_trans; [apply H|reflexivity]).
  replace (Zmod.to_Z x <? toy_p) with true by (symmetry; apply Z.ltb_lt; lia).
  cbn. f_equal. apply Zmod.of_Z_to_Z.
Qed.

Lemma toy_from_u64_inj a b :
  is_u32 a -> is_u32 b -> Zmod.of_Z toy_p a = Zmod.of_Z toy_p b -> a = b.
Proof.
  unfold is_u32. intros Ha Hb E%Zmod.of_Z_inj.
  rewrite !Z.mod_small in E by (unfold toy_p; lia). done.
Qed.

#[global] Instance toy_field : ScalarField ToyF := {|
  fzero := Zmod.zero; fone := Zmod.one;
  fadd := Zmod.add; fmul := Zmod.mul; fsub := Zmod.sub; fopp := Zmod.opp;
  fdiv := Zmod.mdiv; finv := Zmod.inv;
  f_theory := Zmod.field_theory toy_p toy_prime;
  from_u64 := Zmod.of_Z toy_p;
  from_u64_zero := eq_refl;
  from_u64_inj := toy_from_u64_inj;
  fr_size := 32;
  fr_serialize := toy_fr_serialize;
  fr_deserialize := toy_fr_deserialize;
  fr_serialize_length := fun x => length_to_le_bytes 32 (Zmod.to_Z x);
  fr_deserialize_serialize := toy_fr_deserialize_serialize;
  from_le_bytes_mod_order := fun b => Zmod.of_Z toy_p (from_le_bytes b);
|}.

Definition toy_F (z : Z) : ToyF := Zmod.of_Z toy_p z.

(** ** Points, [9 + k] bytes each *)

Record ToyPt (k : nat) := MkPt { pt_x : ToyF; pt_cofactor : bool }.
Arguments MkPt {k} _ _.
Arguments pt_x {k} _.
Arguments pt_cofactor {k} _.

#[global] Instance ToyPt_eq_dec k : EqDecision (ToyPt k).
Proof. solve_decision. Defined.

Section Points.
Context {k : nat}.

Definition toy_add (P Q : ToyPt k) : ToyPt k :=
  MkPt (Zmod.add (pt_x P) (pt_x Q)) (xorb (pt_cofactor P) (pt_cofactor Q)).
Definition toy_sub (P Q : ToyPt k) : ToyPt k :=
  MkPt (Zmod.sub (pt_x P) (pt_x Q)) (xorb (pt_cofactor P) (pt_cofactor Q)).
Definition toy_mul (P : ToyPt k) (x : ToyF) : ToyPt k :=
  MkPt (Zmod.mul (pt_x P) x) (pt_cofactor P && Z.odd (Zmod.to_Z x)).
Definition toy_gen : ToyPt k := MkPt Zmod.one false.
Definition toy_in_subgroup (P : ToyPt k) : bool := negb (pt_cofactor P).

Definition toy_g_serialize (P : ToyPt k) : bytes :=
  to_le_bytes 8 (Zmod.to_Z (pt_x P)) ++ [if pt_cofactor P then Byte.x01 else Byte.x00]
    ++ replicate k Byte.x00.
(* trailing bytes are not looked at, as in the lenient decoders of the wild *)
Definition toy_g_deserialize (b : bytes) : option (ToyPt k) :=
  if (length b =? 9 + k)%nat && (from_le_bytes (take 8 b) <? toy_p)
     && bool_decide (b !! 8%nat = Some Byte.x00)
  then Some (MkPt (Zmod.of_Z toy_p (from_le_bytes (take 8 b))) false) else None.

Lemma toy_one_mul (x : ToyF) : Zmod.mul Zmod.one x = x.
Proof. apply Zmod.mul_1_l. Qed.

Lemma toy_gen_mul x : toy_mul toy_gen x = MkPt x false.
Proof. unfold toy_mul, toy_gen. cbn [pt_x pt_cofactor andb]. by rewrite toy_one_mul. Qed.

Lemma toy_in_subgroup_spec P : toy_in_subgroup P = true <-> exists x, P = toy_mul toy_gen x.
Proof.
  split.
  - destruct P as [x []]; cbn; [done|]. intros _. exists x. by rewrite toy_gen_mul.
  - intros [x ->]. by rewrite toy_gen_mul.
Qed.

Lemma toy_g_serialize_length P : length (toy_g_serialize P) = (9 + k)%nat.
Proof.
  unfold toy_g_serialize. rewrite !length_app, length_to_le_bytes, length_replicate. cbn. lia.
Qed.

Lemma toy_g_deserialize_serialize P :
  toy_in_subgroup P = true -> toy_g_deserialize (toy_g_serialize P) = Some P.
Proof.
  destruct P as [x []]; cbn; [done|]. intros _.
  unfold toy_g_deserialize. rewrite toy_g_serialize_length, Nat.eqb_refl.
  unfold toy_g_serialize. cbn [pt_x pt_cofactor].
  rewrite take_app_length' by (by rewrite length_to_le_bytes).
  pose proof (toy_to_Z_range x) as H.
  rewrite from_to_le_bytes by (split; [lia|]; eapply Z.lt_trans; [apply H|reflexivity]).
  replace (Zmod.to_Z x <? toy_p) with true by (symmetry; apply Z.ltb_lt; lia).
  rewrite lookup_app_r by (rewrite length_to_le_bytes; lia).
  rewrite length_to_le_bytes. cbn. by rewrite Zmod.of_Z_to_Z.
Qed.

Lemma toy_g_deserialize_subgroup b P :
  toy_g_deserialize b = Some P -> toy_in_subgroup P = true.
Proof. unfold toy_g_deserialize. case_match; [|done]. by intros [= <-]. Qed.

#[global] Instance toy_group : CurveGroup ToyF (ToyPt k).
Proof.
  refine {|
    g_zero := MkPt Zmod.zero false;
    g_add := toy_add; g_sub := toy_sub; g_mul := toy_mul; generator := toy_gen;
    in_subgroup := toy_in_subgroup;
    in_subgroup_spec := toy_in_subgroup_spec;
    g_size := 9 + k;
    g_serialize := toy_g_serialize; g_deserialize := toy_g_deserialize;
    g_serialize_length := toy_g_serialize_length;
    g_deserialize_serialize := toy_g_deserialize_serialize;
    g_deserialize_subgroup := toy_g_deserialize_subgroup |}.
  - intros x y. rewrite !toy_gen_mul. by intros [= ->].
  - by rewrite toy_gen_mul.
  - by rewrite toy_gen_mul.
  - intros x y. by rewrite !toy_gen_mul.
  - intros x y. by rewrite !toy_gen_mul.
  - intros x y. by rewrite !toy_gen_mul.
Defined.

#[global] Instance toy_blst : Blst ToyF (ToyPt k) ToyF (ToyPt k).
Proof.
  refine {|
    blst_scalar_of := id; blst_point_of := id;
    blst_scalar_from_bytes_le := toy_fr_deserialize;
    blst_scalar_to_bytes_le := toy_fr_serialize;
    blst_scalar_add := Zmod.add; blst_scalar_mul := Zmod.mul;
    blst_from_compressed := toy_g_deserialize;
    blst_to_compressed := toy_g_serialize;
    blst_point_mul := toy_mul;
    blst_scalar_from_ok := toy_fr_deserialize_serialize |}; try done.
  intros Q. cbn. destruct (toy_in_subgroup Q) eqn:E; [by apply toy_g_deserialize_serialize|].
  destruct Q as [x []]; [|done]. unfold toy_g_deserialize, toy_g_serialize. cbn [pt_x pt_cofactor].
  rewrite lookup_app_r by (rewrite length_to_le_bytes; lia).
  rewrite length_to_le_bytes. cbn. by rewrite andb_false_r.
Defined.

End Points.

Abbreviation ToyG1 := (ToyPt 39).
Abbreviation ToyG2 := (ToyPt 87).

(** ** Hashes, cipher, key derivation *)

Definition toy_hash (n : nat) (m : bytes) : bytes :=
  to_le_bytes n (fold_left (fun acc b => (acc * 257 + 1 + byte.unsigned b) mod 2 ^ 61) m 7).

#[global] Instance toy_sha2 : Sha2 := {|
  sha256 := toy_hash 32; sha512 := toy_hash 64;
  sha256_length := fun m => length_to_le_bytes 32 _;
  sha512_length := fun m => length_to_le_bytes 64 _;
|}.

Definition toy_tag (key nonce aad : bytes) : bytes := toy_hash 16 (key ++ nonce ++ aad).

Lemma toy_tag_length key nonce aad : length (toy_tag key nonce aad) = 16%nat.
Proof. apply length_to_le_bytes. Qed.

Definition toy_decrypt (key nonce aad ct : bytes) : option bytes :=
  if decide (drop (length ct - 16) ct = toy_tag key nonce aad)
  then Some (take (length ct - 16) ct) else None.

#[global] Instance toy_aead : Aead.
Proof.
  refine {| aes_encrypt := fun key nonce aad msg => Some (msg ++ toy_tag key nonce aad);
            aes_decrypt := toy_decrypt |}.
  - eauto.
  - intros key nonce aad msg ct [= <-]. unfold toy_decrypt.
    rewrite length_app, toy_tag_length.
    replace (length msg + 16 - 16)%nat with (length msg) by lia.
    rewrite drop_app_length, take_app_length. by rewrite decide_True.
  - intros key nonce aad msg ct [= <-].
    by rewrite length_app, toy_tag_length.
Defined.

#[global] Instance toy_kdf : Kdf := {|
  hkdf_expand := fun ikm info len => Some (toy_hash len (ikm ++ info));
  hkdf_expand_total := fun ikm info len _ => ex_intro _ _ eq_refl;
|}.

(** A generator that always draws the same values. *)
Definition toy_rng : Rng ToyF := MkRng (fun _ => toy_F 3) (fun _ => Byte.x07).

Lemma toy_rng_healthy : healthy 1 toy_rng.
Proof. intros n. exists 0%nat. split; [lia|]. vm_compute. discriminate. Qed.

(** A hash that always answers zero, for the theorems that speak of what an
    attacker can do when the hash is favourable. *)
Definition zero_sha2 : Sha2 := {|
  sha256 := fun _ => replicate 32 Byte.x00; sha512 := fun _ => replicate 64 Byte.x00;
  sha256_length := fun m => eq_refl; sha512_length := fun m => eq_refl;
|}.
