(* ===== verification/Codec.v ===== *)
(** * Byte encodings of the crypto types

    [crates/crypto/src/trait/codec.rs] and [trait/serialize.rs], with the
    encodings of scalars and points of [bls12_381/common.rs].  The two Rust
    traits are the operational classes [CryptoSerialize] and
    [CryptoDeserialize]; [CodecLaws] is the contract every implementation is
    shown to meet: encoding then decoding gives the value back, only the
    canonical encoding of a well-formed value is accepted, and no input makes
    the decoder panic. *)
From S2P Require Import Prelude Algebra Primitives.

(** ** [trait/codec.rs] *)

Class CryptoSerialize (T : Type) := {
  to_bytes : T -> result bytes;
  min_serialized_size : nat;
}.
Arguments min_serialized_size T {_}.

Class CryptoDeserialize (T : Type) := {
  from_bytes : bytes -> result T;
}.

Class CodecLaws (T : Type) `{!CryptoSerialize T} `{!CryptoDeserialize T} := {
  codec_wf : T -> Prop;
  codec_roundtrip x : codec_wf x ->
    exists b, to_bytes x = Ok b /\ from_bytes b = Ok x /\ (min_serialized_size T <= length b)%nat;
  codec_canonical b x : from_bytes b = Ok x -> codec_wf x /\ to_bytes x = Ok b;
  codec_no_panic b : no_panic (from_bytes (T:=T) b);
}.

(** ** [helpers.rs: reject_non_canonical] *)

Definition reject_non_canonical {T} (serialize : T -> bytes) (value : T) (b : bytes) : result unit :=
  if decide (serialize value = b) then Ok tt else Err SerializationError.

(** ** Scalars and points ([bls12_381/common.rs]) *)

Section Base.
Context {F G : Type} {SF : ScalarField F} {CG : CurveGroup F G}.

Definition Fr_to_bytes (x : F) : result bytes := Ok (fr_serialize x).

#[global] Instance Fr_serialize : CryptoSerialize F := {|
  to_bytes := Fr_to_bytes;
  min_serialized_size := fr_size (F:=F);
|}.

Definition Fr_from_bytes (b : bytes) : result F :=
  reject (negb (length b =? fr_size (F:=F))%nat) SerializationError ;?
  let? scalar := ok_or (fr_deserialize b) SerializationError in
  reject_non_canonical fr_serialize scalar b ;?
  Ok scalar.

#[global] Instance Fr_deserialize : CryptoDeserialize F := {| from_bytes := Fr_from_bytes |}.

Definition G1Affine_to_bytes (P : G) : result bytes := Ok (g_serialize P).

#[global] Instance G1Affine_serialize : CryptoSerialize G := {|
  to_bytes := G1Affine_to_bytes;
  min_serialized_size := g_size (G:=G);
|}.

Definition G1Affine_from_bytes (b : bytes) : result G :=
  reject (negb (length b =? g_size (G:=G))%nat) SerializationError ;?
  let? point := ok_or (g_deserialize b) SerializationError in
  reject_non_canonical g_serialize point b ;?
  Ok point.

#[global] Instance G1Affine_deserialize : CryptoDeserialize G := {| from_bytes := G1Affine_from_bytes |}.

End Base.

(** ** [trait/types.rs]: the shares *)

Record DistributedShare (V : Type) := MkDistributedShare {
  from_id : Z;
  to_id : Z;
  value : V;
  nonce : bytes;
  session_id : Z;
}.
Arguments MkDistributedShare {V}.
Arguments from_id {V}. Arguments to_id {V}. Arguments value {V}.
Arguments nonce {V}. Arguments session_id {V}.

Record PriShare (V : Type) := MkPriShare { pri_i : Z; pri_v : V }.
Arguments MkPriShare {V}. Arguments pri_i {V}. Arguments pri_v {V}.

Record PubShare (P : Type) := MkPubShare { pub_i : Z; pub_v : P }.
Arguments MkPubShare {P}. Arguments pub_i {P}. Arguments pub_v {P}.

Record DistKeyShare (V : Type) := MkDistKeyShare { pri_share : PriShare V }.
Arguments MkDistKeyShare {V}. Arguments pri_share {V}.

Record ReencryptReply (V P : Type) := MkReencryptReply {
  rr_share : PubShare P;
  rr_challenge : V;
  rr_proof : V;
}.
Arguments MkReencryptReply {V P}. Arguments rr_share {V P}.
Arguments rr_challenge {V P}. Arguments rr_proof {V P}.

(** ** [trait/serialize.rs] *)

Section Shares.
Context {V P : Type}.
Context {VS : CryptoSerialize V} {VD : CryptoDeserialize V}.
Context {PS : CryptoSerialize P} {PD : CryptoDeserialize P}.

(** A little-endian [u32] read from a 4-byte slice. *)
Definition read_u32 (b : bytes) (lo : nat) : result Z :=
  let? s := slice b lo (lo + 4) in Ok (from_le_bytes s).

Definition DistributedShare_to_bytes (s : DistributedShare V) : result bytes :=
  let? value_bytes := to_bytes (value s) in
  let value_len := as_u32 (Z.of_nat (length value_bytes)) in
  Ok (to_le_bytes 4 (from_id s) ++ to_le_bytes 4 (to_id s) ++ to_le_bytes 16 (session_id s)
        ++ nonce s ++ to_le_bytes 4 value_len ++ value_bytes).

#[global] Instance DistributedShare_serialize : CryptoSerialize (DistributedShare V) := {|
  to_bytes := DistributedShare_to_bytes;
  min_serialized_size := 44 + min_serialized_size V;
|}.

Definition DistributedShare_from_bytes (b : bytes) : result (DistributedShare V) :=
  reject (length b <? 44)%nat (DKGError "DistributedShare bytes too short") ;?
  let? from := read_u32 b 0 in
  let? to := read_u32 b 4 in
  let? session_bytes := slice b 8 24 in
  let? nonce_bytes := slice b 24 40 in
  let? value_len := read_u32 b 40 in
  let expected_len := 44 + value_len in
  reject (Z.of_nat (length b) <? expected_len)
    (DKGError "DistributedShare bytes too short for value") ;?
  reject (negb (Z.of_nat (length b) =? expected_len))
    (DKGError "DistributedShare bytes length mismatch: expected {}, got {}") ;?
  let? value_bytes := slice b 44 (Z.to_nat expected_len) in
  let? v := from_bytes value_bytes in
  Ok (MkDistributedShare from to v nonce_bytes (from_le_bytes session_bytes)).

#[global] Instance DistributedShare_deserialize : CryptoDeserialize (DistributedShare V) := {| from_bytes := DistributedShare_from_bytes |}.

Definition PriShare_to_bytes (s : PriShare V) : result bytes :=
  let? value_bytes := to_bytes (pri_v s) in
  Ok (to_le_bytes 4 (pri_i s) ++ value_bytes).

#[global] Instance PriShare_serialize : CryptoSerialize (PriShare V) := {|
  to_bytes := PriShare_to_bytes;
  min_serialized_size := 4 + min_serialized_size V;
|}.

Definition PriShare_from_bytes (b : bytes) : result (PriShare V) :=
  reject (length b <? 4)%nat (DKGError "PriShare bytes too short") ;?
  let? i := read_u32 b 0 in
  let? value_bytes := slice b 4 (length b) in
  let? v := from_bytes value_bytes in
  Ok (MkPriShare i v).

#[global] Instance PriShare_deserialize : CryptoDeserialize (PriShare V) := {| from_bytes := PriShare_from_bytes |}.

Definition PubShare_to_bytes (s : PubShare P) : result bytes :=
  let? value_bytes := to_bytes (pub_v s) in
  Ok (to_le_bytes 4 (pub_i s) ++ value_bytes).

#[global] Instance PubShare_serialize : CryptoSerialize (PubShare P) := {|
  to_bytes := PubShare_to_bytes;
  min_serialized_size := 4 + min_serialized_size P;
|}.

Definition PubShare_from_bytes (b : bytes) : result (PubShare P) :=
  reject (length b <? 4)%nat (DKGError "PubShare bytes too short") ;?
  let? i := read_u32 b 0 in
  let? value_bytes := slice b 4 (length b) in
  let? v := from_bytes value_bytes in
  Ok (MkPubShare i v).

#[global] Instance PubShare_deserialize : CryptoDeserialize (PubShare P) := {| from_bytes := PubShare_from_bytes |}.

Definition DistKeyShare_to_bytes (s : DistKeyShare V) : result bytes := to_bytes (pri_share s).

#[global] Instance DistKeyShare_serialize : CryptoSerialize (DistKeyShare V) := {|
  to_bytes := DistKeyShare_to_bytes;
  min_serialized_size := min_serialized_size (PriShare V);
|}.

Definition DistKeyShare_from_bytes (b : bytes) : result (DistKeyShare V) := let? p := from_bytes b in Ok (MkDistKeyShare p).

#[global] Instance DistKeyShare_deserialize : CryptoDeserialize (DistKeyShare V) := {| from_bytes := DistKeyShare_from_bytes |}.

Definition ReencryptReply_to_bytes (r : ReencryptReply V P) : result bytes :=
  let? share_bytes := to_bytes (rr_share r) in
  let? challenge_bytes := to_bytes (rr_challenge r) in
  let? proof_bytes := to_bytes (rr_proof r) in
  Ok (to_le_bytes 4 (as_u32 (Z.of_nat (length share_bytes))) ++ share_bytes
        ++ to_le_bytes 4 (as_u32 (Z.of_nat (length challenge_bytes))) ++ challenge_bytes
        ++ to_le_bytes 4 (as_u32 (Z.of_nat (length proof_bytes))) ++ proof_bytes).

#[global] Instance ReencryptReply_serialize : CryptoSerialize (ReencryptReply V P) := {|
  to_bytes := ReencryptReply_to_bytes;
  min_serialized_size := 12 + min_serialized_size (PubShare P) + min_serialized_size V + min_serialized_size V;
|}.

Definition ReencryptReply_from_bytes (b : bytes) : result (ReencryptReply V P) :=
  reject (length b <? 12)%nat (DKGError "ReencryptReply bytes too short") ;?
  let? share_len := read_u32 b 0 in
  reject (Z.of_nat (length b) <? 4 + share_len + 8)
    (DKGError "ReencryptReply bytes too short for share") ;?
  let offset := (4 + Z.to_nat share_len)%nat in
  let? share_bytes := slice b 4 offset in
  let? share := from_bytes share_bytes in
  let? challenge_len := read_u32 b offset in
  reject (Z.of_nat (length b) <? Z.of_nat offset + 4 + challenge_len + 4)
    (DKGError "ReencryptReply bytes too short for challenge") ;?
  let offset' := (offset + 4 + Z.to_nat challenge_len)%nat in
  let? challenge_bytes := slice b (offset + 4) offset' in
  let? challenge := from_bytes challenge_bytes in
  let? proof_len := read_u32 b offset' in
  let expected_len := Z.of_nat offset' + 4 + proof_len in
  reject (Z.of_nat (length b) <? expected_len)
    (DKGError "ReencryptReply bytes too short for proof") ;?
  reject (negb (Z.of_nat (length b) =? expected_len))
    (DKGError "ReencryptReply bytes length mismatch: expected {}, got {}") ;?
  let? proof_bytes := slice b (offset' + 4) (Z.to_nat expected_len) in
  let? proof := from_bytes proof_bytes in
  Ok (MkReencryptReply share challenge proof).

#[global] Instance ReencryptReply_deserialize : CryptoDeserialize (ReencryptReply V P) := {| from_bytes := ReencryptReply_from_bytes |}.

End Shares.

Definition unit_to_bytes (u : unit) : result bytes := Ok [].

#[global] Instance unit_serialize : CryptoSerialize unit := {|
  to_bytes := unit_to_bytes;
  min_serialized_size := 0;
|}.

Definition unit_from_bytes (b : bytes) : result unit := match b with [] => Ok tt | _ => Err SerializationError end.

#[global] Instance unit_deserialize : CryptoDeserialize unit := {| from_bytes := unit_from_bytes |}.

(** ** The contract *)

Section BaseLaws.
Context {F G : Type} {SF : ScalarField F} {CG : CurveGroup F G}.

Lemma reject_non_canonical_Ok {T} (ser : T -> bytes) x b u :
  reject_non_canonical ser x b = Ok u <-> ser x = b.
Proof. unfold reject_non_canonical. destruct u. case_decide; naive_solver. Qed.

Lemma no_panic_non_canonical {T} (ser : T -> bytes) x b : no_panic (reject_non_canonical ser x b).
Proof. unfold reject_non_canonical. by case_decide. Qed.

Lemma Fr_from_to (x : F) : Fr_from_bytes (fr_serialize x) = Ok x.
Proof.
  unfold Fr_from_bytes. rewrite fr_serialize_length, Nat.eqb_refl, fr_deserialize_serialize.
  cbn. unfold reject_non_canonical. by rewrite decide_True.
Qed.

Lemma Fr_from_Ok b (x : F) : Fr_from_bytes b = Ok x -> fr_serialize x = b.
Proof.
  unfold Fr_from_bytes. intros H. inv_ok. by apply_any @reject_non_canonical_Ok.
Qed.

Lemma G1_from_to (P : G) : in_subgroup P = true -> G1Affine_from_bytes (g_serialize P) = Ok P.
Proof.
  intros H. unfold G1Affine_from_bytes.
  rewrite g_serialize_length, Nat.eqb_refl, g_deserialize_serialize by done.
  cbn. unfold reject_non_canonical. by rewrite decide_True.
Qed.

Lemma G1_from_Ok b (P : G) :
  G1Affine_from_bytes b = Ok P -> in_subgroup P = true /\ g_serialize P = b.
Proof.
  unfold G1Affine_from_bytes. intros H. inv_ok. apply_any @reject_non_canonical_Ok.
  split; [by eapply g_deserialize_subgroup|done].
Qed.

Lemma no_panic_Fr_from b : no_panic (Fr_from_bytes (F:=F) b).
Proof. unfold Fr_from_bytes. no_panic_steps. apply no_panic_non_canonical. Qed.

Lemma no_panic_G1_from b : no_panic (G1Affine_from_bytes (G:=G) b).
Proof. unfold G1Affine_from_bytes. no_panic_steps. apply no_panic_non_canonical. Qed.

#[global] Instance Fr_codec : CodecLaws F.
Proof.
  refine {| codec_wf _ := True |}.
  - intros x _. exists (fr_serialize x). split; [done|split; [apply Fr_from_to|]].
    cbn. by rewrite fr_serialize_length.
  - intros b x H%Fr_from_Ok. subst b. done.
  - apply no_panic_Fr_from.
Defined.

#[global] Instance G1Affine_codec : CodecLaws G.
Proof.
  refine {| codec_wf P := in_subgroup P = true |}.
  - intros P HP. exists (g_serialize P). split; [done|split; [by apply G1_from_to|]].
    cbn. by rewrite g_serialize_length.
  - intros b P [HP <-]%G1_from_Ok. done.
  - apply no_panic_G1_from.
Defined.

End BaseLaws.

#[export] Hint Resolve no_panic_Fr_from no_panic_G1_from : orbis.

Section ShareLaws.
Context {V P : Type}.
Context {VS : CryptoSerialize V} {VD : CryptoDeserialize V} {VL : CodecLaws V}.
Context {PS : CryptoSerialize P} {PD : CryptoDeserialize P} {PL : CodecLaws P}.

(** The encoding of a well-formed value is not longer than a [u32] can say. *)
Definition short_encoding {T} `{CryptoSerialize T} (x : T) : Prop :=
  forall b, to_bytes x = Ok b -> is_u32 (Z.of_nat (length b)).

Lemma read_u32_Ok b lo z :
  read_u32 b lo = Ok z <->
  exists s, slice (E:=CryptoError) b lo (lo + 4) = Ok s /\ z = from_le_bytes s.
Proof.
  unfold read_u32. rewrite res_bind_Ok. naive_solver.
Qed.

Lemma no_panic_read_u32 b lo : (lo + 4 <= length b)%nat -> no_panic (read_u32 b lo).
Proof.
  intros H. unfold read_u32. apply no_panic_bind; [|done]. apply no_panic_slice; lia.
Qed.

(** A [u32] read in front of the rest of the input. *)
Lemma read_u32_split b lo z :
  read_u32 b lo = Ok z ->
  (lo + 4 <= length b)%nat /\ is_u32 z /\ drop lo b = to_le_bytes 4 z ++ drop (lo + 4) b.
Proof.
  intros (s & Hs & ->)%read_u32_Ok.
  pose proof (slice_length _ _ _ _ Hs) as Hl. pose proof (slice_split _ _ _ _ Hs) as E.
  apply slice_Ok in Hs as [Hr _]. replace (lo + 4 - lo)%nat with 4%nat in Hl by lia.
  split; [lia|split; [by apply is_u32_le_bytes|]]. by rewrite to_from_le_bytes.
Qed.

Lemma as_u32_small z : is_u32 z -> as_u32 z = z.
Proof. apply Z.mod_small. Qed.

Lemma u32_bytes z : is_u32 z -> from_le_bytes (to_le_bytes 4 z) = z.
Proof. intros H. by apply from_to_le_bytes. Qed.

(** Common to the two one-field shares. *)
Lemma indexed_roundtrip {T} `{CodecLaws T} (i : Z) (v : T) vb :
  is_u32 i -> to_bytes v = Ok vb -> from_bytes vb = Ok v ->
  let b := to_le_bytes 4 i ++ vb in
  (length b <? 4)%nat = false /\ read_u32 b 0 = Ok i /\
  slice (E:=CryptoError) b 4 (length b) = Ok vb.
Proof.
  intros Hi _ _ b. subst b. split_and!.
  - apply Nat.ltb_ge. autorewrite with lens. lia.
  - unfold read_u32. slice_eval. cbn. by rewrite u32_bytes.
  - by slice_eval.
Qed.

Lemma indexed_canonical b i vb :
  read_u32 b 0 = Ok i -> slice (E:=CryptoError) b 4 (length b) = Ok vb ->
  is_u32 i /\ b = to_le_bytes 4 i ++ vb.
Proof.
  intros (Hl & Hi & E)%read_u32_split Hs%slice_split. split; [done|].
  rewrite drop_0 in E. rewrite E at 1. cbn [Nat.add]. by rewrite Hs, drop_all, app_nil_r.
Qed.

#[global] Instance PriShare_codec : CodecLaws (PriShare V).
Proof.
  refine {| codec_wf s := is_u32 (pri_i s) /\ codec_wf (pri_v s) |}.
  - intros [i v] [Hi (vb & Ht & Hf & Hm)%codec_roundtrip]. cbn in *. unfold PriShare_to_bytes. cbn.
    rewrite Ht. cbn. eexists; split; [done|].
    destruct (indexed_roundtrip i v vb Hi Ht Hf) as (E1 & E2 & E3).
    unfold PriShare_from_bytes. rewrite E1, E2. cbn. rewrite E3. cbn. rewrite Hf. cbn.
    split; [done|]. autorewrite with lens. lia.
  - intros b [i v]. cbn. unfold PriShare_from_bytes, PriShare_to_bytes. intros H. inv_ok.
    apply_any (codec_canonical (T:=V)). destruct_and!.
    destruct (indexed_canonical b i x1) as [Hi Hb]; [done..|]. cbn.
    split; [done|]. match goal with E : to_bytes v = _ |- _ => rewrite E end. by subst b.
  - intros b. cbn. unfold PriShare_from_bytes. apply no_panic_bind; [auto with orbis|].
    intros ? Hr. inv_ok. apply Nat.ltb_ge in Hr.
    apply no_panic_bind; [apply no_panic_read_u32; lia|]. intros i _.
    apply no_panic_bind; [apply no_panic_slice; lia|]. intros vb _.
    apply no_panic_bind; [apply codec_no_panic|done].
Defined.

#[global] Instance PubShare_codec : CodecLaws (PubShare P).
Proof.
  refine {| codec_wf s := is_u32 (pub_i s) /\ codec_wf (pub_v s) |}.
  - intros [i v] [Hi (vb & Ht & Hf & Hm)%codec_roundtrip]. cbn in *. unfold PubShare_to_bytes. cbn.
    rewrite Ht. cbn. eexists; split; [done|].
    destruct (indexed_roundtrip i v vb Hi Ht Hf) as (E1 & E2 & E3).
    unfold PubShare_from_bytes. rewrite E1, E2. cbn. rewrite E3. cbn. rewrite Hf. cbn.
    split; [done|]. autorewrite with lens. lia.
  - intros b [i v]. cbn. unfold PubShare_from_bytes, PubShare_to_bytes. intros H. inv_ok.
    apply_any (codec_canonical (T:=P)). destruct_and!.
    destruct (indexed_canonical b i x1) as [Hi Hb]; [done..|]. cbn.
    split; [done|]. match goal with E : to_bytes v = _ |- _ => rewrite E end. by subst b.
  - intros b. cbn. unfold PubShare_from_bytes. apply no_panic_bind; [auto with orbis|].
    intros ? Hr. inv_ok. apply Nat.ltb_ge in Hr.
    apply no_panic_bind; [apply no_panic_read_u32; lia|]. intros i _.
    apply no_panic_bind; [apply no_panic_slice; lia|]. intros vb _.
    apply no_panic_bind; [apply codec_no_panic|done].
Defined.

#[global] Instance DistKeyShare_codec : CodecLaws (DistKeyShare V).
Proof.
  refine {| codec_wf s := codec_wf (pri_share s) |}.
  - intros [s] Hw. destruct (codec_roundtrip s Hw) as (b & Ht & Hf & Hm).
    exists b. cbn in *. unfold DistKeyShare_to_bytes, DistKeyShare_from_bytes. cbn in *.
    by rewrite Ht, Hf.
  - intros b [s]. cbn. unfold DistKeyShare_from_bytes, DistKeyShare_to_bytes. intros H.
    inv_ok. by apply_any (codec_canonical (T:=PriShare V)).
  - intros b. cbn. unfold DistKeyShare_from_bytes.
    apply no_panic_bind; [apply (codec_no_panic (T:=PriShare V))|done].
Defined.

Lemma DistributedShare_from_Ok b (s : DistributedShare V) :
  DistributedShare_from_bytes b = Ok s ->
  exists vb, from_bytes vb = Ok (value s) /\
    is_u32 (from_id s) /\ is_u32 (to_id s) /\ 0 <= session_id s < 2 ^ 128 /\
    length (nonce s) = 16%nat /\ is_u32 (Z.of_nat (length vb)) /\
    b = to_le_bytes 4 (from_id s) ++ to_le_bytes 4 (to_id s) ++ to_le_bytes 16 (session_id s)
        ++ nonce s ++ to_le_bytes 4 (Z.of_nat (length vb)) ++ vb.
Proof.
  unfold DistributedShare_from_bytes. intros H.
  bind_ok H as ? _. bind_ok H as f Hf. bind_ok H as t Ht. bind_ok H as ss Hss.
  bind_ok H as nb Hnb. bind_ok H as vl Hvl. bind_ok H as ? _. bind_ok H as ? Hlen.
  bind_ok H as vb Hvb. bind_ok H as v Hv. inv_ok. cbn.
  apply negb_false_iff, Z.eqb_eq in Hlen.
  apply read_u32_split in Hf as (_ & Hfu & Ef), Ht as (_ & Htu & Et), Hvl as (_ & Hvlu & Evl).
  pose proof (slice_length _ _ _ _ Hss) as Lss. pose proof (slice_length _ _ _ _ Hnb) as Lnb.
  pose proof (slice_length _ _ _ _ Hvb) as Lvb.
  apply slice_split in Hss, Hnb, Hvb.
  assert (Z.of_nat (length vb) = vl) as <- by (rewrite Lvb; unfold is_u32 in Hvlu; lia).
  exists vb. do 3 (split; [done|]). split.
  { pose proof (from_le_bytes_range ss) as R. by rewrite Lss in R. }
  do 2 (split; [done|]).
  rewrite drop_0 in Ef. rewrite Ef at 1. cbn [Nat.add] in *. rewrite Et. cbn [Nat.add] in *.
  rewrite Hss, Hnb, Evl. cbn [Nat.add] in *. rewrite Hvb, drop_ge by lia.
  rewrite app_nil_r. by rewrite to_from_le_bytes.
Qed.

Definition DistributedShare_wf (s : DistributedShare V) : Prop :=
  is_u32 (from_id s) /\ is_u32 (to_id s) /\ 0 <= session_id s < 2 ^ 128 /\
  length (nonce s) = 16%nat /\ codec_wf (value s) /\ short_encoding (value s).

#[global] Instance DistributedShare_codec : CodecLaws (DistributedShare V).
Proof.
  refine {| codec_wf := DistributedShare_wf |}.
  - intros [f t v nb sid] (Hf & Ht & Hsid & Hn & (vb & Hto & Hfrom & Hm)%codec_roundtrip & Hs).
    cbn in *. specialize (Hs vb Hto). unfold DistributedShare_to_bytes. cbn.
    rewrite Hto. cbn. rewrite as_u32_small by done. eexists; split; [done|]. split.
    + unfold DistributedShare_from_bytes, read_u32. autorewrite with lens. rewrite Hn.
      rewrite (proj2 (Nat.ltb_ge _ _)) by lia. cbn [reject res_bind].
      do 5 (slice_eval; cbn [res_bind Nat.add]).
      rewrite !u32_bytes, from_to_le_bytes by done. cbn [res_bind].
      rewrite (proj2 (Z.ltb_ge _ _)) by lia.
      replace (_ =? _) with true by (symmetry; apply Z.eqb_eq; lia). cbn [reject res_bind negb].
      replace (Z.to_nat _) with (44 + length vb)%nat by lia.
      slice_eval. cbn [res_bind]. by rewrite Hfrom.
    + autorewrite with lens. lia.
  - intros b s (vb & Hv & Hf & Ht & Hsid & Hn & Hl & Hb)%DistributedShare_from_Ok.
    apply codec_canonical in Hv as [Hwf Hto]. split.
    + do 5 (split; [done|]). intros vb' E. rewrite Hto in E. by injection E as <-.
    + cbn. unfold DistributedShare_to_bytes. rewrite Hto. cbn. by rewrite as_u32_small, <- Hb.
  - intros b. cbn. unfold DistributedShare_from_bytes.
    apply no_panic_bind; [auto with orbis|]. intros ? Hr. inv_ok. apply Nat.ltb_ge in Hr.
    do 2 (apply no_panic_bind; [apply no_panic_read_u32; lia|intros ? _]).
    do 2 (apply no_panic_bind; [apply no_panic_slice; lia|intros ? _]).
    apply no_panic_bind; [apply no_panic_read_u32; lia|]. intros vl Hvl.
    apply read_u32_split in Hvl as (_ & Hu & _). unfold is_u32 in Hu.
    do 2 (apply no_panic_bind; [auto with orbis|intros ? ?]). inv_ok.
    apply no_panic_bind; [apply no_panic_slice; lia|]. intros vb _.
    apply no_panic_bind; [apply codec_no_panic|done].
Defined.

(** A length-prefixed field in front of the rest of the input. *)
Lemma framed_split b lo n s :
  read_u32 b lo = Ok n ->
  slice (E:=CryptoError) b (lo + 4) (lo + 4 + Z.to_nat n) = Ok s ->
  is_u32 (Z.of_nat (length s)) /\
  drop lo b = to_le_bytes 4 (Z.of_nat (length s)) ++ s ++ drop (lo + 4 + Z.to_nat n) b.
Proof.
  intros (Hl & Hu & E)%read_u32_split Hs.
  pose proof (slice_length _ _ _ _ Hs) as L. apply slice_split in Hs.
  assert (Z.of_nat (length s) = n) as -> by (unfold is_u32 in Hu; lia).
  split; [done|]. by rewrite E, Hs.
Qed.

Definition ReencryptReply_wf (r : ReencryptReply V P) : Prop :=
  codec_wf (rr_share r) /\ short_encoding (rr_share r) /\
  codec_wf (rr_challenge r) /\ short_encoding (rr_challenge r) /\
  codec_wf (rr_proof r) /\ short_encoding (rr_proof r).

Lemma short_encoding_intro {T} `{CryptoSerialize T} (x : T) b :
  to_bytes x = Ok b -> is_u32 (Z.of_nat (length b)) -> short_encoding x.
Proof. intros E H0 b' E'. rewrite E in E'. by injection E' as <-. Qed.

Lemma ReencryptReply_from_to (r : ReencryptReply V P) :
  ReencryptReply_wf r ->
  exists b, ReencryptReply_to_bytes r = Ok b /\ ReencryptReply_from_bytes b = Ok r /\
    (12 + min_serialized_size (PubShare P) + min_serialized_size V + min_serialized_size V
      <= length b)%nat.
Proof.
  destruct r as [s c p]. unfold ReencryptReply_wf. cbn [rr_share rr_challenge rr_proof].
  intros (Ws & Ss & Wc & Sc & Wp & Sp).
  destruct (codec_roundtrip s Ws) as (sb & Ts & Fs & Ms).
  destruct (codec_roundtrip c Wc) as (cb & Tc & Fc & Mc).
  destruct (codec_roundtrip p Wp) as (pb & Tp & Fp & Mp).
  specialize (Ss sb Ts). specialize (Sc cb Tc). specialize (Sp pb Tp).
  unfold ReencryptReply_to_bytes. cbn [rr_share rr_challenge rr_proof].
  rewrite Ts, Tc, Tp. cbn [res_bind]. rewrite !as_u32_small by done.
  eexists; split; [done|]. split; [|autorewrite with lens; lia].
  unfold ReencryptReply_from_bytes, read_u32. autorewrite with lens.
  rewrite (proj2 (Nat.ltb_ge _ _)) by lia. cbn [reject res_bind].
  slice_eval. cbn [res_bind]. rewrite u32_bytes by done.
  rewrite (proj2 (Z.ltb_ge _ _)) by lia. cbn [reject res_bind]. rewrite !Nat2Z.id.
  slice_eval. cbn [res_bind]. rewrite Fs. cbn [res_bind].
  slice_eval. cbn [res_bind]. rewrite u32_bytes by done.
  rewrite (proj2 (Z.ltb_ge _ _)) by lia. cbn [reject res_bind]. rewrite !Nat2Z.id.
  slice_eval. cbn [res_bind]. rewrite Fc. cbn [res_bind].
  slice_eval. cbn [res_bind]. rewrite u32_bytes by done.
  rewrite (proj2 (Z.ltb_ge _ _)) by lia.
  replace (_ =? _) with true by (symmetry; apply Z.eqb_eq; lia). cbn [reject res_bind negb].
  slice_eval. cbn [res_bind]. by rewrite Fp.
Qed.

Lemma ReencryptReply_from_Ok b (r : ReencryptReply V P) :
  ReencryptReply_from_bytes b = Ok r ->
  ReencryptReply_wf r /\ ReencryptReply_to_bytes r = Ok b.
Proof.
  unfold ReencryptReply_from_bytes. intros H.
  bind_ok H as ? _. bind_ok H as sl Hsl. bind_ok H as ? _. bind_ok H as sb Hsb. bind_ok H as s Hs.
  bind_ok H as cl Hcl. bind_ok H as ? _. bind_ok H as cb Hcb. bind_ok H as c Hc.
  bind_ok H as pl Hpl. bind_ok H as ? _. bind_ok H as ? Hlen. bind_ok H as pb Hpb.
  bind_ok H as p Hp. inv_ok. apply negb_false_iff, Z.eqb_eq in Hlen.
  apply (codec_canonical (T:=PubShare P)) in Hs as [Ws Ts].
  apply codec_canonical in Hc as [Wc Tc], Hp as [Wp Tp].
  pose proof (read_u32_split _ _ _ Hpl) as (_ & Hplu & _). unfold is_u32 in Hplu.
  destruct (framed_split b 0 sl sb Hsl Hsb) as [Us Es].
  destruct (framed_split b _ cl cb Hcl Hcb) as [Uc Ec].
  replace (Z.to_nat (Z.of_nat _ + 4 + pl)) with (4 + Z.to_nat sl + 4 + Z.to_nat cl + 4 + Z.to_nat pl)%nat
    in Hpb by lia.
  destruct (framed_split b _ pl pb Hpl Hpb) as [Up Ep].
  rewrite (drop_ge b (_ + Z.to_nat pl)), app_nil_r in Ep by lia. rewrite drop_0 in Es. cbn [Nat.add] in *.
  split.
  - split_and!; try done; by eapply short_encoding_intro.
  - unfold ReencryptReply_to_bytes. cbn [rr_share rr_challenge rr_proof].
    rewrite Ts, Tc, Tp. cbn [res_bind]. rewrite !as_u32_small by done.
    rewrite Es, Ec, Ep at 1. done.
Qed.

#[global] Instance ReencryptReply_codec : CodecLaws (ReencryptReply V P).
Proof.
  refine {| codec_wf := ReencryptReply_wf; codec_roundtrip := ReencryptReply_from_to;
            codec_canonical := ReencryptReply_from_Ok |}.
  intros b. cbn. unfold ReencryptReply_from_bytes.
  apply no_panic_bind; [auto with orbis|]. intros ? Hr. inv_ok. apply Nat.ltb_ge in Hr.
  apply no_panic_bind; [apply no_panic_read_u32; lia|]. intros sl (_ & Hu & _)%read_u32_split.
  apply no_panic_bind; [auto with orbis|]. intros ? Hs. inv_ok. apply Z.ltb_ge in Hs.
  unfold is_u32 in Hu. apply no_panic_bind; [apply no_panic_slice; lia|]. intros sb _.
  apply no_panic_bind; [apply (codec_no_panic (T:=PubShare P))|]. intros s _.
  apply no_panic_bind; [apply no_panic_read_u32; lia|]. intros cl (_ & Hcu & _)%read_u32_split.
  apply no_panic_bind; [auto with orbis|]. intros ? Hc. inv_ok. apply Z.ltb_ge in Hc.
  unfold is_u32 in Hcu. apply no_panic_bind; [apply no_panic_slice; lia|]. intros cb _.
  apply no_panic_bind; [apply codec_no_panic|]. intros c _.
  apply no_panic_bind; [apply no_panic_read_u32; lia|]. intros pl (_ & Hpu & _)%read_u32_split.
  do 2 (apply no_panic_bind; [auto with orbis|intros ? ?]). inv_ok.
  apply_any Z.ltb_ge. unfold is_u32 in Hpu.
  apply no_panic_bind; [apply no_panic_slice; lia|]. intros pb _.
  apply no_panic_bind; [apply codec_no_panic|done].
Defined.

End ShareLaws.

#[global] Instance unit_codec : CodecLaws unit.
Proof.
  refine {| codec_wf _ := True |}.
  - intros [] _. by exists [].
  - intros [|x b] []; [done|]. by intros.
  - by intros [].
Defined.
