(* ===== verification/Common.v ===== *)
(** * Shared curve code

    [crates/crypto/src/helpers.rs] (polynomial evaluation, key pairs),
    [bls12_381/ct.rs] (constant-time multiplication through [blst]) and
    [bls12_381/common.rs] (public polynomials, polynomial commitments and
    their encodings). *)
From S2P Require Import Prelude Algebra Interpolation Primitives Codec.

(** ** [helpers.rs] *)

(** The loop of [eval_poly_at]: a running sum and a running power of [x]. *)
Definition eval_poly_step {A S} (add : A -> A -> A) (mul : A -> S -> A) (smul : S -> S -> S)
    (x : S) (st : A * S) (coeff : A) : A * S :=
  let '(result, x_power) := st in (add result (mul coeff x_power), smul x_power x).

Definition eval_poly_at {A S} (add : A -> A -> A) (mul : A -> S -> A) (smul : S -> S -> S)
    (coeffs : list A) (x : S) : result A :=
  match coeffs with
  | [] => Panic
  | first :: rest => Ok (fold_left (eval_poly_step add mul smul x) rest (first, x)).1
  end.

Section Helpers.
Context {F G : Type} {SF : ScalarField F} {CG : CurveGroup F G}.

Definition public_key_from_secret (sk : F) : result G := Ok (generator ⊙ sk).

Definition generate_keypair (fuel : nat) (rng : Rng F) : result ((F * G) * Rng F) :=
  let? '(sk, rng') := sample_nonzero fuel rng in
  let? pk := public_key_from_secret sk in
  Ok ((sk, pk), rng').

Definition add_points (a b : G) : result G := Ok (a ⊕ b).
Definition mul_point (point : G) (scalar : F) : result G := Ok (point ⊙ scalar).

End Helpers.

(** ** [bls12_381/ct.rs] *)

Section Ct.
Context {F G S P : Type} {SF : ScalarField F} {CG : CurveGroup F G} {BL : Blst F G S P}.

Definition to_blst_scalar (scalar : F) : result S :=
  ok_or (blst_scalar_from_bytes_le (fr_serialize scalar)) (SigningError "Scalar out of range for blst").

Definition ct_mul (invalid_point : string) (base : G) (scalar : F) : result G :=
  let? blst_base := ok_or (blst_from_compressed (g_serialize base)) (SigningError invalid_point) in
  let? blst_scalar := to_blst_scalar scalar in
  let blst_result := blst_point_mul blst_base blst_scalar in
  let result_bytes := blst_to_compressed blst_result in
  ok_or (g_deserialize result_bytes) SerializationError.

Definition ct_mul_g1 (base : G) (scalar : F) : result G :=
  ct_mul "Invalid G1 point for blst" base scalar.

Definition ct_mul_g2 (base : G) (scalar : F) : result G :=
  ct_mul "Invalid G2 point for blst" base scalar.

Definition ct_scalar_mul_add (k c r : F) : result F :=
  let? blst_k := to_blst_scalar k in
  let? blst_c := to_blst_scalar c in
  let? blst_r := to_blst_scalar r in
  let blst_result := blst_scalar_add blst_k (blst_scalar_mul blst_c blst_r) in
  ok_or (fr_deserialize (blst_scalar_to_bytes_le blst_result)) SerializationError.

(** [helpers.rs: mul_point_secret]. *)
Definition mul_point_secret (point : G) (scalar : F) : result G := ct_mul_g1 point scalar.

End Ct.

(** ** [bls12_381/common.rs] *)

Record G2Point (G2 : Type) := MkG2Point { g2_inner : G2 }.
Arguments MkG2Point {G2}. Arguments g2_inner {G2}.

Record PubPoly (G : Type) := MkPubPoly { commits : list G }.
Arguments MkPubPoly {G}. Arguments commits {G}.

Record PolynomialCommitment (G : Type) := MkPolynomialCommitment { coefficients : list G }.
Arguments MkPolynomialCommitment {G}. Arguments coefficients {G}.

#[global] Instance G2Point_eq_dec `{EqDecision G2} : EqDecision (G2Point G2).
Proof. solve_decision. Defined.
#[global] Instance PubPoly_eq_dec `{EqDecision G} : EqDecision (PubPoly G).
Proof. solve_decision. Defined.
#[global] Instance PolynomialCommitment_eq_dec `{EqDecision G} : EqDecision (PolynomialCommitment G).
Proof. solve_decision. Defined.

Section Polynomials.
Context {F G : Type} {SF : ScalarField F} {CG : CurveGroup F G}.

(** A polynomial in the exponent, the empty one giving the identity. *)
Definition eval_points (points : list G) (x : Z) : G :=
  if decide (points = []) then g_zero
  else match eval_poly_at g_add g_mul fmul points (from_u64 x) with
       | Ok r => r
       | _ => g_zero
       end.

Definition PubPoly_eval (p : PubPoly G) (i : Z) : G := eval_points (commits p) i.

Definition PolynomialCommitment_eval (c : PolynomialCommitment G) (x : Z) : G :=
  eval_points (coefficients c) x.

(** Copies [b] to the front of a zeroed buffer of [n] bytes. *)
Definition pad_to (n : nat) (b : bytes) : bytes := b ++ replicate (n - length b) Byte.x00.

Definition verify_share (c : PolynomialCommitment G) (share_id : Z) (share_value : F) : bool :=
  let expected_bytes := g_serialize (PolynomialCommitment_eval c share_id) in
  let actual_bytes := g_serialize (generator ⊙ share_value) in
  let max_len := Nat.max (length expected_bytes) (length actual_bytes) in
  bool_decide (pad_to max_len expected_bytes = pad_to max_len actual_bytes).

Definition constant_term_is_identity (c : PolynomialCommitment G) : bool :=
  match head (coefficients c) with
  | Some p => g_is_zero p
  | None => false
  end.

(** The encoding shared by the two polynomial types: a count, then the points. *)
Definition points_to_bytes (points : list G) : result bytes :=
  Ok (to_le_bytes 4 (as_u32 (Z.of_nat (length points))) ++ mjoin (g_serialize <$> points)).

Definition points_from_bytes (too_short too_short_for mismatch : string) (b : bytes)
    : result (list G) :=
  reject (length b <? 4)%nat (DKGError too_short) ;?
  let? num := read_u32 b 0 in
  let expected_len := 4 + num * Z.of_nat (g_size (G:=G)) in
  reject (Z.of_nat (length b) <? expected_len) (DKGError too_short_for) ;?
  reject (negb (Z.of_nat (length b) =? expected_len)) (DKGError mismatch) ;?
  res_mapM (fun i =>
    let start := (4 + i * g_size (G:=G))%nat in
    let end_ := (start + g_size (G:=G))%nat in
    let? point_bytes := slice b start end_ in
    G1Affine_from_bytes point_bytes) (seq 0 (Z.to_nat num)).

Definition PubPoly_to_bytes (p : PubPoly G) : result bytes := points_to_bytes (commits p).

Definition PubPoly_from_bytes (b : bytes) : result (PubPoly G) :=
  let? points := points_from_bytes "PubPoly bytes too short"
    "PubPoly bytes too short: expected {}, got {}"
    "PubPoly bytes length mismatch: expected {}, got {}" b in
  Ok (MkPubPoly points).

Definition PolynomialCommitment_to_bytes (c : PolynomialCommitment G) : result bytes :=
  points_to_bytes (coefficients c).

Definition PolynomialCommitment_from_bytes (b : bytes) : result (PolynomialCommitment G) :=
  let? points := points_from_bytes "PolynomialCommitment bytes too short"
    "PolynomialCommitment bytes too short: expected {}, got {}"
    "PolynomialCommitment bytes length mismatch: expected {}, got {}" b in
  Ok (MkPolynomialCommitment points).

Definition G2Point_to_bytes (p : G2Point G) : result bytes := Ok (g_serialize (g2_inner p)).

Definition G2Point_from_bytes (b : bytes) : result (G2Point G) :=
  reject (negb (length b =? g_size (G:=G))%nat) SerializationError ;?
  let? point := ok_or (g_deserialize b) SerializationError in
  reject_non_canonical g_serialize point b ;?
  Ok (MkG2Point point).

#[global] Instance PubPoly_serialize : CryptoSerialize (PubPoly G) :=
  {| to_bytes := PubPoly_to_bytes; min_serialized_size := 4 |}.
#[global] Instance PubPoly_deserialize : CryptoDeserialize (PubPoly G) :=
  {| from_bytes := PubPoly_from_bytes |}.
#[global] Instance PolynomialCommitment_serialize : CryptoSerialize (PolynomialCommitment G) :=
  {| to_bytes := PolynomialCommitment_to_bytes; min_serialized_size := 4 |}.
#[global] Instance PolynomialCommitment_deserialize : CryptoDeserialize (PolynomialCommitment G) :=
  {| from_bytes := PolynomialCommitment_from_bytes |}.
#[global] Instance G2Point_serialize : CryptoSerialize (G2Point G) :=
  {| to_bytes := G2Point_to_bytes; min_serialized_size := g_size (G:=G) |}.
#[global] Instance G2Point_deserialize : CryptoDeserialize (G2Point G) :=
  {| from_bytes := G2Point_from_bytes |}.

End Polynomials.

(** ** Evaluation and share verification *)

Section EvalLaws.
Context {F G : Type} {SF : ScalarField F} {CG : CurveGroup F G}.
Local Open Scope fr_scope.
Add Field FField : (f_theory (F:=F)).

(** Commitments to a list of scalars. *)
Definition commit_all (cs : list F) : list G := (fun c => generator ⊙ c) <$> cs.

(** The loop adds [x^k * rest(x)] to its running sum. *)
Lemma eval_poly_scalar_loop (x : F) rest acc p :
  (fold_left (eval_poly_step fadd fmul fmul x) rest (acc, p)).1 = acc + p * peval rest x.
Proof.
  revert acc p; induction rest as [|c rest IH]; intros acc p; cbn; [ring|].
  rewrite IH. ring.
Qed.

Lemma eval_poly_group_loop (x : F) rest acc p :
  (fold_left (eval_poly_step g_add g_mul fmul x) (commit_all rest) (generator ⊙ acc, p)).1
  = generator (G:=G) ⊙ (acc + p * peval rest x).
Proof.
  revert acc p; induction rest as [|c rest IH]; intros acc p; cbn.
  - f_equal. ring.
  - dlog. rewrite IH. f_equal. ring.
Qed.

Lemma eval_poly_at_scalar cs x :
  cs <> [] -> eval_poly_at fadd fmul fmul cs x = Ok (peval cs x).
Proof.
  destruct cs as [|c cs]; [done|]. intros _. cbn. by rewrite eval_poly_scalar_loop.
Qed.

Lemma eval_points_commit (cs : list F) i :
  eval_points (commit_all cs) i = generator (G:=G) ⊙ peval cs (from_u64 i).
Proof.
  unfold eval_points. destruct cs as [|c cs]; cbn [commit_all fmap list_fmap].
  - rewrite decide_True by done. apply generator_zero.
  - rewrite decide_False by done. cbn. by rewrite eval_poly_group_loop.
Qed.

Lemma eval_points_zero (cs : list F) :
  eval_points (commit_all cs) 0%Z = generator (G:=G) ⊙ default 0 (head cs).
Proof. by rewrite eval_points_commit, from_u64_zero, peval_zero. Qed.

Lemma eval_points_subgroup (ps : list G) i :
  Forall (fun p => in_subgroup p = true) ps -> in_subgroup (eval_points ps i) = true.
Proof.
  intros [cs ->]%subgroup_list. rewrite (eval_points_commit cs). auto with orbis.
Qed.

Lemma pad_to_id n b : length b = n -> pad_to n b = b.
Proof. intros <-. unfold pad_to. by rewrite Nat.sub_diag, app_nil_r. Qed.

(** Comparing padded encodings compares the points. *)
Lemma padded_eq (P Q : G) :
  in_subgroup P = true -> in_subgroup Q = true ->
  let n := Nat.max (length (g_serialize P)) (length (g_serialize Q)) in
  pad_to n (g_serialize P) = pad_to n (g_serialize Q) <-> P = Q.
Proof.
  intros HP HQ n. subst n. rewrite !pad_to_id by (rewrite !g_serialize_length; lia).
  split; [by apply g_serialize_inj|by intros ->].
Qed.

Lemma verify_share_spec (c : PolynomialCommitment G) i v :
  Forall (fun p => in_subgroup p = true) (coefficients c) ->
  verify_share c i v = true <-> PolynomialCommitment_eval c i = generator ⊙ v.
Proof.
  intros H. unfold verify_share. rewrite bool_decide_eq_true.
  apply padded_eq; [by apply eval_points_subgroup|auto with orbis].
Qed.

(** Feldman verification accepts exactly the value of the committed polynomial. *)
Lemma verify_share_commit (cs : list F) i v :
  verify_share (MkPolynomialCommitment (commit_all cs)) i v = true <-> v = peval cs (from_u64 i).
Proof.
  rewrite verify_share_spec by (apply subgroup_list; by eexists).
  unfold PolynomialCommitment_eval. cbn [coefficients]. rewrite eval_points_commit.
  split; [intros E; symmetry; by apply generator_inj in E|by intros ->].
Qed.

End EvalLaws.

(** ** Constant-time arithmetic *)

Section CtLaws.
Context {F G S P : Type} {SF : ScalarField F} {CG : CurveGroup F G} {BL : Blst F G S P}.

Lemma ct_mul_spec msg (base : G) (x : F) :
  ct_mul msg base x = if in_subgroup base then Ok (base ⊙ x) else Err (SigningError msg).
Proof.
  unfold ct_mul, to_blst_scalar. rewrite blst_from_compressed_ok.
  destruct (in_subgroup base) eqn:Hb; [|done].
  cbn. rewrite blst_scalar_from_ok. cbn.
  rewrite blst_point_mul_ok, blst_to_compressed_ok, g_deserialize_serialize; [done|].
  auto with orbis.
Qed.

Lemma ct_mul_g1_gen (x y : F) :
  ct_mul_g1 (generator (G:=G) ⊙ x) y = Ok (generator ⊙ fmul x y).
Proof. unfold ct_mul_g1. by rewrite ct_mul_spec, gen_in_subgroup, generator_mul. Qed.

Lemma ct_mul_g1_generator (y : F) : ct_mul_g1 (generator (G:=G)) y = Ok (generator ⊙ y).
Proof. unfold ct_mul_g1. by rewrite ct_mul_spec, generator_in_subgroup. Qed.

Lemma ct_mul_g1_sub (Q : G) (y : F) : in_subgroup Q = true -> ct_mul_g1 Q y = Ok (Q ⊙ y).
Proof. intros H. unfold ct_mul_g1. by rewrite ct_mul_spec, H. Qed.

Lemma ct_mul_g2_sub (Q : G) (y : F) : in_subgroup Q = true -> ct_mul_g2 Q y = Ok (Q ⊙ y).
Proof. intros H. unfold ct_mul_g2. by rewrite ct_mul_spec, H. Qed.

Lemma ct_scalar_mul_add_spec (k c r : F) :
  ct_scalar_mul_add k c r = Ok (fadd k (fmul c r)).
Proof.
  unfold ct_scalar_mul_add, to_blst_scalar. rewrite !blst_scalar_from_ok. cbn.
  by rewrite blst_scalar_mul_ok, blst_scalar_add_ok, blst_scalar_to_ok, fr_deserialize_serialize.
Qed.

End CtLaws.

(** ** Encodings *)

Section CodecProofs.
Context {F G : Type} {SF : ScalarField F} {CG : CurveGroup F G}.

Definition points_wf (points : list G) : Prop :=
  Forall (fun p => in_subgroup p = true) points /\ is_u32 (Z.of_nat (length points)).

Lemma chunks_length (points : list G) :
  Forall (fun c => length c = g_size (G:=G)) (g_serialize <$> points).
Proof. apply Forall_fmap, Forall_true. intros p. apply g_serialize_length. Qed.

Lemma points_roundtrip e1 e2 e3 (points : list G) b :
  points_wf points -> points_to_bytes points = Ok b -> points_from_bytes e1 e2 e3 b = Ok points.
Proof.
  intros [Hs Hu] <-%Ok_inj. rewrite as_u32_small by done. unfold points_from_bytes.
  pose proof (length_mjoin_chunks _ _ (chunks_length points)) as L. rewrite length_fmap in L.
  autorewrite with lens. rewrite (proj2 (Nat.ltb_ge _ _)) by lia. cbn [reject res_bind].
  unfold read_u32. slice_eval. cbn [res_bind]. rewrite u32_bytes by done.
  rewrite (proj2 (Z.ltb_ge _ _)) by lia.
  replace (_ =? _) with true by (symmetry; apply Z.eqb_eq; lia). cbn [reject res_bind negb].
  rewrite Nat2Z.id. apply res_mapM_seq. intros i p Hp.
  rewrite slice_skip by (autorewrite with lens; lia). autorewrite with lens.
  replace (4 + i * g_size (G:=G) - 4)%nat with (i * g_size (G:=G))%nat by lia.
  replace (4 + i * g_size (G:=G) + g_size (G:=G) - 4)%nat
    with (i * g_size (G:=G) + g_size (G:=G))%nat by lia.
  rewrite (slice_chunk _ _ _ (g_serialize p)); [|apply chunks_length|].
  - cbn. apply G1_from_to. rewrite Forall_lookup in Hs. by eapply Hs.
  - by rewrite list_lookup_fmap, Hp.
Qed.

Lemma points_canonical e1 e2 e3 b (points : list G) :
  points_from_bytes e1 e2 e3 b = Ok points -> points_wf points /\ points_to_bytes points = Ok b.
Proof.
  unfold points_from_bytes. intros H. bind_ok H as ? _. bind_ok H as num Hn.
  bind_ok H as ? _. bind_ok H as ? Hlen. inv_ok. apply negb_false_iff, Z.eqb_eq in Hlen.
  apply read_u32_split in Hn as (H4 & Hu & E). rewrite drop_0 in E. cbn [Nat.add] in *.
  apply res_mapM_seq_inv in H as [L Hp]. unfold is_u32 in Hu.
  assert (Z.of_nat (length points) = num) as <- by lia. rewrite Nat2Z.id in L.
  assert (forall i p, points !! i = Some p -> in_subgroup p = true /\
    take (g_size (G:=G)) (drop (i * g_size (G:=G)) (drop 4 b)) = g_serialize p) as Hpt.
  { intros i p (s & Hs & Hf)%Hp%res_bind_Ok. apply G1_from_Ok in Hf as [? <-].
    split; [done|]. apply slice_Ok in Hs as [_ ->]. rewrite drop_drop. f_equal. lia. }
  split; [split; [|done]|].
  - apply Forall_lookup. intros i p Hi. by apply (Hpt i p).
  - unfold points_to_bytes. rewrite as_u32_small by done. rewrite E at 1. do 2 f_equal.
    apply (mjoin_chunks (g_size (G:=G))).
    + rewrite length_drop, length_fmap. lia.
    + intros i c Hc. rewrite list_lookup_fmap in Hc.
      destruct (points !! i) as [p|] eqn:Hi; [|done]. injection Hc as <-. by apply Hpt.
Qed.

Lemma no_panic_points e1 e2 e3 b : no_panic (points_from_bytes (G:=G) e1 e2 e3 b).
Proof.
  unfold points_from_bytes. apply no_panic_bind; [auto with orbis|]. intros ? Hr. inv_ok.
  apply Nat.ltb_ge in Hr. apply no_panic_bind; [apply no_panic_read_u32; lia|].
  intros num (_ & Hu & _)%read_u32_split. apply no_panic_bind; [auto with orbis|]. intros ? ?.
  apply no_panic_bind; [auto with orbis|]. intros ? Hl. inv_ok. unfold is_u32 in Hu.
  apply negb_false_iff, Z.eqb_eq in Hl. apply no_panic_mapM. intros i Hi%elem_of_seq.
  apply no_panic_bind; [|intros; apply no_panic_G1_from].
  apply no_panic_slice; [lia|]. nia.
Qed.

#[global] Instance PubPoly_codec : CodecLaws (PubPoly G).
Proof.
  refine {| codec_wf p := points_wf (commits p) |}.
  - intros [ps] Hw. eexists. split; [done|]. cbn. split.
    + unfold PubPoly_from_bytes. by rewrite (points_roundtrip _ _ _ ps).
    + autorewrite with lens. lia.
  - intros b [ps]. cbn. unfold PubPoly_from_bytes. intros H. inv_ok. by apply_any @points_canonical.
  - intros b. cbn. apply no_panic_bind; [apply no_panic_points|done].
Defined.

#[global] Instance PolynomialCommitment_codec : CodecLaws (PolynomialCommitment G).
Proof.
  refine {| codec_wf p := points_wf (coefficients p) |}.
  - intros [ps] Hw. eexists. split; [done|]. cbn. split.
    + unfold PolynomialCommitment_from_bytes. by rewrite (points_roundtrip _ _ _ ps).
    + autorewrite with lens. lia.
  - intros b [ps]. cbn. unfold PolynomialCommitment_from_bytes. intros H. inv_ok.
    by apply_any @points_canonical.
  - intros b. cbn. apply no_panic_bind; [apply no_panic_points|done].
Defined.

#[global] Instance G2Point_codec : CodecLaws (G2Point G).
Proof.
  refine {| codec_wf p := in_subgroup (g2_inner p) = true |}.
  - intros [P] HP. exists (g_serialize P). split; [done|]. cbn in *.
    unfold G2Point_from_bytes. rewrite g_serialize_length, Nat.eqb_refl, g_deserialize_serialize by done.
    cbn. unfold reject_non_canonical. by rewrite decide_True.
  - intros b [P]. cbn. unfold G2Point_from_bytes, G2Point_to_bytes. intros H. inv_ok.
    apply_any @reject_non_canonical_Ok. subst b. split; [by eapply g_deserialize_subgroup|done].
  - intros b. cbn. unfold G2Point_from_bytes. no_panic_steps. apply no_panic_non_canonical.
Defined.

End CodecProofs.
