(* ===== verification/WireCommitment.v ===== *)
(** * Commitments on the wire

    [bin/orbis-node/src/dkg/v0/helpers/commitment.rs]: a dealer's commitment
    travels as the encodings of its coefficients, one after the other. *)
From S2P Require Import Prelude Algebra Interpolation Primitives Codec Common.

Section WireCommitment.
Context {F G : Type} {SF : ScalarField F} {CG : CurveGroup F G}.
Abbreviation point_size := (g_size (G:=G)).

Definition serialize_commitment_coefficients (coefficients : list G) : bytes := mjoin (g_serialize <$> coefficients).

(** [as_chunks]: the whole chunks of [n] bytes. *)
Fixpoint as_chunks (n count : nat) (b : bytes) : list bytes :=
  match count with
  | O => []
  | Datatypes.S count => take n b :: as_chunks n count (drop n b)
  end.

Definition deserialize_wire_commitment (b : bytes) : res string (PolynomialCommitment G) :=
  reject (bool_decide (b = [])) "commitment cannot be empty" ;?
  reject (negb (length b mod point_size =? 0)%nat) "commitment length {} is not a multiple of {}" ;?
  let? coefficients := res_mapM (fun chunk => map_err (G1Affine_from_bytes chunk) "coefficient {index}: {error}")
    (as_chunks point_size (length b / point_size) b) in
  Ok (MkPolynomialCommitment coefficients).
End WireCommitment.

(** ** Round trip *)

Section RoundTrip.
Context {F G : Type} {SF : ScalarField F} {CG : CurveGroup F G}.

Lemma g_size_pos : (0 < g_size (G:=G))%nat.
Proof.
  pose proof (g_serialize_ne (generator (G:=G))) as H. rewrite <- (g_serialize_length (generator (G:=G))).
  destruct (g_serialize (generator (G:=G))); [done|cbn; lia].
Qed.

Lemma wire_cons (p : G) points :
  serialize_commitment_coefficients (p :: points) = g_serialize p ++ serialize_commitment_coefficients points.
Proof. done. Qed.

Lemma length_wire_commitment (points : list G) :
  length (serialize_commitment_coefficients points) = (length points * g_size (G:=G))%nat.
Proof.
  induction points as [|p points IH]; [done|]. rewrite wire_cons, length_app, IH, g_serialize_length. cbn [length]. lia.
Qed.

Lemma as_chunks_join (points : list G) :
  as_chunks (g_size (G:=G)) (length points) (serialize_commitment_coefficients points) = g_serialize <$> points.
Proof.
  induction points as [|p points IH]; [done|]. rewrite wire_cons, fmap_cons. cbn [length as_chunks].
  by rewrite take_app_length', drop_app_length', IH by (symmetry; apply g_serialize_length).
Qed.

(** A commitment of at least one coefficient decodes to itself. *)
Lemma wire_commitment_roundtrip (c : PolynomialCommitment G) :
  coefficients c <> [] -> Forall (fun p => in_subgroup p = true) (coefficients c) ->
  deserialize_wire_commitment (serialize_commitment_coefficients (coefficients c)) = Ok c.
Proof.
  pose proof g_size_pos as Hs. intros Hne Hin. unfold deserialize_wire_commitment. pose proof (length_wire_commitment (coefficients c)) as L.
  rewrite bool_decide_false. 2:{ intros E. rewrite E in L. destruct (coefficients c); [done|cbn in L; lia]. }
  rewrite L, Nat.Div0.mod_mul, Nat.div_mul, as_chunks_join by lia. cbn [reject Nat.eqb negb res_bind].
  replace (res_mapM _ _) with (Ok (E:=string) (coefficients c)); [by destruct c|]. symmetry.
  clear -Hin. induction Hin as [|p points Hp _ IH]; [done|]. rewrite fmap_cons. cbn [res_mapM].
  rewrite G1_from_to by done. cbn [map_err res_bind]. by rewrite IH.
Qed.
End RoundTrip.
