(* ===== verification/Wire.v ===== *)
(** * The wire formats

    Every decoder of the crypto crate accepts exactly the encodings of the
    well-formed values, so that no two byte strings stand for one value, and
    panics on no input. *)
From S2P Require Import Prelude Algebra Interpolation Primitives Codec Common.

Lemma codec_exact `{CodecLaws T} b (x : T) :
  from_bytes b = Ok x <-> codec_wf x /\ to_bytes x = Ok b.
Proof.
  split; [apply codec_canonical|]. intros [Hw Hb].
  destruct (codec_roundtrip x Hw) as (b' & Hb' & Hx & _). congruence.
Qed.

Section Wire.
Context {F G : Type} {SF : ScalarField F} {CG : CurveGroup F G}.

(** The wire formats are exact.  A DKG share, a re-encryption reply, a
    public polynomial and a polynomial commitment decode from a byte string if
    and only if they are well formed (indices in 32 bits, points in the
    subgroup, lengths that fit their prefix) and encode to that very string;
    and decoding an arbitrary string never panics. *)
Lemma wire_formats_exact b :
  (forall s : DistributedShare F,
    DistributedShare_from_bytes b = Ok s <-> DistributedShare_wf s /\ DistributedShare_to_bytes s = Ok b) /\
  (forall r : ReencryptReply F G,
    ReencryptReply_from_bytes b = Ok r <-> ReencryptReply_wf r /\ ReencryptReply_to_bytes r = Ok b) /\
  (forall p : PubPoly G,
    PubPoly_from_bytes b = Ok p <-> points_wf (commits p) /\ PubPoly_to_bytes p = Ok b) /\
  (forall c : PolynomialCommitment G,
    PolynomialCommitment_from_bytes b = Ok c <->
    points_wf (coefficients c) /\ PolynomialCommitment_to_bytes c = Ok b) /\
  no_panic (DistributedShare_from_bytes (V:=F) b) /\ no_panic (ReencryptReply_from_bytes (V:=F) (P:=G) b) /\
  no_panic (PubPoly_from_bytes (G:=G) b) /\ no_panic (PolynomialCommitment_from_bytes (G:=G) b).
Proof.
  split; [intros x; exact (codec_exact (T:=DistributedShare F) b x)|].
  split; [intros x; exact (codec_exact (T:=ReencryptReply F G) b x)|].
  split; [intros x; exact (codec_exact (T:=PubPoly G) b x)|].
  split; [intros x; exact (codec_exact (T:=PolynomialCommitment G) b x)|].
  split; [exact (codec_no_panic (T:=DistributedShare F) b)|].
  split; [exact (codec_no_panic (T:=ReencryptReply F G) b)|].
  split; [exact (codec_no_panic (T:=PubPoly G) b)|exact (codec_no_panic (T:=PolynomialCommitment G) b)].
Qed.

End Wire.
