(* ===== verification/Dkg.v ===== *)
(** * Distributed key generation

    [crates/crypto/src/bls12_381/dkg.rs] with the roles and modes of
    [trait/dkg.rs]: the state of one node and its operations.  The methods
    that take [&mut self] are [method]s on [DKGNode]; the others are functions
    of the node. *)
From S2P Require Import Prelude Algebra Interpolation Primitives Codec Common.

(** ** [trait/dkg.rs] *)

Inductive DkgRole : Type := Standard | Dealer | Receiver | DealerReceiver.

#[global] Instance DkgRole_eq_dec : EqDecision DkgRole.
Proof. solve_decision. Defined.

Inductive DkgMode (F : Type) : Type :=
  | Fresh
  | Refresh
  | Reshare (old_share : F) (participating_ids : list Z) (new_threshold new_total_nodes : Z)
      (new_node_id : option Z).
Arguments Fresh {F}. Arguments Refresh {F}. Arguments Reshare {F}.

(** ** The node *)

Record DKGNode (F G : Type) := MkDKGNode {
  id : Z;
  threshold : Z;
  total_nodes : Z;
  role : DkgRole;
  effective_total_nodes : Z;
  effective_threshold : Z;
  effective_receive_id : option Z;
  polynomial_coeffs : list F;
  commitment : PolynomialCommitment G;
  received_shares : gmap Z F;
  received_commitments : gmap Z (PolynomialCommitment G);
  selected_reshare_participants : option (list Z);
  node_session_id : Z;
  complaints : gmap Z (list Z);
}.
Arguments MkDKGNode {F G}.
Arguments id {F G}. Arguments threshold {F G}. Arguments total_nodes {F G}. Arguments role {F G}.
Arguments effective_total_nodes {F G}. Arguments effective_threshold {F G}.
Arguments effective_receive_id {F G}. Arguments polynomial_coeffs {F G}.
Arguments commitment {F G}. Arguments received_shares {F G}.
Arguments received_commitments {F G}. Arguments selected_reshare_participants {F G}.
Arguments node_session_id {F G}. Arguments complaints {F G}.

Section Node.
Context {F G S P : Type} {SF : ScalarField F} {CG : CurveGroup F G} {BL : Blst F G S P}.
Abbreviation node := (DKGNode F G).

(** Field updates. *)
Definition set_reshare (th total : Z) (selected : list Z) (receive : option Z) (n : node) : node :=
  MkDKGNode (id n) (threshold n) (total_nodes n) (role n) total th receive
    (polynomial_coeffs n) (commitment n) (received_shares n) (received_commitments n)
    (Some selected) (node_session_id n) (complaints n).
Definition set_polynomial (coeffs : list F) (n : node) : node :=
  MkDKGNode (id n) (threshold n) (total_nodes n) (role n) (effective_total_nodes n)
    (effective_threshold n) (effective_receive_id n) coeffs (commitment n) (received_shares n)
    (received_commitments n) (selected_reshare_participants n) (node_session_id n) (complaints n).
Definition set_commitment (c : PolynomialCommitment G) (n : node) : node :=
  MkDKGNode (id n) (threshold n) (total_nodes n) (role n) (effective_total_nodes n)
    (effective_threshold n) (effective_receive_id n) (polynomial_coeffs n) c (received_shares n)
    (received_commitments n) (selected_reshare_participants n) (node_session_id n) (complaints n).
Definition set_received_shares (m : gmap Z F) (n : node) : node :=
  MkDKGNode (id n) (threshold n) (total_nodes n) (role n) (effective_total_nodes n)
    (effective_threshold n) (effective_receive_id n) (polynomial_coeffs n) (commitment n) m
    (received_commitments n) (selected_reshare_participants n) (node_session_id n) (complaints n).
Definition set_received_commitments (m : gmap Z (PolynomialCommitment G)) (n : node) : node :=
  MkDKGNode (id n) (threshold n) (total_nodes n) (role n) (effective_total_nodes n)
    (effective_threshold n) (effective_receive_id n) (polynomial_coeffs n) (commitment n)
    (received_shares n) m (selected_reshare_participants n) (node_session_id n) (complaints n).
Definition set_selected (ids : list Z) (n : node) : node :=
  MkDKGNode (id n) (threshold n) (total_nodes n) (role n) (effective_total_nodes n)
    (effective_threshold n) (effective_receive_id n) (polynomial_coeffs n) (commitment n)
    (received_shares n) (received_commitments n) (Some ids) (node_session_id n) (complaints n).
Definition set_complaints (m : gmap Z (list Z)) (n : node) : node :=
  MkDKGNode (id n) (threshold n) (total_nodes n) (role n) (effective_total_nodes n)
    (effective_threshold n) (effective_receive_id n) (polynomial_coeffs n) (commitment n)
    (received_shares n) (received_commitments n) (selected_reshare_participants n)
    (node_session_id n) m.

(** ** Free functions *)

Definition canonicalize_participant_ids (participant_ids : list Z) (total : Z) : result (list Z) :=
  reject (bool_decide (participant_ids = [])) (DKGError "Reshare participant set cannot be empty") ;?
  let ids := dedup (sort_unstable participant_ids) in
  reject (negb (length ids =? length participant_ids)%nat)
    (DKGError "Reshare participant set contains duplicates") ;?
  res_foldl (fun _ i =>
    reject ((i =? 0) || (as_u32 total <? i))
      (DKGError "Invalid reshare participant id {} (must be between 1 and {})")) ids tt ;?
  Ok ids.

Definition lagrange_step (my_id : Z) (st : F * F) (j_raw : Z) : F * F :=
  let '(num, den) := st in
  if j_raw =? my_id then (num, den)
  else let j_fr := from_u64 j_raw in (fmul num (fopp j_fr), fmul den (fsub (from_u64 my_id) j_fr)).

Definition lagrange_at_zero (my_id : Z) (participating_ids : list Z) : result F :=
  let ids := dedup (sort_unstable participating_ids) in
  reject (negb (length ids =? length participating_ids)%nat)
    (DKGError "participating_ids contains duplicates") ;?
  let '(num, den) := fold_left (lagrange_step my_id) ids (fone, fone) in
  let? inv := ok_or (inverse den)
    (DKGError "Lagrange denominator is zero — check participating_ids for duplicates") in
  Ok (fmul num inv).

(** ** Construction *)

Definition new (id0 threshold0 total : Z) (sid : Z) (role0 : DkgRole) : result node :=
  reject (id0 =? 0) (DKGError "Invalid node id: 0") ;?
  reject (negb (bool_decide (role0 = Receiver)) && (as_u32 total <? id0))
    (DKGError "Invalid node id: {} (must be between 1 and {})") ;?
  reject (negb (bool_decide (role0 = Receiver)) && (total <? threshold0))
    (DKGError "Threshold cannot exceed total nodes") ;?
  reject (threshold0 =? 0) (DKGError "Threshold must be at least 1") ;?
  Ok (MkDKGNode id0 threshold0 total role0 total threshold0 None [] (MkPolynomialCommitment [])
        ∅ ∅ None sid ∅).

(** ** Phase 1: the polynomial *)

(** [for _ in 1..n { coeffs.push(Fr::rand(&mut rng)) }]. *)
Fixpoint draw_scalars (n : nat) (rng : Rng F) : list F * Rng F :=
  match n with
  | O => ([], rng)
  | Datatypes.S n' =>
      let '(x, rng1) := rand_scalar rng in
      let '(xs, rng2) := draw_scalars n' rng1 in (x :: xs, rng2)
  end.

(** The constant term of [mode]; a reshare also fixes the parameters of the
    new committee. *)
Definition choose_constant_term (mode : DkgMode F) (rng : Rng F) : method node CryptoError (F * Rng F) :=
  let! n := m_get in
  match mode with
  | Fresh => m_ret (rand_scalar rng)
  | Refresh => m_ret (fzero, rng)
  | Reshare old_share participating_ids new_threshold new_total_nodes new_node_id =>
      m_lift (ensure (bool_decide (id n ∈ participating_ids))
        (DKGError "Node not in participating_ids for resharing")) ;!
      m_lift (reject (Z.of_nat (length participating_ids) <? threshold n)
        (DKGError "Reshare requires at least {} participants (threshold), got {}")) ;!
      m_lift (reject ((new_threshold =? 0) || (new_total_nodes <? new_threshold))
        (DKGError "Invalid new threshold {} for new committee of size {}")) ;!
      m_modify (set_reshare new_threshold new_total_nodes participating_ids new_node_id) ;!
      m_ret (old_share, rng)
  end.

(** [size_of::<Fr>()]: four limbs of eight bytes. *)
Definition FR_SIZE_OF : Z := 32.

(** Draws the other coefficients and commits to all of them. *)
Definition commit_polynomial (constant_term : F) (rng : Rng F) : method node CryptoError (Rng F) :=
  let! n := m_get in
  m_lift (vec_with_capacity FR_SIZE_OF (effective_threshold n)) ;!
  let '(blind, rng') := draw_scalars (Z.to_nat (effective_threshold n) - 1) rng in
  let coeffs := constant_term :: blind in
  m_modify (set_polynomial coeffs) ;!
  let! points := m_lift (res_mapM (fun c => ct_mul_g1 generator c) coeffs) in
  m_modify (set_commitment (MkPolynomialCommitment points)) ;!
  m_ret rng'.

Definition generate_polynomial (mode : DkgMode F) (rng : Rng F) : method node CryptoError (Rng F) :=
  let! n := m_get in
  m_lift (reject (bool_decide (role n = Receiver))
    (DKGError "Receiver role cannot generate a polynomial")) ;!
  let! '(constant_term, rng1) := choose_constant_term mode rng in
  commit_polynomial constant_term rng1.

Definition select_reshare_participants (participant_ids : list Z) : method node CryptoError unit :=
  let! n := m_get in
  m_lift (ensure (bool_decide (role n = Dealer \/ role n = Receiver \/ role n = DealerReceiver))
    (DKGError "select_reshare_participants is only valid for reshare roles")) ;!
  let! ids := m_lift (canonicalize_participant_ids participant_ids (total_nodes n)) in
  m_lift (reject (Z.of_nat (length ids) <? threshold n)
    (DKGError "Reshare participant set has {} dealers, below threshold {}")) ;!
  m_modify (set_selected ids).

(** ** Phase 2: the shares *)

Definition eval_polynomial (n : node) (x : Z) : F :=
  match polynomial_coeffs n with
  | [] => fzero
  | c :: rest => (fold_left (eval_poly_step fadd fmul fmul (from_u64 x)) rest (c, from_u64 x)).1
  end.

Fixpoint make_shares (n : node) (ids : list Z) (rng : Rng F) : list (DistributedShare F) * Rng F :=
  match ids with
  | [] => ([], rng)
  | to :: ids' =>
      let share_value := eval_polynomial n to in
      let '(nonce_bytes, rng1) := fill_bytes 16 rng in
      let '(shares, rng2) := make_shares n ids' rng1 in
      (MkDistributedShare (id n) to share_value nonce_bytes (node_session_id n) :: shares, rng2)
  end.

Definition generate_shares (n : node) (rng : Rng F) : result (list (DistributedShare F) * Rng F) :=
  reject (bool_decide (role n = Receiver)) (DKGError "Receiver role cannot generate shares") ;?
  reject (bool_decide (polynomial_coeffs n = [])) (DKGError "Must call generate_polynomial first") ;?
  Ok (make_shares n (seqZ 1 (as_u32 (effective_total_nodes n))) rng).

(** ** Phase 3: receiving *)

(** [effective_receive_id.unwrap_or(self.id)]. *)
Definition receive_id (n : node) : Z := default (id n) (effective_receive_id n).

Definition deals_and_receives (n : node) : bool :=
  bool_decide (role n = Standard \/ role n = DealerReceiver).

Definition receive_share (share : DistributedShare F) : method node CryptoError unit :=
  let! n := m_get in
  m_lift (reject (bool_decide (role n = Dealer)) (DKGError "Dealer role does not receive shares")) ;!
  m_lift (reject ((from_id share =? 0) || (as_u32 (total_nodes n) <? from_id share))
    (DKGError "Invalid from_id: {} (must be between 1 and {})")) ;!
  m_lift (reject (deals_and_receives n && (from_id share =? id n))
    (DKGError "Invalid from_id: cannot receive share from self")) ;!
  m_lift (reject (bool_decide (is_Some (received_shares n !! from_id share)))
    (DKGError "Duplicate share from node {}")) ;!
  m_lift (reject (negb (to_id share =? receive_id n)) (DKGError "Share not intended for this node")) ;!
  m_lift (reject (negb (session_id share =? node_session_id n))
    (DKGError "Share from different session - possible replay attack")) ;!
  let! c := m_lift (ok_or (received_commitments n !! from_id share)
                      (CommitmentMissing (from_id share))) in
  (if negb (verify_share c (to_id share) (value share)) then
     m_modify (set_complaints
       (<[id n := default [] (complaints n !! id n) ++ [from_id share]]> (complaints n))) ;!
     m_lift (Err (DKGError "Share verification failed"))
   else m_ret tt) ;!
  m_modify (set_received_shares (<[from_id share := value share]> (received_shares n))).

Definition receive_commitment (from : Z) (c : PolynomialCommitment G) : method node CryptoError unit :=
  let! n := m_get in
  m_lift (reject ((from =? 0) || (as_u32 (total_nodes n) <? from)) (DKGError "Invalid node id: {}")) ;!
  m_lift (reject (deals_and_receives n && (from =? id n)) (DKGError "Cannot receive commitment from self")) ;!
  m_lift (reject (bool_decide (coefficients c = [])) (DKGError "Commitment has no coefficients")) ;!
  m_lift (reject (bool_decide (is_Some (received_commitments n !! from)))
    (DKGError "Duplicate commitment from node {}")) ;!
  m_modify (set_received_commitments (<[from := c]> (received_commitments n))).

(** ** Phase 4: the results *)

Definition is_reshare_receiver (n : node) : bool :=
  bool_decide (role n = Receiver \/ role n = DealerReceiver).

Definition reshare_participants (n : node) : result (list Z) :=
  match selected_reshare_participants n with
  | Some ids => canonicalize_participant_ids ids (total_nodes n)
  | None => Err (DKGError
      "Reshare participant set not yet selected — call select_reshare_participants first")
  end.

Definition reshare_commitment_for (n : node) (participant_id : Z) : result (PolynomialCommitment G) :=
  if bool_decide (role n = DealerReceiver) && (participant_id =? id n) then
    reject (bool_decide (coefficients (commitment n) = []))
      (DKGError "Local commitment not generated: call generate_polynomial first") ;?
    Ok (commitment n)
  else ok_or (received_commitments n !! participant_id)
         (DKGError "Missing commitment from selected dealer {}").

Definition missing_polynomial : CryptoError := DKGError
  "Local polynomial not generated: call generate_polynomial before compute_secret_share".

Definition reshare_share_for (n : node) (participant_id : Z) : result F :=
  if bool_decide (role n = DealerReceiver) && (participant_id =? id n) then
    reject (bool_decide (polynomial_coeffs n = [])) missing_polynomial ;?
    Ok (eval_polynomial n (receive_id n))
  else ok_or (received_shares n !! participant_id)
         (DKGError "Missing reshare share from selected dealer {}").

Definition compute_secret_share (n : node) : result (PriShare F) :=
  reject (bool_decide (role n = Dealer)) (DKGError "Dealer role does not compute a secret share") ;?
  if is_reshare_receiver n then
    let? participants := reshare_participants n in
    let? secret_share := res_foldl (fun acc pid =>
      let? lambda := lagrange_at_zero pid participants in
      let? share_value := reshare_share_for n pid in
      Ok (fadd acc (fmul lambda share_value))) participants fzero in
    Ok (MkPriShare (receive_id n) secret_share)
  else
    let? expected := usize_sub (total_nodes n) 1 in
    reject (negb (Z.of_nat (size (received_shares n)) =? expected))
      (DKGError "Missing shares: received {}, expected {}") ;?
    reject (bool_decide (polynomial_coeffs n = [])) missing_polynomial ;?
    Ok (MkPriShare (id n)
          (map_fold (fun _ v acc => fadd acc v) (eval_polynomial n (id n)) (received_shares n))).

Definition compute_aggregate_public_key (n : node) : result G :=
  if is_reshare_receiver n then
    let? participants := reshare_participants n in
    res_foldl (fun acc pid =>
      let? lambda := lagrange_at_zero pid participants in
      let? c := reshare_commitment_for n pid in
      let? c0 := index (coefficients c) 0 in
      Ok (acc ⊕ c0 ⊙ lambda)) participants g_zero
  else
    let? expected := usize_sub (total_nodes n) 1 in
    reject (negb (Z.of_nat (size (received_commitments n)) =? expected))
      (DKGError "Missing commitments: received {}, expected {}") ;?
    reject (bool_decide (coefficients (commitment n) = []))
      (DKGError "Local commitment not generated: call generate_polynomial first") ;?
    let? own := index (coefficients (commitment n)) 0 in
    map_fold (fun _ c acc =>
      let? acc' := acc in
      let? c0 := index (coefficients c) 0 in
      Ok (acc' ⊕ c0)) (Ok own) (received_commitments n).

Definition public_key_is_identity (public_key : G) : bool := g_is_zero public_key.

(** [for (i, coeff) in coeffs.iter().enumerate() { agg[i] += f(coeff) }]. *)
Fixpoint add_into (agg coeffs : list G) : result (list G) :=
  match coeffs, agg with
  | [], _ => Ok agg
  | c :: coeffs', a :: agg' => let? rest := add_into agg' coeffs' in Ok (a ⊕ c :: rest)
  | _ :: _, [] => Panic
  end.

Definition inconsistent_length : CryptoError := DKGError
  "Commitment from node {} has inconsistent length: expected {}, got {}".

Definition compute_public_polynomial (n : node) : result (PubPoly G) :=
  let? aggregated_coeffs :=
    if is_reshare_receiver n then
      let? participants := reshare_participants n in
      let? first_id := index participants 0 in
      let? first := reshare_commitment_for n first_id in
      let num_coeffs := length (coefficients first) in
      res_foldl (fun agg pid =>
        let? lambda := lagrange_at_zero pid participants in
        let? c := reshare_commitment_for n pid in
        reject (negb (length (coefficients c) =? num_coeffs)%nat) inconsistent_length ;?
        add_into agg ((fun p => p ⊙ lambda) <$> coefficients c))
        participants (replicate num_coeffs g_zero)
    else
      let? expected := usize_sub (total_nodes n) 1 in
      reject (negb (Z.of_nat (size (received_commitments n)) =? expected))
        (DKGError "Missing commitments: received {}, expected {}") ;?
      reject (bool_decide (coefficients (commitment n) = []))
        (DKGError "Local commitment not generated: call generate_polynomial first") ;?
      let num_coeffs := length (coefficients (commitment n)) in
      map_fold (fun _ c acc =>
        acc ;? reject (negb (length (coefficients c) =? num_coeffs)%nat) inconsistent_length)
        (Ok tt) (received_commitments n) ;?
      map_fold (fun _ c acc => let? agg := acc in add_into agg (coefficients c))
        (Ok (coefficients (commitment n))) (received_commitments n)
  in
  Ok (MkPubPoly aggregated_coeffs).

Definition combine_pub_poly_bytes (a b : bytes) : result bytes :=
  let? poly_a := PubPoly_from_bytes a in
  let? poly_b := PubPoly_from_bytes b in
  reject (negb (length (commits poly_a) =? length (commits poly_b))%nat)
    (DKGError "combine_pub_poly_bytes: length mismatch ({} vs {})") ;?
  PubPoly_to_bytes (MkPubPoly (zip_with g_add (commits poly_a) (commits poly_b))).

End Node.
