(* ===== verification/DkgSpec.v ===== *)
(** * Correctness of the key generation node

    The Lagrange weights, the state invariant of [DKGNode] and its
    preservation by every operation, in any order and whatever the other parties
    send; the shares a node holds belong to its index as long as no reshare
    polynomial gives it another index. *)
From S2P Require Import Prelude Algebra Interpolation Primitives Codec Common Dkg.

(** ** Lagrange weights and participant sets *)

Section Lagrange.
Context {F : Type} {SF : ScalarField F}.
Local Open Scope fr_scope.
Add Field FField : (f_theory (F:=F)).

Lemma basis_permutation (xs ys : list F) x X : xs ≡ₚ ys -> basis xs x X = basis ys x X.
Proof.
  intros E. unfold basis, others.
  by rewrite !(fprod_permutation (_ <$> filter _ xs) _ (fmap_Permutation _ _ _ (filter_Permutation _ _ _ E))).
Qed.

Lemma lagrange_loop my_id ids (num den : F) :
  fold_left (lagrange_step my_id) ids (num, den) =
  (num * fprod ((fun j => 0 - from_u64 j) <$> filter (fun j => j <> my_id) ids),
   den * fprod ((fun j => from_u64 my_id - from_u64 j) <$> filter (fun j => j <> my_id) ids)).
Proof.
  revert num den; induction ids as [|j ids IH]; intros num den; cbn [fold_left lagrange_step].
  - csimpl. f_equal; ring.
  - destruct (Z.eqb_spec j my_id) as [->|Hne].
    + rewrite IH, filter_cons_False by (intros E; by apply E). done.
    + rewrite IH, filter_cons_True by done. csimpl. f_equal; ring.
Qed.

(** For distinct ids the coefficient is the Lagrange weight at zero. *)
Lemma lagrange_at_zero_spec my_id ids :
  Forall is_u32 ids -> is_u32 my_id -> NoDup ids ->
  lagrange_at_zero my_id ids = Ok (weight (F:=F) (from_u64 <$> ids) (from_u64 my_id)).
Proof.
  intros Hu Hi Hnd. unfold lagrange_at_zero. rewrite canonical_NoDup by done.
  rewrite sort_unstable_perm, Nat.eqb_refl. cbn [negb reject res_bind]. rewrite lagrange_loop.
  assert (Forall is_u32 (sort_unstable ids)) as Hs by (by rewrite sort_unstable_perm).
  pose proof (others_ids (F:=F) _ my_id Hs Hi) as Ho.
  pose proof (others_nonzero (from_u64 (F:=F) my_id) (from_u64 <$> sort_unstable ids)) as Hnz.
  rewrite Ho, <- list_fmap_compose in Hnz. apply fprod_nonzero in Hnz.
  rewrite inverse_Some; [|intros E; apply Hnz; rewrite <- E; unfold compose; ring].
  cbn [ok_or res_bind]. f_equal.
  rewrite weight_basis, <- (basis_permutation (from_u64 <$> sort_unstable ids)).
  - unfold basis. rewrite Ho, <- !list_fmap_compose. unfold compose. field. exact Hnz.
  - by rewrite sort_unstable_perm.
Qed.

Lemma lagrange_at_zero_dup my_id ids :
  ~ NoDup ids ->
  lagrange_at_zero (F:=F) my_id ids = Err (DKGError "participating_ids contains duplicates").
Proof.
  intros Hnd. unfold lagrange_at_zero.
  destruct (Nat.eqb_spec (length (dedup (sort_unstable ids))) (length ids)) as [E|]; [|done].
  apply canonical_length in E as [? _]. done.
Qed.

End Lagrange.

Lemma range_loop total l :
  res_foldl (fun _ i => reject ((i =? 0) || (as_u32 total <? i))
    (DKGError "Invalid reshare participant id {} (must be between 1 and {})")) l tt = Ok tt <->
  Forall (fun i => i <> 0 /\ i <= as_u32 total) l.
Proof.
  induction l as [|i l IH]; cbn; [done|]. rewrite Forall_cons, <- IH, res_bind_Ok. split.
  - intros ([] & [?%Z.eqb_neq ?%Z.ltb_ge]%reject_Ok%orb_false_iff & ?). done.
  - intros [[? ?] ?]. exists tt. by rewrite reject_Ok, orb_false_iff, Z.eqb_neq, Z.ltb_ge.
Qed.

(** Which sets are accepted, and that the result is the sorted set. *)
Lemma canonicalize_Ok l total ids :
  canonicalize_participant_ids l total = Ok ids <->
  l <> [] /\ NoDup l /\ Forall (fun i => i <> 0 /\ i <= as_u32 total) l /\ ids = sort_unstable l.
Proof.
  unfold canonicalize_participant_ids. split.
  - intros H. bind_ok H as ? Hne. bind_ok H as ? E. bind_ok H as u Hr. inv_ok. destruct u.
    apply bool_decide_eq_false in Hne. apply negb_false_iff, Nat.eqb_eq, canonical_length in E as [Hnd E].
    apply range_loop in Hr. rewrite E in *. rewrite sort_unstable_perm in Hr. done.
  - intros (Hne & Hnd & Hr & ->). rewrite bool_decide_eq_false_2 by done. cbn [reject res_bind].
    rewrite canonical_NoDup by done.
    rewrite sort_unstable_perm at 1. rewrite Nat.eqb_refl. cbn [negb reject res_bind].
    rewrite res_bind_Ok. exists tt. split; [|done]. apply range_loop. by rewrite sort_unstable_perm.
Qed.

Lemma no_panic_canonicalize l total : no_panic (canonicalize_participant_ids l total).
Proof.
  unfold canonicalize_participant_ids. repeat (apply no_panic_bind; [|intros]); auto with orbis.
  apply no_panic_foldl. auto with orbis.
Qed.
#[export] Hint Resolve no_panic_canonicalize : orbis.

(** What a reshare receiver's node works with. *)
Record participants_ok (total : Z) (ids : list Z) : Prop := {
  pids_ne : ids <> [];
  pids_NoDup : NoDup ids;
  pids_u32 : Forall is_u32 ids;
  pids_range : Forall (fun i => 1 <= i <= as_u32 total) ids;
}.

Lemma canonicalize_participants l total ids :
  Forall is_u32 l -> canonicalize_participant_ids l total = Ok ids -> participants_ok total ids.
Proof.
  intros Hu (Hne & Hnd & Hr & ->)%canonicalize_Ok.
  split; rewrite ?sort_unstable_perm; [|done|done|].
  - intros E. apply Hne. apply Permutation_nil_r. by rewrite <- E, sort_unstable_perm.
  - rewrite Forall_forall in Hu, Hr |- *. intros i Hi. specialize (Hu i Hi). specialize (Hr i Hi).
    unfold is_u32 in Hu. cbn in *. lia.
Qed.

(** ** Outcomes of the operations *)

Section Outcomes.
Context {F G S P : Type} {SF : ScalarField F} {CG : CurveGroup F G} {BL : Blst F G S P}.
Abbreviation node := (DKGNode F G).

Definition valid_sender (n : node) (from : Z) : Prop :=
  from <> 0 /\ from <= as_u32 (total_nodes n) /\ (deals_and_receives n = true -> from <> id n).

(** A share the node takes. *)
Record share_accepted (n : node) (s : DistributedShare F) : Prop := {
  sa_role : role n <> Dealer;
  sa_sender : valid_sender n (from_id s);
  sa_fresh : received_shares n !! from_id s = None;
  sa_to : to_id s = receive_id n;
  sa_session : session_id s = node_session_id n;
  sa_verifies : exists c, received_commitments n !! from_id s = Some c /\
                          verify_share c (to_id s) (value s) = true;
}.

(** A commitment the node takes. *)
Record commitment_accepted (n : node) (from : Z) (c : PolynomialCommitment G) : Prop := {
  ca_sender : valid_sender n from;
  ca_ne : coefficients c <> [];
  ca_fresh : received_commitments n !! from = None;
}.

Definition complain (n : node) (accused : Z) : node :=
  set_complaints (<[id n := default [] (complaints n !! id n) ++ [accused]]> (complaints n)) n.

Lemma sender_checks (n : node) from :
  (from =? 0) || (as_u32 (total_nodes n) <? from) = false ->
  deals_and_receives n && (from =? id n) = false -> valid_sender n from.
Proof.
  intros [?%Z.eqb_neq ?%Z.ltb_ge]%orb_false_iff E. split; [done|split; [done|]].
  intros Hd. rewrite Hd in E. by apply Z.eqb_neq.
Qed.

Lemma sender_checks_inv (n : node) from :
  valid_sender n from ->
  (from =? 0) || (as_u32 (total_nodes n) <? from) = false /\
  deals_and_receives n && (from =? id n) = false.
Proof.
  intros (H0 & Ht & Hd). rewrite orb_false_iff, Z.eqb_neq, Z.ltb_ge. split; [done|].
  destruct (deals_and_receives n); [|done]. by apply Z.eqb_neq, Hd.
Qed.

Lemma receive_commitment_cases from c (n : node) :
  (exists e, receive_commitment from c n = (Err e, n)) \/
  (commitment_accepted n from c /\
   receive_commitment from c n =
     (Ok tt, set_received_commitments (<[from := c]> (received_commitments n)) n)).
Proof.
  unfold receive_commitment. do 4 m_step. right. split; [|done].
  split; [by apply sender_checks|by eapply bool_decide_eq_false|].
  by eapply eq_None_not_Some, bool_decide_eq_false.
Qed.

Lemma receive_share_cases s (n : node) :
  (exists e, receive_share s n = (Err e, n)) \/
  (exists c, received_commitments n !! from_id s = Some c /\
     verify_share c (receive_id n) (value s) = false /\
     receive_share s n = (Err (DKGError "Share verification failed"), complain n (from_id s))) \/
  (share_accepted n s /\
   receive_share s n = (Ok tt, set_received_shares (<[from_id s := value s]> (received_shares n)) n)).
Proof.
  unfold receive_share. do 7 m_step. rename select (_ !! _ = Some _) into Hc.
  repeat match goal with
  | H : bool_decide _ = false |- _ => apply bool_decide_eq_false in H
  | H : negb (_ =? _) = false |- _ => apply negb_false_iff, Z.eqb_eq in H
  end.
  m_run. destruct (verify_share p (to_id s) (value s)) eqn:Hv; cbn [negb].
  - right; right. split; [|done]. split; eauto.
    + by apply sender_checks.
    + by apply eq_None_not_Some.
  - right; left. exists p. split; [done|]. split; [congruence|done].
Qed.
Lemma receive_commitment_ok from c (n : node) :
  commitment_accepted n from c ->
  receive_commitment from c n =
    (Ok tt, set_received_commitments (<[from := c]> (received_commitments n)) n).
Proof.
  intros [Hs Hne Hf]. apply sender_checks_inv in Hs as [H1 H2]. unfold receive_commitment. m_run.
  rewrite m_bind_reject, H1, m_bind_reject, H2, m_bind_reject, bool_decide_eq_false_2 by done.
  rewrite m_bind_reject, Hf, bool_decide_eq_false_2 by (by intros [? ?]). done.
Qed.

Lemma receive_share_ok s (n : node) :
  share_accepted n s ->
  receive_share s n = (Ok tt, set_received_shares (<[from_id s := value s]> (received_shares n)) n).
Proof.
  intros [Hr Hs Hf Ht Hsid (c & Hc & Hv)]. apply sender_checks_inv in Hs as [H1 H2].
  unfold receive_share. m_run.
  rewrite m_bind_reject, bool_decide_eq_false_2, m_bind_reject, H1, m_bind_reject, H2 by done.
  rewrite m_bind_reject, Hf, bool_decide_eq_false_2 by (by intros [? ?]).
  rewrite m_bind_reject, Ht, Z.eqb_refl. cbn [negb].
  rewrite m_bind_reject, Hsid, Z.eqb_refl. cbn [negb]. rewrite m_bind_ok_or, Hc, <- Ht, Hv. done.
Qed.

Definition configure (mode : DkgMode F) (n : node) : node :=
  match mode with
  | Reshare _ ids new_threshold new_total new_id => set_reshare new_threshold new_total ids new_id n
  | _ => n
  end.

Definition constant_term (mode : DkgMode F) (rng : Rng F) : F * Rng F :=
  match mode with
  | Fresh => rand_scalar rng
  | Refresh => (fzero, rng)
  | Reshare old_share _ _ _ _ => (old_share, rng)
  end.

(** The polynomial drawn for [mode]. *)
Definition drawn (mode : DkgMode F) (rng : Rng F) (n : node) : list F * Rng F :=
  let '(c0, rng1) := constant_term mode rng in
  let '(blind, rng2) := draw_scalars (Z.to_nat (effective_threshold (configure mode n)) - 1) rng1 in
  (c0 :: blind, rng2).

Definition install (cs : list F) (n : node) : node :=
  set_commitment (MkPolynomialCommitment (commit_all cs)) (set_polynomial cs n).

Definition mode_accepted (n : node) (mode : DkgMode F) : Prop :=
  role n <> Receiver /\
  match mode with
  | Reshare _ ids new_threshold new_total _ =>
      id n ∈ ids /\ threshold n <= Z.of_nat (length ids) /\
      new_threshold <> 0 /\ new_threshold <= new_total
  | _ => True
  end.

Lemma commit_loop (cs : list F) :
  res_mapM (fun c => ct_mul_g1 (generator (G:=G)) c) cs = Ok (commit_all cs).
Proof. apply res_mapM_pure. intros c _. apply ct_mul_g1_generator. Qed.

Lemma draw_scalars_length k rng : length (draw_scalars (F:=F) k rng).1 = k.
Proof.
  revert rng; induction k as [|k IH]; intros rng; cbn [draw_scalars]; [done|].
  destruct (rand_scalar rng) as [x rng1]. specialize (IH rng1).
  destruct (draw_scalars k rng1) as [xs rng2]. cbn in *. by rewrite IH.
Qed.

Lemma choose_constant_term_cases mode rng (n : node) :
  role n <> Receiver ->
  (exists e, choose_constant_term mode rng n = (Err e, n)) \/
  (mode_accepted n mode /\
   choose_constant_term mode rng n = (Ok (constant_term mode rng), configure mode n)).
Proof.
  intros Hr. unfold choose_constant_term, mode_accepted. m_run.
  destruct mode as [| |old ids nt ntn nid]; [by right|by right|].
  do 3 m_step. repeat match goal with
  | H : bool_decide _ = true |- _ => apply bool_decide_eq_true in H
  | H : (_ <? _) = false |- _ => apply Z.ltb_ge in H
  | H : (_ || _) = false |- _ => apply orb_false_iff in H as [?%Z.eqb_neq ?%Z.ltb_ge]
  end. by right.
Qed.

Lemma choose_constant_term_ok mode rng (n : node) :
  mode_accepted n mode -> choose_constant_term mode rng n = (Ok (constant_term mode rng), configure mode n).
Proof.
  intros [_ Hm]. destruct mode as [| |old ids nt ntn nid]; [done|done|]. destruct Hm as (H1 & H2 & H3 & H4).
  unfold choose_constant_term. m_run.
  rewrite m_bind_ensure, bool_decide_eq_true_2, m_bind_reject, (proj2 (Z.ltb_ge _ _)) by done.
  by rewrite m_bind_reject, (proj2 (Z.eqb_neq nt 0)), (proj2 (Z.ltb_ge ntn nt)).
Qed.

(** Whether a vector can hold the coefficients of a node's polynomial. *)
Definition fits (n : node) : Prop := effective_threshold n * FR_SIZE_OF <= isize_max.

#[export] Instance fits_dec (n : node) : Decision (fits n).
Proof. unfold fits. apply _. Defined.

Lemma with_capacity_fits (n : node) :
  vec_with_capacity (E:=CryptoError) FR_SIZE_OF (effective_threshold n) = if decide (fits n) then Ok tt else Panic.
Proof. unfold vec_with_capacity, fits. destruct (Z.ltb_spec isize_max (effective_threshold n * FR_SIZE_OF)); case_decide; (done || lia). Qed.

Lemma commit_polynomial_spec c0 rng (n : node) :
  commit_polynomial c0 rng n =
  if decide (fits n) then
    let '(blind, rng') := draw_scalars (Z.to_nat (effective_threshold n) - 1) rng in
    (Ok rng', install (c0 :: blind) n)
  else (Panic, n).
Proof.
  unfold commit_polynomial. m_run. rewrite with_capacity_fits. case_decide; [|done]. rewrite m_bind_Ok.
  destruct (draw_scalars _ rng) as [blind rng']. by rewrite commit_loop.
Qed.

Lemma generate_polynomial_cases mode rng (n : node) :
  (exists e, generate_polynomial mode rng n = (Err e, n)) \/
  (mode_accepted n mode /\
   (~ fits (configure mode n) /\ generate_polynomial mode rng n = (Panic, configure mode n) \/
    fits (configure mode n) /\
    generate_polynomial mode rng n =
      (Ok (drawn mode rng n).2, install (drawn mode rng n).1 (configure mode n)))).
Proof.
  unfold generate_polynomial. m_step. rename select (bool_decide _ = false) into Hr.
  apply bool_decide_eq_false in Hr. unfold m_bind, drawn.
  destruct (choose_constant_term_cases mode rng n Hr) as [[e ->]|[Hm ->]]; [by eauto|].
  right. split; [done|]. destruct (constant_term mode rng) as [c0 rng1].
  rewrite commit_polynomial_spec. case_decide; [right|by left]. by destruct (draw_scalars _ _).
Qed.

Lemma generate_polynomial_panics mode rng (n : node) :
  (generate_polynomial mode rng n).1 = Panic <-> mode_accepted n mode /\ ~ fits (configure mode n).
Proof.
  unfold generate_polynomial. m_run. rewrite m_bind_reject. case_bool_decide as Hr.
  { split; [done|]. by intros [[H _] _]. }
  unfold m_bind. pose proof (choose_constant_term_cases mode rng n Hr) as Hc.
  assert (mode_accepted n mode -> choose_constant_term mode rng n = (Ok (constant_term mode rng), configure mode n)) as Hm
    by apply choose_constant_term_ok.
  destruct Hc as [[e E]|[Ha E]]; rewrite E.
  - split; [done|]. by intros [H%Hm _]; rewrite E in H.
  - destruct (constant_term mode rng) as [c0 rng1]. rewrite commit_polynomial_spec.
    case_decide; [|done]. destruct (draw_scalars _ _). split; [done|]. by intros [_ ?].
Qed.

Lemma generate_polynomial_ok mode rng (n : node) :
  mode_accepted n mode -> fits (configure mode n) ->
  generate_polynomial mode rng n =
    (Ok (drawn mode rng n).2, install (drawn mode rng n).1 (configure mode n)).
Proof.
  intros [Hr Hm] Hf. unfold generate_polynomial. m_run.
  rewrite m_bind_reject, bool_decide_eq_false_2 by done.
  unfold m_bind, drawn. rewrite choose_constant_term_ok by done. destruct (constant_term mode rng) as [c0 rng1].
  rewrite commit_polynomial_spec, decide_True by done. by destruct (draw_scalars _ _).
Qed.

Lemma drawn_length mode rng (n : node) :
  length (drawn mode rng n).1 = Datatypes.S (Z.to_nat (effective_threshold (configure mode n)) - 1).
Proof.
  unfold drawn. destruct (constant_term mode rng) as [c0 rng1].
  pose proof (draw_scalars_length (Z.to_nat (effective_threshold (configure mode n)) - 1) rng1) as L.
  destruct (draw_scalars _ rng1) as [blind rng2]. cbn in *. by rewrite L.
Qed.

Lemma select_reshare_cases ids (n : node) :
  (exists r, (forall u, r <> Ok u) /\ r <> Panic /\ select_reshare_participants ids n = (r, n)) \/
  (exists ids', canonicalize_participant_ids ids (total_nodes n) = Ok ids' /\
   threshold n <= Z.of_nat (length ids') /\
   select_reshare_participants ids n = (Ok tt, set_selected ids' n)).
Proof.
  unfold select_reshare_participants. m_run. rewrite m_bind_ensure.
  pose proof (no_panic_canonicalize ids (total_nodes n)) as Hp.
  case_match; [|left; eexists; split; [|split; [|reflexivity]]; done].
  destruct (canonicalize_participant_ids ids (total_nodes n)) as [ids'|e| |] eqn:Hc;
    try (left; eexists; split; [|split; [|reflexivity]]; done).
  rewrite !m_bind_Ok, !m_bind_reject. case_match eqn:Hl.
  - left; eexists; split; [|split; [|reflexivity]]; done.
  - apply Z.ltb_ge in Hl. right. by exists ids'.
Qed.

End Outcomes.

(** ** The invariant *)

Section Invariant.
Context {F G S P : Type} {SF : ScalarField F} {CG : CurveGroup F G} {BL : Blst F G S P}.
Abbreviation node := (DKGNode F G).

(** What holds after any calls; every stored share was checked against its
    sender's commitment at the index the node had when it came. *)
Record node_ok (n : node) : Prop := {
  ok_id : is_u32 (id n) /\ id n <> 0;
  ok_total : is_usize (total_nodes n);
  ok_id_range : role n <> Receiver -> id n <= as_u32 (total_nodes n);
  ok_threshold : 1 <= effective_threshold n;
  ok_receive : is_u32 (receive_id n);
  ok_commitment : coefficients (commitment n) = commit_all (polynomial_coeffs n);
  ok_commitments : forall i c, received_commitments n !! i = Some c ->
    valid_sender n i /\ is_u32 i /\ coefficients c <> [] /\
    Forall (fun p => in_subgroup p = true) (coefficients c);
  ok_checked : forall i v, received_shares n !! i = Some v ->
    exists c j, received_commitments n !! i = Some c /\ is_u32 j /\ verify_share c j v = true;
  ok_selected : forall ids, selected_reshare_participants n = Some ids -> Forall is_u32 ids;
}.

(** The shares belong to the index the node receives at, which is its own id
    outside of a reshare. *)
Record index_ok (n : node) : Prop := {
  ok_standard : role n = Standard -> receive_id n = id n;
  ok_shares : forall i v, received_shares n !! i = Some v ->
    exists c, received_commitments n !! i = Some c /\ verify_share c (receive_id n) v = true;
}.

(** The calls the node layer makes on a session's node. *)
Inductive op : Type :=
  | OpPolynomial (mode : DkgMode F) (rng : Rng F)
  | OpSelect (ids : list Z)
  | OpShare (share : DistributedShare F)
  | OpCommitment (from : Z) (c : PolynomialCommitment G).

Definition apply_op (n : node) (o : op) : node :=
  match o with
  | OpPolynomial mode rng => (generate_polynomial mode rng n).2
  | OpSelect ids => (select_reshare_participants ids n).2
  | OpShare share => (receive_share share n).2
  | OpCommitment from c => (receive_commitment from c n).2
  end.

(** The arguments have their Rust types, and received points have been decoded,
    so that they lie in the subgroup. *)
Definition well_typed (o : op) : Prop :=
  match o with
  | OpPolynomial (Reshare _ ids new_threshold new_total_nodes new_id) _ =>
      Forall is_u32 ids /\ is_usize new_threshold /\ is_usize new_total_nodes /\ (forall i, new_id = Some i -> is_u32 i)
  | OpPolynomial _ _ | OpShare _ => True
  | OpSelect ids => Forall is_u32 ids
  | OpCommitment from c => is_u32 from /\ Forall (fun p => in_subgroup p = true) (coefficients c)
  end.

(** A reshare polynomial does not give another index to a node that holds
    shares, nor to one outside of a reshare.  The operations do not check it. *)
Definition steady (n : node) (o : op) : Prop :=
  match o with
  | OpPolynomial (Reshare _ _ _ _ new_id) _ =>
      (received_shares n = ∅ \/ default (id n) new_id = receive_id n) /\
      (role n = Standard -> default (id n) new_id = id n)
  | _ => True
  end.

(** The nodes that calls with the property [A] lead to. *)
Inductive reachable_by (A : node -> op -> Prop) : node -> Prop :=
  | reachable_new id0 threshold0 total sid role0 n :
      is_u32 id0 -> is_usize threshold0 -> is_usize total ->
      new id0 threshold0 total sid role0 = Ok n -> reachable_by A n
  | reachable_step n o : reachable_by A n -> A n o -> reachable_by A (apply_op n o).

Definition reachable : node -> Prop := reachable_by (fun _ => well_typed).
Definition reachable_steady : node -> Prop := reachable_by (fun n o => well_typed o /\ steady n o).

Lemma steady_reachable n : reachable_steady n -> reachable n.
Proof. induction 1 as [i t total sid r n|n o _ IH [Ho _]]; [by apply (reachable_new _ i t total sid r)|by apply reachable_step]. Qed.

Lemma new_ok id0 threshold0 total sid role0 n :
  is_u32 id0 -> is_usize threshold0 -> is_usize total ->
  new id0 threshold0 total sid role0 = Ok n -> node_ok n /\ index_ok n.
Proof.
  intros Hi Ht Hn H. unfold new in H. bind_ok H as ? E0. bind_ok H as ? E1. bind_ok H as ? E2.
  bind_ok H as ? E3. inv_ok. apply Z.eqb_neq in E0, E3. unfold is_usize in Ht.
  split; split; cbn; try done; [|lia|by intros i c ?%lookup_empty_Some..].
  intros Hr. apply andb_false_iff in E1 as [E1|E1]; [|by apply Z.ltb_ge in E1].
  apply negb_false_iff, bool_decide_eq_true in E1. done.
Qed.

Lemma install_ok cs (n : node) : node_ok n -> node_ok (install cs n).
Proof. intros []. by split. Qed.

Lemma configure_ok mode rng (n : node) :
  node_ok n -> mode_accepted n mode -> well_typed (OpPolynomial mode rng) -> node_ok (configure mode n).
Proof.
  intros Hok Hm Ha. destruct mode as [| |old ids nt ntn nid]; [done..|].
  destruct Hm as (Hr & _ & _ & Hnt & _), Ha as (Hu & Hnu & _ & Hid).
  unfold is_usize in Hnu. destruct Hok. split; cbn; try done; [lia| |].
  - unfold receive_id. cbn. destruct nid as [i|]; cbn; [by apply Hid|apply ok_id0].
  - by intros ids' [= <-].
Qed.

Lemma configure_index mode rng (n : node) : index_ok n -> steady n (OpPolynomial mode rng) -> index_ok (configure mode n).
Proof.
  intros [Hs Hv] Ha. destruct mode as [| |old ids nt ntn nid]; [done..|]. destruct Ha as [Hi Hr].
  split; cbn; [done|]. intros i v Hl. destruct Hi as [Hi|Hi]; [by rewrite Hi in Hl|].
  destruct (Hv i v Hl) as (c & Hc & E). exists c. split; [done|]. unfold receive_id. cbn. by rewrite Hi.
Qed.

Lemma step_ok (n : node) o : node_ok n -> well_typed o -> node_ok (apply_op n o).
Proof.
  intros Hok Ha. destruct o as [mode rng|ids|s|from c]; cbn [apply_op].
  - destruct (generate_polynomial_cases mode rng n) as [[e ->]|[Hm Hc]]; [done|].
    pose proof (configure_ok mode rng n Hok Hm Ha) as H. destruct Hc as [[_ ->]|[_ ->]]; [done|by apply install_ok].
  - destruct (select_reshare_cases ids n) as [(r & _ & _ & ->)|(ids' & Hc & _ & ->)]; [done|].
    destruct Hok. split; try done. intros ids0 [= <-]. by eapply pids_u32, canonicalize_participants.
  - destruct (receive_share_cases s n) as [[e ->]|[(c & _ & _ & ->)|[[] ->]]]; [done| |].
    + destruct Hok. by split.
    + destruct Hok. split; try done. intros i v. cbn.
      intros [[<- <-]|[_ Hv]]%lookup_insert_Some; [|by apply ok_checked0].
      destruct sa_verifies0 as (c & Hc & Hv). rewrite sa_to0 in Hv. by exists c, (receive_id n).
  - destruct (receive_commitment_cases from c n) as [[e ->]|[[] ->]]; [done|].
    destruct Ha as [Hu Hs], Hok. split; try done; cbn.
    + intros i c' [[<- <-]|[_ Hc]]%lookup_insert_Some; [done|by apply ok_commitments0].
    + intros i v (c' & j & Hc & Hv)%ok_checked0. exists c', j. split; [|done].
      rewrite lookup_insert_ne by (by intros ->; rewrite ca_fresh0 in Hc). done.
Qed.

Lemma step_index (n : node) o : index_ok n -> steady n o -> index_ok (apply_op n o).
Proof.
  intros Hi Ha. destruct o as [mode rng|ids|s|from c]; cbn [apply_op].
  - destruct (generate_polynomial_cases mode rng n) as [[e ->]|[Hm Hc]]; [done|].
    pose proof (configure_index mode rng n Hi Ha) as H.
    destruct Hc as [[_ ->]|[_ ->]]; [done|]. destruct H. by split.
  - destruct (select_reshare_cases ids n) as [(r & _ & _ & ->)|(ids' & Hc & _ & ->)]; [done|].
    destruct Hi. by split.
  - destruct (receive_share_cases s n) as [[e ->]|[(c & _ & _ & ->)|[[] ->]]]; [done| |]; destruct Hi; split; try done.
    intros i v. cbn. intros [[<- <-]|[_ Hv]]%lookup_insert_Some; [|by apply ok_shares0].
    destruct sa_verifies0 as (c & Hc & Hv). rewrite sa_to0 in Hv. by exists c.
  - destruct (receive_commitment_cases from c n) as [[e ->]|[[] ->]]; [done|]. destruct Hi. split; [done|]. cbn.
    intros i v (c' & Hc & Hv)%ok_shares0. exists c'. split; [|done].
    rewrite lookup_insert_ne by (by intros ->; rewrite ca_fresh0 in Hc). done.
Qed.

Lemma reachable_node_ok n : reachable n -> node_ok n.
Proof. induction 1; [eapply new_ok; [..|eassumption]; done|by apply step_ok]. Qed.

Lemma reachable_index_ok n : reachable_steady n -> index_ok n.
Proof. induction 1 as [|n o _ IH [_ Ho]]; [eapply new_ok; [..|eassumption]; done|by apply step_index]. Qed.

End Invariant.
