(* ===== verification/Feldman.v ===== *)
(** * The results of a key generation

    What [compute_secret_share], [compute_aggregate_public_key] and
    [compute_public_polynomial] return on a reachable node, against the
    abstract contract: there are dealer polynomials behind the commitments the
    node holds, and the outputs are the evaluation of, and the commitment to,
    their sum (a key generation or a refresh) or their Lagrange combination
    (a reshare). *)
From S2P Require Import Prelude Algebra Interpolation Primitives Codec Common Dkg DkgSpec.

(** ** Sums of polynomials *)

Section Sums.
Context {F G : Type} {SF : ScalarField F} {CG : CurveGroup F G}.
Local Open Scope fr_scope.
Add Field FField : (f_theory (F:=F)).

Lemma padd_comm (cs ds : list F) : padd cs ds = padd ds cs.
Proof. revert ds; induction cs as [|c cs IH]; intros [|d ds]; cbn; [done..|]. f_equal; [ring|done]. Qed.

Lemma padd_assoc (cs ds es : list F) : padd cs (padd ds es) = padd (padd cs ds) es.
Proof.
  revert ds es; induction cs as [|c cs IH]; intros [|d ds] [|e es]; cbn; [done..|].
  f_equal; [ring|done].
Qed.

Lemma padd_swap (cs ds es : list F) : padd (padd cs ds) es = padd (padd cs es) ds.
Proof. by rewrite <- !padd_assoc, (padd_comm ds). Qed.

Lemma add_into_commit (acc cs : list F) :
  length cs = length acc ->
  add_into (commit_all (G:=G) acc) (commit_all cs) = Ok (commit_all (padd acc cs)).
Proof.
  revert cs; induction acc as [|a acc IH]; intros [|c cs]; cbn; [done..|].
  intros [= L]. fold (commit_all (G:=G) acc) (commit_all (G:=G) cs). rewrite IH by done. cbn.
  by rewrite generator_add.
Qed.

Lemma commit_all_scale (w : F) cs :
  (fun p => p ⊙ w) <$> commit_all (G:=G) cs = commit_all (fmul w <$> cs).
Proof.
  unfold commit_all. rewrite <- !list_fmap_compose. apply list_fmap_ext. intros _ c _. cbn.
  rewrite generator_mul. f_equal. ring.
Qed.

Lemma commit_all_length (cs : list F) : length (commit_all (G:=G) cs) = length cs.
Proof. apply length_fmap. Qed.

Lemma commit_all_nil (cs : list F) : commit_all (G:=G) cs = [] <-> cs = [].
Proof. by destruct cs. Qed.

Lemma commit_all_inj (cs ds : list F) : commit_all (G:=G) cs = commit_all ds -> cs = ds.
Proof.
  revert ds; induction cs as [|c cs IH]; intros [|d ds]; cbn; try done.
  intros [= E1 E2]. apply generator_inj in E1 as ->. f_equal. by apply IH.
Qed.

Lemma commit_all_head (cs : list F) :
  index (E:=CryptoError) (commit_all (G:=G) cs) 0
  = match cs with [] => Panic | c :: _ => Ok (generator ⊙ c) end.
Proof. by destruct cs. Qed.

(** The commitment to a polynomial. *)
Definition committed (cs : list F) : PolynomialCommitment G := MkPolynomialCommitment (commit_all cs).

#[global] Instance committed_inj : Inj (=) (=) committed.
Proof. intros cs ds [= E]. by apply commit_all_inj in E. Qed.

(** Behind decoded commitments there are polynomials. *)
Lemma committed_map (m : gmap Z (PolynomialCommitment G)) :
  (forall i c, m !! i = Some c -> Forall (fun p => in_subgroup p = true) (coefficients c)) ->
  exists polys, m = committed <$> polys.
Proof.
  induction m as [|i c m Hi IH] using map_ind; intros H; [exists ∅; by rewrite fmap_empty|].
  destruct IH as [polys ->].
  { intros j c' Hj. apply (H j). rewrite lookup_insert_ne; [done|]. intros ->. by rewrite Hi in Hj. }
  destruct (proj1 (subgroup_list _) (H i c (lookup_insert_eq _ _ _))) as [cs Hc].
  exists (<[i := cs]> polys). rewrite fmap_insert. f_equal.
  destruct c. by cbn in Hc; subst.
Qed.

(** The sum of a set of dealer polynomials. *)
Definition sum_polys (m : gmap Z (list F)) : list F := map_fold (fun _ cs acc => padd acc cs) [] m.

Lemma sum_polys_insert i cs m : m !! i = None -> sum_polys (<[i := cs]> m) = padd (sum_polys m) cs.
Proof.
  intros H. unfold sum_polys. rewrite map_fold_insert_L; [done| |done].
  intros. apply padd_swap.
Qed.

Lemma sum_polys_from own m :
  map_fold (fun (_ : Z) cs acc => padd acc cs) own m = padd (sum_polys m) own.
Proof.
  unfold sum_polys. change own with (padd [] own) at 1.
  rewrite (map_fold_comm_acc _ (fun acc => padd acc own)); [done|]. intros. apply padd_swap.
Qed.

End Sums.

(** ** Key generation and refresh *)

Section Standard.
Context {F G S P : Type} {SF : ScalarField F} {CG : CurveGroup F G} {BL : Blst F G S P}.
Abbreviation node := (DKGNode F G).
Local Open Scope fr_scope.
Add Field FField2 : (f_theory (F:=F)).

(** The polynomials of all dealers, the node's own among them. *)
Definition dealer_polys (n : node) (polys : gmap Z (list F)) : Prop :=
  received_commitments n = committed <$> polys.

Definition group_poly (n : node) (polys : gmap Z (list F)) : list F :=
  sum_polys (<[id n := polynomial_coeffs n]> polys).

Lemma dealer_polys_exist (n : node) : node_ok n -> exists polys, dealer_polys n polys.
Proof. intros Hok. apply committed_map. intros i c Hc. by eapply ok_commitments. Qed.

Lemma dealer_lookup (n : node) polys i cs :
  dealer_polys n polys -> polys !! i = Some cs -> received_commitments n !! i = Some (committed cs).
Proof. intros -> H. by rewrite lookup_fmap, H. Qed.

Lemma dealer_ne (n : node) polys i cs :
  node_ok n -> dealer_polys n polys -> polys !! i = Some cs -> cs <> [].
Proof.
  intros Hok Hd H ->. by destruct (ok_commitments n Hok i (committed [])) as (_ & _ & [] & _);
    [eapply dealer_lookup|].
Qed.

Lemma dealer_not_self (n : node) polys :
  node_ok n -> role n = Standard -> dealer_polys n polys -> polys !! id n = None.
Proof.
  intros Hok Hr Hd. destruct (polys !! id n) as [cs|] eqn:E; [|done].
  destruct (ok_commitments n Hok (id n) (committed cs)) as ((_ & _ & Hne) & _);
    [by eapply dealer_lookup|].
  exfalso. apply Hne; [|done]. unfold deals_and_receives. rewrite bool_decide_eq_true. by left.
Qed.

(** There are at most [total_nodes - 1] other dealers. *)
Lemma dealers_bound (n : node) :
  node_ok n -> role n = Standard ->
  (Z.of_nat (size (received_commitments n)) <= total_nodes n - 1)%Z.
Proof.
  intros Hok Hr. set (T := as_u32 (total_nodes n)).
  assert (1 <= id n <= T)%Z as Hid.
  { destruct (ok_id n Hok) as [[? _] ?]. pose proof (ok_id_range n Hok). rewrite Hr in *.
    unfold T. naive_solver lia. }
  assert (T <= total_nodes n)%Z as HT.
  { apply Z.mod_le; [apply (ok_total n Hok)|done]. }
  assert (dom (received_commitments n) ⊆ (list_to_set (seqZ 1 T) : gset Z) ∖ {[id n]}) as Hsub.
  { intros i [c Hc]%elem_of_dom. destruct (ok_commitments n Hok i c Hc) as ((H0 & Hi & Hd) & [Hu _] & _).
    rewrite elem_of_difference, elem_of_list_to_set, elem_of_seqZ, elem_of_singleton.
    split; [unfold T; lia|]. apply Hd. unfold deals_and_receives. apply bool_decide_eq_true. by left. }
  apply subseteq_size in Hsub. rewrite size_dom in Hsub.
  rewrite size_difference in Hsub.
  - rewrite size_list_to_set, length_seqZ, size_singleton in Hsub by apply NoDup_seqZ. lia.
  - apply singleton_subseteq_l, elem_of_list_to_set, elem_of_seqZ. lia.
Qed.

(** All shares are there only if every dealer's is, on its polynomial. *)
Lemma shares_are_evaluations (n : node) polys :
  node_ok n -> index_ok n -> role n = Standard -> dealer_polys n polys ->
  Z.of_nat (size (received_shares n)) = (total_nodes n - 1)%Z ->
  received_shares n = (fun cs => peval cs (from_u64 (id n))) <$> polys.
Proof.
  intros Hok Hx Hr Hd Hs. pose proof (dealers_bound n Hok Hr) as Hb.
  assert (dom (received_shares n) = dom (received_commitments n)) as Hdom.
  { apply set_subseteq_size_eq; [|rewrite !size_dom; lia].
    intros i [v Hv]%elem_of_dom. destruct (ok_shares n Hx i v Hv) as (c & Hc & _).
    apply elem_of_dom. by exists c. }
  apply map_eq. intros i. rewrite lookup_fmap. destruct (received_shares n !! i) as [v|] eqn:Hv.
  - destruct (ok_shares n Hx i v Hv) as (c & Hc & Hver). rewrite Hd, lookup_fmap in Hc.
    destruct (polys !! i) as [cs|]; [|done]. cbn in Hc |- *. f_equal. injection Hc as <-.
    rewrite (ok_standard n Hx Hr) in Hver.
    by apply verify_share_commit in Hver.
  - apply not_elem_of_dom in Hv. rewrite Hdom, Hd, dom_fmap in Hv.
    apply not_elem_of_dom in Hv. by rewrite Hv.
Qed.

Lemma group_poly_fold (n : node) polys :
  polys !! id n = None ->
  group_poly n polys = map_fold (fun _ cs acc => padd acc cs) (polynomial_coeffs n) polys.
Proof. intros H. unfold group_poly. by rewrite sum_polys_insert, sum_polys_from. Qed.

Lemma eval_polynomial_spec (n : node) x :
  eval_polynomial n x = peval (polynomial_coeffs n) (from_u64 x).
Proof.
  unfold eval_polynomial. destruct (polynomial_coeffs n) as [|c cs]; [done|].
  by rewrite eval_poly_scalar_loop.
Qed.

Lemma std_not_receiver (n : node) : role n = Standard -> is_reshare_receiver n = false.
Proof. intros Hr. unfold is_reshare_receiver. rewrite Hr. apply bool_decide_eq_false. naive_solver. Qed.

(** One entry of a map per other dealer. *)
Definition complete {A} (n : node) (m : gmap Z A) : Prop :=
  Z.of_nat (size m) = (total_nodes n - 1)%Z.

Lemma complete_total {A} (n : node) (m : gmap Z A) :
  complete n m -> usize_sub (E:=CryptoError) (total_nodes n) 1 = Ok (total_nodes n - 1)%Z /\
    (Z.of_nat (size m) =? total_nodes n - 1)%Z = true.
Proof.
  intros H. unfold complete in H. unfold usize_sub.
  rewrite (proj2 (Z.ltb_ge (total_nodes n) 1)) by lia. by rewrite Z.eqb_eq.
Qed.

Lemma complete_check {A} (n : node) (m : gmap Z A) expected :
  usize_sub (E:=CryptoError) (total_nodes n) 1 = Ok expected ->
  negb (Z.of_nat (size m) =? expected)%Z = false -> complete n m.
Proof.
  unfold usize_sub. intros Hx Hs. case_match; [done|]. apply Ok_inj in Hx as <-.
  by apply negb_false_iff, Z.eqb_eq in Hs.
Qed.

(** The secret share is the group polynomial at the node's id. *)
Lemma std_secret_share_eq (n : node) polys :
  node_ok n -> index_ok n -> role n = Standard -> dealer_polys n polys ->
  complete n (received_shares n) -> polynomial_coeffs n <> [] ->
  compute_secret_share n = Ok (MkPriShare (id n) (peval (group_poly n polys) (from_u64 (id n)))).
Proof.
  intros Hok Hx Hr Hd Hs Hp. unfold compute_secret_share.
  rewrite std_not_receiver, bool_decide_eq_false_2 by (rewrite ?Hr; done). cbn [reject res_bind].
  destruct (complete_total n _ Hs) as [-> Hsz]. cbn [res_bind]. rewrite Hsz. cbn [negb reject res_bind].
  rewrite bool_decide_eq_false_2 by done. cbn [reject res_bind]. do 2 f_equal.
  rewrite (shares_are_evaluations n polys), map_fold_fmap by done.
  rewrite group_poly_fold by (by apply dealer_not_self).
  apply (map_fold_rel (fun a c => a = peval c (from_u64 (id n)))); [apply eval_polynomial_spec|].
  intros i cs a c _ ->. cbn. by rewrite peval_padd.
Qed.

Lemma std_secret_share (n : node) polys sh :
  node_ok n -> index_ok n -> role n = Standard -> dealer_polys n polys -> compute_secret_share n = Ok sh ->
  sh = MkPriShare (id n) (peval (group_poly n polys) (from_u64 (id n))).
Proof.
  intros Hok Hi Hr Hd H. pose proof H as H'. unfold compute_secret_share in H'.
  rewrite std_not_receiver in H' by done. bind_ok H' as ? _. bind_ok H' as expected Hx.
  bind_ok H' as ? Hs. bind_ok H' as ? Hp. inv_ok. apply bool_decide_eq_false in Hp.
  rewrite (std_secret_share_eq n polys) in H by (try done; by eapply complete_check).
  by apply Ok_inj in H.
Qed.

(** The public polynomial commits to the group polynomial. *)
Lemma std_public_polynomial_eq (n : node) polys :
  node_ok n -> role n = Standard -> dealer_polys n polys ->
  complete n (received_commitments n) -> polynomial_coeffs n <> [] ->
  (forall i cs, polys !! i = Some cs -> length cs = length (polynomial_coeffs n)) ->
  compute_public_polynomial n = Ok (MkPubPoly (commit_all (group_poly n polys))) /\
  length (group_poly n polys) = length (polynomial_coeffs n).
Proof.
  intros Hok Hr Hd Hs Hp Hlen. unfold compute_public_polynomial. rewrite std_not_receiver by done.
  destruct (complete_total n _ Hs) as [-> Hsz]. cbn [res_bind]. rewrite Hsz. cbn [negb reject res_bind].
  rewrite (ok_commitment n Hok), Hd, commit_all_length.
  rewrite bool_decide_eq_false_2 by (by rewrite commit_all_nil). cbn [reject res_bind].
  rewrite (proj2 (map_fold_check _ _ _)).
  2: { intros i c. rewrite lookup_fmap. destruct (polys !! i) as [cs|] eqn:Hi; [|done].
       intros [= <-]. cbn. rewrite commit_all_length, (Hlen i cs Hi). by rewrite Nat.eqb_refl. }
  cbn [res_bind]. rewrite map_fold_fmap, group_poly_fold by (by apply dealer_not_self).
  destruct (map_fold_rel
    (fun a c => a = Ok (commit_all c) /\ length c = length (polynomial_coeffs n))
    (fun _ => (fun c acc => let? agg := acc in add_into agg (coefficients c)) ∘ committed (G:=G))
    (fun _ cs acc => padd acc cs) polys (Ok (commit_all (polynomial_coeffs n)))
    (polynomial_coeffs n)) as [E L]; [done| |by rewrite E].
  intros i cs a c Hi [-> L]. cbn. rewrite add_into_commit by (rewrite (Hlen i cs Hi); done).
  rewrite padd_length, (Hlen i cs Hi). split; [done|lia].
Qed.

Lemma std_public_polynomial (n : node) polys pp :
  node_ok n -> role n = Standard -> dealer_polys n polys -> compute_public_polynomial n = Ok pp ->
  pp = MkPubPoly (commit_all (group_poly n polys)) /\
  length (group_poly n polys) = length (polynomial_coeffs n) /\ polynomial_coeffs n <> [].
Proof.
  intros Hok Hr Hd H. pose proof H as H'. unfold compute_public_polynomial in H'.
  rewrite std_not_receiver in H' by done. bind_ok H' as agg Ha. bind_ok Ha as expected Hx.
  bind_ok Ha as ? Hs. bind_ok Ha as ? Hp. bind_ok Ha as u Hl. clear Ha. inv_ok. destruct u.
  apply bool_decide_eq_false in Hp. rewrite (ok_commitment n Hok), commit_all_nil in Hp.
  destruct (std_public_polynomial_eq n polys) as [E L]; try done; [by eapply complete_check| |].
  - intros i cs Hi. pose proof (proj1 (map_fold_check _ _ _) Hl i (committed cs)) as Hc.
    specialize (Hc (dealer_lookup n polys i cs Hd Hi)). apply negb_false_iff, Nat.eqb_eq in Hc.
    cbn in Hc. by rewrite (ok_commitment n Hok), !commit_all_length in Hc.
  - rewrite E in H. by apply Ok_inj in H.
Qed.

(** The aggregate key is the generator times the group polynomial at zero. *)
Lemma std_public_key_eq (n : node) polys :
  node_ok n -> role n = Standard -> dealer_polys n polys ->
  complete n (received_commitments n) -> polynomial_coeffs n <> [] ->
  compute_aggregate_public_key n = Ok (generator ⊙ peval (group_poly n polys) 0).
Proof.
  intros Hok Hr Hd Hs Hp. unfold compute_aggregate_public_key. rewrite std_not_receiver by done.
  destruct (complete_total n _ Hs) as [-> Hsz]. cbn [res_bind]. rewrite Hsz. cbn [negb reject res_bind].
  rewrite (ok_commitment n Hok), Hd, commit_all_head.
  rewrite bool_decide_eq_false_2 by (by rewrite commit_all_nil). cbn [reject res_bind].
  rewrite group_poly_fold by (by apply dealer_not_self).
  destruct (polynomial_coeffs n) as [|c0 cs0]; [done|]. cbn [res_bind]. rewrite map_fold_fmap.
  apply (map_fold_rel (fun a c => a = Ok (generator ⊙ peval c 0))).
  - cbn. do 2 f_equal. ring.
  - intros i cs a c Hi ->. cbn. rewrite commit_all_head.
    destruct cs as [|d cs]; [by edestruct (dealer_ne n polys i)|]. cbn [res_bind].
    rewrite generator_add, peval_padd. do 2 f_equal. cbn [peval]. ring.
Qed.

Lemma std_public_key (n : node) polys pk :
  node_ok n -> role n = Standard -> dealer_polys n polys -> compute_aggregate_public_key n = Ok pk ->
  pk = generator ⊙ peval (group_poly n polys) 0.
Proof.
  intros Hok Hr Hd H. pose proof H as H'. unfold compute_aggregate_public_key in H'.
  rewrite std_not_receiver in H' by done. bind_ok H' as expected Hx.
  bind_ok H' as ? Hs. bind_ok H' as ? Hp. clear H'. inv_ok. apply bool_decide_eq_false in Hp.
  rewrite (ok_commitment n Hok), commit_all_nil in Hp.
  rewrite (std_public_key_eq n polys) in H by (try done; by eapply complete_check).
  by apply Ok_inj in H.
Qed.

End Standard.

(** ** Reshare *)

Section Reshare.
Context {F G S P : Type} {SF : ScalarField F} {CG : CurveGroup F G} {BL : Blst F G S P}.
Abbreviation node := (DKGNode F G).
Local Open Scope fr_scope.
Add Field FField3 : (f_theory (F:=F)).

(** The polynomial of an old dealer, the node's own included. *)
Definition dealer_poly (n : node) (polys : gmap Z (list F)) (pid : Z) : list F :=
  if bool_decide (role n = DealerReceiver) && (pid =? id n)%Z then polynomial_coeffs n
  else default [] (polys !! pid).

(** The weight of a dealer in the selected set. *)
Definition dealer_weight (ids : list Z) (pid : Z) : F := weight (from_u64 <$> ids) (from_u64 pid).

(** The value at [x] of the Lagrange combination of the dealers' polynomials. *)
Definition reshared_at (n : node) (polys : gmap Z (list F)) (ids : list Z) (x : F) : F :=
  fsum ((fun pid => dealer_weight ids pid * peval (dealer_poly n polys pid) x) <$> ids).

Lemma reshare_commitment_poly (n : node) polys pid c :
  node_ok n -> dealer_polys n polys -> reshare_commitment_for n pid = Ok c ->
  coefficients c = commit_all (dealer_poly n polys pid) /\ dealer_poly n polys pid <> [].
Proof.
  intros Hok Hd H. unfold reshare_commitment_for, dealer_poly in *. case_match.
  - bind_ok H as ? Hn. inv_ok. apply bool_decide_eq_false in Hn.
    rewrite (ok_commitment n Hok), commit_all_nil in Hn. by rewrite (ok_commitment n Hok).
  - inv_ok. rewrite Hd, lookup_fmap in H. destruct (polys !! pid) as [cs|] eqn:Hp; [|done].
    injection H as <-. split; [done|]. by eapply dealer_ne.
Qed.

Lemma reshare_share_poly (n : node) polys pid v :
  index_ok n -> dealer_polys n polys -> reshare_share_for n pid = Ok v ->
  v = peval (dealer_poly n polys pid) (from_u64 (receive_id n)).
Proof.
  intros Hx Hd H. unfold reshare_share_for, dealer_poly in *. case_match.
  - bind_ok H as ? Hn. apply Ok_inj in H as <-. apply eval_polynomial_spec.
  - inv_ok. destruct (ok_shares n Hx pid v H) as (c & Hc & Hv). rewrite Hd, lookup_fmap in Hc.
    destruct (polys !! pid) as [cs|]; [|done]. injection Hc as <-.
    by apply verify_share_commit in Hv.
Qed.

Lemma participants_of (n : node) ids :
  node_ok n -> reshare_participants n = Ok ids -> participants_ok (total_nodes n) ids.
Proof.
  intros Hok. unfold reshare_participants.
  destruct (selected_reshare_participants n) as [l|] eqn:E; [|done].
  apply canonicalize_participants. by eapply ok_selected.
Qed.

Lemma dealer_weight_spec total ids pid :
  participants_ok total ids -> pid ∈ ids ->
  lagrange_at_zero pid ids = Ok (dealer_weight ids pid).
Proof.
  intros [_ Hnd Hu _] Hp. apply lagrange_at_zero_spec; [done| |done].
  rewrite Forall_forall in Hu. by apply Hu.
Qed.

Lemma fold_left_fsum {A} (g : A -> F) l a :
  fold_left (fun acc x => acc + g x) l a = a + fsum (g <$> l).
Proof. revert a; induction l as [|x l IH]; intros a; csimpl; [ring|]. rewrite IH. ring. Qed.

Lemma rs_secret_share (n : node) polys sh :
  node_ok n -> index_ok n -> is_reshare_receiver n = true -> dealer_polys n polys ->
  compute_secret_share n = Ok sh ->
  exists ids, reshare_participants n = Ok ids /\
    sh = MkPriShare (receive_id n) (reshared_at n polys ids (from_u64 (receive_id n))).
Proof.
  intros Hok Hx Hr Hd H. unfold compute_secret_share in H. bind_ok H as ? _. rewrite Hr in H.
  bind_ok H as ids Hi. bind_ok H as s Hs. apply Ok_inj in H as <-. exists ids. split; [done|].
  pose proof (participants_of n ids Hok Hi) as Hp. f_equal. unfold reshared_at.
  eapply (res_foldl_rel eq _ (fun acc pid => acc + dealer_weight ids pid *
    peval (dealer_poly n polys pid) (from_u64 (receive_id n)))) in Hs; [|clear s Hs|done].
  - rewrite Hs, fold_left_fsum. ring.
  - intros a ? pid y Hin <- Hy. erewrite dealer_weight_spec in Hy by done. cbn in Hy.
    bind_ok Hy as v Hv. apply Ok_inj in Hy as <-.
    by rewrite (reshare_share_poly n polys pid v).
Qed.

Lemma rs_public_key (n : node) polys pk :
  node_ok n -> is_reshare_receiver n = true -> dealer_polys n polys ->
  compute_aggregate_public_key n = Ok pk ->
  exists ids, reshare_participants n = Ok ids /\ pk = generator ⊙ reshared_at n polys ids 0.
Proof.
  intros Hok Hr Hd H. unfold compute_aggregate_public_key in H. rewrite Hr in H.
  bind_ok H as ids Hi. exists ids. split; [done|].
  pose proof (participants_of n ids Hok Hi) as Hp. unfold reshared_at.
  eapply (res_foldl_rel (fun a c => a = generator ⊙ c) _ (fun acc pid => acc +
    dealer_weight ids pid * peval (dealer_poly n polys pid) 0)) in H; [|clear pk H|apply generator_zero].
  - rewrite H, fold_left_fsum. f_equal. ring.
  - intros a c pid y Hin -> Hy. erewrite dealer_weight_spec in Hy by done. cbn in Hy.
    bind_ok Hy as cm Hc. bind_ok Hy as c0 H0. apply Ok_inj in Hy as <-.
    destruct (reshare_commitment_poly n polys pid cm Hok Hd Hc) as [E Hne].
    rewrite E, commit_all_head in H0. destruct (dealer_poly n polys pid) as [|d ds]; [done|].
    apply Ok_inj in H0 as <-. rewrite generator_mul, generator_add. f_equal. cbn [peval]. ring.
Qed.

Lemma peval_combination (w : Z -> F) (poly : Z -> list F) ids k x :
  peval (fold_left (fun acc pid => padd acc (fmul (w pid) <$> poly pid)) ids (replicate k 0)) x
  = fsum ((fun pid => w pid * peval (poly pid) x) <$> ids).
Proof.
  assert (forall acc, peval (fold_left (fun acc pid => padd acc (fmul (w pid) <$> poly pid)) ids acc) x
    = peval acc x + fsum ((fun pid => w pid * peval (poly pid) x) <$> ids)) as H.
  { induction ids as [|i ids IH]; intros acc; csimpl; [ring|].
    rewrite IH, peval_padd, peval_scale. ring. }
  rewrite H, peval_zeros. ring.
Qed.

Lemma rs_public_polynomial (n : node) polys pp :
  node_ok n -> is_reshare_receiver n = true -> dealer_polys n polys ->
  compute_public_polynomial n = Ok pp ->
  exists ids cs, reshare_participants n = Ok ids /\ pp = MkPubPoly (commit_all cs) /\ cs <> [] /\
    (forall x, peval cs x = reshared_at n polys ids x) /\
    (forall pid, pid ∈ ids -> length (dealer_poly n polys pid) = length cs).
Proof.
  intros Hok Hr Hd H. unfold compute_public_polynomial in H. rewrite Hr in H.
  bind_ok H as agg Ha. apply Ok_inj in H as <-. bind_ok Ha as ids Hi. bind_ok Ha as fid Hf.
  bind_ok Ha as first Hc. pose proof (participants_of n ids Hok Hi) as Hp.
  destruct (reshare_commitment_poly n polys fid first Hok Hd Hc) as [E Hne].
  rewrite E, commit_all_length in Ha. set (k := length (dealer_poly n polys fid)) in *.
  assert (0 < k)%nat as Hk by (unfold k; destruct (dealer_poly n polys fid); [done|cbn; lia]).
  assert (Forall (fun pid => length (dealer_poly n polys pid) = k) ids) as Hlen.
  { eapply res_foldl_Ok; [|exact Ha]. intros a pid y Hy. bind_ok Hy as w Hw. bind_ok Hy as c Hcm.
    bind_ok Hy as ? Hl. inv_ok. apply negb_false_iff, Nat.eqb_eq in Hl.
    destruct (reshare_commitment_poly n polys pid c Hok Hd Hcm) as [Ec _].
    by rewrite Ec, commit_all_length in Hl. }
  eapply (res_foldl_rel (fun a c => a = commit_all c /\ length c = k) _ (fun acc pid =>
    padd acc (fmul (dealer_weight ids pid) <$> dealer_poly n polys pid)) ids _ (replicate k 0)) in Ha.
  - destruct Ha as [-> L]. eexists ids, _. split; [done|]. split; [done|].
    split; [intros E0; rewrite E0 in L; cbn in L; lia|]. split; [intros x; apply peval_combination|].
    rewrite Forall_forall in Hlen. intros pid Hpid. rewrite L. by apply Hlen.
  - intros a c pid y Hin [-> L] Hy. erewrite dealer_weight_spec in Hy by done. cbn in Hy.
    bind_ok Hy as cm Hcm. bind_ok Hy as ? _.
    destruct (reshare_commitment_poly n polys pid cm Hok Hd Hcm) as [Ec _].
    rewrite Forall_forall in Hlen. specialize (Hlen pid Hin).
    rewrite Ec, commit_all_scale, add_into_commit in Hy by (rewrite length_fmap; lia).
    apply Ok_inj in Hy as <-. split; [done|]. rewrite padd_length, length_fmap. lia.
  - split; [|apply length_replicate]. unfold commit_all. rewrite fmap_replicate. by rewrite generator_zero.
Qed.

End Reshare.

(** ** No operation panics on a reachable node *)

Section NoPanic.
Context {F G S P : Type} {SF : ScalarField F} {CG : CurveGroup F G} {BL : Blst F G S P}.
Abbreviation node := (DKGNode F G).

Lemma no_panic_usize_sub (n : node) :
  node_ok n -> is_reshare_receiver n = false -> no_panic (E:=CryptoError) (usize_sub (total_nodes n) 1).
Proof.
  intros Hok Hr. unfold usize_sub. case_match eqn:E; [|done]. exfalso. apply Z.ltb_lt in E.
  apply bool_decide_eq_false in Hr. destruct (ok_id n Hok) as [[? _] ?].
  pose proof (ok_id_range n Hok ltac:(naive_solver)) as Hi.
  destruct (ok_total n Hok). pose proof (Z.mod_le (total_nodes n) (2 ^ 32)).
  unfold as_u32 in Hi. lia.
Qed.

Lemma no_panic_index {A} (v : list A) : v <> [] -> no_panic (E:=CryptoError) (index v 0).
Proof. by destruct v. Qed.

Lemma add_into_length (agg cs : list G) :
  (length cs <= length agg)%nat -> no_panic (add_into agg cs) /\
  forall agg', add_into agg cs = Ok agg' -> length agg' = length agg.
Proof.
  revert agg; induction cs as [|c cs IH]; intros agg; cbn; intros L.
  { destruct agg; split; [done|by intros agg' <-%Ok_inj|done|by intros agg' <-%Ok_inj]. }
  destruct agg as [|a agg]; cbn in *; [lia|].
  destruct (IH agg) as [Hp Hl]; [lia|]. split.
  - apply no_panic_bind; [done|by intros].
  - intros agg' (r & Hr & <-%Ok_inj)%res_bind_Ok. cbn. by rewrite (Hl r).
Qed.

Lemma no_panic_lagrange i ids : no_panic (lagrange_at_zero (F:=F) i ids).
Proof.
  unfold lagrange_at_zero. apply no_panic_bind; [auto with orbis|]. intros _ _.
  destruct (fold_left _ _ _). apply no_panic_bind; auto with orbis.
Qed.

Lemma no_panic_participants (n : node) : no_panic (reshare_participants n).
Proof. unfold reshare_participants. case_match; auto with orbis. Qed.

Lemma no_panic_commitment_for (n : node) i : no_panic (reshare_commitment_for n i).
Proof.
  unfold reshare_commitment_for. case_match; [|auto with orbis].
  apply no_panic_bind; auto with orbis.
Qed.

Lemma no_panic_share_for (n : node) i : no_panic (reshare_share_for n i).
Proof.
  unfold reshare_share_for. case_match; [|auto with orbis]. apply no_panic_bind; auto with orbis.
Qed.

Lemma commitment_for_ne (n : node) i c :
  node_ok n -> reshare_commitment_for n i = Ok c -> coefficients c <> [].
Proof.
  intros Hok H. destruct (dealer_polys_exist n Hok) as [polys Hd].
  destruct (reshare_commitment_poly n polys i c Hok Hd H) as [-> Hne]. by rewrite commit_all_nil.
Qed.

Hint Resolve no_panic_usize_sub no_panic_lagrange no_panic_participants no_panic_commitment_for
  no_panic_share_for no_panic_index : orbis.

Lemma no_panic_secret_share (n : node) : node_ok n -> no_panic (compute_secret_share n).
Proof.
  intros Hok. unfold compute_secret_share. apply no_panic_bind; [auto with orbis|]. intros _ _.
  destruct (is_reshare_receiver n) eqn:Hr.
  - apply no_panic_bind; [auto with orbis|]. intros ids _. apply no_panic_bind; [|by intros].
    apply no_panic_foldl. intros a i _. repeat (apply no_panic_bind; [auto with orbis|intros]).
    done.
  - repeat (apply no_panic_bind; [auto with orbis|intros]). done.
Qed.

Lemma no_panic_public_key (n : node) : node_ok n -> no_panic (compute_aggregate_public_key n).
Proof.
  intros Hok. unfold compute_aggregate_public_key. destruct (is_reshare_receiver n) eqn:Hr.
  - apply no_panic_bind; [auto with orbis|]. intros ids _. apply no_panic_foldl. intros a i _.
    apply no_panic_bind; [auto with orbis|intros w _]. apply no_panic_bind; [auto with orbis|intros c Hc].
    apply no_panic_bind; [|by intros]. by eapply no_panic_index, commitment_for_ne.
  - apply no_panic_bind; [auto with orbis|]. intros e _. apply no_panic_bind; [auto with orbis|]. intros _ _.
    apply no_panic_bind; [auto with orbis|]. intros u H. inv_ok. apply bool_decide_eq_false in H.
    apply no_panic_bind; [auto with orbis|]. intros own _.
    apply (map_fold_rel (fun a (_ : unit) => no_panic a) _ (fun _ _ u => u) _ _ tt); [done|].
    intros i c acc _ Hi Ha. apply no_panic_bind; [done|]. intros x _.
    apply no_panic_bind; [|by intros]. apply no_panic_index. by eapply ok_commitments.
Qed.

Lemma no_panic_public_polynomial (n : node) : node_ok n -> no_panic (compute_public_polynomial n).
Proof.
  intros Hok. unfold compute_public_polynomial. apply no_panic_bind; [|by intros].
  destruct (is_reshare_receiver n) eqn:Hr.
  - apply no_panic_bind; [auto with orbis|]. intros ids Hi.
    apply no_panic_bind; [by eapply no_panic_index, pids_ne, participants_of|]. intros fid _.
    apply no_panic_bind; [auto with orbis|]. intros first _.
    apply (no_panic_foldl_inv (fun agg => length agg = length (coefficients first)));
      [apply length_replicate|]. intros agg i _ L.
    destruct (lagrange_at_zero i ids) as [w|e| |] eqn:Hw; [|done|by apply no_panic_lagrange in Hw|done].
    cbn [res_bind]. pose proof (no_panic_commitment_for n i) as Hp.
    destruct (reshare_commitment_for n i) as [c|e| |]; [|done|done|done]. cbn [res_bind].
    destruct (Nat.eqb_spec (length (coefficients c)) (length (coefficients first))) as [El|]; [|done].
    cbn [negb reject res_bind]. rewrite <- L. apply add_into_length. rewrite length_fmap. lia.
  - apply no_panic_bind; [auto with orbis|]. intros e _. apply no_panic_bind; [auto with orbis|]. intros _ _.
    apply no_panic_bind; [auto with orbis|]. intros _ _. apply no_panic_bind.
    { apply (map_fold_rel (fun a (_ : unit) => no_panic a) _ (fun _ _ u => u) _ _ tt); [done|].
      intros i c a _ _ Ha. apply no_panic_bind; auto with orbis. }
    intros [] Hl. pose proof (proj1 (map_fold_check _ _ _) Hl) as Hlen.
    set (k := length (coefficients (commitment n))) in *.
    apply (map_fold_rel (fun a (_ : unit) => no_panic a /\ forall r, a = Ok r -> length r = k)
      _ (fun _ _ u => u) _ _ tt); [split; [done|by intros r <-%Ok_inj]|].
    intros i c a _ Hi [Ha Hk]. specialize (Hlen i c Hi). apply negb_false_iff, Nat.eqb_eq in Hlen.
    destruct a as [agg|e0| |]; [|done|done|done]. cbn [res_bind]. specialize (Hk agg eq_refl).
    rewrite <- Hk. apply add_into_length. lia.
Qed.

End NoPanic.
