(* ===== verification/Ceremony.v ===== *)
(** * An honest key generation

    The phases of a key generation or refresh as the nodes run them: every
    node draws a polynomial, the commitments are broadcast, the shares are
    sent, and each node aggregates.  Commitments and shares arrive in any
    order. *)
From S2P Require Import Prelude Algebra Interpolation Primitives Codec Common Dkg DkgSpec Feldman.

Section Ceremony.
Context {F G S P : Type} {SF : ScalarField F} {CG : CurveGroup F G} {BL : Blst F G S P}.
Abbreviation node := (DKGNode F G).
Local Open Scope fr_scope.
Add Field FField : (f_theory (F:=F)).

(** The session's parameters, and the randomness of each node. *)
Context (threshold0 total sid : Z) (mode : DkgMode F) (rngs nonces : Z -> Rng F).

Definition start (i : Z) : result node :=
  let? n := new i threshold0 total sid Standard in
  run (generate_polynomial mode (rngs i)) n.

Definition deliver_commitment (n : node) (j : Z) : result node :=
  let? nj := start j in
  run (receive_commitment j (commitment nj)) n.

Definition deliver_share (i : Z) (n : node) (j : Z) : result node :=
  let? nj := start j in
  let? '(shares, _) := generate_shares nj (nonces j) in
  let? s := index shares (Z.to_nat (i - 1)) in
  run (receive_share s) n.

(** Node [i] takes the commitments in the order [cs], then the shares in the
    order [ss]. *)
Definition participate (i : Z) (cs ss : list Z) : result node :=
  let? n := start i in
  let? n1 := res_foldl deliver_commitment cs n in
  res_foldl (deliver_share i) ss n1.

Definition peers (i : Z) : list Z := filter (fun j => j <> i) (seqZ 1 total).

Context (Ht : (1 <= threshold0 <= total)%Z) (Hn : is_u32 total)
  (Hmode : mode = Fresh \/ mode = Refresh).

(** The node a dealer starts from, and its polynomial. *)
Definition blank (i : Z) : node :=
  MkDKGNode i threshold0 total Standard total threshold0 None [] (MkPolynomialCommitment [])
    ∅ ∅ None sid ∅.
Definition poly (i : Z) : list F := (drawn mode (rngs i) (blank i)).1.
Definition started (i : Z) : node := install (poly i) (blank i).

Lemma total_as_u32 : as_u32 total = total.
Proof. unfold as_u32. apply Z.mod_small. apply Hn. Qed.

Lemma new_blank i : i ∈ seqZ 1 total -> new i threshold0 total sid Standard = Ok (blank i).
Proof.
  intros Hi%elem_of_seqZ. unfold new. rewrite total_as_u32.
  rewrite (proj2 (Z.eqb_neq i 0)), (proj2 (Z.ltb_ge total i)), (proj2 (Z.ltb_ge total threshold0)),
    (proj2 (Z.eqb_neq threshold0 0)) by lia. by rewrite andb_false_r.
Qed.

Lemma start_ok i : i ∈ seqZ 1 total -> start i = Ok (started i).
Proof.
  intros Hi. unfold start. rewrite new_blank by done. cbn [res_bind]. unfold run.
  assert (mode_accepted (blank i) mode) as Hm by (split; [done|by destruct Hmode as [->| ->]]).
  assert (configure mode (blank i) = blank i) as Hc by (by destruct Hmode as [->| ->]).
  rewrite generate_polynomial_ok; [by rewrite Hc|done|]. rewrite Hc. unfold fits, is_u32, FR_SIZE_OF, isize_max in *. cbn. lia.
Qed.

Lemma poly_length i : length (poly i) = Z.to_nat threshold0.
Proof.
  unfold poly. rewrite drawn_length.
  replace (configure mode (blank i)) with (blank i) by (by destruct Hmode as [->| ->]). cbn. lia.
Qed.

Lemma poly_ne i : poly i <> [].
Proof. intros E. pose proof (poly_length i) as L. rewrite E in L. cbn in L. lia. Qed.

(** The dealers in [ids] with their polynomials. *)
Definition poly_map (ids : list Z) : gmap Z (list F) := list_to_map ((fun j => (j, poly j)) <$> ids).

Lemma lookup_poly_map ids j : poly_map ids !! j = if decide (j ∈ ids) then Some (poly j) else None.
Proof.
  unfold poly_map. induction ids as [|i ids IH]; [done|].
  rewrite fmap_cons, list_to_map_cons. destruct (decide (j = i)) as [->|Hne].
  - rewrite lookup_insert_eq, decide_True by left. done.
  - rewrite lookup_insert_ne, IH by done. apply decide_ext. rewrite elem_of_cons.
    split; [by right|by intros [->|?]].
Qed.

Lemma poly_map_perm ids ids' : ids ≡ₚ ids' -> poly_map ids = poly_map ids'.
Proof.
  intros E. apply map_eq. intros j. rewrite !lookup_poly_map.
  apply decide_ext. by rewrite E.
Qed.

Lemma deliver_commitments_ok js (n : node) :
  role n = Standard -> total_nodes n = total -> NoDup js ->
  (forall j, j ∈ js -> j ∈ peers (id n) /\ received_commitments n !! j = None) ->
  res_foldl deliver_commitment js n =
    Ok (set_received_commitments ((committed <$> poly_map js) ∪ received_commitments n) n).
Proof.
  intros Hr HT Hnd. revert n Hr HT. induction Hnd as [|j js Hj Hnd IH]; intros n Hr HT H.
  - cbn. unfold poly_map. cbn. rewrite fmap_empty, (left_id_L ∅ (∪)). by destruct n.
  - cbn [res_foldl]. destruct (H j) as [Hp Hf]; [left|].
    apply list_elem_of_filter in Hp as [Hne Hs]. unfold deliver_commitment at 1.
    rewrite start_ok by done. cbn [res_bind]. unfold run. rewrite receive_commitment_ok.
    2: { apply elem_of_seqZ in Hs. split; [|by intros E%commit_all_nil; apply poly_ne in E|done].
         split; [lia|]. rewrite HT, total_as_u32. split; [lia|done]. }
    cbn [res_bind]. rewrite IH; [| done|done|].
    + f_equal. unfold poly_map. rewrite fmap_cons, list_to_map_cons, fmap_insert.
      rewrite <- insert_union_l, insert_union_r; [done|].
      rewrite lookup_fmap. fold (poly_map js). by rewrite lookup_poly_map, decide_False.
    + intros k Hk. destruct (H k) as [Hpk Hfk]; [by right|]. split; [done|]. cbn.
      rewrite lookup_insert_ne; [done|]. by intros ->.
Qed.

(** The share [j] sends to [i]. *)
Lemma sent_share i j :
  i ∈ seqZ 1 total -> exists shares rng s,
    generate_shares (started j) (nonces j) = Ok (shares, rng) /\
    shares !! Z.to_nat (i - 1) = Some s /\ from_id s = j /\ to_id s = i /\
    session_id s = sid /\ value s = peval (poly j) (from_u64 i).
Proof.
  intros Hi%elem_of_seqZ. unfold generate_shares.
  rewrite bool_decide_eq_false_2 by done. cbn [reject res_bind].
  rewrite bool_decide_eq_false_2 by apply poly_ne. cbn [reject res_bind].
  change (effective_total_nodes (started j)) with total. rewrite total_as_u32.
  destruct (make_shares (started j) (seqZ 1 total) (nonces j)) as [shares rng] eqn:E.
  assert (forall ids r shs r' k t, make_shares (started j) ids r = (shs, r') -> ids !! k = Some t ->
    exists s, shs !! k = Some s /\ from_id s = j /\ to_id s = t /\ session_id s = sid /\
      value s = eval_polynomial (started j) t) as HH.
  { induction ids as [|t0 ids IH]; intros r shs r' k t Hm Hk; [done|]. cbn in Hm.
    destruct (make_shares _ ids _) as [shs1 r1] eqn:E1. injection Hm as <- <-.
    destruct k as [|k]; cbn in Hk |- *; [injection Hk as ->; by eexists|]. by eapply IH. }
  destruct (HH _ _ _ _ (Z.to_nat (i - 1)) i E) as (s & Hs & Hf & Hto & Hsid & Hv).
  - apply lookup_seqZ. lia.
  - exists shares, rng, s. rewrite eval_polynomial_spec in Hv. done.
Qed.

Lemma deliver_shares_ok i js (n : node) :
  role n = Standard -> total_nodes n = total -> effective_receive_id n = None ->
  node_session_id n = sid -> id n = i -> i ∈ seqZ 1 total -> NoDup js ->
  (forall j, j ∈ js -> j ∈ peers i /\ received_shares n !! j = None /\
     received_commitments n !! j = Some (committed (poly j))) ->
  res_foldl (deliver_share i) js n = Ok (set_received_shares
    (((fun cs => peval cs (from_u64 i)) <$> poly_map js) ∪ received_shares n) n).
Proof.
  intros Hr HT He Hsid Hid Hi Hnd. revert n Hr HT He Hsid Hid.
  induction Hnd as [|j js Hj Hnd IH]; intros n Hr HT He Hsid Hid H.
  - cbn. unfold poly_map. cbn. rewrite fmap_empty, (left_id_L ∅ (∪)). by destruct n.
  - cbn [res_foldl]. destruct (H j) as (Hp & Hf & Hc); [left|].
    apply list_elem_of_filter in Hp as [Hne Hs]. unfold deliver_share at 1.
    rewrite start_ok by done. cbn [res_bind].
    destruct (sent_share i j Hi) as (shares & rng & s & -> & Hsh & Hfrom & Hto & Hss & Hv).
    cbn [res_bind]. rewrite (proj2 (index_Ok _ _ _) Hsh). cbn [res_bind]. unfold run.
    assert (receive_id n = i) as Hrid by (unfold receive_id; by rewrite He).
    apply elem_of_seqZ in Hs. rewrite receive_share_ok.
    2: { split; [by rewrite Hr| |by rewrite Hfrom|congruence|congruence|].
         - rewrite Hfrom. split; [lia|]. rewrite HT, total_as_u32. split; [lia|]. by rewrite Hid.
         - exists (committed (poly j)). rewrite Hfrom. split; [done|]. apply verify_share_commit. congruence. }
    rewrite Hfrom, Hv. cbn [res_bind]. rewrite IH; [|done..|].
    + f_equal. unfold poly_map. rewrite fmap_cons, list_to_map_cons, fmap_insert.
      rewrite <- insert_union_l, insert_union_r; [done|].
      rewrite lookup_fmap. fold (poly_map js). by rewrite lookup_poly_map, decide_False.
    + intros k Hk. destruct (H k) as (Hpk & Hfk & Hck); [by right|]. split; [done|]. cbn.
      rewrite lookup_insert_ne; [done|]. by intros ->.
Qed.

(** Where node [i] ends. *)
Definition finished (i : Z) : node :=
  set_received_shares ((fun cs => peval cs (from_u64 i)) <$> poly_map (peers i))
    (set_received_commitments (committed <$> poly_map (peers i)) (started i)).

Lemma participate_ok i cs ss :
  i ∈ seqZ 1 total -> cs ≡ₚ peers i -> ss ≡ₚ peers i -> participate i cs ss = Ok (finished i).
Proof.
  intros Hi Ec Es. assert (NoDup (peers i)) as Hnd by apply NoDup_filter, NoDup_seqZ.
  unfold participate. rewrite start_ok by done. cbn [res_bind].
  rewrite deliver_commitments_ok; [|done|done|by rewrite Ec|]; cbn [res_bind].
  2: { intros j Hj. split; [by rewrite <- Ec|done]. }
  rewrite deliver_shares_ok; [|done|done|done|done|done|done|by rewrite Es|].
  - cbn. rewrite !(right_id_L ∅ (∪)). by rewrite (poly_map_perm _ _ Ec), (poly_map_perm _ _ Es).
  - intros j Hj. rewrite Es in Hj. split; [done|]. split; [done|]. cbn.
    by rewrite (right_id_L ∅ (∪)), lookup_fmap, lookup_poly_map, decide_True by (by rewrite Ec).
Qed.

Lemma peers_perm i : i ∈ seqZ 1 total -> seqZ 1 total ≡ₚ i :: peers i.
Proof.
  intros Hi. apply NoDup_Permutation; [apply NoDup_seqZ| |].
  - constructor; [by intros [? _]%list_elem_of_filter|]. apply NoDup_filter, NoDup_seqZ.
  - intros j. unfold peers. rewrite elem_of_cons, list_elem_of_filter.
    destruct (decide (j = i)) as [->|]; split; [by left|by intros _|by right|by intros [->|[_ ?]]].
Qed.

Lemma peers_size i : i ∈ seqZ 1 total -> Z.of_nat (size (poly_map (peers i))) = (total - 1)%Z.
Proof.
  intros Hi. pose proof (Permutation_length (peers_perm i Hi)) as L.
  rewrite length_seqZ in L. cbn in L. rewrite <- size_dom. unfold poly_map.
  rewrite dom_list_to_map_L, <- list_fmap_compose. unfold compose. cbn. rewrite list_fmap_id.
  rewrite size_list_to_set by apply NoDup_filter, NoDup_seqZ. lia.
Qed.

Lemma lookup_peers i j cs :
  poly_map (peers i) !! j = Some cs -> (j <> i /\ 1 <= j <= total)%Z /\ cs = poly j.
Proof.
  rewrite lookup_poly_map. case_decide as Hj; [|done]. intros [= <-]. split; [|done].
  apply list_elem_of_filter in Hj as [? Hj%elem_of_seqZ]. split; [done|lia].
Qed.

(** Every state of the ceremony is reachable. *)
Lemma run_reachable {A} (m : method node CryptoError A) (n n' : node) o :
  (m n).2 = apply_op n o -> reachable_steady n -> well_typed o /\ steady n o -> run m n = Ok n' -> reachable_steady n'.
Proof.
  intros E Hr Ha H. unfold run in H. destruct (m n) as [r n0] eqn:Em. bind_ok H as x Hx.
  apply Ok_inj in H as <-. cbn in E. rewrite E. by apply reachable_step.
Qed.

Lemma start_reachable i n : i ∈ seqZ 1 total -> start i = Ok n -> reachable_steady n.
Proof.
  intros Hi H. unfold start in H. bind_ok H as n0 H0. apply elem_of_seqZ in Hi. unfold is_u32 in Hn.
  eapply (run_reachable _ n0 n (OpPolynomial mode (rngs i))); [done| | |done].
  - eapply reachable_new; [..|exact H0]; unfold is_u32, is_usize; lia.
  - by destruct Hmode as [->| ->].
Qed.

Lemma foldl_reachable (f : node -> Z -> result node) js n n' :
  (forall n0 j n1, j ∈ js -> reachable_steady n0 -> f n0 j = Ok n1 -> reachable_steady n1) ->
  reachable_steady n -> res_foldl f js n = Ok n' -> reachable_steady n'.
Proof.
  intros H Hr. revert n Hr. induction js as [|j js IH]; intros n Hr; cbn; [by intros <-%Ok_inj|].
  intros (n1 & H1 & H2)%res_bind_Ok. eapply IH; [|eapply (H n j); [left|done|done]|done].
  intros n0 k n2 Hk. apply H. by right.
Qed.

Lemma participate_reachable i cs ss n :
  i ∈ seqZ 1 total -> cs ≡ₚ peers i -> ss ≡ₚ peers i -> participate i cs ss = Ok n -> reachable_steady n.
Proof.
  intros Hi Ec Es H. unfold participate in H. bind_ok H as n0 H0. bind_ok H as n1 H1.
  apply start_reachable in H0; [|done].
  assert (forall j, j ∈ peers i -> j ∈ seqZ 1 total) as Hp by (by intros j [_ ?]%list_elem_of_filter).
  assert (reachable_steady n1) as Hr1.
  { eapply foldl_reachable; [|exact H0|exact H1]. intros m j m' Hj Hm H'. bind_ok H' as nj Hnj.
    rewrite Ec in Hj. specialize (Hp j Hj). rewrite start_ok in Hnj by done. apply Ok_inj in Hnj as <-.
    eapply (run_reachable _ m m' (OpCommitment j (commitment (started j)))); [done|done| |done].
    apply elem_of_seqZ in Hp. unfold is_u32 in Hn. split; [|done]. split; [unfold is_u32; lia|].
    apply subgroup_list. by eexists. }
  eapply foldl_reachable; [|exact Hr1|exact H]. intros m j m' Hj Hm H'. bind_ok H' as nj Hnj.
  bind_ok H' as [shares r] Hsh. bind_ok H' as s Hs.
  by eapply (run_reachable _ m m' (OpShare s)).
Qed.

Lemma finished_reachable i : i ∈ seqZ 1 total -> reachable_steady (finished i).
Proof. intros Hi. eapply participate_reachable; [done| | |apply participate_ok]; done. Qed.

Lemma finished_ok i : i ∈ seqZ 1 total -> node_ok (finished i) /\ index_ok (finished i).
Proof.
  intros Hi%finished_reachable. split; [by apply reachable_node_ok, steady_reachable|by apply reachable_index_ok].
Qed.

(** The polynomial the whole group shares. *)
Definition ceremony_poly : list F := sum_polys (poly_map (seqZ 1 total)).

Lemma ceremony_group_poly i :
  i ∈ seqZ 1 total -> group_poly (finished i) (poly_map (peers i)) = ceremony_poly.
Proof.
  intros Hi. unfold ceremony_poly. rewrite (poly_map_perm _ _ (peers_perm i Hi)). done.
Qed.

Lemma sum_poly_map ids x :
  NoDup ids -> peval (sum_polys (poly_map ids)) x = fsum ((fun j => peval (poly j) x) <$> ids).
Proof.
  induction 1 as [|j ids Hj Hnd IH]; [done|]. unfold poly_map. rewrite fmap_cons, list_to_map_cons.
  fold (poly_map ids). rewrite sum_polys_insert by (by rewrite lookup_poly_map, decide_False).
  rewrite peval_padd, IH. cbn. ring.
Qed.

Lemma finished_results i :
  i ∈ seqZ 1 total ->
  compute_secret_share (finished i) = Ok (MkPriShare i (peval ceremony_poly (from_u64 i))) /\
  compute_public_polynomial (finished i) = Ok (MkPubPoly (commit_all ceremony_poly)) /\
  compute_aggregate_public_key (finished i) = Ok (generator ⊙ peval ceremony_poly 0) /\
  length ceremony_poly = Z.to_nat threshold0.
Proof.
  intros Hi. destruct (finished_ok i Hi) as [Hok Hix]. rewrite <- (ceremony_group_poly i Hi).
  assert (complete (finished i) (received_shares (finished i))) as Hs.
  { unfold complete. cbn. rewrite map_size_fmap. by apply peers_size. }
  assert (complete (finished i) (received_commitments (finished i))) as Hc.
  { unfold complete. cbn. rewrite map_size_fmap. by apply peers_size. }
  assert (polynomial_coeffs (finished i) <> []) as Hne by apply poly_ne.
  rewrite (std_secret_share_eq _ (poly_map (peers i))), (std_public_key_eq _ (poly_map (peers i))) by done.
  destruct (std_public_polynomial_eq (finished i) (poly_map (peers i))) as [-> L]; try done.
  - intros j cs [_ ->]%lookup_peers. cbn. by rewrite !poly_length.
  - rewrite L. cbn. by rewrite poly_length.
Qed.

End Ceremony.
