(* ===== verification/DkgTheorems.v ===== *)
(** * Theorems on key generation, refresh and reshare

    The properties of [crates/crypto/src/bls12_381/dkg.rs], each with an
    instance on concrete nodes. *)
From S2P Require Import Prelude Algebra Interpolation Primitives Toy Codec Common.
From S2P Require Import Dkg DkgSpec Feldman Ceremony.

(** ** Concrete sessions *)

Module Sample.

(** A key generation with threshold 2 among 3 nodes. *)
Definition rngs (i : Z) : Rng ToyF := MkRng (fun k => toy_F (100 * i + Z.of_nat k)) (fun _ => Byte.x07).

Definition fin (i : Z) : DKGNode ToyF ToyG1 := finished 2 3 7 Fresh rngs i.

Lemma sizes : (1 <= 2 <= 3) /\ is_u32 3.
Proof. unfold is_u32. lia. Qed.

Lemma fin_reachable i : i ∈ seqZ 1 3 -> reachable_steady (fin i).
Proof.
  apply (finished_reachable (G:=ToyG1) 2 3 7 Fresh rngs rngs (proj1 sizes) (proj2 sizes)). by left.
Qed.

Lemma fin_results i :
  i ∈ seqZ 1 3 ->
  compute_secret_share (fin i) =
    Ok (MkPriShare i (peval (ceremony_poly (G:=ToyG1) 2 3 7 Fresh rngs) (from_u64 i))) /\
  compute_public_polynomial (fin i) =
    Ok (MkPubPoly (commit_all (ceremony_poly (G:=ToyG1) 2 3 7 Fresh rngs))) /\
  compute_aggregate_public_key (fin i) =
    Ok (generator ⊙ peval (ceremony_poly (G:=ToyG1) 2 3 7 Fresh rngs) fzero) /\
  length (ceremony_poly (G:=ToyG1) 2 3 7 Fresh rngs) = Z.to_nat 2.
Proof.
  apply (finished_results (G:=ToyG1) 2 3 7 Fresh rngs rngs (proj1 sizes) (proj2 sizes)). by left.
Qed.

(** A receiver of a reshare from dealers 1 and 2 of that committee; the key
    polynomial is [10 + 3x], so the old shares are 13 and 16. *)
Definition old_poly : PubPoly ToyG1 := MkPubPoly (commit_all [toy_F 10; toy_F 3]).
Definition deal (i : Z) : list ToyF := if i =? 1 then [toy_F 13; toy_F 5] else [toy_F 16; toy_F 8].
Definition share_to (i j : Z) : DistributedShare ToyF :=
  MkDistributedShare i j (peval (deal i) (from_u64 j)) [] 9.
Definition ops : list (op (F:=ToyF) (G:=ToyG1)) :=
  [OpCommitment 1 (committed (deal 1)); OpCommitment 2 (committed (deal 2));
   OpShare (share_to 1 4); OpShare (share_to 2 4); OpSelect [2; 1]].
Definition receiver0 : DKGNode ToyF ToyG1 :=
  MkDKGNode 4 2 3 Receiver 3 2 None [] (MkPolynomialCommitment []) ∅ ∅ None 9 ∅.
Definition receiver : DKGNode ToyF ToyG1 := fold_left apply_op ops receiver0.

Lemma reachable_ops A (os : list (op (F:=ToyF) (G:=ToyG1))) n :
  reachable_by A n -> Forall (fun o => forall n', A n' o) os -> reachable_by A (fold_left apply_op os n).
Proof. intros Hr Ha. revert n Hr. induction Ha as [|o os Ho _ IH]; intros n Hr; [done|]. by apply IH, reachable_step. Qed.

Lemma receiver_reachable : reachable_steady receiver.
Proof.
  apply reachable_ops; [by apply (reachable_new _ 4 2 3 9 Receiver)|].
  repeat constructor; try done; apply subgroup_list; by eexists.
Qed.

(** A node that takes part in both committees takes a share at its old index 2,
    and is then given the index 3 of the new committee. *)
Definition moved_ops : list (op (F:=ToyF) (G:=ToyG1)) :=
  [OpCommitment 1 (committed (deal 1)); OpShare (share_to 1 2);
   OpPolynomial (Reshare (toy_F 16) [1; 2] 2 3 (Some 3)) (rngs 2)].
Definition moved0 : DKGNode ToyF ToyG1 :=
  MkDKGNode 2 2 3 DealerReceiver 3 2 None [] (MkPolynomialCommitment []) ∅ ∅ None 9 ∅.
Definition moved : DKGNode ToyF ToyG1 := fold_left apply_op moved_ops moved0.

End Sample.

(** ** The theorems *)

Section Theorems.
Context {F G S P : Type} {SF : ScalarField F} {CG : CurveGroup F G} {BL : Blst F G S P}.
Abbreviation node := (DKGNode F G).
Local Open Scope fr_scope.
Add Field FField : (f_theory (F:=F)).

Lemma not_dealer (n : node) :
  role n <> Dealer -> role n = Standard \/ is_reshare_receiver n = true.
Proof.
  intros H. unfold is_reshare_receiver. rewrite bool_decide_eq_true.
  destruct (role n); naive_solver.
Qed.

Lemma secret_share_not_dealer (n : node) sh : compute_secret_share n = Ok sh -> role n <> Dealer.
Proof.
  intros H E. unfold compute_secret_share in H. rewrite E in H. done.
Qed.

(** Two results about the same reshare use the same participants. *)
Lemma same_participants (n : node) ids ids' :
  reshare_participants n = Ok ids -> reshare_participants n = Ok ids' -> ids = ids'.
Proof. intros H1 H2. rewrite H1 in H2. by apply Ok_inj in H2. Qed.

(** C1: Verifiability against malicious dealers.  Whatever commitments and
    shares the other parties sent, if a node obtains a secret share and a public
    polynomial then the share is the one the public polynomial commits to at the
    node's index: [share * G = pub_poly.eval(i)].  The calls may come in any
    order in which no reshare polynomial gives another index to a node that
    already holds shares or that is not part of a reshare; the operations do not
    check this. *)
Theorem share_on_public_polynomial (n : node) sh pp :
  reachable_steady n -> compute_secret_share n = Ok sh -> compute_public_polynomial n = Ok pp ->
  generator ⊙ pri_v sh = PubPoly_eval pp (pri_i sh).
Proof.
  intros Hn Hs Hp. pose proof (reachable_index_ok n Hn) as Hx. apply steady_reachable, reachable_node_ok in Hn as Hok.
  destruct (dealer_polys_exist n Hok) as [polys Hd].
  destruct (not_dealer n (secret_share_not_dealer n sh Hs)) as [Hr|Hr].
  - apply (std_secret_share n polys) in Hs as ->; try done.
    apply (std_public_polynomial n polys) in Hp as [-> _]; try done.
    unfold PubPoly_eval. cbn. by rewrite eval_points_commit.
  - apply (rs_secret_share n polys) in Hs as (ids & Hi & ->); try done.
    apply (rs_public_polynomial n polys) in Hp as (ids' & cs & Hi' & -> & _ & E & _); try done.
    rewrite (same_participants n ids ids' Hi Hi'). unfold PubPoly_eval. cbn.
    by rewrite eval_points_commit, E.
Qed.

(** The aggregate public key of a session is the public polynomial at
    zero, in a key generation, a refresh and a reshare. *)
Lemma public_key_is_polynomial_at_zero (n : node) pk pp :
  reachable n -> role n <> Dealer ->
  compute_aggregate_public_key n = Ok pk -> compute_public_polynomial n = Ok pp ->
  pk = PubPoly_eval pp 0%Z.
Proof.
  intros Hok%reachable_node_ok Hr Hk Hp. destruct (dealer_polys_exist n Hok) as [polys Hd].
  destruct (not_dealer n Hr) as [Hr'|Hr'].
  - apply (std_public_key n polys) in Hk as ->; try done.
    apply (std_public_polynomial n polys) in Hp as [-> _]; try done.
    unfold PubPoly_eval. cbn. by rewrite eval_points_commit, from_u64_zero.
  - apply (rs_public_key n polys) in Hk as (ids & Hi & ->); try done.
    apply (rs_public_polynomial n polys) in Hp as (ids' & cs & Hi' & -> & _ & E & _); try done.
    rewrite (same_participants n ids ids' Hi Hi'). unfold PubPoly_eval. cbn.
    by rewrite eval_points_commit, from_u64_zero, E.
Qed.


(** C39: The only panic.  Whatever calls were made, no operation panics, although
    some subtract from [total_nodes] and index vectors and participant lists,
    with one exception: [generate_polynomial] panics exactly when it is called for
    a role and a mode it accepts and the threshold is so large that the vector of
    coefficients would be larger than [isize::MAX] bytes.  Memory that runs out,
    which aborts the process, is not modelled. *)
Theorem dkg_no_panic (n : node) :
  reachable n ->
  no_panic (compute_secret_share n) /\ no_panic (compute_aggregate_public_key n) /\
  no_panic (compute_public_polynomial n) /\ (forall rng, no_panic (generate_shares n rng)) /\
  (forall ids, no_panic (select_reshare_participants ids n).1) /\
  (forall s, no_panic (receive_share s n).1) /\
  (forall from c, no_panic (receive_commitment from c n).1) /\
  (forall mode rng, (generate_polynomial mode rng n).1 = Panic <->
     mode_accepted n mode /\ (isize_max < effective_threshold (configure mode n) * FR_SIZE_OF)%Z).
Proof.
  intros Hok%reachable_node_ok. split; [by apply no_panic_secret_share|].
  split; [by apply no_panic_public_key|]. split; [by apply no_panic_public_polynomial|]. split_and!.
  - intros rng. unfold generate_shares. repeat (apply no_panic_bind; [auto with orbis|intros]). done.
  - intros ids. by destruct (select_reshare_cases ids n) as [(r & _ & Hp & ->)|(ids' & _ & _ & ->)].
  - intros s. by destruct (receive_share_cases s n) as [[e ->]|[(c & _ & _ & ->)|[_ ->]]].
  - intros from c. by destruct (receive_commitment_cases from c n) as [[e ->]|[_ ->]].
  - intros mode rng. destruct (generate_polynomial_panics mode rng n) as [H1 H2]. unfold fits in *.
    split; [intros [? ?]%H1; split; [done|lia]|intros [? ?]; apply H2; split; [done|lia]].
Qed.

(** Accepting a share.  A share is stored exactly when it is the first
    from a valid sender, addressed to this node in this session, and verifies
    against the sender's commitment; a share that fails verification is
    reported as a complaint and nothing else changes; any other refusal leaves
    the node as it was. *)
Lemma receive_share_outcomes (n : node) s :
  (share_accepted n s ->
     receive_share s n =
       (Ok tt, set_received_shares (<[from_id s := value s]> (received_shares n)) n)) /\
  (~ share_accepted n s ->
     exists e, receive_share s n = (Err e, n) \/
       (e = DKGError "Share verification failed" /\
        receive_share s n = (Err e, complain n (from_id s)) /\
        exists c, received_commitments n !! from_id s = Some c /\
                  verify_share c (receive_id n) (value s) = false)).
Proof.
  split; [apply receive_share_ok|]. intros H.
  destruct (receive_share_cases s n) as [[e ->]|[(c & Hc & Hv & ->)|[Ha _]]]; [by eauto| |done].
  eexists. right. split; [done|]. split; [done|]. by exists c.
Qed.

(** C30: Agreement.  Two nodes that have seen the same commitments from every
    member compute the same public polynomial and the same public key. *)
Theorem dkg_agreement (n1 n2 : node) pp1 pp2 pk1 pk2 :
  reachable n1 -> reachable n2 -> role n1 = Standard -> role n2 = Standard ->
  <[id n1 := commitment n1]> (received_commitments n1) =
  <[id n2 := commitment n2]> (received_commitments n2) ->
  compute_public_polynomial n1 = Ok pp1 -> compute_public_polynomial n2 = Ok pp2 ->
  compute_aggregate_public_key n1 = Ok pk1 -> compute_aggregate_public_key n2 = Ok pk2 ->
  pp1 = pp2 /\ pk1 = pk2.
Proof.
  intros Hok1%reachable_node_ok Hok2%reachable_node_ok Hr1 Hr2 Hv Hp1 Hp2 Hk1 Hk2.
  destruct (dealer_polys_exist n1 Hok1) as [polys1 Hd1], (dealer_polys_exist n2 Hok2) as [polys2 Hd2].
  apply (std_public_polynomial n1 polys1) in Hp1 as [-> _]; try done.
  apply (std_public_polynomial n2 polys2) in Hp2 as [-> _]; try done.
  apply (std_public_key n1 polys1) in Hk1 as ->; try done.
  apply (std_public_key n2 polys2) in Hk2 as ->; try done.
  enough (group_poly n1 polys1 = group_poly n2 polys2) as -> by done. unfold group_poly. f_equal.
  assert (forall n : node, node_ok n -> commitment n = committed (polynomial_coeffs n)) as Hc.
  { intros n Hn. unfold committed. rewrite <- (ok_commitment n Hn). by destruct (commitment n). }
  rewrite Hd1, Hd2, !Hc, <- !fmap_insert in Hv by done.
  by apply (inj (fmap committed)) in Hv.
Qed.

(** The secret a set of shares determines: the sum of the shares weighted by
    [lagrange_at_zero]. *)
Definition reconstruct (shares : list (PriShare F)) : result F :=
  res_foldl (fun acc sh =>
    let? lambda := lagrange_at_zero (pri_i sh) (pri_i <$> shares) in
    Ok (acc + lambda * pri_v sh)) shares 0.

Lemma reconstruct_spec (shares : list (PriShare F)) cs :
  Forall is_u32 (pri_i <$> shares) -> NoDup (pri_i <$> shares) ->
  (length cs <= length shares)%nat ->
  Forall (fun sh => pri_v sh = peval cs (from_u64 (pri_i sh))) shares ->
  reconstruct shares = Ok (peval cs 0).
Proof.
  intros Hu Hnd Hl Hv. unfold reconstruct. set (ids := pri_i <$> shares) in *.
  erewrite (res_foldl_pure _ (fun acc sh => acc + dealer_weight ids (pri_i sh) *
    peval cs (from_u64 (pri_i sh)))).
  - rewrite fold_left_fsum. f_equal.
    rewrite <- (lagrange_zero cs (from_u64 <$> ids));
      [|by apply ids_NoDup|subst ids; by rewrite !length_fmap].
    subst ids. unfold dealer_weight. rewrite <- !list_fmap_compose. unfold compose. ring.
  - intros acc sh Hsh. assert (pri_i sh ∈ ids) as Hin by (by apply list_elem_of_fmap_2).
    rewrite lagrange_at_zero_spec; [|done|by eapply Forall_forall in Hu|done].
    cbn. eapply Forall_forall in Hv; [|done]. by rewrite <- Hv.
Qed.

(** C27: Threshold reconstruction.  Any set of shares at distinct indices that
    lie on the public polynomial and is at least as large as its number of
    coefficients determines the discrete logarithm of the ring key. *)
Theorem threshold_reconstruction (pp : PubPoly G) (shares : list (PriShare F)) :
  Forall (fun p => in_subgroup p = true) (commits pp) ->
  Forall is_u32 (pri_i <$> shares) -> NoDup (pri_i <$> shares) ->
  (length (commits pp) <= length shares)%nat ->
  Forall (fun sh => generator ⊙ pri_v sh = PubPoly_eval pp (pri_i sh)) shares ->
  exists secret, reconstruct shares = Ok secret /\ generator ⊙ secret = PubPoly_eval pp 0%Z.
Proof.
  intros [cs Hcs]%subgroup_list Hu Hnd Hl Hv. exists (peval cs 0).
  rewrite Hcs, length_fmap in Hl. unfold PubPoly_eval in *. fold (commit_all (G:=G) cs) in Hcs.
  split; [|by rewrite Hcs, eval_points_commit, from_u64_zero].
  apply reconstruct_spec; [done..|]. eapply Forall_impl; [exact Hv|]. intros sh E. cbn in E.
  rewrite Hcs, eval_points_commit in E. by apply generator_inj in E.
Qed.

(** C29: Secrecy of the sharing.  The evaluations of a dealer's polynomial at
    fewer points than it has coefficients say nothing about its constant
    term: for every other candidate there is a polynomial of the same size
    with that constant term and the same evaluations. *)
Theorem shares_below_threshold_hide (n : node) (ids : list Z) (candidate : F) :
  Forall is_u32 ids -> NoDup ids -> 0%Z ∉ ids ->
  (length ids < length (polynomial_coeffs n))%nat ->
  exists coeffs, length coeffs = length (polynomial_coeffs n) /\
    eval_polynomial (set_polynomial coeffs n) 0 = candidate /\
    forall i, i ∈ ids -> eval_polynomial (set_polynomial coeffs n) i = eval_polynomial n i.
Proof.
  intros Hu Hnd H0 Hl. set (cs := polynomial_coeffs n) in *.
  set (f x := if decide (x = 0) then candidate else peval cs x).
  assert (NoDup (0 :: (from_u64 (F:=F) <$> ids))) as Hnd0.
  { rewrite <- (from_u64_zero (F:=F)), <- fmap_cons. apply ids_NoDup; [|by constructor].
    constructor; [|done]. unfold is_u32. lia. }
  destruct (interpolant_exists f _ Hnd0) as (ds & Ld & E). cbn in Ld. rewrite length_fmap in Ld.
  exists (ds ++ replicate (length cs - length ds) 0).
  setoid_rewrite eval_polynomial_spec. cbn [polynomial_coeffs set_polynomial].
  setoid_rewrite peval_app. setoid_rewrite peval_zeros. split; [|split].
  - rewrite length_app, length_replicate. lia.
  - rewrite from_u64_zero, (E 0) by left. unfold f. rewrite decide_True by done. ring.
  - intros i Hi. rewrite E by (right; by apply list_elem_of_fmap_2). unfold f.
    rewrite decide_False; [fold cs; ring|]. apply from_u64_nonzero.
    + rewrite Forall_forall in Hu. by apply Hu.
    + by intros ->.
Qed.

(** C8: A reshare keeps the ring key.  If each selected old dealer committed
    to its old share, that is the constant term of its commitment is the old
    public polynomial at its id, and at least as many dealers are selected as
    the old polynomial has coefficients, then the key the new committee
    computes is the old key. *)
Theorem reshare_preserves_key (n : node) (old : PubPoly G) ids pk :
  reachable n -> is_reshare_receiver n = true ->
  reshare_participants n = Ok ids -> compute_aggregate_public_key n = Ok pk ->
  Forall (fun p => in_subgroup p = true) (commits old) ->
  (length (commits old) <= length ids)%nat ->
  (forall pid c, pid ∈ ids -> reshare_commitment_for n pid = Ok c ->
     index (E:=CryptoError) (coefficients c) 0 = Ok (PubPoly_eval old pid)) ->
  pk = PubPoly_eval old 0%Z.
Proof.
  intros Hok%reachable_node_ok Hr Hi Hk [cs Hcs]%subgroup_list Hl Hc.
  fold (commit_all (G:=G) cs) in Hcs. rewrite Hcs, commit_all_length in Hl.
  destruct (dealer_polys_exist n Hok) as [polys Hd]. unfold PubPoly_eval in *. rewrite Hcs in *.
  rewrite eval_points_commit, from_u64_zero. pose proof (participants_of n ids Hok Hi) as Hp.
  pose proof Hk as Hk'. apply (rs_public_key n polys) in Hk as (ids' & Hi' & ->); try done.
  rewrite (same_participants n ids' ids Hi' Hi). f_equal. unfold reshared_at.
  rewrite <- (lagrange_zero cs (from_u64 <$> ids)); [|apply ids_NoDup; apply Hp|by rewrite length_fmap].
  rewrite <- list_fmap_compose. apply fsum_ext. intros pid Hpid. cbn. unfold dealer_weight. f_equal.
  assert (exists c, reshare_commitment_for n pid = Ok c) as [c Hcm].
  { unfold compute_aggregate_public_key in Hk'. rewrite Hr, Hi in Hk'. cbn [res_bind] in Hk'.
    eapply (res_foldl_Ok _ (fun pid => exists c, reshare_commitment_for n pid = Ok c)) in Hk'.
    - rewrite Forall_forall in Hk'. by apply Hk'.
    - intros a i y Hy. bind_ok Hy as w _. bind_ok Hy as c Hcm. by exists c. }
  specialize (Hc pid c Hpid Hcm). rewrite eval_points_commit in Hc.
  destruct (reshare_commitment_poly n polys pid c Hok Hd Hcm) as [Ec _].
  rewrite Ec, commit_all_head in Hc. destruct (dealer_poly n polys pid) as [|d ds]; [done|].
  apply Ok_inj, generator_inj in Hc. rewrite peval_zero. cbn. by rewrite Hc.
Qed.

(** A refresh round in which every dealer's commitment has the identity as
    its constant term aggregates to the identity key, so the delta it produces
    does not move the ring key. *)
Lemma refresh_delta_is_zero (n : node) pk :
  reachable n -> role n = Standard ->
  constant_term_is_identity (commitment n) = true ->
  (forall i c, received_commitments n !! i = Some c -> constant_term_is_identity c = true) ->
  compute_aggregate_public_key n = Ok pk -> public_key_is_identity pk = true.
Proof.
  intros Hok%reachable_node_ok Hr Hown Hall Hk. destruct (dealer_polys_exist n Hok) as [polys Hd].
  apply (std_public_key n polys) in Hk as ->; try done. apply g_is_zero_true, gen_zero_iff.
  assert (forall cs : list F, constant_term_is_identity (committed (G:=G) cs) = true -> peval cs 0 = 0) as Hz.
  { intros [|c cs]; [done|]. unfold constant_term_is_identity. cbn.
    intros ->%g_is_zero_true%gen_zero_iff. ring. }
  rewrite group_poly_fold by (by apply dealer_not_self).
  apply (map_fold_rel (fun c (_ : unit) => peval c 0 = 0) _ (fun _ _ u => u) _ _ tt).
  - apply Hz. unfold committed. rewrite <- (ok_commitment n Hok). by destruct (commitment n).
  - intros i cs acc _ Hi E. rewrite peval_padd, E, Hz; [ring|].
    by eapply Hall, dealer_lookup.
Qed.

Lemma commit_all_add (cs ds : list F) :
  length cs = length ds ->
  zip_with g_add (commit_all (G:=G) cs) (commit_all ds) = commit_all (padd cs ds).
Proof.
  revert ds; induction cs as [|c cs IH]; intros [|d ds]; cbn; try done.
  intros [= L]. fold (commit_all (G:=G) cs) (commit_all (G:=G) ds). by rewrite IH, generator_add.
Qed.

Lemma PubPoly_decode (pp : PubPoly G) b :
  points_wf (commits pp) -> PubPoly_to_bytes pp = Ok b -> PubPoly_from_bytes b = Ok pp.
Proof.
  intros Hwf Hb. unfold PubPoly_from_bytes. rewrite (points_roundtrip _ _ _ (commits pp) b) by done.
  by destruct pp.
Qed.

(** C28: Finishing a refresh.  Adding the delta polynomial to the stored public
    polynomial gives an encoding that decodes again, on which the sum of the
    old share and the delta share lies, and whose value at zero is still the
    old key. *)
Theorem refresh_keeps_key (old delta : PubPoly G) i (s d : F) a b :
  points_wf (commits old) -> points_wf (commits delta) ->
  length (commits old) = length (commits delta) ->
  PubPoly_to_bytes old = Ok a -> PubPoly_to_bytes delta = Ok b ->
  PubPoly_eval delta 0%Z = g_zero ->
  generator ⊙ s = PubPoly_eval old i -> generator ⊙ d = PubPoly_eval delta i ->
  exists bytes pp, combine_pub_poly_bytes (G:=G) a b = Ok bytes /\
    PubPoly_from_bytes bytes = Ok pp /\ length (commits pp) = length (commits old) /\
    generator ⊙ (s + d) = PubPoly_eval pp i /\ PubPoly_eval pp 0%Z = PubPoly_eval old 0%Z.
Proof.
  intros Ho Hd L Ha Hb Hz Hs Hdi. unfold combine_pub_poly_bytes.
  rewrite (PubPoly_decode old a), (PubPoly_decode delta b) by done.
  cbn [res_bind]. rewrite L, Nat.eqb_refl. cbn [negb reject res_bind].
  destruct Ho as [[cs Hcs]%subgroup_list Hlen], Hd as [[ds Hds]%subgroup_list _].
  fold (commit_all (G:=G) cs) in Hcs. fold (commit_all (G:=G) ds) in Hds.
  unfold PubPoly_eval in *. rewrite Hcs, Hds, !commit_all_length in *.
  rewrite commit_all_add by done. set (pp := MkPubPoly (commit_all (padd cs ds))).
  assert (points_wf (commits pp)) as Hwf.
  { split; [apply subgroup_list; by eexists|]. cbn. rewrite commit_all_length, padd_length.
    by rewrite L, Nat.max_id, <- L. }
  eexists _, pp. split; [done|]. split; [by apply PubPoly_decode|].
  cbn. rewrite commit_all_length, padd_length. split; [lia|].
  rewrite !eval_points_commit, !from_u64_zero, !peval_padd in *. dlog. split.
  - rewrite <- !generator_add. by rewrite Hs, Hdi.
  - apply gen_zero_iff in Hz. rewrite Hz. f_equal. ring.
Qed.

(** C3: A complete honest run.  For every threshold and committee size, every
    randomness and every order in which commitments and shares arrive, a key
    generation or refresh ends without error at every node, all nodes agree on
    the public polynomial and key, each share is the value of one common
    polynomial with [threshold] coefficients, and its constant term is the sum
    of the dealers' constant terms. *)
Theorem honest_ceremony (threshold0 total sid : Z) (mode : DkgMode F) (rngs nonces : Z -> Rng F) :
  (1 <= threshold0 <= total)%Z -> is_u32 total -> mode = Fresh \/ mode = Refresh ->
  exists cs, length cs = Z.to_nat threshold0 /\
    peval cs 0 = fsum ((fun j => (constant_term mode (rngs j)).1) <$> seqZ 1 total) /\
    forall i commit_order share_order,
      i ∈ seqZ 1 total -> commit_order ≡ₚ peers total i -> share_order ≡ₚ peers total i ->
      exists n : node,
        participate threshold0 total sid mode rngs nonces i commit_order share_order = Ok n /\
        compute_secret_share n = Ok (MkPriShare i (peval cs (from_u64 i))) /\
        compute_public_polynomial n = Ok (MkPubPoly (commit_all cs)) /\
        compute_aggregate_public_key n = Ok (generator ⊙ peval cs 0).
Proof.
  intros Ht Hn Hm. exists (ceremony_poly (G:=G) threshold0 total sid mode rngs). split; [|split].
  - apply (finished_results (G:=G) threshold0 total sid mode rngs nonces Ht Hn Hm 1), elem_of_seqZ. lia.
  - unfold ceremony_poly. rewrite sum_poly_map by apply NoDup_seqZ. apply fsum_ext. intros j _.
    rewrite peval_zero. unfold poly, drawn. destruct (constant_term mode (rngs j)).
    by destruct (draw_scalars _ _).
  - intros i co so Hi Hco Hso. eexists. split; [by apply participate_ok|].
    destruct (finished_results (G:=G) threshold0 total sid mode rngs nonces Ht Hn Hm i Hi)
      as (? & ? & ? & _). done.
Qed.

End Theorems.

(** ** Instances *)

(** [1], [2] and [3] are members of the sample committee. *)
Ltac member := apply elem_of_seqZ; lia.

Lemma share_on_public_polynomial_witness :
  exists sh pp, compute_secret_share Sample.receiver = Ok sh /\
    compute_public_polynomial Sample.receiver = Ok pp /\
    generator ⊙ pri_v sh = PubPoly_eval pp (pri_i sh).
Proof.
  eexists _, _. split; [vm_compute; reflexivity|]. split; [vm_compute; reflexivity|].
  apply (share_on_public_polynomial Sample.receiver).
  - exact Sample.receiver_reachable.
  - vm_compute. reflexivity.
  - vm_compute. reflexivity.
Defined.

(** Without the condition the share may be off the polynomial. *)
Lemma moved_index_off_polynomial :
  reachable Sample.moved /\
  match compute_secret_share Sample.moved,
        compute_public_polynomial Sample.moved with
  | Ok sh, Ok pp => generator ⊙ pri_v sh <> PubPoly_eval pp (pri_i sh)
  | _, _ => False
  end.
Proof.
  split; [|by vm_compute]. apply Sample.reachable_ops; [by apply (reachable_new _ 2 2 3 9 DealerReceiver)|].
  repeat (apply Forall_cons; split); [intros _; split; [done|apply subgroup_list; by eexists]|done| |constructor].
  intros _. split_and!; [by repeat constructor|done..|by intros i [= <-]].
Qed.


Lemma dkg_no_panic_witness : no_panic (compute_public_polynomial Sample.receiver).
Proof. apply (dkg_no_panic Sample.receiver). apply steady_reachable, Sample.receiver_reachable. Defined.

Lemma dkg_agreement_witness :
  exists pp1 pp2 pk1 pk2, compute_public_polynomial (Sample.fin 1) = Ok pp1 /\
    compute_public_polynomial (Sample.fin 2) = Ok pp2 /\ pp1 = pp2 /\ pk1 = pk2 /\
    compute_aggregate_public_key (Sample.fin 1) = Ok pk1.
Proof.
  destruct (Sample.fin_results 1) as (_ & Hp1 & Hk1 & _); [member|].
  destruct (Sample.fin_results 2) as (_ & Hp2 & Hk2 & _); [member|]. eexists _, _, _, _.
  split; [exact Hp1|]. split; [exact Hp2|]. apply and_assoc. split; [|exact Hk1].
  eapply (dkg_agreement (Sample.fin 1) (Sample.fin 2));
    [apply steady_reachable, Sample.fin_reachable; member|apply steady_reachable, Sample.fin_reachable; member
    |reflexivity|reflexivity|vm_compute; reflexivity|exact Hp1|exact Hp2|exact Hk1|exact Hk2].
Defined.

Lemma threshold_reconstruction_witness :
  exists secret,
    reconstruct [MkPriShare 1 (toy_F 13); MkPriShare 3 (toy_F 19)] = Ok secret /\
    generator ⊙ secret = PubPoly_eval Sample.old_poly 0.
Proof.
  apply (threshold_reconstruction Sample.old_poly).
  - apply subgroup_list. by eexists.
  - repeat constructor; vm_compute; done.
  - apply (bool_decide_unpack _). vm_compute. done.
  - vm_compute. lia.
  - repeat constructor; vm_compute; reflexivity.
Defined.

Lemma shares_below_threshold_hide_witness :
  exists coeffs, length coeffs = 2%nat /\
    eval_polynomial (set_polynomial coeffs (Sample.fin 1)) 0 = toy_F 42 /\
    forall i, i ∈ [3] -> eval_polynomial (set_polynomial coeffs (Sample.fin 1)) i
                         = eval_polynomial (Sample.fin 1) i.
Proof.
  apply (shares_below_threshold_hide (Sample.fin 1) [3] (toy_F 42)).
  - repeat constructor; vm_compute; done.
  - apply NoDup_singleton.
  - by intros H%list_elem_of_singleton.
  - vm_compute. lia.
Defined.

Lemma reshare_preserves_key_witness :
  exists pk, compute_aggregate_public_key Sample.receiver = Ok pk /\
    pk = PubPoly_eval Sample.old_poly 0.
Proof.
  eexists. split; [vm_compute; reflexivity|].
  apply (reshare_preserves_key Sample.receiver Sample.old_poly [1; 2]).
  - apply steady_reachable. exact Sample.receiver_reachable.
  - vm_compute. reflexivity.
  - vm_compute. reflexivity.
  - vm_compute. reflexivity.
  - apply subgroup_list. by eexists.
  - vm_compute. lia.
  - intros pid c Hp Hc. apply elem_of_cons in Hp as [->|Hp%list_elem_of_singleton]; [|subst pid];
      vm_compute in Hc; injection Hc as <-; vm_compute; reflexivity.
Defined.

Lemma refresh_keeps_key_witness :
  exists a b bytes pp, combine_pub_poly_bytes (G:=ToyG1) a b = Ok bytes /\
    PubPoly_from_bytes bytes = Ok pp /\ length (commits pp) = 2%nat /\
    generator ⊙ fadd (toy_F 16) (toy_F 14) = PubPoly_eval pp 2 /\
    PubPoly_eval pp 0 = PubPoly_eval Sample.old_poly 0.
Proof.
  eexists _, _. eapply (refresh_keeps_key Sample.old_poly
    (MkPubPoly (commit_all [toy_F 0; toy_F 7])) 2 (toy_F 16) (toy_F 14)).
  - split; [apply subgroup_list; by eexists|vm_compute; done].
  - split; [apply subgroup_list; by eexists|vm_compute; done].
  - reflexivity.
  - reflexivity.
  - reflexivity.
  - vm_compute. reflexivity.
  - vm_compute. reflexivity.
  - vm_compute. reflexivity.
Defined.

Lemma honest_ceremony_witness :
  exists cs : list ToyF, length cs = 2%nat /\
    exists n : DKGNode ToyF ToyG1,
      participate 2 3 7 Fresh Sample.rngs Sample.rngs 2 [3; 1] [1; 3] = Ok n /\
      compute_secret_share n = Ok (MkPriShare 2 (peval cs (from_u64 2))).
Proof.
  destruct (honest_ceremony (G:=ToyG1) 2 3 7 Fresh Sample.rngs Sample.rngs) as (cs & L & _ & H);
    [lia|apply Sample.sizes|left; reflexivity|].
  assert (peers 3 2 = [1; 3]) as E by (vm_compute; reflexivity).
  exists cs. split; [exact L|]. destruct (H 2 [3; 1] [1; 3]) as (n & Hn & Hs & _);
    [member|rewrite E; apply Permutation_swap|rewrite E; reflexivity|].
  exists n. split; [exact Hn|exact Hs].
Defined.
