(* ===== verification/Context.v ===== *)
(** * Binding contexts and their digests

    [crates/crypto/src/context.rs] and [pet_context.rs]: the deterministic
    encodings of what a ciphertext, a reader authorization and a PET tag are
    bound to, and the digests taken of them.  A Rust [String] is the list of
    its UTF-8 bytes. *)
From S2P Require Import Prelude Algebra Primitives Toy.

(** ** Data *)

Record PetTagBinding := MkPetTagBinding {
  ptb_ring_id : bytes;
  ptb_pet_pk : bytes;
  ptb_ephemeral_point : bytes;
  ptb_masked_fingerprint : bytes;
}.

Record CiphertextContext := MkCiphertextContext {
  cc_ring_pk : bytes;
  cc_policy_id : bytes;
  cc_resource : bytes;
  cc_permission : bytes;
  cc_tier : option bytes;
  cc_timestamp : option Z;
  cc_salt : option bytes;
  cc_pet_tag : option PetTagBinding;
}.

Record ValidWindowBinding := MkValidWindowBinding { vw_start : Z; vw_end : Z }.

Record ReaderAuthorizationContext := MkReaderAuthorizationContext {
  ra_chain_id : bytes;
  ra_ring_pk : bytes;
  ra_jwt_issuer : bytes;
  ra_jwt_subject : option bytes;
  ra_resolved_actor : bytes;
  ra_jwt_id : bytes;
  ra_jwt_issued_time : Z;
  ra_jwt_expiration_time : Z;
  ra_jwt_not_before : option Z;
  ra_object_id : bytes;
  ra_recipient_pk : bytes;
  ra_derivation : option bytes;
  ra_salt : option bytes;
  ra_valid_window : option ValidWindowBinding;
  ra_audit_target_object_id : option bytes;
}.

(** [trait/types.rs] *)
Record Secret := MkSecret { enc_cmt : bytes; encrypted_data : bytes; nonce : bytes }.
Record EncryptionProof := MkEncryptionProof { ep_challenge : bytes; ep_response : bytes }.

#[global] Instance PetTagBinding_eq_dec : EqDecision PetTagBinding.
Proof. solve_decision. Defined.
#[global] Instance CiphertextContext_eq_dec : EqDecision CiphertextContext.
Proof. solve_decision. Defined.
#[global] Instance ValidWindowBinding_eq_dec : EqDecision ValidWindowBinding.
Proof. solve_decision. Defined.
#[global] Instance ReaderAuthorizationContext_eq_dec : EqDecision ReaderAuthorizationContext.
Proof. solve_decision. Defined.

(** ** Encodings

    Each [put] appends to [out]. *)

Definition put_bytes (out b : bytes) : bytes :=
  out ++ to_be_bytes 4 (as_u32 (Z.of_nat (length b))) ++ b.

Definition put_opt_str (out : bytes) (value : option bytes) : bytes :=
  match value with
  | None => out ++ [Byte.x00]
  | Some s => put_bytes (out ++ [Byte.x01]) s
  end.

Definition put_opt_u64 (out : bytes) (value : option Z) : bytes :=
  match value with
  | None => out ++ [Byte.x00]
  | Some n => (out ++ [Byte.x01]) ++ to_be_bytes 8 n
  end.

Definition put_opt_bytes (out : bytes) (value : option bytes) : bytes :=
  match value with
  | None => out ++ [Byte.x00]
  | Some b => put_bytes (out ++ [Byte.x01]) b
  end.

Definition put_opt_pet_tag (out : bytes) (value : option PetTagBinding) : bytes :=
  match value with
  | None => out ++ [Byte.x00]
  | Some binding =>
      let out := out ++ [Byte.x01] in
      let out := put_bytes out (ptb_ring_id binding) in
      let out := put_bytes out (ptb_pet_pk binding) in
      let out := put_bytes out (ptb_ephemeral_point binding) in
      put_bytes out (ptb_masked_fingerprint binding)
  end.

Definition canonical_encode (context : CiphertextContext) : bytes :=
  let out := [] in
  let out := put_bytes out (cc_ring_pk context) in
  let out := put_bytes out (cc_policy_id context) in
  let out := put_bytes out (cc_resource context) in
  let out := put_bytes out (cc_permission context) in
  let out := put_opt_str out (cc_tier context) in
  let out := put_opt_u64 out (cc_timestamp context) in
  let out := put_opt_str out (cc_salt context) in
  put_opt_pet_tag out (cc_pet_tag context).

Definition put_opt_valid_window (out : bytes) (value : option ValidWindowBinding) : bytes :=
  match value with
  | None => out ++ [Byte.x00]
  | Some w => ((out ++ [Byte.x01]) ++ to_be_bytes 8 (vw_start w)) ++ to_be_bytes 8 (vw_end w)
  end.

Definition canonical_encode_reader_authorization (ctx : ReaderAuthorizationContext) : bytes :=
  let out := [] in
  let out := put_bytes out (ra_chain_id ctx) in
  let out := put_bytes out (ra_ring_pk ctx) in
  let out := put_bytes out (ra_jwt_issuer ctx) in
  let out := put_opt_str out (ra_jwt_subject ctx) in
  let out := put_bytes out (ra_resolved_actor ctx) in
  let out := put_bytes out (ra_jwt_id ctx) in
  let out := out ++ to_be_bytes 8 (ra_jwt_issued_time ctx) in
  let out := out ++ to_be_bytes 8 (ra_jwt_expiration_time ctx) in
  let out := put_opt_u64 out (ra_jwt_not_before ctx) in
  let out := put_bytes out (ra_object_id ctx) in
  let out := put_bytes out (ra_recipient_pk ctx) in
  let out := put_opt_bytes out (ra_derivation ctx) in
  let out := put_opt_str out (ra_salt ctx) in
  let out := put_opt_valid_window out (ra_valid_window ctx) in
  put_opt_str out (ra_audit_target_object_id ctx).

(** ** Digests *)

Definition CONTEXT_DIGEST_DOMAIN : bytes := bstr "orbis-context-v1".
Definition CIPHERTEXT_DIGEST_DOMAIN : bytes := bstr "orbis-ciphertext-v1".
Definition READER_AUTHORIZATION_CONTEXT_DIGEST_DOMAIN : bytes :=
  bstr "orbis-reader-authorization-context-v1".
Definition TAG_PROOF_DIGEST_DOMAIN : bytes := bstr "orbis-pet-tag-proof-v1".

Definition context_message (context : CiphertextContext) (enc_cmt : bytes) : bytes :=
  CONTEXT_DIGEST_DOMAIN ++ canonical_encode context ++ put_bytes [] enc_cmt.

Definition context_digest `{Sha2} (context : CiphertextContext) (enc_cmt : bytes) : bytes :=
  sha256 (context_message context enc_cmt).

Definition ciphertext_message (nonce encrypted_data : bytes) : bytes :=
  CIPHERTEXT_DIGEST_DOMAIN ++ nonce ++ encrypted_data.

Definition ciphertext_digest `{Sha2} (nonce encrypted_data : bytes) : bytes :=
  sha256 (ciphertext_message nonce encrypted_data).

Definition reader_authorization_message (ctx : ReaderAuthorizationContext) : bytes :=
  READER_AUTHORIZATION_CONTEXT_DIGEST_DOMAIN ++ canonical_encode_reader_authorization ctx.

Definition reader_authorization_context_digest `{Sha2} (ctx : ReaderAuthorizationContext) : bytes :=
  sha256 (reader_authorization_message ctx).

Definition tag_proof_message (ephemeral_point masked_fingerprint pet_pk ring_id : bytes)
    (ciphertext_context : CiphertextContext) (secret : Secret) (payload_proof : EncryptionProof)
    : bytes :=
  let out := [] in
  let out := put_bytes out ephemeral_point in
  let out := put_bytes out masked_fingerprint in
  let out := put_bytes out pet_pk in
  let out := put_bytes out ring_id in
  let out := put_bytes out (canonical_encode ciphertext_context) in
  let out := put_bytes out (enc_cmt secret) in
  let out := put_bytes out (nonce secret) in
  let out := put_bytes out (encrypted_data secret) in
  let out := put_bytes out (ep_challenge payload_proof) in
  let out := put_bytes out (ep_response payload_proof) in
  TAG_PROOF_DIGEST_DOMAIN ++ out.

Definition tag_proof_digest `{Sha2} (ephemeral_point masked_fingerprint pet_pk ring_id : bytes)
    (ciphertext_context : CiphertextContext) (secret : Secret) (payload_proof : EncryptionProof)
    : bytes :=
  sha256 (tag_proof_message ephemeral_point masked_fingerprint pet_pk ring_id ciphertext_context
            secret payload_proof).

(** ** Well-formed values: what fits its length prefix or its integer type *)

Definition short (b : bytes) : Prop := is_u32 (Z.of_nat (length b)).
Definition is_u64 (z : Z) : Prop := 0 <= z < 2 ^ 64.
Definition on_some {A} (P : A -> Prop) (o : option A) : Prop :=
  match o with Some a => P a | None => True end.

Definition ptb_wf (t : PetTagBinding) : Prop :=
  short (ptb_ring_id t) /\ short (ptb_pet_pk t) /\ short (ptb_ephemeral_point t) /\
  short (ptb_masked_fingerprint t).

Definition cc_wf (c : CiphertextContext) : Prop :=
  short (cc_ring_pk c) /\ short (cc_policy_id c) /\ short (cc_resource c) /\
  short (cc_permission c) /\ on_some short (cc_tier c) /\ on_some is_u64 (cc_timestamp c) /\
  on_some short (cc_salt c) /\ on_some ptb_wf (cc_pet_tag c).

Definition vw_wf (w : ValidWindowBinding) : Prop := is_u64 (vw_start w) /\ is_u64 (vw_end w).

Definition ra_wf (c : ReaderAuthorizationContext) : Prop :=
  short (ra_chain_id c) /\ short (ra_ring_pk c) /\ short (ra_jwt_issuer c) /\
  on_some short (ra_jwt_subject c) /\ short (ra_resolved_actor c) /\ short (ra_jwt_id c) /\
  is_u64 (ra_jwt_issued_time c) /\ is_u64 (ra_jwt_expiration_time c) /\
  on_some is_u64 (ra_jwt_not_before c) /\ short (ra_object_id c) /\ short (ra_recipient_pk c) /\
  on_some short (ra_derivation c) /\ on_some short (ra_salt c) /\
  on_some vw_wf (ra_valid_window c) /\ on_some short (ra_audit_target_object_id c).

(** ** Prefix codes

    A [put] whose output can be cut off the front of any byte string in at
    most one way. *)
Class PrefixCode {A} (wf : A -> Prop) (put : bytes -> A -> bytes) : Prop := {
  put_app out a : put out a = out ++ put [] a;
  put_inj a b x y : wf a -> wf b -> put [] a ++ x = put [] b ++ y -> a = b /\ x = y;
}.

Definition put_u64 (out : bytes) (n : Z) : bytes := out ++ to_be_bytes 8 n.

Lemma app_inj_length {A} (a b x y : list A) : length a = length b -> a ++ x = b ++ y -> a = b /\ x = y.
Proof. intros L H. by apply app_inj_1 in H. Qed.

#[global] Instance put_bytes_code : PrefixCode short put_bytes.
Proof.
  split; [done|]. intros a b x y Ha Hb H. unfold put_bytes in H. cbn [app] in H.
  rewrite <- !app_assoc in H. apply app_inj_length in H as [E H]; [|by rewrite !length_to_be_bytes].
  apply to_be_bytes_inj in E; [|apply Z.mod_pos_bound; reflexivity..].
  unfold as_u32 in E. unfold short, is_u32 in Ha, Hb. rewrite !Z.mod_small in E by done.
  apply app_inj_length in H; [done|lia].
Qed.

#[global] Instance put_u64_code : PrefixCode is_u64 put_u64.
Proof.
  split; [done|]. intros a b x y Ha Hb H. unfold put_u64 in H. cbn [app] in H.
  apply app_inj_length in H as [E H]; [|by rewrite !length_to_be_bytes].
  by apply to_be_bytes_inj in E.
Qed.

(** A presence byte in front of a code for the value. *)
Definition put_opt {A} (put : bytes -> A -> bytes) (out : bytes) (v : option A) : bytes :=
  match v with None => out ++ [Byte.x00] | Some a => put (out ++ [Byte.x01]) a end.

#[global] Instance put_opt_code {A} (wf : A -> Prop) put :
  PrefixCode wf put -> PrefixCode (on_some wf) (put_opt put).
Proof.
  intros [Happ Hinj]. split.
  - intros out [a|]; cbn; [|done]. by rewrite Happ, (Happ [Byte.x01]), app_assoc.
  - intros [a|] [b|] x y Ha Hb H; cbn in H; try done.
    + rewrite !(Happ [Byte.x01]) in H. injection H as H. apply Hinj in H as [-> ->]; done.
    + rewrite (Happ [Byte.x01]) in H. done.
    + rewrite (Happ [Byte.x01]) in H. done.
    + by injection H as ->.
Qed.

(** Two codes one after the other. *)
Lemma put_pair {A B} wa wb (pa : bytes -> A -> bytes) (pb : bytes -> B -> bytes) :
  PrefixCode wa pa -> PrefixCode wb pb ->
  PrefixCode (fun p : A * B => wa p.1 /\ wb p.2) (fun out p => pb (pa out p.1) p.2).
Proof.
  intros [Aa Ia] [Ab Ib]. split.
  - intros out [a b]; cbn. by rewrite Ab, Aa, (Ab (pa [] a)), app_assoc.
  - intros [a b] [a' b'] x y [Ha Hb] [Ha' Hb'] H; cbn in *.
    rewrite (Ab (pa [] a)), (Ab (pa [] a')), <- !app_assoc in H.
    apply Ia in H as [-> H]; [|done..]. apply Ib in H as [-> ->]; done.
Qed.

(** A code for a type that is in bijection with an encoded one. *)
Lemma put_via {A B} (f : A -> B) wb (pb : bytes -> B -> bytes) (wa : A -> Prop) pa :
  (forall a b, f a = f b -> a = b) -> (forall a, wa a -> wb (f a)) ->
  (forall out a, pa out a = pb out (f a)) -> PrefixCode wb pb -> PrefixCode wa pa.
Proof.
  intros Hf Hw Hp [Ab Ib]. split.
  - intros out a. rewrite !Hp. apply Ab.
  - intros a b x y Ha Hb H. rewrite !Hp in H. apply Ib in H as [E ->]; auto.
Qed.

#[global] Instance put_pet_tag_code : PrefixCode (on_some ptb_wf) put_opt_pet_tag.
Proof.
  refine (put_via id _ (put_opt (fun out t => put_bytes (put_bytes (put_bytes (put_bytes out
    (ptb_ring_id t)) (ptb_pet_pk t)) (ptb_ephemeral_point t)) (ptb_masked_fingerprint t))) _ _ _ _ _ _);
    [done|done|by intros out []|]. apply put_opt_code.
  refine (put_via (fun t => (ptb_ring_id t, ptb_pet_pk t, ptb_ephemeral_point t, ptb_masked_fingerprint t))
    _ _ _ _ _ _ _ (put_pair _ _ _ _ (put_pair _ _ _ _ (put_pair _ _ _ _ put_bytes_code put_bytes_code)
    put_bytes_code) put_bytes_code)); [by intros [] [] [= -> -> -> ->]| |done].
  intros t (? & ? & ? & ?). done.
Qed.

#[global] Instance put_window_code : PrefixCode (on_some vw_wf) put_opt_valid_window.
Proof.
  refine (put_via id _ (put_opt (fun out w => put_u64 (put_u64 out (vw_start w)) (vw_end w)))
    _ _ _ _ _ _); [done|done|by intros out []|]. apply put_opt_code.
  refine (put_via (fun w => (vw_start w, vw_end w)) _ _ _ _ _ _ _
    (put_pair _ _ _ _ put_u64_code put_u64_code)); [by intros [] [] [= -> ->]|done|done].
Qed.

#[global] Instance put_opt_str_code : PrefixCode (on_some short) put_opt_str.
Proof. apply (put_opt_code short put_bytes). apply _. Qed.

#[global] Instance put_opt_bytes_code : PrefixCode (on_some short) put_opt_bytes.
Proof. apply (put_opt_code short put_bytes). apply _. Qed.

#[global] Instance put_opt_u64_code : PrefixCode (on_some is_u64) put_opt_u64.
Proof. apply (put_opt_code is_u64 put_u64). apply _. Qed.

(** The whole encodings. *)

Lemma canonical_encode_inj c d x y :
  cc_wf c -> cc_wf d -> canonical_encode c ++ x = canonical_encode d ++ y -> c = d /\ x = y.
Proof.
  set (code := put_pair _ _ _ _ (put_pair _ _ _ _ (put_pair _ _ _ _ (put_pair _ _ _ _
    (put_pair _ _ _ _ (put_pair _ _ _ _ (put_pair _ _ _ _ put_bytes_code put_bytes_code)
    put_bytes_code) put_bytes_code) put_opt_str_code) put_opt_u64_code) put_opt_str_code)
    put_pet_tag_code).
  set (fields c := (cc_ring_pk c, cc_policy_id c, cc_resource c, cc_permission c, cc_tier c,
    cc_timestamp c, cc_salt c, cc_pet_tag c)).
  intros Hc Hd H. destruct (put_inj (PrefixCode:=code) (fields c) (fields d) x y) as [E ->];
    [unfold cc_wf in *; cbn; tauto..|exact H|].
  split; [|done]. destruct c, d. unfold fields in E. cbn in E. congruence.
Qed.

Lemma canonical_encode_reader_authorization_inj c d x y :
  ra_wf c -> ra_wf d ->
  canonical_encode_reader_authorization c ++ x = canonical_encode_reader_authorization d ++ y ->
  c = d /\ x = y.
Proof.
  set (code := put_pair _ _ _ _ (put_pair _ _ _ _ (put_pair _ _ _ _ (put_pair _ _ _ _
    (put_pair _ _ _ _ (put_pair _ _ _ _ (put_pair _ _ _ _ (put_pair _ _ _ _ (put_pair _ _ _ _
    (put_pair _ _ _ _ (put_pair _ _ _ _ (put_pair _ _ _ _ (put_pair _ _ _ _ (put_pair _ _ _ _
    put_bytes_code put_bytes_code) put_bytes_code) put_opt_str_code) put_bytes_code) put_bytes_code)
    put_u64_code) put_u64_code) put_opt_u64_code) put_bytes_code) put_bytes_code) put_opt_bytes_code)
    put_opt_str_code) put_window_code) put_opt_str_code).
  set (fields c := (ra_chain_id c, ra_ring_pk c, ra_jwt_issuer c, ra_jwt_subject c,
    ra_resolved_actor c, ra_jwt_id c, ra_jwt_issued_time c, ra_jwt_expiration_time c,
    ra_jwt_not_before c, ra_object_id c, ra_recipient_pk c, ra_derivation c, ra_salt c,
    ra_valid_window c, ra_audit_target_object_id c)).
  intros Hc Hd H. destruct (put_inj (PrefixCode:=code) (fields c) (fields d) x y) as [E ->];
    [unfold ra_wf in *; cbn; tauto..|exact H|].
  split; [|done]. destruct c, d. unfold fields in E. cbn in E. by injection E as -> -> -> -> -> -> -> -> -> -> -> -> -> -> ->.
Qed.

(** ** What a digest determines

    Two inputs with the same digest are equal, or the two hashed messages are
    a collision of the hash. *)
Definition collision (hash : bytes -> bytes) (m1 m2 : bytes) : Prop :=
  m1 <> m2 /\ hash m1 = hash m2.

Lemma same_or_collision (hash : bytes -> bytes) m1 m2 :
  hash m1 = hash m2 -> m1 = m2 \/ collision hash m1 m2.
Proof. intros H. destruct (decide (m1 = m2)); [by left|by right]. Qed.

Lemma context_message_inj c d u v :
  cc_wf c -> cc_wf d -> short u -> short v ->
  context_message c u = context_message d v -> c = d /\ u = v.
Proof.
  intros Hc Hd Hu Hv H. unfold context_message in H. apply app_inv_head in H.
  apply canonical_encode_inj in H as [-> H]; [|done..]. split; [done|].
  by apply (put_inj u v [] []); rewrite ?app_nil_r.
Qed.

Lemma ciphertext_message_inj n n' d d' :
  length n = length n' -> ciphertext_message n d = ciphertext_message n' d' -> n = n' /\ d = d'.
Proof. intros L H. unfold ciphertext_message in H. apply app_inv_head in H. by apply app_inj_length. Qed.

Lemma reader_authorization_message_inj c d :
  ra_wf c -> ra_wf d -> reader_authorization_message c = reader_authorization_message d -> c = d.
Proof.
  intros Hc Hd H. unfold reader_authorization_message in H. apply app_inv_head in H.
  destruct (canonical_encode_reader_authorization_inj c d [] []); rewrite ?app_nil_r; done.
Qed.

(** What a tag proof is bound to. *)
Record TagProofInput := MkTagProofInput {
  tpi_ephemeral_point : bytes;
  tpi_masked_fingerprint : bytes;
  tpi_pet_pk : bytes;
  tpi_ring_id : bytes;
  tpi_context : CiphertextContext;
  tpi_secret : Secret;
  tpi_proof : EncryptionProof;
}.

Definition tpi_message (i : TagProofInput) : bytes :=
  tag_proof_message (tpi_ephemeral_point i) (tpi_masked_fingerprint i) (tpi_pet_pk i)
    (tpi_ring_id i) (tpi_context i) (tpi_secret i) (tpi_proof i).

Definition tpi_wf (i : TagProofInput) : Prop :=
  short (tpi_ephemeral_point i) /\ short (tpi_masked_fingerprint i) /\ short (tpi_pet_pk i) /\
  short (tpi_ring_id i) /\ cc_wf (tpi_context i) /\ short (canonical_encode (tpi_context i)) /\
  short (enc_cmt (tpi_secret i)) /\ short (nonce (tpi_secret i)) /\
  short (encrypted_data (tpi_secret i)) /\ short (ep_challenge (tpi_proof i)) /\
  short (ep_response (tpi_proof i)).

Lemma tpi_message_inj i j : tpi_wf i -> tpi_wf j -> tpi_message i = tpi_message j -> i = j.
Proof.
  set (code := put_pair _ _ _ _ (put_pair _ _ _ _ (put_pair _ _ _ _ (put_pair _ _ _ _
    (put_pair _ _ _ _ (put_pair _ _ _ _ (put_pair _ _ _ _ (put_pair _ _ _ _ (put_pair _ _ _ _
    put_bytes_code put_bytes_code) put_bytes_code) put_bytes_code) put_bytes_code) put_bytes_code)
    put_bytes_code) put_bytes_code) put_bytes_code) put_bytes_code).
  set (fields i := (tpi_ephemeral_point i, tpi_masked_fingerprint i, tpi_pet_pk i, tpi_ring_id i,
    canonical_encode (tpi_context i), enc_cmt (tpi_secret i), nonce (tpi_secret i),
    encrypted_data (tpi_secret i), ep_challenge (tpi_proof i), ep_response (tpi_proof i))).
  intros Hi Hj H. unfold tpi_message, tag_proof_message in H. apply app_inv_head in H.
  destruct (put_inj (PrefixCode:=code) (fields i) (fields j) [] []) as [E _];
    [unfold tpi_wf in *; cbn; tauto..|rewrite !app_nil_r; exact H|].
  assert (tpi_context i = tpi_context j) as Ec.
  { destruct (canonical_encode_inj (tpi_context i) (tpi_context j) [] []); [apply Hi|apply Hj| |done].
    rewrite !app_nil_r. unfold fields in E. by injection E. }
  destruct i as [? ? ? ? c [] []], j as [? ? ? ? c' [] []]. unfold fields in E. cbn in E, Ec. subst c'.
  by injection E as -> -> -> -> -> -> -> -> ->.
Qed.

(** ** The theorems *)

Section Theorems.
Context {SHA : Sha2}.

(** A context digest determines the policy context and the commitment. *)
Lemma context_digest_binds c d u v :
  cc_wf c -> cc_wf d -> short u -> short v -> context_digest c u = context_digest d v ->
  (c = d /\ u = v) \/ collision sha256 (context_message c u) (context_message d v).
Proof.
  intros Hc Hd Hu Hv [E|E]%(same_or_collision sha256); [left|by right]. by apply context_message_inj.
Qed.

(** A reader-authorization digest determines the whole request. *)
Lemma reader_authorization_digest_binds c d :
  ra_wf c -> ra_wf d ->
  reader_authorization_context_digest c = reader_authorization_context_digest d ->
  c = d \/ collision sha256 (reader_authorization_message c) (reader_authorization_message d).
Proof.
  intros Hc Hd [E|E]%(same_or_collision sha256); [left|by right]. by apply reader_authorization_message_inj.
Qed.

(** The digest of a tag-proof input. *)
Definition tpi_digest (i : TagProofInput) : bytes :=
  tag_proof_digest (tpi_ephemeral_point i) (tpi_masked_fingerprint i) (tpi_pet_pk i)
    (tpi_ring_id i) (tpi_context i) (tpi_secret i) (tpi_proof i).

(** A tag-proof digest determines the tag, the PET key, the ring and the
    complete payload envelope. *)
Lemma tpi_digest_inj i j :
  tpi_wf i -> tpi_wf j -> tpi_digest i = tpi_digest j ->
  i = j \/ collision sha256 (tpi_message i) (tpi_message j).
Proof.
  intros Hi Hj [E|E]%(same_or_collision sha256); [left|by right]. by apply tpi_message_inj.
Qed.

End Theorems.

(** ** Instances *)

Module ContextSample.

Definition tag : PetTagBinding := MkPetTagBinding (bstr "ring") [Byte.x09] [Byte.x01] [Byte.x02].
Definition context : CiphertextContext :=
  MkCiphertextContext [Byte.x01] (bstr "policy") (bstr "resource") (bstr "read") (Some (bstr "gold"))
    (Some 42) None (Some tag).
Definition request : ReaderAuthorizationContext :=
  MkReaderAuthorizationContext (bstr "chain") [Byte.x01] (bstr "did:iss") None (bstr "did:iss")
    (bstr "jti") 1 2 (Some 1) (bstr "doc") [Byte.x05] None (Some (bstr "salt"))
    (Some (MkValidWindowBinding 3 4)) None.
Definition tag_input : TagProofInput :=
  MkTagProofInput [Byte.x01] [Byte.x02] [Byte.x03] (bstr "ring") context
    (MkSecret [Byte.x04] [Byte.x05] (replicate 12 Byte.x00))
    (MkEncryptionProof [Byte.x06] [Byte.x07]).

Lemma context_wf : cc_wf context.
Proof. repeat split; vm_compute; done. Qed.
Lemma request_wf : ra_wf request.
Proof. repeat split; vm_compute; done. Qed.
Lemma tag_input_wf : tpi_wf tag_input.
Proof. repeat split; vm_compute; done. Qed.

End ContextSample.
