(* ===== verification/Sigma.v ===== *)
(** * The sigma protocols behind the proofs

    Every proof of the crypto crate is a Schnorr proof of a discrete logarithm
    or a Chaum-Pedersen proof that two of them are equal, made non-interactive
    with a SHA-512 challenge that is compared in constant time. *)
From S2P Require Import Prelude Algebra Primitives Codec Common.

Section Sigma.
Context {F G : Type} {SF : ScalarField F} {CG : CurveGroup F G}.
Local Open Scope fr_scope.
Add Field FField : (f_theory (F:=F)).

(** The constant-time comparison of two scalars' encodings. *)
Definition ct_eq_scalar (a b : F) : bool := bool_decide (fr_serialize a = fr_serialize b).

Lemma ct_eq_scalar_true (a b : F) : ct_eq_scalar a b = true <-> a = b.
Proof.
  unfold ct_eq_scalar. rewrite bool_decide_eq_true. split; [apply fr_serialize_inj|by intros ->].
Qed.

Lemma reject_neq_scalar (a b : F) (e : CryptoError) : reject (negb (ct_eq_scalar a b)) e = Ok tt <-> a = b.
Proof. rewrite reject_Ok, negb_false_iff. apply ct_eq_scalar_true. Qed.

(** The commitment a Schnorr verifier recomputes from an honest response. *)
Lemma schnorr_commitment (k c x : F) :
  generator (G:=G) ⊙ (k + c * x) ⊖ generator ⊙ x ⊙ c = generator ⊙ k.
Proof. dlog. f_equal. ring. Qed.

Lemma size_check_fr (x : F) : negb (length (fr_serialize x) =? fr_size (F:=F))%nat = false.
Proof. by rewrite fr_serialize_length, Nat.eqb_refl. Qed.

Lemma size_check_g (Q : G) : negb (length (g_serialize Q) =? g_size (G:=G))%nat = false.
Proof. by rewrite g_serialize_length, Nat.eqb_refl. Qed.

Lemma gen_nonzero (x : F) : x <> 0 -> g_is_zero (generator (G:=G) ⊙ x) = false.
Proof. intros H. by rewrite g_is_zero_false, gen_zero_iff. Qed.

(** The second leg of a Chaum-Pedersen proof, over any base. *)
Lemma dleq_commitment (B : G) (k c x : F) :
  in_subgroup B = true -> B ⊙ (k + c * x) ⊖ B ⊙ x ⊙ c = B ⊙ k.
Proof. intros HB. dlog. f_equal. ring. Qed.

(** For a false statement, [w <> x * b], the recomputed nonce commitments
    determine the only challenge that can have produced them. *)
Lemma dleq_one_challenge (b x w c f : F) :
  w <> x * b -> c = ((b * f - w * c) - b * (f - x * c)) / (x * b - w).
Proof. intros Hw. field. by apply f_sub_nonzero. Qed.

(** The same for two arbitrary bases [b1], [b2] and claims [a1], [a2]. *)
Lemma dleq_one_challenge_bases (b1 b2 a1 a2 c f : F) :
  a1 * b2 <> a2 * b1 ->
  c = (b1 * (b2 * f - a2 * c) - b2 * (b1 * f - a1 * c)) / (a1 * b2 - a2 * b1).
Proof. intros H. field. by apply f_sub_nonzero. Qed.

End Sigma.
