(* ===== verification/Shares.v ===== *)
(** * Combining shares in the exponent

    The loop that [recover_commit] ([pre.rs]), [combine_pet_check_shares]
    ([pet.rs]) and [recover_signature] ([sign.rs]) share: check that the
    indices are distinct and in range, then add the points weighted by their
    Lagrange coefficients at zero.  The three differ in the errors they
    return and in the point type. *)
From S2P Require Import Prelude Algebra Interpolation Primitives Codec Common DkgSpec Feldman.

(** [iter().enumerate()]. *)
Definition enumerate {A} (l : list A) : list (nat * A) := imap pair l.

(** [&shares[..t]]. *)
Definition slice_to {E A} (l : list A) (t : Z) : res E (list A) :=
  if t <=? Z.of_nat (length l) then Ok (take (Z.to_nat t) l) else Panic.

Section Shares.
Context {F G : Type} {SF : ScalarField F} {CG : CurveGroup F G}.
Local Open Scope fr_scope.
Add Field FField : (f_theory (F:=F)).

(** The [HashSet] loop. *)
Definition check_index (e_range e_dup : CryptoError) (n : Z) (seen : gset Z) (idx : Z)
    : result (gset Z) :=
  reject ((idx <? 1)%Z || (as_u32 n <? idx)%Z) e_range ;?
  reject (bool_decide (idx ∈ seen)) e_dup ;?
  Ok ({[idx]} ∪ seen).

Definition check_indices (e_range e_dup : CryptoError) (n : Z) (idxs : list Z) : result (gset Z) :=
  res_foldl (check_index e_range e_dup n) idxs ∅.

Definition lambda_step (i : nat) (xi : Z) (st : F * F) (entry : nat * Z) : F * F :=
  let '(num, den) := st in
  let '(j, xj) := entry in
  if (i =? j)%nat then (num, den)
  else (num * from_u64 xj, den * (from_u64 xj - from_u64 xi)).

Definition lambda (e_div : CryptoError) (idxs : list Z) (i : nat) (xi : Z) : result F :=
  let '(num, den) := fold_left (lambda_step i xi) (enumerate idxs) (1, 1) in
  let? inv := ok_or (inverse den) e_div in
  Ok (num * inv).

Definition interpolate_shares {V} (e_div : CryptoError) (point : V -> G) (shares : list (PubShare V))
    : result G :=
  res_foldl (fun result entry =>
    let '(i, share) := entry in
    let? l := lambda e_div (pub_i <$> shares) i (pub_i share) in
    Ok (result ⊕ point (pub_v share) ⊙ l)) (enumerate shares) g_zero.

(** The first [t] shares, checked and combined. *)
Definition combine_shares {V} (e_range e_dup e_div : CryptoError) (point : V -> G)
    (shares : list (PubShare V)) (t n : Z) : result G :=
  let? shares_to_use := slice_to shares t in
  check_indices e_range e_dup n (pub_i <$> shares_to_use) ;?
  interpolate_shares e_div point shares_to_use.

(** ** The index check *)

Definition indices_ok (n : Z) (idxs : list Z) : Prop :=
  Forall (fun i => 1 <= i <= as_u32 n)%Z idxs /\ NoDup idxs.

Lemma check_index_Ok e_range e_dup n seen idx s :
  check_index e_range e_dup n seen idx = Ok s <->
  (1 <= idx <= as_u32 n)%Z /\ idx ∉ seen /\ s = {[idx]} ∪ seen.
Proof.
  unfold check_index. split.
  - intros H. bind_ok H as ? Hr. bind_ok H as ? Hd. inv_ok. apply bool_decide_eq_false in Hd.
    apply orb_false_iff in Hr as [?%Z.ltb_ge ?%Z.ltb_ge]. done.
  - intros (Hr & Hd & ->). rewrite (proj2 (Z.ltb_ge idx 1)), (proj2 (Z.ltb_ge (as_u32 n) idx)) by lia.
    by rewrite bool_decide_eq_false_2.
Qed.

Lemma check_loop_Ok e_range e_dup n idxs seen :
  (exists s, res_foldl (check_index e_range e_dup n) idxs seen = Ok s) <->
  indices_ok n idxs /\ (forall i, i ∈ idxs -> i ∉ seen).
Proof.
  revert seen; induction idxs as [|idx idxs IH]; intros seen; cbn.
  - split; [|by eexists]. intros _. split; [split; constructor|]. by intros i ?%elem_of_nil.
  - unfold indices_ok in *. rewrite Forall_cons, NoDup_cons. setoid_rewrite res_bind_Ok. split.
    + intros (s & s1 & (Hr & Hd & ->)%check_index_Ok & H).
      destruct (proj1 (IH ({[idx]} ∪ seen))) as [[Hrs Hnd] Hs]; [by eexists|].
      split; [split; [done|split; [|done]]|].
      * intros Hin. apply (Hs idx Hin). set_solver.
      * intros i [->|Hi]%elem_of_cons; [done|]. specialize (Hs i Hi). set_solver.
    + intros [[[Hr Hrs] [Hni Hnd]] Hs]. destruct (proj2 (IH ({[idx]} ∪ seen))) as [s Hs'].
      { split; [done|]. intros i Hi. specialize (Hs i ltac:(by right)). set_solver. }
      exists s, ({[idx]} ∪ seen). split; [|done]. apply check_index_Ok.
      split; [done|]. split; [apply Hs; left|done].
Qed.

Lemma check_indices_Ok e_range e_dup n idxs :
  (exists s, check_indices e_range e_dup n idxs = Ok s) <-> indices_ok n idxs.
Proof. unfold check_indices. rewrite check_loop_Ok. set_solver. Qed.

Lemma indices_u32 n idxs : indices_ok n idxs -> Forall is_u32 idxs.
Proof.
  intros [H _]. eapply Forall_impl; [exact H|]. intros i Hi. cbn in Hi.
  pose proof (Z.mod_pos_bound n (2 ^ 32)). unfold as_u32 in Hi. unfold is_u32. lia.
Qed.

(** ** The coefficients *)

Lemma lambda_loop_all i xi (l : list (nat * Z)) num den :
  (forall j x, (j, x) ∈ l -> i <> j) ->
  fold_left (lambda_step i xi) l (num, den) =
  (num * fprod (from_u64 <$> l.*2), den * fprod ((fun x => from_u64 x - from_u64 xi) <$> l.*2)).
Proof.
  revert num den; induction l as [|[j x] l IH]; intros num den H; csimpl.
  - f_equal; ring.
  - rewrite (proj2 (Nat.eqb_neq i j)) by (apply (H j x); left). rewrite IH.
    + f_equal; ring.
    + intros k y Hk. apply (H k y). by right.
Qed.

Lemma imap_snd {A} (f : nat -> A -> nat * A) (l : list A) :
  (forall k x, (f k x).2 = x) -> (imap f l).*2 = l.
Proof.
  revert f; induction l as [|x l IH]; intros f H; cbn; [done|]. rewrite H. f_equal.
  apply IH. intros k y. apply H.
Qed.

Lemma imap_pair_in {A} (f : nat -> nat) (l : list A) j x :
  (j, x) ∈ imap (fun k => pair (f k)) l -> exists k, (k < length l)%nat /\ j = f k.
Proof.
  intros H. apply list_elem_of_lookup_1 in H as [k Hk]. rewrite list_lookup_imap in Hk.
  destruct (l !! k) as [y|] eqn:E; [|done]. cbn in Hk. injection Hk as <- <-.
  exists k. split; [by eapply lookup_lt_Some|done].
Qed.

Lemma differences_nonzero (idxs : list Z) xi :
  Forall is_u32 idxs -> is_u32 xi ->
  fprod ((fun x => from_u64 (F:=F) x - from_u64 xi) <$> filter (fun j => j <> xi) idxs) <> 0.
Proof.
  intros Hu Hx. apply fprod_nonzero. intros d (y & -> & [Hne Hy]%list_elem_of_filter)%list_elem_of_fmap.
  apply f_sub_nonzero. intros E. apply Hne. apply (from_u64_inj (F:=F)); [|done|done].
  by eapply Forall_forall in Hu.
Qed.

(** A list without duplicates around one of its positions. *)
Lemma split_at (idxs : list Z) i xi :
  NoDup idxs -> idxs !! i = Some xi ->
  exists l1 l2, idxs = l1 ++ xi :: l2 /\ length l1 = i /\ filter (fun j => j <> xi) idxs = l1 ++ l2.
Proof.
  intros Hnd Hi. exists (take i idxs), (drop (S i) idxs).
  pose proof (take_drop_middle idxs i xi Hi) as E. split; [done|].
  split; [apply length_take_le; apply lookup_lt_Some in Hi; lia|].
  rewrite <- E in Hnd. rewrite <- E at 1. apply NoDup_app in Hnd as (_ & Hd & [Hn2 _]%NoDup_cons).
  rewrite filter_app, filter_cons_False by (intros H; by apply H).
  rewrite !filter_neq_notin; [done|done|]. intros H. apply (Hd xi H). left.
Qed.

(** At a position of a list without duplicates the loop computes the
    Lagrange weight. *)
Lemma lambda_spec e_div idxs i xi :
  Forall is_u32 idxs -> NoDup idxs -> idxs !! i = Some xi ->
  lambda e_div idxs i xi = Ok (weight (from_u64 <$> idxs) (from_u64 xi)).
Proof.
  intros Hu Hnd Hi. assert (is_u32 xi) as Hx.
  { eapply Forall_forall in Hu; [exact Hu|]. by eapply list_elem_of_lookup_2. }
  pose proof (differences_nonzero idxs xi Hu Hx) as Hnz. unfold weight.
  rewrite (others_ids (F:=F) idxs xi Hu Hx), <- list_fmap_compose.
  destruct (split_at idxs i xi Hnd Hi) as (l1 & l2 & E & L1 & Ef). rewrite Ef in *. clear Hu Hi Hnd Ef.
  subst idxs. unfold lambda, enumerate. rewrite imap_app, fold_left_app.
  rewrite (lambda_loop_all i xi (imap pair l1))
    by (intros j x [k [Hk ->]]%(imap_pair_in (fun k => k)); lia).
  cbn [fold_left imap]. unfold lambda_step at 2. rewrite Nat.add_0_r, L1, Nat.eqb_refl.
  rewrite lambda_loop_all by (intros j x [k [_ ->]]%(imap_pair_in (fun k => (i + S k)%nat)); lia).
  rewrite !imap_snd by done. rewrite !fmap_app, !fprod_app in *. unfold compose.
  rewrite inverse_Some by (intros E; apply Hnz; rewrite <- E; ring).
  cbn. f_equal. replace (1 * fprod ((fun x => from_u64 x - from_u64 xi) <$> l1)) with
    (fprod ((fun x => from_u64 (F:=F) x - from_u64 xi) <$> l1)) by ring. ring.
Qed.

(** ** The combination *)

(** Shares [B * p(i)] of a point [B] combine to [B * p(0)] when the indices
    are valid and the polynomial has at most as many coefficients. *)
Lemma enumerate_lookup {A} (l : list A) i x : (i, x) ∈ enumerate l -> l !! i = Some x.
Proof.
  intros (k & Hk)%list_elem_of_lookup. unfold enumerate in Hk. rewrite list_lookup_imap in Hk.
  destruct (l !! k) as [y|] eqn:E; [|done]. cbn in Hk. by injection Hk as <- <-.
Qed.

Lemma interpolate_shares_spec {V} e_div (point : V -> G) (shares : list (PubShare V)) B (cs : list F) :
  in_subgroup B = true -> Forall is_u32 (pub_i <$> shares) -> NoDup (pub_i <$> shares) ->
  (length cs <= length shares)%nat ->
  Forall (fun sh => point (pub_v sh) = B ⊙ peval cs (from_u64 (pub_i sh))) shares ->
  interpolate_shares e_div point shares = Ok (B ⊙ peval cs 0).
Proof.
  intros [b ->]%in_subgroup_spec Hu Hnd Hl Hv. unfold interpolate_shares. set (ids := pub_i <$> shares) in *.
  assert (forall l acc, (forall i sh, (i, sh) ∈ l -> shares !! i = Some sh) ->
    res_foldl (fun result entry => let '(i, share) := entry in
      let? l := lambda e_div ids i (pub_i share) in Ok (result ⊕ point (pub_v share) ⊙ l)) l
      (generator ⊙ acc) =
    Ok (generator ⊙ (acc + b * fsum ((fun x => weight (from_u64 <$> ids) x * peval cs x) <$>
      (from_u64 <$> (pub_i <$> l.*2)))))) as H.
  { induction l as [|[i sh] l IH]; intros acc Hin; csimpl.
    - do 2 f_equal. ring.
    - pose proof (Hin i sh ltac:(left)) as Hi. rewrite lambda_spec; [|done|done|].
      2: { subst ids. by rewrite list_lookup_fmap, Hi. }
      cbn [res_bind]. eapply Forall_forall in Hv; [|by eapply list_elem_of_lookup_2].
      rewrite Hv, !generator_mul, generator_add, IH by (intros j s' Hj; apply Hin; by right).
      csimpl. do 2 f_equal. ring. }
  rewrite generator_zero, H.
  - unfold enumerate. rewrite imap_snd by done. fold ids.
    rewrite lagrange_zero; [|by apply ids_NoDup|subst ids; by rewrite !length_fmap].
    rewrite generator_mul. do 2 f_equal. ring.
  - apply enumerate_lookup.
Qed.

Lemma slice_to_Ok {A} (l : list A) t :
  (0 <= t <= Z.of_nat (length l))%Z -> slice_to (E:=CryptoError) l t = Ok (take (Z.to_nat t) l).
Proof. intros H. unfold slice_to. by rewrite (proj2 (Z.leb_le _ _)) by lia. Qed.

(** Distinct indices in range always combine to some point. *)
Lemma combine_shares_total {V} e_range e_dup e_div (point : V -> G) shares t n :
  (0 <= t <= Z.of_nat (length shares))%Z -> indices_ok n (take (Z.to_nat t) (pub_i <$> shares)) ->
  exists Q, combine_shares e_range e_dup e_div point shares t n = Ok Q.
Proof.
  intros Ht Hidx. unfold combine_shares. rewrite slice_to_Ok by lia. cbn [res_bind].
  rewrite <- fmap_take in Hidx. pose proof (indices_u32 _ _ Hidx) as Hu. pose proof Hidx as [_ Hnd].
  apply (check_indices_Ok e_range e_dup) in Hidx as [seen ->]. cbn [res_bind]. unfold interpolate_shares.
  set (used := take (Z.to_nat t) shares) in *.
  assert (forall l acc, (forall i sh, (i, sh) ∈ l -> used !! i = Some sh) -> exists Q,
    res_foldl (fun result entry => let '(i, share) := entry in
      let? l := lambda e_div (pub_i <$> used) i (pub_i share) in Ok (result ⊕ point (pub_v share) ⊙ l)) l acc = Ok Q) as H.
  { induction l as [|[i sh] l IH]; intros acc Hl; [by eexists|]. cbn [res_foldl].
    rewrite lambda_spec; [|done|done|]. 2: { by rewrite list_lookup_fmap, (Hl i sh) by (by left). }
    cbn [res_bind]. apply IH. intros j sh' Hj. apply Hl. by right. }
  apply H, enumerate_lookup.
Qed.

(** Valid shares of [B * p(0)] combine to it. *)
Lemma combine_shares_valid {V} e_range e_dup e_div (point : V -> G) shares (B : G) (cs : list F) t n :
  in_subgroup B = true -> (0 <= t <= Z.of_nat (length shares))%Z ->
  indices_ok n (take (Z.to_nat t) (pub_i <$> shares)) -> (length cs <= Z.to_nat t)%nat ->
  Forall (fun sh => point (pub_v sh) = B ⊙ peval cs (from_u64 (pub_i sh))) shares ->
  combine_shares e_range e_dup e_div point shares t n = Ok (B ⊙ peval cs 0).
Proof.
  intros HB Ht Hidx Hcs Hv. unfold combine_shares. rewrite slice_to_Ok by lia. cbn [res_bind].
  rewrite <- fmap_take in Hidx. pose proof (indices_u32 _ _ Hidx) as Hu.
  destruct (proj2 (check_indices_Ok e_range e_dup n _) Hidx) as [seen ->]. cbn [res_bind].
  apply interpolate_shares_spec; [done|done|apply Hidx| |by apply Forall_take].
  rewrite length_take. lia.
Qed.

Lemma no_panic_combine_shares {V} e_range e_dup e_div (point : V -> G) shares t n :
  (0 <= t <= Z.of_nat (length shares))%Z ->
  no_panic (combine_shares e_range e_dup e_div point shares t n).
Proof.
  intros Ht. unfold combine_shares. rewrite slice_to_Ok by done. cbn [res_bind].
  apply no_panic_bind; [|intros seen _]; apply no_panic_foldl.
  - intros a i _. unfold check_index. repeat (apply no_panic_bind; [auto with orbis|intros]). done.
  - intros acc [i sh] _. apply no_panic_bind; [|by intros].
    unfold lambda. destruct (fold_left _ _ _). apply no_panic_bind; auto with orbis.
Qed.

(** A result is only given for distinct indices in range. *)
Lemma combine_shares_indices {V} e_range e_dup e_div (point : V -> G) shares t n Q :
  (0 <= t <= Z.of_nat (length shares))%Z ->
  combine_shares e_range e_dup e_div point shares t n = Ok Q ->
  indices_ok n (take (Z.to_nat t) (pub_i <$> shares)).
Proof.
  intros Ht H. unfold combine_shares in H. rewrite slice_to_Ok in H by done. cbn [res_bind] in H.
  bind_ok H as seen Hs. rewrite <- fmap_take. eapply check_indices_Ok. by exists seen.
Qed.

End Shares.
