(* ===== verification/Pre.v ===== *)
(** * Threshold proxy re-encryption

    [crates/crypto/src/bls12_381/pre.rs].  A document is encrypted to the ring
    key with fresh randomness [r]; a node that holds a key share answers a
    reader's signed request with its share of [s * (x + r) * G] and a proof;
    the reader interpolates the answers and opens the document.  Functions
    that draw from [OsRng] take the generator's stream and return the rest of
    it; the sampling loops run on fuel. *)
From S2P Require Import Prelude Algebra Interpolation Primitives Codec Common Context Sigma Shares.

(** [trait/types.rs] *)
Record ReaderAuthorizationSignature := MkReaderAuthorizationSignature {
  ras_challenge : bytes;
  ras_response : bytes;
}.

Definition PROTOCOL : bytes := bstr "elgamal-reencrypt-challenge-v1".
Definition DERIVATION_DOMAIN : bytes := bstr "elgamal-derivation-v1" ++ [Byte.x00; Byte.x00].
Definition POLICY_BINDING_PROOF_DOMAIN : bytes := bstr "orbis-policy-binding-proof-v1".
Definition READER_AUTHORIZATION_DOMAIN : bytes := bstr "orbis-bls12-381-reader-authorization-v1".

Section Pre.
Context {F G S P : Type} {SF : ScalarField F} {CG : CurveGroup F G} {BL : Blst F G S P}
  {SHA : Sha2} {AE : Aead} {KD : Kdf}.
Local Open Scope fr_scope.

Definition derive_capability_scalar (derivation : bytes) : F :=
  hash_to_scalar (DERIVATION_DOMAIN ++ derivation).

Definition decompress_point (b : bytes) : result G :=
  reject (negb (length b =? g_size (G:=G))%nat)
    (ElGamalError "Invalid point length: expected {}, got {}") ;?
  let? point := map_err (G1Affine_from_bytes b) (ElGamalError "failed to decompress point: {:?}") in
  reject (g_is_zero point) (ElGamalError "Invalid point: cannot be the identity element") ;?
  reject (negb (in_subgroup point)) (ElGamalError "Invalid point: not in correct subgroup") ;?
  Ok point.

Definition hash_reencrypt_proof_points (idx : Z) (rdr_pk enc_cmt effective_cmt : G)
    (proof_points : list G) : result bytes :=
  Ok (sha512 (PROTOCOL ++ to_le_bytes 4 idx
        ++ mjoin (g_serialize <$> [rdr_pk; enc_cmt; effective_cmt])
        ++ mjoin (g_serialize <$> proof_points))).

Definition derive_key_from_point (point : G) : result bytes :=
  ok_or (hkdf_expand (g_serialize point) (bstr "elgamal-aes-key-v1") 32)
    (ElGamalError "HKDF expansion failed").

(** ** Proofs and signatures *)

Definition encryption_proof_challenge (enc_cmt r1 : G) (context_digest ciphertext_digest : bytes)
    : result F :=
  Ok (hash_to_scalar (POLICY_BINDING_PROOF_DOMAIN ++ mjoin (g_serialize <$> [enc_cmt; r1])
        ++ context_digest ++ ciphertext_digest)).

Definition generate_encryption_proof (fuel : nat) (r : F) (enc_cmt : G)
    (context_digest ciphertext_digest : bytes) (rng : Rng F) : result ((F * F) * Rng F) :=
  let? '(k, rng') := sample_nonzero fuel rng in
  let? r1 := ct_mul_g1 generator k in
  let? c := encryption_proof_challenge enc_cmt r1 context_digest ciphertext_digest in
  let z := k + c * r in
  Ok ((c, z), rng').

Definition reader_authorization_challenge (rdr_pk r1 : G) (context_digest : bytes) : result F :=
  Ok (hash_to_scalar (READER_AUTHORIZATION_DOMAIN ++ mjoin (g_serialize <$> [rdr_pk; r1])
        ++ context_digest)).

Definition generate_reader_authorization_signature (fuel : nat) (rdr_sk : F) (rdr_pk : G)
    (context : ReaderAuthorizationContext) (rng : Rng F) : result ((F * F) * Rng F) :=
  let? '(k, rng') := sample_nonzero fuel rng in
  let? r1 := ct_mul_g1 generator k in
  let context_digest := reader_authorization_context_digest context in
  let? c := reader_authorization_challenge rdr_pk r1 context_digest in
  let z := k + c * rdr_sk in
  Ok ((c, z), rng').

Definition sign_reader_authorization (fuel : nat) (rdr_sk : F) (rdr_pk : G)
    (context : ReaderAuthorizationContext) (rng : Rng F)
    : result (ReaderAuthorizationSignature * Rng F) :=
  let? '((challenge, response), rng') :=
    generate_reader_authorization_signature fuel rdr_sk rdr_pk context rng in
  Ok (MkReaderAuthorizationSignature (fr_serialize challenge) (fr_serialize response), rng').

Definition verify_reader_authorization (rdr_pk : G) (context : ReaderAuthorizationContext)
    (signature : ReaderAuthorizationSignature) : result unit :=
  reject (g_is_zero rdr_pk) (ElGamalError "Invalid reader public key: cannot be zero point") ;?
  reject (negb (in_subgroup rdr_pk))
    (ElGamalError "Invalid reader public key: not in the prime-order subgroup") ;?
  reject (negb (length (ras_challenge signature) =? fr_size (F:=F))%nat) (ElGamalError
    "Invalid reader-authorization-signature challenge length: expected {}, got {}") ;?
  let? challenge := map_err (Fr_from_bytes (ras_challenge signature)) (ElGamalError
    "Failed to deserialize reader-authorization-signature challenge: {:?}") in
  reject (negb (length (ras_response signature) =? fr_size (F:=F))%nat) (ElGamalError
    "Invalid reader-authorization-signature response length: expected {}, got {}") ;?
  let? response := map_err (Fr_from_bytes (ras_response signature)) (ElGamalError
    "Failed to deserialize reader-authorization-signature response: {:?}") in
  let r1_prime := generator ⊙ response ⊖ rdr_pk ⊙ challenge in
  let context_digest := reader_authorization_context_digest context in
  let? recomputed_challenge := reader_authorization_challenge rdr_pk r1_prime context_digest in
  reject (negb (ct_eq_scalar challenge recomputed_challenge))
    (ElGamalError "Reader authorization signature verification failed").

(** ** Encryption *)

Definition effective_public_key (dkg_pk : G) (derivation : option bytes) : result G :=
  match derivation with
  | Some deriv_bytes =>
      let d := derive_capability_scalar deriv_bytes in
      reject (bool_decide (d = 0))
        (ElGamalError "Derivation produced zero scalar: use different derivation bytes") ;?
      let derived_pk := dkg_pk ⊙ d in
      reject (g_is_zero derived_pk) (ElGamalError "Derived public key is the identity element") ;?
      Ok derived_pk
  | None => Ok dkg_pk
  end.

Definition encrypt_secret (fuel : nat) (dkg_pk : G) (data : bytes) (derivation : option bytes)
    (context : CiphertextContext) (rng : Rng F) : result ((G * Secret * EncryptionProof) * Rng F) :=
  reject (g_is_zero dkg_pk) (ElGamalError "Invalid dkg_pk: cannot be the identity element") ;?
  reject (negb (in_subgroup dkg_pk)) (ElGamalError "Invalid dkg_pk: not in correct subgroup") ;?
  let? '(r, rng1) := sample_nonzero fuel rng in
  let? enc_cmt := ct_mul_g1 generator r in
  let? effective_pk := effective_public_key dkg_pk derivation in
  let? shared_point := ct_mul_g1 effective_pk r in
  let? aes_key := derive_key_from_point shared_point in
  let enc_cmt_bytes := g_serialize enc_cmt in
  let ctx_digest := context_digest context enc_cmt_bytes in
  let '(nonce_bytes, rng2) := fill_bytes 12 rng1 in
  let? ciphertext := ok_or (aes_encrypt aes_key nonce_bytes ctx_digest data)
    (ElGamalError "Encryption failed") in
  let ct_digest := ciphertext_digest nonce_bytes ciphertext in
  let? '((challenge, response), rng3) :=
    generate_encryption_proof fuel r enc_cmt ctx_digest ct_digest rng2 in
  Ok ((enc_cmt, MkSecret enc_cmt_bytes ciphertext nonce_bytes,
       MkEncryptionProof (fr_serialize challenge) (fr_serialize response)), rng3).

Definition verify_encryption (proof : EncryptionProof) (context : CiphertextContext)
    (secret : Secret) : result unit :=
  reject (negb (length (enc_cmt secret) =? g_size (G:=G))%nat)
    (ElGamalError "Invalid enc_cmt length: expected {}, got {}") ;?
  let? cmt := map_err (G1Affine_from_bytes (enc_cmt secret))
    (ElGamalError "Failed to deserialize enc_cmt: {:?}") in
  reject (g_is_zero (G:=G) cmt) (ElGamalError "Invalid enc_cmt: cannot be the identity element") ;?
  reject (negb (in_subgroup cmt)) (ElGamalError "Invalid enc_cmt: not in correct subgroup") ;?
  reject (negb (length (nonce secret) =? 12)%nat)
    (ElGamalError "Invalid nonce length: must be exactly 12 bytes") ;?
  reject (bool_decide (encrypted_data secret = [])) (ElGamalError "Empty encrypted data") ;?
  reject (negb (length (ep_challenge proof) =? fr_size (F:=F))%nat)
    (ElGamalError "Invalid challenge length: expected {}, got {}") ;?
  let? challenge := map_err (Fr_from_bytes (ep_challenge proof))
    (ElGamalError "Failed to deserialize challenge: {:?}") in
  reject (negb (length (ep_response proof) =? fr_size (F:=F))%nat)
    (ElGamalError "Invalid response length: expected {}, got {}") ;?
  let? response := map_err (Fr_from_bytes (ep_response proof))
    (ElGamalError "Failed to deserialize response: {:?}") in
  let r1_prime := generator ⊙ response ⊖ cmt ⊙ challenge in
  let ctx_digest := context_digest context (enc_cmt secret) in
  let ct_digest := ciphertext_digest (nonce secret) (encrypted_data secret) in
  let? recomputed_challenge := encryption_proof_challenge cmt r1_prime ctx_digest ct_digest in
  reject (negb (ct_eq_scalar challenge recomputed_challenge))
    (ElGamalError "Encryption proof verification failed").

Definition decrypt_secret (effective_pk xnc_cmt : G) (rdr_sk : F) (secret : Secret)
    (context : CiphertextContext) : result bytes :=
  reject (negb (length (nonce secret) =? 12)%nat)
    (ElGamalError "Invalid nonce length: must be exactly 12 bytes") ;?
  reject (bool_decide (encrypted_data secret = [])) (ElGamalError "Empty encrypted data") ;?
  reject (bool_decide (enc_cmt secret = [])) (ElGamalError "Empty commitment") ;?
  let? xs_g := ct_mul_g1 effective_pk rdr_sk in
  let shared_point := xnc_cmt ⊖ xs_g in
  let? aes_key := derive_key_from_point shared_point in
  let aad := context_digest context (enc_cmt secret) in
  ok_or (aes_decrypt aes_key (nonce secret) aad (encrypted_data secret))
    (ElGamalError "Decryption failed - authentication failed").

Definition derive_public_key (dkg_pk : G) (derivation : bytes) : result G :=
  Ok (dkg_pk ⊙ derive_capability_scalar derivation).

(** ** Re-encryption *)

Definition effective_share (dkg_ski : F) (derivation_scalar : option F) : F :=
  match derivation_scalar with
  | Some d => d * dkg_ski
  | None => dkg_ski
  end.

Definition reencrypt_internal (fuel : nat) (idx : Z) (dkg_ski : F) (rdr_pk enc_cmt : G)
    (derivation_scalar : option F) (rng : Rng F) : result ((G * F * F) * Rng F) :=
  reject (g_is_zero rdr_pk) (ElGamalError "Invalid reader public key: cannot be zero point") ;?
  reject (negb (in_subgroup rdr_pk))
    (ElGamalError "Invalid reader public key: not in the prime-order subgroup") ;?
  reject (g_is_zero enc_cmt) (ElGamalError "Invalid commitment: cannot be zero point") ;?
  let effective_ski := effective_share dkg_ski derivation_scalar in
  let xr_g := rdr_pk ⊕ enc_cmt in
  let? xnc_ski := ct_mul_g1 xr_g effective_ski in
  let? effective_cmt := ct_mul_g1 generator effective_ski in
  let? '(ri, rng') := sample_nonzero fuel rng in
  let? ui_hat := ct_mul_g1 xr_g ri in
  let? hi_hat := ct_mul_g1 generator ri in
  let? challenge_hash :=
    hash_reencrypt_proof_points idx rdr_pk enc_cmt effective_cmt [xnc_ski; ui_hat; hi_hat] in
  let chlgi := from_le_bytes_mod_order challenge_hash in
  let proofi := ri + chlgi * effective_ski in
  Ok ((xnc_ski, chlgi, proofi), rng').

Definition reencrypt (fuel : nat) (dist_key_share : DistKeyShare F) (scrt : Secret) (rdr_pk : G)
    (context : ReaderAuthorizationContext) (signature : ReaderAuthorizationSignature) (rng : Rng F)
    : result (ReencryptReply F G * Rng F) :=
  reject (bool_decide (enc_cmt scrt = [])) (ElGamalError "Empty commitment in secret") ;?
  let idx := pri_i (pri_share dist_key_share) in
  let ski := pri_v (pri_share dist_key_share) in
  reject (idx =? 0)%Z (ElGamalError "Invalid share index: {} (must not be 0)") ;?
  verify_reader_authorization rdr_pk context signature ;?
  let? cmt := decompress_point (enc_cmt scrt) in
  let derivation_scalar := derive_capability_scalar <$> ra_derivation context in
  reject (match derivation_scalar with Some d => bool_decide (d = 0) | None => false end)
    (ElGamalError "Derivation produced zero scalar: use different derivation bytes") ;?
  let? '((xnc_ski, chlgi, proofi), rng') :=
    reencrypt_internal fuel idx ski rdr_pk cmt derivation_scalar rng in
  Ok (MkReencryptReply (MkPubShare idx xnc_ski) chlgi proofi, rng').

Definition verify_internal (idx : Z) (rdr_pk enc_cmt xnc_ski : G) (chlgi proofi : F)
    (effective_cmt : G) : result unit :=
  let xr_g := rdr_pk ⊕ enc_cmt in
  let fi_xr_g := xr_g ⊙ proofi in
  let ei_ui := xnc_ski ⊙ chlgi in
  let ui_hat := fi_xr_g ⊖ ei_ui in
  let fi_g := generator ⊙ proofi in
  let ei_ci := effective_cmt ⊙ chlgi in
  let hi_hat := fi_g ⊖ ei_ci in
  let? challenge_hash :=
    hash_reencrypt_proof_points idx rdr_pk enc_cmt effective_cmt [xnc_ski; ui_hat; hi_hat] in
  let chlg := from_le_bytes_mod_order challenge_hash in
  reject (negb (ct_eq_scalar chlg chlgi)) (ElGamalError "Cryptographic verification failed").

Definition verify (rdr_pk : G) (dkg_cmt : PubPoly G) (enc_cmt : G) (reply : ReencryptReply F G)
    (derivation : option bytes) : result unit :=
  let xnc_ski := pub_v (rr_share reply) in
  let idx := pub_i (rr_share reply) in
  let dkg_cmt_eval := PubPoly_eval dkg_cmt idx in
  let effective_cmt :=
    match derivation with
    | Some deriv_bytes => dkg_cmt_eval ⊙ derive_capability_scalar deriv_bytes
    | None => dkg_cmt_eval
    end in
  verify_internal idx rdr_pk enc_cmt xnc_ski (rr_challenge reply) (rr_proof reply) effective_cmt.

Definition recover_commit (shares : list (PubShare G)) (t n : Z) : result (option G) :=
  let? r := combine_shares (ElGamalError "Invalid share index: {} (must be in range [1, {}])")
    (ElGamalError "Duplicate share index: {}") (ElGamalError
    "Division by zero in Lagrange interpolation - this should not happen after validation")
    (fun v => v) shares t n in
  Ok (Some r).

Definition recover (xnc_ski : list (PubShare G)) (t n : Z) : result (option G) :=
  reject (t =? 0)%Z (ElGamalError "Threshold must be greater than zero") ;?
  reject (n <? t)%Z (ElGamalError "Threshold {} exceeds total shares {}") ;?
  if (Z.of_nat (length xnc_ski) <? t)%Z then Ok None
  else recover_commit xnc_ski t n.

End Pre.
