(* ===== verification/PreTheorems.v ===== *)
(** * Theorems on proxy re-encryption

    Completeness of the proofs, the end-to-end round trip, soundness of the
    reply check, and what a proof and a signature are bound to. *)
From S2P Require Import Prelude Algebra Interpolation Primitives Toy Codec Common Context Sigma Shares Pre.
From S2P Require Import DkgSpec Feldman.

Section Pre.
Context {F G S P : Type} {SF : ScalarField F} {CG : CurveGroup F G} {BL : Blst F G S P}
  {SHA : Sha2} {AE : Aead} {KD : Kdf}.
Local Open Scope fr_scope.
Add Field FField : (f_theory (F:=F)).

(** ** Lemmas *)

(** What an accepted encryption carries. *)
Lemma encrypt_secret_Ok fuel dkg_pk data derivation context rng U secret proof rng' :
  encrypt_secret fuel dkg_pk data derivation context rng = Ok ((U, secret, proof), rng') ->
  exists r k effective_pk key,
    r <> 0 /\ in_subgroup dkg_pk = true /\ U = generator ⊙ r /\
    effective_public_key dkg_pk derivation = Ok effective_pk /\ in_subgroup effective_pk = true /\
    derive_key_from_point (effective_pk ⊙ r) = Ok key /\
    enc_cmt secret = g_serialize U /\ length (nonce secret) = 12%nat /\
    aes_encrypt key (nonce secret) (context_digest context (enc_cmt secret)) data
      = Some (encrypted_data secret) /\
    let c := hash_to_scalar (POLICY_BINDING_PROOF_DOMAIN
               ++ mjoin (g_serialize <$> [U; generator ⊙ k])
               ++ context_digest context (enc_cmt secret)
               ++ ciphertext_digest (nonce secret) (encrypted_data secret)) in
    proof = MkEncryptionProof (fr_serialize c) (fr_serialize (k + c * r)).
Proof.
  unfold encrypt_secret. intros H. bind_ok H as ? _. bind_ok H as ? Hs.
  apply reject_Ok, negb_false_iff in Hs. bind_ok H as [r rng1] Hr. apply sample_nonzero_Ok in Hr as Hr0.
  rewrite ct_mul_g1_generator in H. cbn [res_bind] in H. bind_ok H as epk Hepk.
  assert (in_subgroup epk = true) as Hsub.
  { unfold effective_public_key in Hepk. destruct derivation; inv_ok; auto with orbis. }
  rewrite ct_mul_g1_sub in H by done. cbn [res_bind] in H. bind_ok H as key Hkey.
  pose proof (length_fill_bytes 12 rng1) as Hlen.
  destruct (fill_bytes 12 rng1) as [nb rng2]. cbn in Hlen. bind_ok H as ct Hct.
  apply ok_or_Ok in Hct.
  bind_ok H as [[c z] rng3] Hp. unfold generate_encryption_proof in Hp.
  bind_ok Hp as [k rng4] Hk. rewrite ct_mul_g1_generator in Hp. cbn [res_bind] in Hp.
  unfold encryption_proof_challenge in Hp. cbn [res_bind] in Hp. inv_ok.
  exists r, k, epk, key. cbn. done.
Qed.

(** ** Encryption *)

(** Completeness of the encryption proof: whatever [encrypt_secret]
    returns is accepted by [verify_encryption] under the same context. *)
Lemma encryption_proof_complete fuel dkg_pk data derivation context rng U secret proof rng' :
  encrypt_secret fuel dkg_pk data derivation context rng = Ok ((U, secret, proof), rng') ->
  verify_encryption (F:=F) (G:=G) proof context secret = Ok tt.
Proof.
  intros (r & k & epk & key & Hr & _ & HU & _ & _ & _ & Hu & Hn & Hct & ->)%encrypt_secret_Ok.
  apply aes_encrypt_length in Hct. unfold verify_encryption. rewrite Hn, Hu. subst U.
  rewrite size_check_g, G1_from_to by auto with orbis. cbn [reject map_err res_bind].
  rewrite gen_nonzero, gen_in_subgroup by done. cbn [negb reject res_bind Nat.eqb].
  rewrite bool_decide_eq_false_2 by (intros E; rewrite E in Hct; cbn in Hct; lia).
  cbn [reject res_bind ep_challenge ep_response]. rewrite size_check_fr, Fr_from_to.
  cbn [reject map_err res_bind]. rewrite size_check_fr, Fr_from_to. cbn [reject map_err res_bind].
  rewrite schnorr_commitment. unfold encryption_proof_challenge. cbn [res_bind].
  by apply reject_neq_scalar.
Qed.

Lemma effective_public_key_ok (dkg_pk : G) derivation :
  in_subgroup dkg_pk = true -> g_is_zero dkg_pk = false ->
  (forall d, derivation = Some d -> derive_capability_scalar d <> 0) ->
  exists epk, effective_public_key dkg_pk derivation = Ok epk /\ in_subgroup epk = true.
Proof.
  intros [s ->]%in_subgroup_spec Hz Hd. rewrite g_is_zero_false, gen_zero_iff in Hz.
  destruct derivation as [d|]; [|eexists; split; [done|auto with orbis]].
  specialize (Hd d eq_refl). unfold effective_public_key. rewrite bool_decide_eq_false_2 by done.
  cbn [reject res_bind]. rewrite generator_mul, gen_nonzero.
  - cbn. eexists. split; [done|auto with orbis].
  - by intros [?|?]%f_mul_zero.
Qed.

Lemma derive_key_ok (Q : G) : exists key, derive_key_from_point Q = Ok key.
Proof.
  destruct (hkdf_expand_total (g_serialize Q) (bstr "elgamal-aes-key-v1") 32) as [k E]; [lia|].
  exists k. unfold derive_key_from_point. by rewrite E.
Qed.

(** C40: Encryption succeeds: for a ring key that is a non-identity point of the
    subgroup, data within the AEAD's limit, a derivation that does not hash to
    zero, and a generator that yields a non-zero scalar within [fuel] draws,
    [encrypt_secret] returns a result. *)
Theorem encrypt_secret_total fuel dkg_pk data derivation context rng :
  healthy fuel rng -> in_subgroup dkg_pk = true -> g_is_zero dkg_pk = false ->
  (Z.of_nat (length data) <= 2 ^ 36 - 32)%Z ->
  (forall d, derivation = Some d -> derive_capability_scalar (F:=F) d <> 0) ->
  exists out, encrypt_secret fuel dkg_pk data derivation context rng = Ok out.
Proof.
  intros Hh Hs Hz Hlen Hd. unfold encrypt_secret. rewrite Hz, Hs. cbn [negb reject res_bind].
  destruct (sample_nonzero_healthy (E:=CryptoError) fuel rng Hh) as (r & rng1 & -> & Hr & Hh1).
  cbn [res_bind]. rewrite ct_mul_g1_generator. cbn [res_bind].
  destruct (effective_public_key_ok dkg_pk derivation Hs Hz Hd) as (epk & -> & Hepk). cbn [res_bind].
  rewrite ct_mul_g1_sub by done. cbn [res_bind].
  destruct (derive_key_ok (epk ⊙ r)) as [key ->]. cbn [res_bind].
  apply (healthy_fill fuel 12) in Hh1. destruct (fill_bytes 12 rng1) as [nb rng2].
  edestruct (aes_encrypt_total key nb) as [ct ->]; [exact Hlen|]. cbn [ok_or res_bind].
  unfold generate_encryption_proof.
  destruct (sample_nonzero_healthy (E:=CryptoError) fuel rng2 Hh1) as (k & rng3 & -> & _ & _).
  cbn [res_bind]. rewrite ct_mul_g1_generator. cbn. by eexists.
Qed.

(** What an accepted encryption proof says. *)
Lemma verify_encryption_Ok proof context secret :
  verify_encryption (F:=F) (G:=G) proof context secret = Ok tt ->
  exists (U : G) (c z : F),
    g_serialize U = enc_cmt secret /\ in_subgroup U = true /\ g_is_zero U = false /\
    length (nonce secret) = 12%nat /\ fr_serialize c = ep_challenge proof /\
    fr_serialize z = ep_response proof /\
    c = hash_to_scalar (POLICY_BINDING_PROOF_DOMAIN
          ++ mjoin (g_serialize <$> [U; generator ⊙ z ⊖ U ⊙ c])
          ++ context_digest context (enc_cmt secret)
          ++ ciphertext_digest (nonce secret) (encrypted_data secret)).
Proof.
  unfold verify_encryption. intros H. bind_ok H as ? _. bind_ok H as U HU.
  apply map_err_Ok, G1_from_Ok in HU as [Hs Hu]. bind_ok H as ? Hz. bind_ok H as ? _.
  bind_ok H as ? Hn. bind_ok H as ? _. bind_ok H as ? _. bind_ok H as c Hc. bind_ok H as ? _.
  bind_ok H as z Hz'. bind_ok H as c' Hc'. apply reject_neq_scalar in H.
  unfold encryption_proof_challenge in Hc'. apply Ok_inj in Hc'. subst c'. inv_ok.
  apply negb_false_iff, Nat.eqb_eq in Hn. apply Fr_from_Ok in Hc, Hz'.
  by exists U, c, z.
Qed.

(** The transcript whose hash is the challenge of an encryption proof. *)
Definition encryption_transcript (U R : G) (context : CiphertextContext) (secret : Secret) : bytes :=
  POLICY_BINDING_PROOF_DOMAIN ++ mjoin (g_serialize <$> [U; R])
    ++ context_digest context (enc_cmt secret)
    ++ ciphertext_digest (nonce secret) (encrypted_data secret).

(** Two distinct transcripts with the same challenge. *)
Definition challenge_collision (m1 m2 : bytes) : Prop :=
  m1 <> m2 /\ hash_to_scalar (F:=F) m1 = hash_to_scalar m2.

(** An encryption proof cannot be moved.  If one proof for one commitment
    is accepted for two documents, then the policy contexts, nonces and
    ciphertexts are the same, or two particular messages collide under
    SHA-256, or two particular transcripts have the same challenge. *)
Lemma encryption_proof_binds proof ctx1 ctx2 s1 s2 :
  cc_wf ctx1 -> cc_wf ctx2 -> short (enc_cmt s1) -> enc_cmt s1 = enc_cmt s2 ->
  verify_encryption (F:=F) (G:=G) proof ctx1 s1 = Ok tt ->
  verify_encryption (F:=F) (G:=G) proof ctx2 s2 = Ok tt ->
  (ctx1 = ctx2 /\ s1 = s2) \/
  collision sha256 (context_message ctx1 (enc_cmt s1)) (context_message ctx2 (enc_cmt s2)) \/
  collision sha256 (ciphertext_message (nonce s1) (encrypted_data s1))
                   (ciphertext_message (nonce s2) (encrypted_data s2)) \/
  exists U R : G, challenge_collision (encryption_transcript U R ctx1 s1)
                                      (encryption_transcript U R ctx2 s2).
Proof.
  intros Hw1 Hw2 Hs E H1 H2. apply verify_encryption_Ok in H1 as (U & c & z & HU & HUs & _ & Hn1 & Hc & Hz & H1).
  apply verify_encryption_Ok in H2 as (U' & c' & z' & HU' & HUs' & _ & Hn2 & Hc' & Hz' & H2).
  assert (U' = U) as -> by (apply g_serialize_inj; congruence).
  assert (c' = c) as -> by (apply fr_serialize_inj; congruence).
  assert (z' = z) as -> by (apply fr_serialize_inj; congruence). clear HU' Hc' Hz'.
  set (R := generator ⊙ z ⊖ U ⊙ c) in *.
  destruct (decide (encryption_transcript U R ctx1 s1 = encryption_transcript U R ctx2 s2)) as [Et|Et].
  2: { do 3 right. exists U, R. split; [done|]. unfold encryption_transcript. congruence. }
  unfold encryption_transcript in Et. do 2 apply app_inv_head in Et.
  apply app_inj_length in Et as [Ed Ec]; [|unfold context_digest; by rewrite !sha256_length].
  apply (same_or_collision sha256) in Ed as [Ed|Ed]; [|by auto].
  apply (same_or_collision sha256) in Ec as [Ec|Ec]; [|by auto]. left.
  apply context_message_inj in Ed as [-> _]; [|done|done|done|by rewrite <- E].
  apply ciphertext_message_inj in Ec as [En Ee]; [|congruence].
  split; [done|]. destruct s1, s2. cbn in *. congruence.
Qed.

(** ** Reader authorization *)

Lemma verify_reader_authorization_Ok (rdr_pk : G) context sig :
  verify_reader_authorization rdr_pk context sig = Ok tt <->
  g_is_zero rdr_pk = false /\ in_subgroup rdr_pk = true /\
  exists c z : F, ras_challenge sig = fr_serialize c /\ ras_response sig = fr_serialize z /\
    c = hash_to_scalar (READER_AUTHORIZATION_DOMAIN
          ++ mjoin (g_serialize <$> [rdr_pk; generator ⊙ z ⊖ rdr_pk ⊙ c])
          ++ reader_authorization_context_digest context).
Proof.
  unfold verify_reader_authorization. split.
  - intros H. bind_ok H as ? H0. bind_ok H as ? H1. bind_ok H as ? _. bind_ok H as c Hc.
    bind_ok H as ? _. bind_ok H as z Hz. bind_ok H as c' Hc'. apply reject_neq_scalar in H.
    unfold reader_authorization_challenge in Hc'. apply Ok_inj in Hc'. subst c'.
    inv_ok. apply negb_false_iff in H1. apply Fr_from_Ok in Hc, Hz.
    split; [done|]. split; [done|]. by exists c, z.
  - intros (Hz & Hs & c & z & -> & -> & Hc). rewrite Hz, Hs. cbn [negb reject res_bind].
    rewrite size_check_fr, Fr_from_to. cbn [reject map_err res_bind].
    rewrite size_check_fr, Fr_from_to. cbn [reject map_err res_bind].
    unfold reader_authorization_challenge. cbn [res_bind]. by apply reject_neq_scalar.
Qed.

(** A reader who holds the secret key can authorize a request: signing
    succeeds and the signature is accepted for that key and that request. *)
Lemma reader_authorization_complete fuel (rdr_sk : F) context rng :
  healthy fuel rng -> rdr_sk <> 0 ->
  exists sig rng', sign_reader_authorization fuel rdr_sk (generator (G:=G) ⊙ rdr_sk) context rng
      = Ok (sig, rng') /\
    verify_reader_authorization (generator (G:=G) ⊙ rdr_sk) context sig = Ok tt.
Proof.
  intros Hh Hx. unfold sign_reader_authorization, generate_reader_authorization_signature.
  destruct (sample_nonzero_healthy (E:=CryptoError) fuel rng Hh) as (k & rng1 & -> & _ & _).
  cbn [res_bind]. rewrite ct_mul_g1_generator. cbn [res_bind reader_authorization_challenge].
  eexists _, _. split; [done|]. apply verify_reader_authorization_Ok.
  split; [by apply gen_nonzero|]. split; [auto with orbis|]. eexists _, _.
  split; [done|]. split; [done|]. by rewrite schnorr_commitment.
Qed.

(** C36: A reader authorization cannot be replayed.  If one signature is
    accepted for one key under two requests then the requests are equal, or
    two particular messages collide. *)
Theorem reader_authorization_binds (rdr_pk : G) ctx1 ctx2 sig :
  ra_wf ctx1 -> ra_wf ctx2 ->
  verify_reader_authorization (F:=F) rdr_pk ctx1 sig = Ok tt ->
  verify_reader_authorization (F:=F) rdr_pk ctx2 sig = Ok tt ->
  ctx1 = ctx2 \/
  collision sha256 (reader_authorization_message ctx1) (reader_authorization_message ctx2) \/
  exists R : G, let t ctx := READER_AUTHORIZATION_DOMAIN ++ mjoin (g_serialize <$> [rdr_pk; R])
                             ++ reader_authorization_context_digest ctx in
    challenge_collision (t ctx1) (t ctx2).
Proof.
  intros Hw1 Hw2 (_ & _ & c & z & Hc & Hz & H1)%verify_reader_authorization_Ok
    (_ & _ & c' & z' & Hc' & Hz' & H2)%verify_reader_authorization_Ok.
  assert (c' = c) as -> by (apply fr_serialize_inj; congruence).
  assert (z' = z) as -> by (apply fr_serialize_inj; congruence).
  set (R := generator ⊙ z ⊖ rdr_pk ⊙ c) in *.
  destruct (decide (reader_authorization_context_digest ctx1 = reader_authorization_context_digest ctx2)) as [E|E].
  - apply (same_or_collision sha256) in E as [E|E]; [left|by auto].
    by apply reader_authorization_message_inj.
  - do 2 right. exists R. split; [|congruence]. intros Et. by do 2 apply app_inv_head in Et.
Qed.

(** ** Re-encryption *)

Lemma decompress_point_Ok b (Q : G) :
  decompress_point b = Ok Q <-> g_serialize Q = b /\ g_is_zero Q = false /\ in_subgroup Q = true.
Proof.
  unfold decompress_point. split.
  - intros H. bind_ok H as ? _. bind_ok H as Q' HQ. bind_ok H as ? Hz. bind_ok H as ? Hs. inv_ok.
    apply G1_from_Ok in HQ as [? ?]. done.
  - intros (<- & Hz & Hs). rewrite size_check_g, G1_from_to by done. cbn [reject map_err res_bind].
    by rewrite Hz, Hs.
Qed.

Definition proof_challenge (idx : Z) (rdr_pk enc_cmt cmt xnc_ski ui_hat hi_hat : G) : F :=
  from_le_bytes_mod_order (sha512 (PROTOCOL ++ to_le_bytes 4 idx
    ++ mjoin (g_serialize <$> [rdr_pk; enc_cmt; cmt])
    ++ mjoin (g_serialize <$> [xnc_ski; ui_hat; hi_hat]))).

Lemma reencrypt_internal_Ok fuel idx ski (rdr_pk U : G) ds rng xnc c f rng' :
  in_subgroup U = true ->
  reencrypt_internal fuel idx ski rdr_pk U ds rng = Ok ((xnc, c, f), rng') ->
  let x := effective_share ski ds in
  in_subgroup rdr_pk = true /\ xnc = (rdr_pk ⊕ U) ⊙ x /\
  exists k, k <> 0 /\ f = k + c * x /\
    c = proof_challenge idx rdr_pk U (generator ⊙ x) xnc ((rdr_pk ⊕ U) ⊙ k) (generator ⊙ k).
Proof.
  intros HU H x. unfold reencrypt_internal in H. fold x in H.
  bind_ok H as ? _. bind_ok H as ? Hs. bind_ok H as ? _. apply reject_Ok, negb_false_iff in Hs.
  rewrite ct_mul_g1_sub in H by auto with orbis. rewrite ct_mul_g1_generator in H. cbn [res_bind] in H.
  bind_ok H as [k rng1] Hk. apply sample_nonzero_Ok in Hk.
  rewrite ct_mul_g1_sub in H by auto with orbis. rewrite ct_mul_g1_generator in H. cbn [res_bind] in H.
  unfold hash_reencrypt_proof_points in H. cbn [res_bind] in H. inv_ok.
  split; [done|]. split; [done|]. by exists k.
Qed.

Lemma verify_internal_Ok idx (rdr_pk U xnc cmt : G) (c f : F) :
  verify_internal idx rdr_pk U xnc c f cmt = Ok tt <->
  c = proof_challenge idx rdr_pk U cmt xnc ((rdr_pk ⊕ U) ⊙ f ⊖ xnc ⊙ c) (generator ⊙ f ⊖ cmt ⊙ c).
Proof.
  unfold verify_internal, hash_reencrypt_proof_points. cbn [res_bind]. rewrite reject_neq_scalar.
  split; intros E; symmetry; exact E.
Qed.

Lemma verify_internal_complete idx (rdr_pk U : G) (x k c f : F) :
  in_subgroup rdr_pk = true -> in_subgroup U = true -> f = k + c * x ->
  c = proof_challenge idx rdr_pk U (generator ⊙ x) ((rdr_pk ⊕ U) ⊙ x) ((rdr_pk ⊕ U) ⊙ k) (generator ⊙ k) ->
  verify_internal idx rdr_pk U ((rdr_pk ⊕ U) ⊙ x) c f (generator ⊙ x) = Ok tt.
Proof.
  intros Hr HU -> Hc. apply verify_internal_Ok.
  by rewrite schnorr_commitment, dleq_commitment by auto with orbis.
Qed.

(** The scalar a derivation multiplies the key with. *)
Definition derivation_factor (derivation : option bytes) : F :=
  match derivation with Some d => derive_capability_scalar d | None => 1 end.

Lemma effective_share_factor ski derivation :
  effective_share ski (derive_capability_scalar <$> derivation) = derivation_factor derivation * ski.
Proof. destruct derivation; cbn; ring. Qed.

(** What a node answers.  A reply is only given to a request whose
    signature was accepted for the reader's key, the share is
    [d * ski * (rdr_pk + U)] for the commitment [U] of the document and the
    derivation [d] of the signed request, and the reply verifies against the
    node's public share. *)
Lemma reencrypt_reply_ok fuel ks secret (rdr_pk : G) context sig rng reply rng' (pp : PubPoly G) :
  reencrypt fuel ks secret rdr_pk context sig rng = Ok (reply, rng') ->
  PubPoly_eval pp (pri_i (pri_share ks)) = generator ⊙ pri_v (pri_share ks) ->
  verify_reader_authorization (F:=F) rdr_pk context sig = Ok tt /\
  exists U, decompress_point (enc_cmt secret) = Ok U /\
    rr_share reply = MkPubShare (pri_i (pri_share ks))
      ((rdr_pk ⊕ U) ⊙ (derivation_factor (ra_derivation context) * pri_v (pri_share ks))) /\
    verify rdr_pk pp U reply (ra_derivation context) = Ok tt.
Proof.
  intros H Hpp. unfold reencrypt in H. bind_ok H as ? _. bind_ok H as ? _. bind_ok H as u Hsig.
  destruct u. split; [done|]. bind_ok H as U HU. exists U. split; [done|]. bind_ok H as ? _.
  bind_ok H as [[[xnc c] f] rng1] Hr. apply Ok_inj in H. injection H as <- <-. cbn [rr_share].
  apply decompress_point_Ok in HU as (_ & _ & HU).
  apply reencrypt_internal_Ok in Hr as (Hs & -> & k & _ & Hf & Hc); [|done].
  rewrite effective_share_factor in *. split; [done|].
  unfold verify. cbn [rr_share rr_challenge rr_proof pub_i pub_v]. rewrite Hpp.
  replace (match ra_derivation context with Some d => _ | None => _ end) with
    (generator (G:=G) ⊙ (derivation_factor (ra_derivation context) * pri_v (pri_share ks))).
  - by apply (verify_internal_complete _ _ _ _ k).
  - destruct (ra_derivation context); cbn; dlog; f_equal; ring.
Qed.

(** C34: Soundness of the reply check.  If the answered point is not the
    committed share times the request point, then for the nonce commitments
    that were hashed there is a single challenge a proof can be accepted with:
    the hash of the transcript would have to hit that one scalar. *)
Theorem invalid_reply_one_challenge idx (rdr_pk U xnc cmt : G) (b x w c f : F) :
  rdr_pk ⊕ U = generator ⊙ b -> cmt = generator ⊙ x -> xnc = generator ⊙ w -> w <> x * b ->
  verify_internal idx rdr_pk U xnc c f cmt = Ok tt ->
  exists u h, c = (u - b * h) / (x * b - w) /\
    proof_challenge idx rdr_pk U cmt xnc (generator ⊙ u) (generator ⊙ h) = c.
Proof.
  intros Hb -> -> Hw Hv%verify_internal_Ok. exists (b * f - w * c), (f - x * c).
  rewrite Hb in Hv. autorewrite with dlog in Hv.
  split; [by apply dleq_one_challenge|by rewrite Hv at 3].
Qed.

Lemma recover_valid (shares : list (PubShare G)) (B : G) (cs : list F) t n :
  in_subgroup B = true -> (1 <= t <= n)%Z -> (t <= Z.of_nat (length shares))%Z ->
  indices_ok n (take (Z.to_nat t) (pub_i <$> shares)) -> (length cs <= Z.to_nat t)%nat ->
  Forall (fun sh => pub_v sh = B ⊙ peval cs (from_u64 (pub_i sh))) shares ->
  recover shares t n = Ok (Some (B ⊙ peval cs 0)).
Proof.
  intros HB Ht Hlen Hidx Hcs Hv. unfold recover.
  rewrite (proj2 (Z.eqb_neq t 0)), (proj2 (Z.ltb_ge n t)), (proj2 (Z.ltb_ge _ t)) by lia.
  cbn [reject res_bind]. unfold recover_commit.
  rewrite (combine_shares_valid _ _ _ _ _ B cs); [done|done|lia|done|done|done].
Qed.

Lemma recover_total (shares : list (PubShare G)) t n :
  (1 <= t <= n)%Z -> (t <= Z.of_nat (length shares))%Z -> indices_ok n (take (Z.to_nat t) (pub_i <$> shares)) ->
  exists xnc, recover (F:=F) shares t n = Ok (Some xnc).
Proof.
  intros Ht Hlen Hidx. unfold recover, recover_commit.
  rewrite (proj2 (Z.eqb_neq t 0)), (proj2 (Z.ltb_ge n t)), (proj2 (Z.ltb_ge _ t)) by lia. cbn [reject res_bind].
  match goal with |- context [combine_shares ?a ?b ?c ?f] =>
    destruct (combine_shares_total (F:=F) a b c f shares t n) as [Q ->]; [lia|done|] end. by exists Q.
Qed.

(** [recover] never panics, answers [None] when there are fewer shares than
    the threshold, and fails when one of the shares it would use has an index
    out of range or used twice. *)
Lemma recover_outcomes (shares : list (PubShare G)) t n :
  (0 <= t)%Z ->
  no_panic (recover (F:=F) shares t n) /\
  ((1 <= t <= n)%Z -> (Z.of_nat (length shares) < t)%Z -> recover (F:=F) shares t n = Ok None) /\
  (~ indices_ok n (take (Z.to_nat t) (pub_i <$> shares)) -> forall Q, recover (F:=F) shares t n <> Ok (Some Q)).
Proof.
  intros H0. split; [|split].
  - unfold recover. do 2 (apply no_panic_bind; [auto with orbis|intros]). case_match eqn:E; [done|].
    apply Z.ltb_ge in E. apply no_panic_bind; [apply no_panic_combine_shares; lia|by intros].
  - intros Ht Hl. unfold recover.
    by rewrite (proj2 (Z.eqb_neq t 0)), (proj2 (Z.ltb_ge n t)), (proj2 (Z.ltb_lt _ t)) by lia.
  - intros Hi Q HQ. unfold recover in HQ. bind_ok HQ as ? _. bind_ok HQ as ? _.
    destruct (Z.ltb_spec (Z.of_nat (length shares)) t); [done|]. bind_ok HQ as r Hr.
    apply Hi. eapply combine_shares_indices; [|exact Hr]. lia.
Qed.

Lemma effective_public_key_value (s : F) derivation (epk : G) :
  effective_public_key (generator ⊙ s) derivation = Ok epk ->
  epk = generator ⊙ (derivation_factor derivation * s).
Proof.
  unfold effective_public_key. intros H. destruct derivation; inv_ok; cbn.
  - rewrite generator_mul. f_equal. ring.
  - f_equal. ring.
Qed.

(** The point the reader needs: the combination of correct shares decrypts. *)
Lemma decrypt_combined fuel (s x : F) data derivation ctx rng U secret proof rng' :
  encrypt_secret fuel (generator (G:=G) ⊙ s) data derivation ctx rng = Ok ((U, secret, proof), rng') ->
  decrypt_secret (generator ⊙ (derivation_factor derivation * s))
    ((generator ⊙ x ⊕ U) ⊙ derivation_factor derivation ⊙ s) x secret ctx = Ok data.
Proof.
  intros (r & k & epk & key & Hr0 & _ & HU & Hepk & _ & Hkey & Hu & Hn & Hct & _)%encrypt_secret_Ok.
  apply aes_encrypt_length in Hct as Hl. unfold decrypt_secret. rewrite Hn. cbn [negb reject res_bind Nat.eqb].
  rewrite bool_decide_eq_false_2 by (intros E; rewrite E in Hl; cbn in Hl; lia). cbn [reject res_bind].
  rewrite bool_decide_eq_false_2 by (rewrite Hu; apply g_serialize_ne). cbn [reject res_bind].
  rewrite ct_mul_g1_sub by auto with orbis. cbn [res_bind].
  apply effective_public_key_value in Hepk as ->.
  replace (_ ⊖ _) with (generator (G:=G) ⊙ (derivation_factor derivation * s) ⊙ r).
  - rewrite Hkey. cbn [res_bind]. by erewrite aes_decrypt_encrypt.
  - subst U. dlog. f_equal. ring.
Qed.

(** C13: The re-encryption round trip.  A document encrypted to the ring key is
    opened by the reader: for key shares on a polynomial with at most [t]
    coefficients, replies of [t] or more nodes with distinct indices to the
    reader's signed request all verify, combine, and the combination decrypts
    to the original data, with and without a capability derivation. *)
Theorem reencryption_round_trip fuel (cs : list F) (x : F) data derivation ctx rng U secret proof rng'
    request sig t n (replies : list (ReencryptReply F G)) :
  encrypt_secret fuel (generator (G:=G) ⊙ peval cs 0) data derivation ctx rng
    = Ok ((U, secret, proof), rng') ->
  ra_derivation request = derivation ->
  Forall (fun reply => exists fuel_i rng_i rng_i' ks,
    pri_v (pri_share ks) = peval cs (from_u64 (pri_i (pri_share ks))) /\
    reencrypt fuel_i ks secret (generator ⊙ x) request sig rng_i = Ok (reply, rng_i')) replies ->
  (1 <= t <= n)%Z -> (t <= Z.of_nat (length replies))%Z -> (length cs <= Z.to_nat t)%nat ->
  indices_ok n (take (Z.to_nat t) (pub_i <$> (rr_share <$> replies))) ->
  Forall (fun reply => verify (generator ⊙ x) (MkPubPoly (commit_all cs)) U reply derivation = Ok tt)
    replies /\
  exists xnc, recover (rr_share <$> replies) t n = Ok (Some xnc) /\
    decrypt_secret (generator ⊙ (derivation_factor derivation * peval cs 0)) xnc x secret ctx = Ok data.
Proof.
  intros He Hreq Hr Ht Hlen Hcs Hidx. pose proof (decrypt_combined _ _ x _ _ _ _ _ _ _ _ He) as Hdec.
  apply encrypt_secret_Ok in He as (r & k & epk & key & _ & _ & HU & _ & _ & _ & Hu & _).
  set (B := (generator ⊙ x ⊕ U) ⊙ derivation_factor derivation) in *.
  assert (forall reply, reply ∈ replies ->
    verify (generator ⊙ x) (MkPubPoly (commit_all cs)) U reply derivation = Ok tt /\
    pub_v (rr_share reply) = B ⊙ peval cs (from_u64 (pub_i (rr_share reply)))) as Hreply.
  { intros reply Hin. eapply Forall_forall in Hr; [|exact Hin]. destruct Hr as (fi & ri & ri' & ks & Hks & Hre).
    apply (reencrypt_reply_ok _ _ _ _ _ _ _ _ _ (MkPubPoly (commit_all cs))) in Hre as (_ & U' & HU' & -> & Hv).
    2: { unfold PubPoly_eval. cbn. by rewrite eval_points_commit, Hks. }
    apply decompress_point_Ok in HU' as (EU & _ & HsU). rewrite Hu in EU.
    apply g_serialize_inj in EU as ->; [|done|subst U; auto with orbis]. rewrite Hreq in *.
    split; [done|]. cbn. rewrite Hks. unfold B. subst U. dlog. f_equal. ring. }
  split; [apply Forall_forall; intros reply Hin; by apply Hreply|]. exists (B ⊙ peval cs 0). split; [|done].
  apply recover_valid; [subst B U; auto with orbis|done|by rewrite length_fmap|done|done|].
  apply Forall_fmap, Forall_forall. intros reply Hin. by apply Hreply.
Qed.

(** Why a reader must prove knowledge of its key.  Without the signature
    check the answer is linear in the reader's key: for the difference of two
    published commitments as the key, a node's answer about the first document
    is its share of the second document's shared point. *)
Lemma unsigned_key_redirects fuel idx ski (UA UB : G) rng xnc c f rng' :
  in_subgroup UA = true -> in_subgroup UB = true ->
  reencrypt_internal fuel idx ski (UB ⊖ UA) UA None rng = Ok ((xnc, c, f), rng') ->
  xnc = UB ⊙ ski.
Proof.
  intros HA HB (_ & -> & _)%reencrypt_internal_Ok; [|done]. cbn. dlog. f_equal. ring.
Qed.

End Pre.

(** ** Instances *)

Module PreSample.

(** The key polynomial is [10 + 3x]; the reader's secret key is 21. *)
Definition cs : list ToyF := [toy_F 10; toy_F 3].
Definition ring_pk : ToyG1 := generator ⊙ toy_F 10.
Definition rdr_sk : ToyF := toy_F 21.
Definition rdr_pk : ToyG1 := generator ⊙ rdr_sk.
Definition data : bytes := bstr "hello".
Definition context : CiphertextContext := ContextSample.context.
Definition derivation : option bytes := Some (bstr "cap").
Definition request : ReaderAuthorizationContext :=
  let r := ContextSample.request in
  MkReaderAuthorizationContext (ra_chain_id r) (ra_ring_pk r) (ra_jwt_issuer r) (ra_jwt_subject r)
    (ra_resolved_actor r) (ra_jwt_id r) (ra_jwt_issued_time r) (ra_jwt_expiration_time r)
    (ra_jwt_not_before r) (ra_object_id r) (ra_recipient_pk r) derivation (ra_salt r)
    (ra_valid_window r) (ra_audit_target_object_id r).

Definition get {A} (d : A) (r : result A) : A := match r with Ok a => a | _ => d end.

Definition no_secret : Secret := MkSecret [] [] [].
Definition no_sig : ReaderAuthorizationSignature := MkReaderAuthorizationSignature [] [].

Definition document : (ToyG1 * Secret * EncryptionProof) * Rng ToyF :=
  get ((g_zero, no_secret, MkEncryptionProof [] []), toy_rng)
    (encrypt_secret 1 ring_pk data derivation context toy_rng).
Definition secret : Secret := document.1.1.2.
Definition proof : EncryptionProof := document.1.2.
Definition sig : ReaderAuthorizationSignature :=
  (get (no_sig, toy_rng) (sign_reader_authorization 1 rdr_sk rdr_pk request toy_rng)).1.

Definition key_share (i : Z) : DistKeyShare ToyF :=
  MkDistKeyShare (MkPriShare i (peval cs (from_u64 i))).
Definition no_reply : ReencryptReply ToyF ToyG1 :=
  MkReencryptReply (MkPubShare 0 g_zero) (toy_F 0) (toy_F 0).
Definition reply (i : Z) : ReencryptReply ToyF ToyG1 :=
  (get (no_reply, toy_rng) (reencrypt 1 (key_share i) secret rdr_pk request sig toy_rng)).1.

Lemma reply_ok i :
  i = 1%Z \/ i = 3%Z ->
  exists rng', reencrypt 1 (key_share i) secret rdr_pk request sig toy_rng = Ok (reply i, rng').
Proof. intros [-> | ->]; eexists; vm_compute; reflexivity. Qed.

End PreSample.

Import PreSample.

Lemma encrypt_secret_total_witness :
  exists out, encrypt_secret 1 ring_pk data derivation context toy_rng = Ok out.
Proof.
  apply encrypt_secret_total.
  - exact toy_rng_healthy.
  - vm_compute. reflexivity.
  - vm_compute. reflexivity.
  - vm_compute. discriminate.
  - intros d [= <-]. vm_compute. discriminate.
Defined.

Lemma reader_authorization_binds_witness :
  request = request \/
  collision sha256 (reader_authorization_message request) (reader_authorization_message request) \/
  exists R : ToyG1, let t ctx := READER_AUTHORIZATION_DOMAIN ++ mjoin (g_serialize <$> [rdr_pk; R])
                             ++ reader_authorization_context_digest ctx in
    challenge_collision (F:=ToyF) (t request) (t request).
Proof.
  apply (reader_authorization_binds (F:=ToyF) rdr_pk request request sig).
  - repeat split; vm_compute; done.
  - repeat split; vm_compute; done.
  - vm_compute. reflexivity.
  - vm_compute. reflexivity.
Defined.

Lemma invalid_reply_one_challenge_witness :
  let U : ToyG1 := generator ⊙ toy_F 4 in
  exists u h, toy_F 0 = fdiv (fsub u (fmul (toy_F 25) h)) (fsub (fmul (toy_F 2) (toy_F 25)) (toy_F 9)) /\
    proof_challenge (SHA:=zero_sha2) 1 rdr_pk U (generator ⊙ toy_F 2) (generator ⊙ toy_F 9)
      (generator ⊙ u) (generator ⊙ h) = toy_F 0.
Proof.
  intros U.
  apply (invalid_reply_one_challenge (SHA:=zero_sha2) 1 rdr_pk U (generator ⊙ toy_F 9)
           (generator ⊙ toy_F 2) (toy_F 25) (toy_F 2) (toy_F 9) (toy_F 0) (toy_F 1)).
  - vm_compute. reflexivity.
  - reflexivity.
  - reflexivity.
  - vm_compute. discriminate.
  - vm_compute. reflexivity.
Defined.

Lemma reencryption_round_trip_witness :
  exists xnc, recover (rr_share <$> [reply 3; reply 1]) 2 3 = Ok (Some xnc) /\
    decrypt_secret (generator (G:=ToyG1) ⊙ fmul (derivation_factor derivation) (peval cs fzero)) xnc
      rdr_sk secret context = Ok data.
Proof.
  eapply (reencryption_round_trip 1 cs rdr_sk data derivation context toy_rng document.1.1.1 secret
    proof document.2 request sig 2 3 [reply 3; reply 1]).
  - vm_compute. reflexivity.
  - reflexivity.
  - constructor; [|constructor; [|constructor]].
    + destruct (reply_ok 3) as [rng' H]; [right; reflexivity|].
      exists 1%nat, toy_rng, rng', (key_share 3). split; [reflexivity|exact H].
    + destruct (reply_ok 1) as [rng' H]; [left; reflexivity|].
      exists 1%nat, toy_rng, rng', (key_share 1). split; [reflexivity|exact H].
  - lia.
  - cbn. lia.
  - cbn. lia.
  - split; [repeat constructor; vm_compute; discriminate|].
    apply (bool_decide_unpack _). vm_compute. exact I.
Defined.

