(* ===== verification/Pet.v ===== *)
(** * Private equality tests

    [crates/crypto/src/bls12_381/pet.rs]: the owner's fingerprint, the proof
    of knowledge of a tag's randomness, the partial checks of the committee
    members and their combination, and the blinding of a tag by one member. *)
From S2P Require Import Prelude Algebra Interpolation Primitives Codec Common Sigma Shares.

(** ** Data ([trait/types.rs]) *)

Record PetTag := MkPetTag { ephemeral_point : bytes; masked_fingerprint : bytes }.

Record TagKnowledgeProof := MkTagKnowledgeProof { tkp_challenge : bytes; tkp_response : bytes }.

Record PetCheckReply (V K : Type) := MkPetCheckReply {
  pcr_partial : PubShare K;
  pcr_challenge : V;
  pcr_proof : V;
}.
Arguments MkPetCheckReply {V K}. Arguments pcr_partial {V K}.
Arguments pcr_challenge {V K}. Arguments pcr_proof {V K}.

Record BlindingReply (V K : Type) := MkBlindingReply {
  blinded_r : K;
  blinded_diff : K;
  br_challenge : V;
  br_proof : V;
}.
Arguments MkBlindingReply {V K}. Arguments blinded_r {V K}. Arguments blinded_diff {V K}.
Arguments br_challenge {V K}. Arguments br_proof {V K}.

Definition FINGERPRINT_DOMAIN : bytes := bstr "orbis-pet-fingerprint-v1".
Definition TAG_KNOWLEDGE_PROOF_DOMAIN : bytes := bstr "orbis-pet-tag-knowledge-proof-v1".
Definition PET_CHECK_DLEQ_DOMAIN : bytes := bstr "orbis-pet-check-dleq-proof-v1".
Definition BLIND_PROOF_DOMAIN : bytes := bstr "orbis-pet-blind-proof-v1".

Section Pet.
Context {F G S P : Type} {SF : ScalarField F} {CG : CurveGroup F G} {BL : Blst F G S P} {SHA : Sha2}.
Local Open Scope fr_scope.

(** ** Helpers *)

Definition decode_group_element (b : bytes) : result G :=
  reject (negb (length b =? g_size (G:=G))%nat)
    (ElGamalError "Invalid {} length: expected {}, got {}") ;?
  let? point := map_err (G1Affine_from_bytes b) (ElGamalError "failed to decompress {}: {:?}") in
  reject (g_is_zero point) (ElGamalError "Invalid {}: cannot be the identity element") ;?
  reject (negb (in_subgroup point)) (ElGamalError "Invalid {}: not in correct subgroup") ;?
  Ok point.

Definition tag_knowledge_proof_challenge (R r1 : G) (tag_transcript_digest : bytes) : result F :=
  Ok (hash_to_scalar (TAG_KNOWLEDGE_PROOF_DOMAIN ++ mjoin (g_serialize <$> [R; r1])
        ++ tag_transcript_digest)).

Definition pet_check_proof_challenge (node_id : Z) (r_point public_share partial : G)
    (proof_points : list G) : result F :=
  Ok (hash_to_scalar (PET_CHECK_DLEQ_DOMAIN ++ to_le_bytes 4 node_id
        ++ mjoin (g_serialize <$> [r_point; public_share; partial])
        ++ mjoin (g_serialize <$> proof_points))).

Definition blinding_proof_challenge (r_point diff_point blinded_r blinded_diff u_point v_point : G)
    (blind_transcript_digest : bytes) : result F :=
  Ok (hash_to_scalar (BLIND_PROOF_DOMAIN
        ++ mjoin (g_serialize <$> [r_point; diff_point; blinded_r; blinded_diff; u_point; v_point])
        ++ blind_transcript_digest)).

(** ** The tag *)

Definition owner_fingerprint (owner_id : bytes) : result G :=
  Ok (generator ⊙ hash_to_scalar (FINGERPRINT_DOMAIN ++ owner_id)).

Definition prove_tag_knowledge (fuel : nat) (r_tag : F) (tag : PetTag)
    (tag_transcript_digest : bytes) (rng : Rng F) : result (TagKnowledgeProof * Rng F) :=
  let? R := decode_group_element (ephemeral_point tag) in
  let? '(k, rng') := sample_nonzero fuel rng in
  let? r1 := ct_mul_g1 generator k in
  let? c := tag_knowledge_proof_challenge R r1 tag_transcript_digest in
  let? z := ct_scalar_mul_add (BL:=BL) k c r_tag in
  Ok (MkTagKnowledgeProof (fr_serialize c) (fr_serialize z), rng').

Definition verify_tag_knowledge (tag : PetTag) (proof : TagKnowledgeProof)
    (tag_transcript_digest : bytes) : result unit :=
  let? R := decode_group_element (ephemeral_point tag) in
  reject (negb (length (tkp_challenge proof) =? fr_size (F:=F))%nat) (ElGamalError
    "Invalid tag-knowledge-proof challenge length: expected {}, got {}") ;?
  let? challenge := map_err (Fr_from_bytes (tkp_challenge proof)) (ElGamalError
    "Failed to deserialize tag-knowledge-proof challenge: {:?}") in
  reject (negb (length (tkp_response proof) =? fr_size (F:=F))%nat) (ElGamalError
    "Invalid tag-knowledge-proof response length: expected {}, got {}") ;?
  let? response := map_err (Fr_from_bytes (tkp_response proof)) (ElGamalError
    "Failed to deserialize tag-knowledge-proof response: {:?}") in
  let r1_prime := generator ⊙ response ⊖ R ⊙ challenge in
  let? recomputed_challenge := tag_knowledge_proof_challenge R r1_prime tag_transcript_digest in
  reject (negb (ct_eq_scalar challenge recomputed_challenge))
    (ElGamalError "Tag knowledge proof verification failed").

(** ** Partial checks *)

Definition partial_pet_check (fuel : nat) (share_i : F) (node_id : Z) (tag : PetTag) (rng : Rng F)
    : result (PetCheckReply F G * Rng F) :=
  let? r_point := decode_group_element (ephemeral_point tag) in
  let? partial := ct_mul_g1 r_point share_i in
  let? public_share := ct_mul_g1 generator share_i in
  let? '(ri, rng') := sample_nonzero fuel rng in
  let? ui_hat := ct_mul_g1 r_point ri in
  let? hi_hat := ct_mul_g1 generator ri in
  let? challenge := pet_check_proof_challenge node_id r_point public_share partial [ui_hat; hi_hat] in
  let? proof := ct_scalar_mul_add (BL:=BL) ri challenge share_i in
  Ok (MkPetCheckReply (MkPubShare node_id partial) challenge proof, rng').

Definition verify_partial_pet_check (pub_poly : PubPoly G) (tag : PetTag) (reply : PetCheckReply F G)
    : result unit :=
  let? r_point := decode_group_element (ephemeral_point tag) in
  let node_id := pub_i (pcr_partial reply) in
  let partial := pub_v (pcr_partial reply) in
  let public_share := PubPoly_eval pub_poly node_id in
  let ui_hat := r_point ⊙ pcr_proof reply ⊖ partial ⊙ pcr_challenge reply in
  let hi_hat := generator ⊙ pcr_proof reply ⊖ public_share ⊙ pcr_challenge reply in
  let? recomputed_challenge :=
    pet_check_proof_challenge node_id r_point public_share partial [ui_hat; hi_hat] in
  reject (negb (ct_eq_scalar (pcr_challenge reply) recomputed_challenge))
    (ElGamalError "PET check share verification failed").

Definition combine_pet_check_shares (shares : list (PubShare G)) (threshold n : Z) : result G :=
  reject (Z.of_nat (length shares) <? threshold)%Z
    (ElGamalError "Insufficient PET check shares: got {}, need {}") ;?
  combine_shares (ElGamalError "Invalid PET check share index: {} (must be in range [1, {}])")
    (ElGamalError "Duplicate PET check share index: {}") (ElGamalError
    "Division by zero in Lagrange interpolation - this should not happen after validation")
    (fun v => v) shares threshold n.

Definition verify_pet_match (tag : PetTag) (combined_check target_fingerprint : G) : result unit :=
  let? T := decode_group_element (masked_fingerprint tag) in
  let expected := target_fingerprint ⊕ combined_check in
  reject (negb (bool_decide (g_serialize expected = g_serialize T)))
    (ElGamalError "PET check failed: tag does not match the audit target").

(** ** Blinding *)

Definition prove_blinding_correctness (fuel : nat) (z_i : F) (tag : PetTag) (target_fingerprint : G)
    (blind_transcript_digest : bytes) (rng : Rng F) : result (BlindingReply F G * Rng F) :=
  let? r_point := decode_group_element (ephemeral_point tag) in
  let? T := decode_group_element (masked_fingerprint tag) in
  let diff_point := T ⊖ target_fingerprint in
  let? blinded_r := ct_mul_g1 r_point z_i in
  let? blinded_diff := ct_mul_g1 diff_point z_i in
  reject (g_is_zero blinded_r) (ElGamalError "Invalid blinding scalar: z_i cannot be zero") ;?
  let? '(w_i, rng') := sample_nonzero fuel rng in
  let? u_i := ct_mul_g1 r_point w_i in
  let? v_i := ct_mul_g1 diff_point w_i in
  let? challenge := blinding_proof_challenge r_point diff_point blinded_r blinded_diff u_i v_i
    blind_transcript_digest in
  let? proof := ct_scalar_mul_add (BL:=BL) w_i challenge z_i in
  Ok (MkBlindingReply blinded_r blinded_diff challenge proof, rng').

Definition verify_blinding_correctness (tag : PetTag) (target_fingerprint : G)
    (reply : BlindingReply F G) (blind_transcript_digest : bytes) : result unit :=
  let? r_point := decode_group_element (ephemeral_point tag) in
  let? T := decode_group_element (masked_fingerprint tag) in
  let diff_point := T ⊖ target_fingerprint in
  reject (g_is_zero (blinded_r reply)) (ElGamalError
    "Invalid blinding contribution: blinded_r cannot be the identity element") ;?
  let u_i := r_point ⊙ br_proof reply ⊖ blinded_r reply ⊙ br_challenge reply in
  let v_i := diff_point ⊙ br_proof reply ⊖ blinded_diff reply ⊙ br_challenge reply in
  let? recomputed_challenge := blinding_proof_challenge r_point diff_point (blinded_r reply)
    (blinded_diff reply) u_i v_i blind_transcript_digest in
  reject (negb (ct_eq_scalar (br_challenge reply) recomputed_challenge))
    (ElGamalError "Blinding-correctness proof verification failed").

End Pet.
