(* ===== verification/PetTheorems.v ===== *)
(** * Theorems on private equality tests

    Completeness and soundness of the proofs a tag, a partial check and a
    blinding contribution carry, and what the combined check decides. *)
From S2P Require Import Prelude Algebra Interpolation Primitives Toy Codec Common Context Sigma Shares Pet.
From S2P Require Import DkgSpec Feldman.

Section Pet.
Context {F G S P : Type} {SF : ScalarField F} {CG : CurveGroup F G} {BL : Blst F G S P} {SHA : Sha2}.
Local Open Scope fr_scope.
Add Field FField : (f_theory (F:=F)).

(** ** Lemmas *)

Lemma decode_group_element_Ok b (Q : G) :
  decode_group_element b = Ok Q <-> g_serialize Q = b /\ g_is_zero Q = false /\ in_subgroup Q = true.
Proof.
  unfold decode_group_element. split.
  - intros H. bind_ok H as ? _. bind_ok H as Q' HQ. bind_ok H as ? Hz. bind_ok H as ? Hs. inv_ok.
    apply G1_from_Ok in HQ as [? ?]. done.
  - intros (<- & Hz & Hs). rewrite size_check_g, G1_from_to by done. cbn [reject map_err res_bind].
    by rewrite Hz, Hs.
Qed.

Lemma decode_multiple (x : F) :
  x <> 0 -> decode_group_element (g_serialize (generator ⊙ x)) = Ok (generator (G:=G) ⊙ x).
Proof. intros H. apply decode_group_element_Ok. split; [done|]. split; [by apply gen_nonzero|auto with orbis]. Qed.

Definition tag_transcript (R R1 : G) (digest : bytes) : bytes :=
  TAG_KNOWLEDGE_PROOF_DOMAIN ++ mjoin (g_serialize <$> [R; R1]) ++ digest.

Definition tag_challenge (R R1 : G) (digest : bytes) : F := hash_to_scalar (tag_transcript R R1 digest).

Definition check_challenge (id : Z) (R pk partial u h : G) : F :=
  hash_to_scalar (PET_CHECK_DLEQ_DOMAIN ++ to_le_bytes 4 id
    ++ mjoin (g_serialize <$> [R; pk; partial]) ++ mjoin (g_serialize <$> [u; h])).

Definition blind_challenge (R D A B U V : G) (digest : bytes) : F :=
  hash_to_scalar (BLIND_PROOF_DOMAIN ++ mjoin (g_serialize <$> [R; D; A; B; U; V]) ++ digest).

Lemma verify_tag_knowledge_Ok tag proof digest :
  verify_tag_knowledge (F:=F) (G:=G) tag proof digest = Ok tt <->
  exists (R : G) (c z : F), decode_group_element (ephemeral_point tag) = Ok R /\
    tkp_challenge proof = fr_serialize c /\ tkp_response proof = fr_serialize z /\
    c = tag_challenge R (generator ⊙ z ⊖ R ⊙ c) digest.
Proof.
  unfold verify_tag_knowledge. split.
  - intros H. bind_ok H as R HR. bind_ok H as ? _. bind_ok H as c Hc. bind_ok H as ? _.
    bind_ok H as z Hz. bind_ok H as c' Hc'. apply reject_neq_scalar in H.
    unfold tag_knowledge_proof_challenge in Hc'. apply Ok_inj in Hc'. subst c'.
    apply map_err_Ok, Fr_from_Ok in Hc, Hz. by exists R, c, z.
  - intros (R & c & z & -> & -> & -> & Hc). cbn [res_bind]. rewrite size_check_fr, Fr_from_to.
    cbn [reject map_err res_bind]. rewrite size_check_fr, Fr_from_to. cbn [reject map_err res_bind].
    unfold tag_knowledge_proof_challenge. cbn [res_bind]. by apply reject_neq_scalar.
Qed.

(** The creator of a tag, who knows the randomness [r] of [R = r*G], can
    prove it: the proof is produced and is accepted for the same transcript. *)
Lemma tag_knowledge_complete fuel (r : F) T digest rng :
  healthy fuel rng -> r <> 0 ->
  let tag := MkPetTag (g_serialize (generator (G:=G) ⊙ r)) T in
  exists proof rng', prove_tag_knowledge fuel r tag digest rng = Ok (proof, rng') /\
    verify_tag_knowledge (F:=F) (G:=G) tag proof digest = Ok tt.
Proof.
  intros Hh Hr tag. unfold prove_tag_knowledge. cbn [ephemeral_point tag]. rewrite decode_multiple by done.
  destruct (sample_nonzero_healthy (E:=CryptoError) fuel rng Hh) as (k & rng1 & -> & _ & _).
  cbn [res_bind]. rewrite ct_mul_g1_generator. cbn [res_bind tag_knowledge_proof_challenge].
  rewrite ct_scalar_mul_add_spec. cbn [res_bind]. eexists _, _. split; [done|].
  apply verify_tag_knowledge_Ok. eexists _, _, _. split; [by apply decode_multiple|].
  split; [done|]. split; [done|]. by rewrite schnorr_commitment.
Qed.

(** A tag proof cannot be moved.  If one proof is accepted for two payload
    envelopes, each verified with the digest rebuilt from its tag, PET key,
    ring, policy context, ciphertext and encryption proof, then the envelopes
    are the same, or two particular messages collide under SHA-256, or two
    particular transcripts have the same challenge. *)
Lemma tag_proof_binds i j proof :
  let tag i := MkPetTag (tpi_ephemeral_point i) (tpi_masked_fingerprint i) in
  tpi_wf i -> tpi_wf j ->
  verify_tag_knowledge (F:=F) (G:=G) (tag i) proof (tpi_digest i) = Ok tt ->
  verify_tag_knowledge (F:=F) (G:=G) (tag j) proof (tpi_digest j) = Ok tt ->
  i = j \/ collision sha256 (tpi_message i) (tpi_message j) \/
  exists Ri Rj Ci Cj : G, tag_transcript Ri Ci (tpi_digest i) <> tag_transcript Rj Cj (tpi_digest j) /\
    tag_challenge Ri Ci (tpi_digest i) = tag_challenge Rj Cj (tpi_digest j).
Proof.
  intros tag Hi Hj (R & c & z & _ & Hc & Hz & H1)%verify_tag_knowledge_Ok
    (R' & c' & z' & _ & Hc' & Hz' & H2)%verify_tag_knowledge_Ok.
  assert (c' = c) as -> by (apply fr_serialize_inj; congruence).
  assert (z' = z) as -> by (apply fr_serialize_inj; congruence).
  set (C := generator ⊙ z ⊖ R ⊙ c) in *. set (C' := generator ⊙ z ⊖ R' ⊙ c) in *.
  destruct (decide (tag_transcript R C (tpi_digest i) = tag_transcript R' C' (tpi_digest j))) as [E|E].
  - unfold tag_transcript in E. apply app_inv_head in E.
    apply app_inj_length in E as [_ E]; [|cbn; by rewrite !length_app, !g_serialize_length].
    apply tpi_digest_inj in E; [|done|done]. tauto.
  - right. right. exists R, R', C, C'. split; [done|congruence].
Qed.

(** ** Partial checks *)

Lemma verify_partial_Ok (pp : PubPoly G) tag (reply : PetCheckReply F G) :
  verify_partial_pet_check pp tag reply = Ok tt <->
  let id := pub_i (pcr_partial reply) in
  let V := pub_v (pcr_partial reply) in
  let c := pcr_challenge reply in
  let f := pcr_proof reply in
  let pk := PubPoly_eval pp id in
  exists R, decode_group_element (ephemeral_point tag) = Ok R /\
    c = check_challenge id R pk V (R ⊙ f ⊖ V ⊙ c) (generator ⊙ f ⊖ pk ⊙ c).
Proof.
  unfold verify_partial_pet_check, pet_check_proof_challenge. rewrite res_bind_Ok. cbn [res_bind].
  setoid_rewrite reject_neq_scalar. done.
Qed.

Lemma partial_pet_check_ok fuel (x : F) id tag rng (R : G) (pp : PubPoly G) :
  healthy fuel rng -> decode_group_element (ephemeral_point tag) = Ok R ->
  PubPoly_eval pp id = generator ⊙ x ->
  exists reply rng', partial_pet_check fuel x id tag rng = Ok (reply, rng') /\
    pcr_partial reply = MkPubShare id (R ⊙ x) /\ verify_partial_pet_check pp tag reply = Ok tt.
Proof.
  intros Hh HR Hpp. apply decode_group_element_Ok in HR as Hs. destruct Hs as (_ & _ & Hs).
  unfold partial_pet_check. rewrite HR. cbn [res_bind].
  rewrite ct_mul_g1_sub, ct_mul_g1_generator by done. cbn [res_bind].
  destruct (sample_nonzero_healthy (E:=CryptoError) fuel rng Hh) as (k & rng1 & -> & _ & _).
  cbn [res_bind]. rewrite ct_mul_g1_sub, ct_mul_g1_generator by done.
  cbn [res_bind pet_check_proof_challenge]. rewrite ct_scalar_mul_add_spec. cbn [res_bind].
  eexists _, _. split; [done|]. split; [done|]. apply verify_partial_Ok. cbn.
  exists R. split; [done|]. rewrite Hpp. rewrite schnorr_commitment. by rewrite dleq_commitment by done.
Qed.

(** Soundness of the partial check.  If the point answered is not the
    committed share times the ephemeral point, the proof can only be accepted
    for one value of the challenge, fixed by the nonce commitments that were
    hashed to obtain it. *)
Lemma invalid_partial_one_challenge (pp : PubPoly G) tag (reply : PetCheckReply F G) (R : G) (b x w : F) :
  decode_group_element (ephemeral_point tag) = Ok R -> R = generator ⊙ b ->
  PubPoly_eval pp (pub_i (pcr_partial reply)) = generator ⊙ x ->
  pub_v (pcr_partial reply) = generator ⊙ w -> w <> x * b ->
  verify_partial_pet_check pp tag reply = Ok tt ->
  exists u h, pcr_challenge reply = (u - b * h) / (x * b - w) /\
    check_challenge (pub_i (pcr_partial reply)) R (generator ⊙ x) (generator ⊙ w)
      (generator ⊙ u) (generator ⊙ h) = pcr_challenge reply.
Proof.
  intros HR Hb Hx Hw Hne (R' & HR' & Hc)%verify_partial_Ok. rewrite HR in HR'. apply Ok_inj in HR' as <-.
  rewrite Hx, Hw, Hb in *. set (c := pcr_challenge reply) in *. set (f := pcr_proof reply) in *.
  exists (b * f - w * c), (f - x * c). autorewrite with dlog in Hc.
  split; [by apply dleq_one_challenge|by rewrite Hc at 3].
Qed.

(** ** Combination *)

Lemma combine_pet_valid (shares : list (PubShare G)) (B : G) (cs : list F) t n :
  in_subgroup B = true -> (0 <= t <= Z.of_nat (length shares))%Z ->
  indices_ok n (take (Z.to_nat t) (pub_i <$> shares)) -> (length cs <= Z.to_nat t)%nat ->
  Forall (fun sh => pub_v sh = B ⊙ peval cs (from_u64 (pub_i sh))) shares ->
  combine_pet_check_shares shares t n = Ok (B ⊙ peval cs 0).
Proof.
  intros HB Ht Hidx Hcs Hv. unfold combine_pet_check_shares.
  rewrite (proj2 (Z.ltb_ge _ t)) by lia. cbn [reject res_bind].
  by apply combine_shares_valid.
Qed.

Lemma partial_pet_check_value fuel (x : F) id tag rng reply rng' (R : G) :
  decode_group_element (ephemeral_point tag) = Ok R ->
  partial_pet_check fuel x id tag rng = Ok (reply, rng') -> pcr_partial reply = MkPubShare id (R ⊙ x).
Proof.
  intros HR H. apply decode_group_element_Ok in HR as Hs. destruct Hs as (_ & _ & Hs).
  unfold partial_pet_check in H. rewrite HR in H. cbn [res_bind] in H.
  rewrite ct_mul_g1_sub, ct_mul_g1_generator in H by done. cbn [res_bind] in H.
  bind_ok H as [k rng1] Hk. rewrite ct_mul_g1_sub, ct_mul_g1_generator in H by done.
  cbn [res_bind] in H. bind_ok H as c Hc. bind_ok H as f Hf. apply Ok_inj in H.
  by injection H as <- _.
Qed.

(** A tag for [owner] under the PET key [s*G], with randomness [r]. *)
Definition tag_of (s r : F) (owner : bytes) : PetTag :=
  MkPetTag (g_serialize (generator (G:=G) ⊙ r))
    (g_serialize (generator (G:=G) ⊙ hash_to_scalar (FINGERPRINT_DOMAIN ++ owner) ⊕ generator ⊙ s ⊙ r)).

Lemma verify_pet_match_Ok tag (X Y T : G) :
  decode_group_element (masked_fingerprint tag) = Ok T -> in_subgroup X = true -> in_subgroup Y = true ->
  verify_pet_match tag X Y = Ok tt <-> Y ⊕ X = T.
Proof.
  intros HT HX HY. unfold verify_pet_match. rewrite HT. cbn [res_bind].
  apply decode_group_element_Ok in HT as (_ & _ & HT).
  rewrite reject_Ok, negb_false_iff, bool_decide_eq_true. split; [|by intros ->].
  apply g_serialize_inj; auto with orbis.
Qed.

(** C33: The threshold check decides equality of the owners' fingerprints.  For
    a tag made under the committee's PET key and partial checks of [t] or more
    members with distinct indices, the combination succeeds, and matching it
    against an audit target succeeds exactly when the target has the
    fingerprint of the tag's owner. *)
Theorem pet_check_decides (cs : list F) (r : F) owner target (T Y : G) t n
    (replies : list (PetCheckReply F G)) :
  let tag := tag_of (peval cs 0) r owner in
  r <> 0 -> decode_group_element (masked_fingerprint tag) = Ok T -> owner_fingerprint target = Ok Y ->
  Forall (fun reply => exists fuel id rng rng',
    partial_pet_check fuel (peval cs (from_u64 id)) id tag rng = Ok (reply, rng')) replies ->
  (0 <= t <= Z.of_nat (length replies))%Z -> (length cs <= Z.to_nat t)%nat ->
  indices_ok n (take (Z.to_nat t) (pub_i <$> (pcr_partial <$> replies))) ->
  exists X, combine_pet_check_shares (pcr_partial <$> replies) t n = Ok X /\
    (verify_pet_match tag X Y = Ok tt <-> owner_fingerprint (G:=G) owner = Ok Y).
Proof.
  intros tag Hr HT HY Hrep Ht Hcs Hidx. exists (generator ⊙ r ⊙ peval cs 0). split.
  - apply combine_pet_valid; [auto with orbis|by rewrite length_fmap|done|done|].
    apply Forall_fmap. eapply Forall_impl; [exact Hrep|]. intros reply (fuel & id & rng & rng' & H).
    eapply partial_pet_check_value in H; [|cbn; by apply decode_multiple].
    unfold compose. by rewrite H.
  - apply Ok_inj in HY as <-. rewrite verify_pet_match_Ok by eauto with orbis.
    apply decode_group_element_Ok in HT as (HT & _ & HTs). cbn [masked_fingerprint tag tag_of] in HT.
    apply g_serialize_inj in HT as ->; [|auto with orbis|auto with orbis].
    unfold owner_fingerprint. autorewrite with dlog. split.
    + intros E%generator_inj. do 2 f_equal. apply f_sub_zero.
      transitivity (hash_to_scalar (FINGERPRINT_DOMAIN ++ owner) + peval cs 0 * r
        - (hash_to_scalar (FINGERPRINT_DOMAIN ++ target) + r * peval cs 0)); [ring|]. rewrite E. ring.
    + intros E%Ok_inj%generator_inj. rewrite E. f_equal. ring.
Qed.

(** The combination never panics, and fails on too few or invalid shares. *)
Lemma combine_pet_outcomes (shares : list (PubShare G)) t n :
  (0 <= t)%Z ->
  no_panic (combine_pet_check_shares (F:=F) shares t n) /\
  ((Z.of_nat (length shares) < t)%Z \/ ~ indices_ok n (take (Z.to_nat t) (pub_i <$> shares)) ->
   forall X, combine_pet_check_shares (F:=F) shares t n <> Ok X).
Proof.
  intros H0. unfold combine_pet_check_shares.
  destruct (Z.ltb_spec (Z.of_nat (length shares)) t) as [Hl|Hl]; cbn [reject res_bind].
  - split; done.
  - split; [apply no_panic_combine_shares; lia|]. intros [?|Hi] X HX; [lia|].
    apply Hi. eapply combine_shares_indices; [|exact HX]. lia.
Qed.

(** ** Blinding *)

Lemma verify_blinding_Ok tag (Y : G) (reply : BlindingReply F G) digest :
  verify_blinding_correctness tag Y reply digest = Ok tt <->
  let c := br_challenge reply in
  let f := br_proof reply in
  let A := blinded_r reply in
  let B := blinded_diff reply in
  exists R T, decode_group_element (ephemeral_point tag) = Ok R /\
    decode_group_element (masked_fingerprint tag) = Ok T /\ g_is_zero A = false /\
    c = blind_challenge R (T ⊖ Y) A B (R ⊙ f ⊖ A ⊙ c) ((T ⊖ Y) ⊙ f ⊖ B ⊙ c) digest.
Proof.
  unfold verify_blinding_correctness. cbn zeta. split.
  - intros H. bind_ok H as R HR. bind_ok H as T HT. bind_ok H as ? Hz. bind_ok H as c Hc.
    apply reject_neq_scalar in H. apply Ok_inj in Hc. subst c. apply reject_Ok in Hz.
    by exists R, T.
  - intros (R & T & -> & -> & -> & Hc). cbn [res_bind reject blinding_proof_challenge].
    by apply reject_neq_scalar.
Qed.

(** A member's blinding contribution.  For a decodable tag, a target in the
    subgroup and a non-zero blinding scalar [z] the contribution is produced,
    blinds [R] and [T - Y] with the same [z], and is accepted for the same
    transcript. *)
Lemma blinding_complete fuel (z : F) tag (Y R T : G) digest rng :
  healthy fuel rng -> z <> 0 -> in_subgroup Y = true ->
  decode_group_element (ephemeral_point tag) = Ok R ->
  decode_group_element (masked_fingerprint tag) = Ok T ->
  exists reply rng', prove_blinding_correctness fuel z tag Y digest rng = Ok (reply, rng') /\
    blinded_r reply = R ⊙ z /\ blinded_diff reply = (T ⊖ Y) ⊙ z /\
    verify_blinding_correctness tag Y reply digest = Ok tt.
Proof.
  intros Hh Hz HY HR HT. apply decode_group_element_Ok in HR as HR'. destruct HR' as (_ & HR0 & HRs).
  apply decode_group_element_Ok in HT as HT'. destruct HT' as (_ & _ & HTs).
  assert (g_is_zero (R ⊙ z) = false) as HA.
  { apply in_subgroup_spec in HRs as [r ->]. rewrite g_is_zero_false, gen_zero_iff in HR0.
    rewrite generator_mul. apply gen_nonzero. by intros [?|?]%f_mul_zero. }
  unfold prove_blinding_correctness. rewrite HR, HT. cbn [res_bind].
  rewrite !ct_mul_g1_sub by auto with orbis. cbn [res_bind]. rewrite HA. cbn [reject res_bind].
  destruct (sample_nonzero_healthy (E:=CryptoError) fuel rng Hh) as (w & rng1 & -> & _ & _).
  cbn [res_bind]. rewrite !ct_mul_g1_sub by auto with orbis. cbn [res_bind blinding_proof_challenge].
  rewrite ct_scalar_mul_add_spec. cbn [res_bind]. eexists _, _. split; [done|].
  split; [done|]. split; [done|]. apply verify_blinding_Ok. cbn. exists R, T.
  split; [done|]. split; [done|]. split; [done|]. by rewrite !dleq_commitment by auto with orbis.
Qed.

(** Soundness of the blinding proof.  If the two blinded points are not the
    same multiple of [R] and [T - Y], the proof can only be accepted for one
    value of the challenge, fixed by the commitments hashed to obtain it. *)
Lemma invalid_blinding_one_challenge tag (Y R T : G) (reply : BlindingReply F G) digest (r d a b : F) :
  decode_group_element (ephemeral_point tag) = Ok R ->
  decode_group_element (masked_fingerprint tag) = Ok T ->
  R = generator ⊙ r -> T ⊖ Y = generator ⊙ d ->
  blinded_r reply = generator ⊙ a -> blinded_diff reply = generator ⊙ b -> a * d <> b * r ->
  verify_blinding_correctness tag Y reply digest = Ok tt ->
  exists u v, br_challenge reply = (r * v - d * u) / (a * d - b * r) /\
    blind_challenge R (T ⊖ Y) (blinded_r reply) (blinded_diff reply) (generator ⊙ u) (generator ⊙ v) digest
      = br_challenge reply.
Proof.
  intros HR HT Hr Hd Ha Hb Hne (R' & T' & HR' & HT' & _ & Hc)%verify_blinding_Ok.
  rewrite HR in HR'. apply Ok_inj in HR' as <-. rewrite HT in HT'. apply Ok_inj in HT' as <-.
  rewrite Hd, Ha, Hb, Hr in *. set (c := br_challenge reply) in *. set (f := br_proof reply) in *.
  exists (r * f - a * c), (d * f - b * c). autorewrite with dlog in Hc.
  split; [by apply dleq_one_challenge_bases|by rewrite Hc at 3].
Qed.

End Pet.

(** ** Instances *)

Module PetSample.

(** The PET key polynomial is [10 + 3x], the tag is alice's. *)
Definition cs : list ToyF := [toy_F 10; toy_F 3].
Definition alice : bytes := bstr "alice".
Definition r : ToyF := toy_F 4.
Definition R : ToyG1 := generator ⊙ r.
Definition fingerprint (owner : bytes) : ToyG1 :=
  generator ⊙ hash_to_scalar (FINGERPRINT_DOMAIN ++ owner).
Definition T : ToyG1 := fingerprint alice ⊕ generator ⊙ toy_F 10 ⊙ r.
Definition tag : PetTag := tag_of (G:=ToyG1) (peval cs fzero) r alice.
Definition pub_poly : PubPoly ToyG1 := MkPubPoly (commit_all cs).
Definition digest : bytes := sha256 alice.

Definition no_reply : PetCheckReply ToyF ToyG1 :=
  MkPetCheckReply (MkPubShare 0 g_zero) (toy_F 0) (toy_F 0).
Definition reply (i : Z) : PetCheckReply ToyF ToyG1 :=
  match partial_pet_check 1 (peval cs (from_u64 i)) i tag toy_rng with
  | Ok (reply, _) => reply
  | _ => no_reply
  end.

Lemma pet_reply_ok i :
  i = 1%Z \/ i = 3%Z ->
  exists rng', partial_pet_check 1 (peval cs (from_u64 i)) i tag toy_rng = Ok (reply i, rng').
Proof. intros [-> | ->]; eexists; vm_compute; reflexivity. Qed.

(** The envelope of the context samples with a decodable tag, and its proof. *)
Definition envelope : TagProofInput :=
  let i := ContextSample.tag_input in
  MkTagProofInput (ephemeral_point tag) (masked_fingerprint tag) (tpi_pet_pk i) (tpi_ring_id i)
    (tpi_context i) (tpi_secret i) (tpi_proof i).
Definition tag_proof : TagKnowledgeProof :=
  match prove_tag_knowledge (G:=ToyG1) 1 r tag (tpi_digest envelope) toy_rng with
  | Ok (proof, _) => proof
  | _ => MkTagKnowledgeProof [] []
  end.

End PetSample.

Import PetSample.

Lemma pet_check_decides_witness :
  exists X, combine_pet_check_shares (pcr_partial <$> [reply 3; reply 1]) 2 3 = Ok X /\
    (verify_pet_match tag X (fingerprint alice) = Ok tt <-> owner_fingerprint alice = Ok (fingerprint alice)).
Proof.
  apply (pet_check_decides cs r alice alice T (fingerprint alice) 2 3 [reply 3; reply 1]).
  - vm_compute. discriminate.
  - vm_compute. reflexivity.
  - reflexivity.
  - constructor; [|constructor; [|constructor]].
    + destruct (pet_reply_ok 3) as [rng' H]; [right; reflexivity|].
      exists 1%nat, 3, toy_rng, rng'. exact H.
    + destruct (pet_reply_ok 1) as [rng' H]; [left; reflexivity|].
      exists 1%nat, 1, toy_rng, rng'. exact H.
  - cbn. lia.
  - cbn. lia.
  - split; [repeat constructor; vm_compute; discriminate|].
    apply (bool_decide_unpack _). vm_compute. exact I.
Defined.

