(* ===== verification/SignDerivation.v ===== *)
(** * Derived signing keys

    The transcripts both signature backends hash: the derivation of a signing
    scalar from derivation bytes and optional metadata, and the encoding of a
    policy as metadata ([bls12_381/sign.rs] and [jubjub/sign.rs] differ in
    their domain separators only).  The transcripts are injective. *)
From S2P Require Import Prelude Algebra Primitives Context.

(** [(b.len() as u64).to_le_bytes()] followed by [b]. *)
Definition put_sized (out : bytes) (b : bytes) : bytes :=
  out ++ to_le_bytes 8 (Z.of_nat (length b)) ++ b.

(** The bytes [derive_sign_scalar] hashes. *)
Definition derivation_transcript (domain derivation : bytes) (metadata : option bytes) : bytes :=
  let t := put_sized domain derivation in
  match metadata with
  | None => t ++ [Byte.x00]
  | Some meta => put_sized (t ++ [Byte.x01]) meta
  end.

(** The bytes [encode_metadata] hashes. *)
Definition metadata_message (domain policy_id resource permission : bytes) : bytes :=
  put_sized (put_sized (put_sized domain policy_id) resource) permission.

(** The memory of the machine bounds every buffer. *)
Definition sized (b : bytes) : Prop := Z.of_nat (length b) < 2 ^ 64.

#[global] Instance put_sized_code : PrefixCode sized put_sized.
Proof.
  split; [done|]. intros a b x y Ha Hb H. unfold put_sized in H. cbn [app] in H.
  rewrite <- !app_assoc in H. apply app_inj_length in H as [E H]; [|by rewrite !length_to_le_bytes].
  apply to_le_bytes_inj in E; [|unfold sized in *; lia..].
  apply app_inj_length in H; [done|lia].
Qed.

Lemma derivation_transcript_inj domain d1 d2 m1 m2 :
  sized d1 -> sized d2 -> on_some sized m1 -> on_some sized m2 ->
  derivation_transcript domain d1 m1 = derivation_transcript domain d2 m2 -> d1 = d2 /\ m1 = m2.
Proof.
  intros Hd1 Hd2 Hm1 Hm2 H.
  assert (forall d m, derivation_transcript domain d m =
    domain ++ put_sized [] d ++ put_opt put_sized [] m) as E.
  { intros d [m|]; unfold derivation_transcript, put_opt, put_sized; cbn [app];
      by rewrite <- !app_assoc. }
  rewrite !E in H. apply app_inv_head in H. apply put_inj in H as [-> H]; [|done|done].
  split; [done|].
  destruct (put_inj (PrefixCode := put_opt_code sized put_sized put_sized_code) m1 m2 [] []) as [-> _];
    [done|done|by rewrite !app_nil_r|done].
Qed.

Lemma metadata_message_inj domain p1 p2 r1 r2 q1 q2 :
  sized p1 -> sized p2 -> sized r1 -> sized r2 -> sized q1 -> sized q2 ->
  metadata_message domain p1 r1 q1 = metadata_message domain p2 r2 q2 -> p1 = p2 /\ r1 = r2 /\ q1 = q2.
Proof.
  intros ? ? ? ? ? ? H.
  assert (forall p r q, metadata_message domain p r q =
    domain ++ put_sized [] p ++ put_sized [] r ++ put_sized [] q ++ []) as E.
  { intros p r q. unfold metadata_message, put_sized. cbn [app]. by rewrite app_nil_r, <- !app_assoc. }
  rewrite !E in H. apply app_inv_head in H.
  apply put_inj in H as [-> H]; [|done|done]. apply put_inj in H as [-> H]; [|done|done].
  by apply put_inj in H as [-> _].
Qed.
