(* ===== verification/Pairing.v ===== *)
(** * Interfaces of the signature schemes

    What [bls12_381/sign.rs] takes from [ark_ec]: a bilinear, non-degenerate
    map from G1 and G2 with an injective encoding of its values, and the
    hash-to-curve suite, whose outputs lie in the prime-order subgroup.  What
    [jubjub/sign.rs] relies on: the point type of [jubjub] only has points of
    the prime-order subgroup. *)
From S2P Require Import Prelude Algebra Primitives Toy.
From Stdlib Require Import Zmod.

Class Pairing (F G1 G2 GT : Type) {SF : ScalarField F} {CG1 : CurveGroup F G1} {CG2 : CurveGroup F G2} := {
  pairing : G1 -> G2 -> GT;
  gt_serialize : GT -> bytes;
  gt_serialize_inj x y : gt_serialize x = gt_serialize y -> x = y;
  pairing_bilinear (a b : F) :
    pairing (generator ⊙ a) (generator ⊙ b) = pairing generator (generator ⊙ fmul a b);
  pairing_nondegenerate (a b : F) :
    pairing generator (generator ⊙ a) = pairing generator (generator ⊙ b) -> a = b;
}.

Class HashToCurve (F G2 : Type) {SF : ScalarField F} {CG2 : CurveGroup F G2} := {
  (* [MapToCurveBasedHasher::new(dst)?.hash(msg)?] *)
  hash_to_curve : forall (dst msg : bytes), option G2;
  hash_to_curve_subgroup dst msg Q : hash_to_curve dst msg = Some Q -> in_subgroup Q = true;
}.

(** Every value of the point type is in the subgroup. *)
Class PrimeOrder (F G : Type) `{CurveGroup F G} : Prop := all_in_subgroup (P : G) : in_subgroup P = true.

(** ** Instances *)

Definition toy_pairing (P : ToyG1) (Q : ToyG2) : ToyF := Zmod.mul (pt_x P) (pt_x Q).

#[global] Instance toy_pairing_ok : Pairing ToyF ToyG1 ToyG2 ToyF.
Proof.
  refine {| pairing := toy_pairing; gt_serialize := fr_serialize |}.
  - intros x y. apply fr_serialize_inj.
  - intros a b. change (toy_pairing (toy_mul toy_gen a) (toy_mul toy_gen b) =
      toy_pairing toy_gen (toy_mul toy_gen (Zmod.mul a b))).
    rewrite !toy_gen_mul. unfold toy_pairing, toy_gen. cbn [pt_x]. by rewrite toy_one_mul.
  - intros a b. change (toy_pairing toy_gen (toy_mul toy_gen a) =
      toy_pairing toy_gen (toy_mul toy_gen b) -> a = b).
    rewrite !toy_gen_mul. unfold toy_pairing, toy_gen. cbn [pt_x]. by rewrite !toy_one_mul.
Defined.

#[global] Instance toy_hash_to_curve : HashToCurve ToyF ToyG2.
Proof.
  refine {| hash_to_curve := fun dst msg =>
    Some (MkPt (Zmod.of_Z toy_p (from_le_bytes (toy_hash 16 (dst ++ msg)))) false) |}.
  by intros dst msg Q [= <-].
Defined.

(** A group without cofactor. *)
Record ToyE := MkE { e_x : ToyF }.

#[global] Instance ToyE_eq_dec : EqDecision ToyE.
Proof. solve_decision. Defined.

Lemma toy_e_mul x : MkE (Zmod.mul (e_x (MkE Zmod.one)) x) = MkE x.
Proof. cbn [e_x]. by rewrite toy_one_mul. Qed.

#[global] Instance toy_e_group : CurveGroup ToyF ToyE.
Proof.
  refine {|
    g_zero := MkE Zmod.zero;
    g_add := fun P Q => MkE (Zmod.add (e_x P) (e_x Q));
    g_sub := fun P Q => MkE (Zmod.sub (e_x P) (e_x Q));
    g_mul := fun P x => MkE (Zmod.mul (e_x P) x);
    generator := MkE Zmod.one;
    in_subgroup := fun _ => true;
    g_size := 32;
    g_serialize := fun P => toy_fr_serialize (e_x P);
    g_deserialize := fun b => MkE <$> toy_fr_deserialize b |}.
  - intros [x]. split; [|done]. intros _. exists x. by rewrite toy_e_mul.
  - intros x y. rewrite !toy_e_mul. by intros [= ->].
  - by rewrite toy_e_mul.
  - by rewrite toy_e_mul.
  - intros x y. by rewrite !toy_e_mul.
  - intros x y. by rewrite !toy_e_mul.
  - intros x y. by rewrite !toy_e_mul.
  - intros P. apply length_to_le_bytes.
  - intros [x] _. by rewrite toy_fr_deserialize_serialize.
  - done.
Defined.

#[global] Instance toy_e_prime : PrimeOrder ToyF ToyE.
Proof. by intros P. Qed.
