(* ===== verification/Bls.v ===== *)
(** * Threshold BLS signatures

    [crates/crypto/src/bls12_381/sign.rs]: keys in G1, signatures in G2, the
    public key hashed with the message, and derived keys. *)
From S2P Require Import Prelude Algebra Interpolation Primitives Pairing Codec Common Context Shares SignDerivation.

Definition BLS_SIG_DOMAIN : bytes := bstr "BLS_SIG_BLS12381G2_XMD:SHA-256_SSWU_RO_AUG_".
Definition SIGN_DERIVATION_DOMAIN : bytes := bstr "sign-derivation-v1".
Definition SIGN_METADATA_DOMAIN : bytes := bstr "orbis-sign-metadata-v1".

Section Bls.
Context {F G1 G2 GT S P : Type} {SF : ScalarField F} {CG1 : CurveGroup F G1} {CG2 : CurveGroup F G2}
  {BL2 : Blst F G2 S P} {PA : Pairing F G1 G2 GT} {HC : HashToCurve F G2} {SHA : Sha2}.
Local Open Scope fr_scope.

Definition hash_to_g2 (pk : G1) (msg : bytes) : result (G2Point G2) :=
  reject (g_is_zero pk) InvalidSignature ;?
  let augmented_message := g_serialize pk ++ msg in
  let? point := ok_or (hash_to_curve BLS_SIG_DOMAIN augmented_message) InvalidSignature in
  reject (g_is_zero point) InvalidSignature ;?
  Ok (MkG2Point point).

Definition derive_sign_scalar (derivation : bytes) (metadata : option bytes) : F :=
  hash_to_scalar (derivation_transcript SIGN_DERIVATION_DOMAIN derivation metadata).

Definition encode_metadata (policy_id resource permission : bytes) : bytes :=
  sha256 (metadata_message SIGN_METADATA_DOMAIN policy_id resource permission).

Definition derive_public_key (dkg_pk : G1) (derivation : bytes) (metadata : option bytes) : result G1 :=
  let d := derive_sign_scalar derivation metadata in
  reject (f_is_zero d) (SigningError "Zero derivation scalar") ;?
  Ok (dkg_pk ⊙ d).

Definition hash_message (pk : G1) (msg : bytes) : result (G2Point G2) := hash_to_g2 pk msg.

Definition generate_nonces (dist_key_share : DistKeyShare F) : result (unit * unit) := Ok (tt, tt).

Definition sign (dist_key_share : DistKeyShare F) (msg : bytes) (pub_poly : PubPoly G1)
    (derivation metadata : option bytes) : result (PubShare (G2Point G2)) :=
  let idx := pri_i (pri_share dist_key_share) in
  let ski := pri_v (pri_share dist_key_share) in
  reject (idx =? 0)%Z InvalidSignatureShare ;?
  let aggregate_pk := PubPoly_eval pub_poly 0 in
  let? '(ski_eff, effective_pk) :=
    match derivation with
    | Some deriv =>
        let d := derive_sign_scalar deriv metadata in
        reject (f_is_zero d) (SigningError "Zero derivation scalar") ;?
        Ok (ski * d, aggregate_pk ⊙ d)
    | None => Ok (ski, aggregate_pk)
    end in
  reject (g_is_zero effective_pk) InvalidSignature ;?
  let? h_msg := hash_to_g2 effective_pk msg in
  let? sig_share := ct_mul_g2 (g2_inner h_msg) ski_eff in
  Ok (MkPubShare idx (MkG2Point sig_share)).

(** The comparison of two pairing values. *)
Definition check_pairing (e : CryptoError) (lhs rhs : GT) : result unit :=
  reject (negb (bool_decide (gt_serialize lhs = gt_serialize rhs))) e.

Definition verify_share (msg : bytes) (pub_poly : PubPoly G1) (sig_share : PubShare (G2Point G2))
    (derivation metadata : option bytes) : result unit :=
  let pk_share_base := PubPoly_eval pub_poly (pub_i sig_share) in
  let aggregate_pk := PubPoly_eval pub_poly 0 in
  let '(pk_share, effective_pk) :=
    match derivation with
    | Some deriv =>
        let d := derive_sign_scalar deriv metadata in (pk_share_base ⊙ d, aggregate_pk ⊙ d)
    | None => (pk_share_base, aggregate_pk)
    end in
  reject (g_is_zero pk_share || g_is_zero effective_pk) InvalidSignatureShare ;?
  reject (g_is_zero (g2_inner (pub_v sig_share))) InvalidSignatureShare ;?
  let? h_msg := hash_to_g2 effective_pk msg in
  check_pairing InvalidSignatureShare (pairing pk_share (g2_inner h_msg))
    (pairing generator (g2_inner (pub_v sig_share))).

Definition recover_signature (shares : list (PubShare (G2Point G2))) (t n : Z)
    : result (option (G2Point G2)) :=
  let? r := combine_shares InvalidSignatureShare InvalidSignatureShare InvalidSignatureShare
    g2_inner shares t n in
  Ok (Some (MkG2Point r)).

Definition recover (shares : list (PubShare (G2Point G2))) (t n : Z) : result (option (G2Point G2)) :=
  reject (t =? 0)%Z InvalidSignature ;?
  reject (n <? t)%Z InvalidSignature ;?
  if (Z.of_nat (length shares) <? t)%Z then Ok None else recover_signature shares t n.

Definition verify (pk : G1) (msg : bytes) (sig : G2Point G2) : result unit :=
  reject (g_is_zero pk) InvalidSignature ;?
  reject (g_is_zero (g2_inner sig)) InvalidSignature ;?
  let? h_msg := hash_to_g2 pk msg in
  check_pairing InvalidSignature (pairing pk (g2_inner h_msg)) (pairing generator (g2_inner sig)).

End Bls.
