(* ===== verification/BlsTheorems.v ===== *)
(** * Theorems on threshold BLS signatures

    What the share check accepts, that verified shares combine to the one
    signature of the effective key, and what a derived key is bound to. *)
From S2P Require Import Prelude Algebra Interpolation Primitives Toy Pairing Codec Common Context Shares.
From S2P Require Import SignDerivation DkgSpec Feldman Bls.

Section Bls.
Context {F G1 G2 GT S P : Type} {SF : ScalarField F} {CG1 : CurveGroup F G1} {CG2 : CurveGroup F G2}
  {BL2 : Blst F G2 S P} {PA : Pairing F G1 G2 GT} {HC : HashToCurve F G2} {SHA : Sha2}.
Local Open Scope fr_scope.
Add Field FField : (f_theory (F:=F)).

(** ** Lemmas *)

Lemma pairing_eq (x : F) (H Q : G2) :
  in_subgroup H = true -> in_subgroup Q = true ->
  pairing (generator (G:=G1) ⊙ x) H = pairing generator Q <-> Q = H ⊙ x.
Proof.
  intros [h ->]%in_subgroup_spec [q ->]%in_subgroup_spec.
  rewrite pairing_bilinear, generator_mul. split.
  - intros E%pairing_nondegenerate. rewrite <- E. f_equal. ring.
  - intros ->%generator_inj. do 2 f_equal. ring.
Qed.

Lemma check_pairing_Ok e (x y : GT) : check_pairing e x y = Ok tt <-> x = y.
Proof.
  unfold check_pairing. rewrite reject_Ok, negb_false_iff, bool_decide_eq_true.
  split; [apply gt_serialize_inj|by intros ->].
Qed.

Lemma hash_to_g2_Ok (pk : G1) msg h :
  hash_to_g2 pk msg = Ok h -> in_subgroup (g2_inner h) = true /\ g2_inner h <> g_zero.
Proof.
  intros H. unfold hash_to_g2 in H. bind_ok H as ? _. bind_ok H as point Hp. bind_ok H as ? Hz.
  apply Ok_inj in H as <-. apply ok_or_Ok, hash_to_curve_subgroup in Hp.
  apply reject_Ok, g_is_zero_false in Hz. done.
Qed.

(** A non-zero multiple of a non-identity point is not the identity. *)
Lemma mul_nonzero (Q : G2) (x : F) :
  in_subgroup Q = true -> Q <> g_zero -> x <> 0 -> g_is_zero (Q ⊙ x) = false.
Proof.
  intros [q ->]%in_subgroup_spec HQ Hx. rewrite gen_zero_iff in HQ. rewrite generator_mul.
  apply g_is_zero_false. rewrite gen_zero_iff. by intros [?|?]%f_mul_zero.
Qed.

Lemma mul_mul (Q : G2) (x y : F) : in_subgroup Q = true -> Q ⊙ x ⊙ y = Q ⊙ (y * x).
Proof. intros HQ. dlog. f_equal. ring. Qed.

(** The scalar a derivation multiplies keys and shares with. *)
Definition sign_factor (derivation metadata : option bytes) : F :=
  match derivation with Some d => derive_sign_scalar d metadata | None => 1 end.

(** The key a signature is checked with. *)
Definition signing_key (cs : list F) (derivation metadata : option bytes) : G1 :=
  generator ⊙ (peval cs 0 * sign_factor derivation metadata).

Definition key_poly (cs : list F) : PubPoly G1 := MkPubPoly (commit_all cs).

Lemma commit_eval (cs : list F) i :
  PubPoly_eval (key_poly cs) i = generator (G:=G1) ⊙ peval cs (from_u64 i).
Proof. unfold PubPoly_eval, key_poly. cbn. apply eval_points_commit. Qed.

Lemma commit_eval_zero (cs : list F) :
  PubPoly_eval (key_poly cs) 0 = generator (G:=G1) ⊙ peval cs 0.
Proof. by rewrite commit_eval, from_u64_zero. Qed.

Lemma bls_verify_share_Ok msg cs share derivation metadata :
  in_subgroup (g2_inner (pub_v share)) = true ->
  let x := peval cs (from_u64 (pub_i share)) * sign_factor derivation metadata in
  verify_share msg (key_poly cs) share derivation metadata = Ok tt <->
  x <> 0 /\ exists h, hash_to_g2 (signing_key cs derivation metadata) msg = Ok h /\
    g2_inner (pub_v share) = g2_inner h ⊙ x.
Proof.
  intros Hs x. unfold verify_share. rewrite commit_eval_zero, commit_eval.
  replace (match derivation with Some d => _ | None => _ end) with
    (generator (G:=G1) ⊙ x, signing_key cs derivation metadata).
  2: { subst x. unfold signing_key, sign_factor. destruct derivation; [by rewrite !generator_mul|].
       f_equal; f_equal; ring. }
  split.
  - intros H. bind_ok H as ? Hz. apply reject_Ok, orb_false_iff in Hz as [Hx _].
    rewrite g_is_zero_false, gen_zero_iff in Hx. bind_ok H as ? _. bind_ok H as h Hh.
    destruct (hash_to_g2_Ok _ _ _ Hh) as [Hsub _]. apply check_pairing_Ok, pairing_eq in H; [|done..].
    split; [done|]. by exists h.
  - intros (Hx & h & Hh & Hv). destruct (hash_to_g2_Ok _ _ _ Hh) as [Hsub Hnz].
    assert (g_is_zero (signing_key cs derivation metadata) = false) as ->.
    { unfold hash_to_g2 in Hh. bind_ok Hh as ? Hz. by apply reject_Ok in Hz. }
    rewrite (proj2 (g_is_zero_false _)) by (by rewrite gen_zero_iff). cbn [orb reject res_bind].
    rewrite Hv, mul_nonzero by done. cbn [reject res_bind]. rewrite Hh. cbn [res_bind].
    apply check_pairing_Ok, pairing_eq; auto with orbis.
Qed.

Lemma bls_verify_Ok (x : F) msg sig :
  in_subgroup (g2_inner sig) = true ->
  verify (generator (G:=G1) ⊙ x) msg sig = Ok tt <->
  x <> 0 /\ exists h, hash_to_g2 (generator (G:=G1) ⊙ x) msg = Ok h /\ g2_inner sig = g2_inner h ⊙ x.
Proof.
  intros Hs. unfold verify. split.
  - intros H. bind_ok H as ? Hx. apply reject_Ok in Hx. rewrite g_is_zero_false, gen_zero_iff in Hx.
    bind_ok H as ? _. bind_ok H as h Hh. destruct (hash_to_g2_Ok _ _ _ Hh) as [Hsub _].
    apply check_pairing_Ok, pairing_eq in H; [|done..]. split; [done|]. by exists h.
  - intros (Hx & h & Hh & Hv). destruct (hash_to_g2_Ok _ _ _ Hh) as [Hsub Hnz].
    rewrite (proj2 (g_is_zero_false _)) by (by rewrite gen_zero_iff). cbn [reject res_bind].
    rewrite Hv, mul_nonzero by done. cbn [reject res_bind]. rewrite Hh. cbn [res_bind].
    apply check_pairing_Ok, pairing_eq; auto with orbis.
Qed.

(** ** Shares *)

(** A node's signature share.  When a node whose share lies on the key
    polynomial signs, the point is the hash of the message under the effective
    key times the derived share, and the share check accepts it unless that
    derived share is zero. *)
Lemma bls_sign_share cs ks msg derivation metadata share :
  pri_v (pri_share ks) = peval cs (from_u64 (pri_i (pri_share ks))) ->
  sign ks msg (key_poly cs) derivation metadata = Ok share ->
  let x := pri_v (pri_share ks) * sign_factor derivation metadata in
  pub_i share = pri_i (pri_share ks) /\
  (exists h, hash_to_g2 (signing_key cs derivation metadata) msg = Ok h /\
    g2_inner (pub_v share) = g2_inner h ⊙ x) /\
  (x <> 0 -> verify_share msg (key_poly cs) share derivation metadata = Ok tt).
Proof.
  intros Hks H x. unfold sign in H. bind_ok H as ? _. bind_ok H as [xe epk] He.
  assert (xe = x /\ epk = signing_key cs derivation metadata) as [-> ->].
  { rewrite commit_eval_zero in He. unfold signing_key. subst x. unfold sign_factor.
    destruct derivation; inv_ok; split; rewrite ?generator_mul; try done; try ring. f_equal; ring. }
  bind_ok H as ? _. bind_ok H as h Hh. destruct (hash_to_g2_Ok _ _ _ Hh) as [Hsub _].
  rewrite ct_mul_g2_sub in H by done. cbn [res_bind] in H. apply Ok_inj in H as <-. cbn.
  split; [done|]. split; [by exists h|]. intros Hx. apply bls_verify_share_Ok; [cbn; auto with orbis|].
  cbn. rewrite <- Hks. split; [done|]. by exists h.
Qed.

Lemma bls_recover_complete cs msg shares derivation metadata t n :
  Forall (fun share => in_subgroup (g2_inner (pub_v share)) = true /\
    verify_share msg (key_poly cs) share derivation metadata = Ok tt) shares ->
  (1 <= t <= n)%Z -> (t <= Z.of_nat (length shares))%Z -> (length cs <= Z.to_nat t)%nat ->
  indices_ok n (take (Z.to_nat t) (pub_i <$> shares)) ->
  exists sig, recover shares t n = Ok (Some sig) /\
    verify (signing_key cs derivation metadata) msg sig = Ok tt /\
    forall sig', in_subgroup (g2_inner sig') = true ->
      verify (signing_key cs derivation metadata) msg sig' = Ok tt -> sig' = sig.
Proof.
  intros Hv Ht Hlen Hcs Hidx. set (d := sign_factor derivation metadata).
  assert (exists h, hash_to_g2 (signing_key cs derivation metadata) msg = Ok h) as [h Hh].
  { destruct shares as [|sh shares]; [cbn in Hlen; lia|]. apply Forall_cons in Hv as [[Hs Hv] _].
    apply bls_verify_share_Ok in Hv as (_ & h & Hh & _); [|done]. by exists h. }
  destruct (hash_to_g2_Ok _ _ _ Hh) as [Hsub Hnz].
  assert (peval cs 0 * d <> 0) as Hx.
  { unfold hash_to_g2 in Hh. bind_ok Hh as ? Hz. apply reject_Ok, g_is_zero_false in Hz.
    unfold signing_key in Hz. by rewrite gen_zero_iff in Hz. }
  assert (Forall (fun sh => g2_inner (pub_v sh) = g2_inner h ⊙ d ⊙ peval cs (from_u64 (pub_i sh))) shares) as Hp.
  { eapply Forall_impl; [exact Hv|]. intros sh [Hs Hsh]. apply bls_verify_share_Ok in Hsh as (_ & h' & Hh' & E); [|done].
    rewrite Hh in Hh'. apply Ok_inj in Hh' as <-. rewrite E. fold d. by rewrite mul_mul. }
  exists (MkG2Point (g2_inner h ⊙ (peval cs 0 * d))). split; [|split].
  - unfold recover. rewrite (proj2 (Z.eqb_neq t 0)), (proj2 (Z.ltb_ge n t)), (proj2 (Z.ltb_ge _ t)) by lia.
    cbn [reject res_bind]. unfold recover_signature.
    rewrite (combine_shares_valid _ _ _ _ _ (g2_inner h ⊙ d) cs); [|auto with orbis|lia|done..].
    cbn [res_bind]. by rewrite mul_mul.
  - apply bls_verify_Ok; [cbn; auto with orbis|]. split; [done|]. by exists h.
  - intros [Q] Hs (_ & h' & Hh' & E)%bls_verify_Ok; [|done]. cbn in E. unfold signing_key in Hh.
    rewrite Hh in Hh'. apply Ok_inj in Hh' as <-. by rewrite E.
Qed.

(** C31: Robust recovery.  Whoever produced them, [t] or more shares that pass
    the share check and have distinct indices in range combine to a signature
    that verifies under the effective key, and no other point does. *)
Theorem bls_recover_verified cs msg shares derivation metadata t n :
  Forall (fun share => in_subgroup (g2_inner (pub_v share)) = true /\
    verify_share msg (key_poly cs) share derivation metadata = Ok tt) shares ->
  (1 <= t <= n)%Z -> (t <= Z.of_nat (length shares))%Z -> (length cs <= Z.to_nat t)%nat ->
  indices_ok n (take (Z.to_nat t) (pub_i <$> shares)) ->
  exists sig, recover shares t n = Ok (Some sig) /\
    verify (signing_key cs derivation metadata) msg sig = Ok tt /\
    forall sig', in_subgroup (g2_inner sig') = true ->
      verify (signing_key cs derivation metadata) msg sig' = Ok tt -> sig' = sig.
Proof. apply bls_recover_complete. Qed.

(** ** Derived keys *)

(** A derived signing key is bound to its derivation bytes and its policy.
    If two derivations under encoded policies give the same signing scalar,
    they and the policies are the same, or two particular messages collide,
    under SHA-256 or as scalars. *)
Lemma sign_derivation_binds d1 d2 p1 p2 r1 r2 q1 q2 :
  Forall sized [d1; d2; p1; p2; r1; r2; q1; q2] ->
  derive_sign_scalar (F:=F) d1 (Some (encode_metadata p1 r1 q1)) =
    derive_sign_scalar d2 (Some (encode_metadata p2 r2 q2)) ->
  (d1 = d2 /\ p1 = p2 /\ r1 = r2 /\ q1 = q2) \/
  collision sha256 (metadata_message SIGN_METADATA_DOMAIN p1 r1 q1)
                   (metadata_message SIGN_METADATA_DOMAIN p2 r2 q2) \/
  let t d p r q := derivation_transcript SIGN_DERIVATION_DOMAIN d (Some (encode_metadata p r q)) in
  t d1 p1 r1 q1 <> t d2 p2 r2 q2 /\
    hash_to_scalar (F:=F) (t d1 p1 r1 q1) = hash_to_scalar (t d2 p2 r2 q2).
Proof.
  intros Hs H. rewrite !Forall_cons in Hs. destruct Hs as (? & ? & ? & ? & ? & ? & ? & ? & _).
  assert (forall m, sized (sha256 m)) as Hm by (intros m; unfold sized; by rewrite sha256_length).
  set (t d p r q := derivation_transcript SIGN_DERIVATION_DOMAIN d (Some (encode_metadata p r q))).
  destruct (decide (t d1 p1 r1 q1 = t d2 p2 r2 q2)) as [E|E]; [|right; right; done].
  apply derivation_transcript_inj in E as [-> E]; [|done|done|apply Hm|apply Hm].
  injection E as E. apply (same_or_collision sha256) in E as [E|E]; [|by auto].
  apply metadata_message_inj in E as (-> & -> & ->); try done. by left.
Qed.

End Bls.

(** ** Instances *)

Module BlsSample.

(** The key polynomial is [10 + 3x]; the message is signed under a derived key. *)
Definition cs : list ToyF := [toy_F 10; toy_F 3].
Definition msg : bytes := bstr "pay bob".
Definition derivation : option bytes := Some (bstr "account-7").
Definition metadata : option bytes :=
  Some (encode_metadata (bstr "policy") (bstr "resource") (bstr "sign")).
Definition pp : PubPoly ToyG1 := key_poly cs.
Definition key_share (i : Z) : DistKeyShare ToyF := MkDistKeyShare (MkPriShare i (peval cs (from_u64 i))).
Definition share (i : Z) : PubShare (G2Point ToyG2) :=
  match sign (G1:=ToyG1) (G2:=ToyG2) (key_share i) msg pp derivation metadata with
  | Ok sh => sh
  | _ => MkPubShare 0 (MkG2Point g_zero)
  end.

Lemma bls_share_ok i :
  i = 1%Z \/ i = 3%Z ->
  in_subgroup (g2_inner (pub_v (share i))) = true /\
  verify_share (GT:=ToyF) msg pp (share i) derivation metadata = Ok tt.
Proof. intros [-> | ->]; split; vm_compute; reflexivity. Qed.

End BlsSample.

Import BlsSample.

Lemma bls_recover_verified_witness :
  exists sig, recover [share 3; share 1] 2 3 = Ok (Some sig) /\
    verify (GT:=ToyF) (signing_key (G1:=ToyG1) cs derivation metadata) msg sig = Ok tt.
Proof.
  destruct (bls_recover_verified (GT:=ToyF) cs msg [share 3; share 1] derivation metadata 2 3)
    as (sig & Hr & Hv & _).
  - constructor; [|constructor; [|constructor]].
    + apply bls_share_ok. right. reflexivity.
    + apply bls_share_ok. left. reflexivity.
  - lia.
  - cbn. lia.
  - cbn. lia.
  - split; [repeat constructor; vm_compute; discriminate|].
    apply (bool_decide_unpack _). vm_compute. exact I.
  - exists sig. split; [exact Hr|exact Hv].
Defined.

