(* ===== verification/Frost.v ===== *)
(** * FROST signatures over Jubjub

    [crates/crypto/src/jubjub/sign.rs] with the encodings of scalars and
    points of [jubjub/types.rs].  A Jubjub [Element] is a point of the
    prime-order subgroup by construction: the theorems take this as the class
    [PrimeOrder]. *)
From S2P Require Import Prelude Algebra Interpolation Primitives Codec Common Context SignDerivation.

Definition SIGN_DERIVATION_DOMAIN : bytes := bstr "sign-jubjub-derivation-v1".
Definition SIGN_METADATA_DOMAIN : bytes := bstr "orbis-sign-jubjub-metadata-v1".
Definition FROST_HIDING_NONCE_DOMAIN : bytes := bstr "orbis-frost-jubjub-hiding-nonce-v1".
Definition FROST_BINDING_NONCE_DOMAIN : bytes := bstr "orbis-frost-jubjub-binding-nonce-v1".
Definition FROST_BINDING_DOMAIN : bytes := bstr "FROST-jubjub-binding".
Definition FROST_CHALLENGE_DOMAIN : bytes := bstr "FROST-jubjub-challenge".

(** ** Data *)

Record SchnorrSignature (F G : Type) := MkSchnorrSignature { r_point : G; z : F }.
Arguments MkSchnorrSignature {F G}. Arguments r_point {F G}. Arguments z {F G}.

Record FrostNonceCommitment (G : Type) := MkFrostNonceCommitment { hiding : G; binding : G }.
Arguments MkFrostNonceCommitment {G}. Arguments hiding {G}. Arguments binding {G}.

Record FrostSigningState (F : Type) := MkFrostSigningState {
  hiding_nonce : F;
  binding_nonce : F;
  participant_index : Z;
}.
Arguments MkFrostSigningState {F}. Arguments hiding_nonce {F}. Arguments binding_nonce {F}.
Arguments participant_index {F}.

(** A participant's entry in the commitment list. *)
Abbreviation entry G := (Z * FrostNonceCommitment G)%type.

Definition by_id {A} (a b : Z * A) : Prop := a.1 <= b.1.
#[global] Instance by_id_dec {A} : RelDecision (@by_id A).
Proof. intros a b. unfold by_id. apply _. Defined.

(** [canonical.sort_by_key(|(id, _)| *id)]. *)
Definition sort_by_id {A} (l : list (Z * A)) : list (Z * A) := merge_sort by_id l.

(** Some neighbours are equal. *)
Fixpoint has_adjacent (ids : list Z) : bool :=
  match ids with
  | x :: ((y :: _) as ids') => (y =? x) || has_adjacent ids'
  | _ => false
  end.

(** [iter().find(|(id, _)| *id == idx).map(|(_, a)| a)]. *)
Fixpoint find_id {A} (idx : Z) (l : list (Z * A)) : option A :=
  match l with
  | [] => None
  | (id, a) :: l' => if id =? idx then Some a else find_id idx l'
  end.

Section Frost.
Context {F G : Type} {SF : ScalarField F} {CG : CurveGroup F G} {SHA : Sha2}.
Local Open Scope fr_scope.

(** ** Encodings *)

Definition scalar_from_bytes (b : bytes) : result F :=
  reject (negb (length b =? fr_size (F:=F))%nat)
    (ParseError "Jubjub scalar encoding must contain exactly 32 bytes") ;?
  ok_or (fr_deserialize b) (ParseError "Non-canonical Jubjub scalar encoding").

Definition element_from_bytes (b : bytes) : result G :=
  reject (negb (length b =? g_size (G:=G))%nat)
    (ParseError "Jubjub point encoding must contain exactly 32 bytes") ;?
  ok_or (g_deserialize b) (ParseError "Invalid prime-order Jubjub point encoding").

Definition SchnorrSignature_to_bytes (s : SchnorrSignature F G) : result bytes :=
  Ok (g_serialize (r_point s) ++ fr_serialize (z s)).

Definition SchnorrSignature_from_bytes (b : bytes) : result (SchnorrSignature F G) :=
  let expected := (g_size (G:=G) + fr_size (F:=F))%nat in
  reject (negb (length b =? expected)%nat) InvalidSignature ;?
  let? point_bytes := slice b 0 (g_size (G:=G)) in
  let? r := element_from_bytes point_bytes in
  let? scalar_bytes := slice b (g_size (G:=G)) expected in
  let? s := scalar_from_bytes scalar_bytes in
  Ok (MkSchnorrSignature r s).

Definition FrostNonceCommitment_to_bytes (c : FrostNonceCommitment G) : result bytes :=
  Ok (g_serialize (hiding c) ++ g_serialize (binding c)).

Definition FrostNonceCommitment_from_bytes (b : bytes) : result (FrostNonceCommitment G) :=
  let expected := (2 * g_size (G:=G))%nat in
  reject (negb (length b =? expected)%nat) InvalidSignatureShare ;?
  let? hiding_bytes := slice b 0 (g_size (G:=G)) in
  let? h := element_from_bytes hiding_bytes in
  let? binding_bytes := slice b (g_size (G:=G)) expected in
  let? e := element_from_bytes binding_bytes in
  Ok (MkFrostNonceCommitment h e).

Definition FrostSigningState_to_bytes (s : FrostSigningState F) : result bytes :=
  Ok (to_le_bytes 4 (participant_index s) ++ fr_serialize (hiding_nonce s) ++ fr_serialize (binding_nonce s)).

Definition FrostSigningState_from_bytes (b : bytes) : result (FrostSigningState F) :=
  let expected := (4 + 2 * fr_size (F:=F))%nat in
  reject (negb (length b =? expected)%nat) InvalidSignatureShare ;?
  let? idx := read_u32 b 0 in
  let? hiding_bytes := slice b 4 (4 + fr_size (F:=F)) in
  let? d := scalar_from_bytes hiding_bytes in
  let? binding_bytes := slice b (4 + fr_size (F:=F)) expected in
  let? e := scalar_from_bytes binding_bytes in
  Ok (MkFrostSigningState d e idx).

(** ** Transcripts *)

Definition compute_binding_factor (participant_id : Z) (group_public_key : G) (msg : bytes)
    (all_commitments : list (entry G)) : result F :=
  reject (g_is_zero group_public_key) InvalidSignature ;?
  Ok (hash_to_scalar (put_sized (FROST_BINDING_DOMAIN ++ to_le_bytes 4 participant_id
          ++ g_serialize group_public_key) msg
        ++ to_le_bytes 4 (as_u32 (Z.of_nat (length all_commitments)))
        ++ mjoin ((fun e : entry G => to_le_bytes 4 e.1
             ++ g_serialize (hiding e.2) ++ g_serialize (binding e.2)) <$> all_commitments))).

Definition compute_group_commitment (all_commitments : list (entry G)) (group_public_key : G)
    (msg : bytes) : result (G * list (Z * F)) :=
  let canonical := sort_by_id all_commitments in
  reject (has_adjacent canonical.*1) InvalidSignatureShare ;?
  res_foldl (fun st e =>
    let '(r, binding_factors) := st in
    let '(id, commitment) := e in
    let? rho := compute_binding_factor id group_public_key msg canonical in
    Ok (r ⊕ (hiding commitment ⊕ binding commitment ⊙ rho), binding_factors ++ [(id, rho)]))
    canonical (g_zero, []).

Definition compute_challenge (r_point aggregate_pk : G) (msg : bytes) : result F :=
  Ok (hash_to_scalar (FROST_CHALLENGE_DOMAIN ++ g_serialize r_point ++ g_serialize aggregate_pk ++ msg)).

Definition lagrange_coefficient (idx : Z) (participant_ids : list Z) : result F :=
  let xi := from_u64 idx in
  let '(num, den) := fold_left (fun (st : F * F) j =>
    if (j =? idx)%Z then st
    else let xj := from_u64 j in (st.1 * xj, st.2 * (xj - xi))) participant_ids (1, 1) in
  let? den_inv := ok_or (inverse den) InvalidSignatureShare in
  Ok (num * den_inv).

Definition aggregate_pk_from_pub_poly (pub_poly : PubPoly G) : G := PubPoly_eval pub_poly 0.

Definition derive_sign_scalar (derivation : bytes) (metadata : option bytes) : F :=
  hash_to_scalar (derivation_transcript SIGN_DERIVATION_DOMAIN derivation metadata).

Definition encode_metadata (policy_id resource permission : bytes) : bytes :=
  sha256 (metadata_message SIGN_METADATA_DOMAIN policy_id resource permission).

Definition derive_public_key (dkg_pk : G) (derivation : bytes) (metadata : option bytes) : result G :=
  reject (g_is_zero dkg_pk) InvalidSignature ;?
  let d := derive_sign_scalar derivation metadata in
  reject (f_is_zero d) (SigningError "Zero derivation scalar") ;?
  let derived_pk := dkg_pk ⊙ d in
  reject (g_is_zero derived_pk) InvalidSignature ;?
  Ok derived_pk.

(** ** Nonces *)

Fixpoint hedged_loop (fuel : nat) (domain secret_bytes : bytes) (rng : Rng F) : result (F * Rng F) :=
  match fuel with
  | O => OutOfFuel
  | S fuel' =>
      let '(random_bytes, rng') := fill_bytes 32 rng in
      let candidate := hash_to_scalar (domain ++ random_bytes ++ secret_bytes) in
      if negb (f_is_zero candidate) then Ok (candidate, rng')
      else hedged_loop fuel' domain secret_bytes rng'
  end.

Definition hedged_nonce (fuel : nat) (domain : bytes) (secret : F) (rng : Rng F) : result (F * Rng F) :=
  hedged_loop fuel domain (fr_serialize secret) rng.

Definition generate_nonces (fuel : nat) (dist_key_share : DistKeyShare F) (rng : Rng F)
    : result ((FrostNonceCommitment G * FrostSigningState F) * Rng F) :=
  let secret := pri_v (pri_share dist_key_share) in
  let? '(d, rng1) := hedged_nonce fuel FROST_HIDING_NONCE_DOMAIN secret rng in
  let? '(e, rng2) := hedged_nonce fuel FROST_BINDING_NONCE_DOMAIN secret rng1 in
  let commitment := MkFrostNonceCommitment (generator ⊙ d) (generator ⊙ e) in
  let state := MkFrostSigningState d e (pri_i (pri_share dist_key_share)) in
  Ok ((commitment, state), rng2).

(** ** Signing *)

Definition sign (dist_key_share : DistKeyShare F) (msg : bytes) (pub_poly : PubPoly G)
    (signing_state : option (FrostSigningState F)) (all_commitments : list (entry G))
    (derivation metadata : option bytes) : result (PubShare F) :=
  let? signing_state := ok_or signing_state InvalidSignatureShare in
  let idx := pri_i (pri_share dist_key_share) in
  let s_i := pri_v (pri_share dist_key_share) in
  reject (negb (idx =? participant_index signing_state)%Z) InvalidSignatureShare ;?
  let? our_commitment := ok_or (find_id idx all_commitments) InvalidSignatureShare in
  let expected_hiding := generator ⊙ hiding_nonce signing_state in
  let expected_binding := generator ⊙ binding_nonce signing_state in
  reject (negb (bool_decide (hiding our_commitment = expected_hiding)) ||
          negb (bool_decide (binding our_commitment = expected_binding)))
    (SigningError "Commitment mismatch: coordinator may have tampered with our nonce commitment") ;?
  let aggregate_pk := aggregate_pk_from_pub_poly pub_poly in
  let? effective_pk :=
    match derivation with
    | Some deriv =>
        let d := derive_sign_scalar deriv metadata in
        reject (f_is_zero d) (SigningError "Zero derivation scalar") ;?
        Ok (aggregate_pk ⊙ d)
    | None => Ok aggregate_pk
    end in
  reject (g_is_zero effective_pk) InvalidSignature ;?
  let? '(r, binding_factors) := compute_group_commitment all_commitments effective_pk msg in
  let? rho_i := ok_or (find_id idx binding_factors) InvalidSignatureShare in
  let? c := compute_challenge r effective_pk msg in
  let participant_ids := all_commitments.*1 in
  let? lambda_i := lagrange_coefficient idx participant_ids in
  let s_i_eff :=
    match derivation with
    | Some deriv => s_i * derive_sign_scalar deriv metadata
    | None => s_i
    end in
  let z_i := hiding_nonce signing_state + rho_i * binding_nonce signing_state + lambda_i * s_i_eff * c in
  Ok (MkPubShare idx z_i).

Definition verify_share (msg : bytes) (pub_poly : PubPoly G) (sig_share : PubShare F)
    (all_commitments : list (entry G)) (derivation metadata : option bytes) : result unit :=
  let idx := pub_i sig_share in
  let z_i := pub_v sig_share in
  let? commitment := ok_or (find_id idx all_commitments) InvalidSignatureShare in
  let aggregate_pk := aggregate_pk_from_pub_poly pub_poly in
  let effective_pk :=
    match derivation with
    | Some deriv => aggregate_pk ⊙ derive_sign_scalar deriv metadata
    | None => aggregate_pk
    end in
  reject (g_is_zero effective_pk) InvalidSignature ;?
  let? '(r, binding_factors) := compute_group_commitment all_commitments effective_pk msg in
  let? rho_i := ok_or (find_id idx binding_factors) InvalidSignatureShare in
  let? c := compute_challenge r effective_pk msg in
  let participant_ids := all_commitments.*1 in
  let? lambda_i := lagrange_coefficient idx participant_ids in
  let pk_i_eff :=
    match derivation with
    | Some deriv => PubPoly_eval pub_poly idx ⊙ derive_sign_scalar deriv metadata
    | None => PubPoly_eval pub_poly idx
    end in
  let lhs := generator ⊙ z_i in
  let rhs := hiding commitment ⊕ binding commitment ⊙ rho_i ⊕ pk_i_eff ⊙ (lambda_i * c) in
  reject (negb (bool_decide (lhs = rhs))) InvalidSignatureShare.

Definition check_share (participant_ids : gset Z) (seen : gset Z) (share : PubShare F)
    : result (gset Z) :=
  reject (negb (bool_decide (pub_i share ∈ participant_ids))) InvalidSignatureShare ;?
  reject (bool_decide (pub_i share ∈ seen)) InvalidSignatureShare ;?
  Ok ({[pub_i share]} ∪ seen).

Definition recover (shares : list (PubShare F)) (t : Z) (group_public_key : G) (msg : bytes)
    (all_commitments : list (entry G)) : result (option (SchnorrSignature F G)) :=
  reject (t =? 0)%Z InvalidSignature ;?
  if (Z.of_nat (length shares) <? t)%Z then Ok None else
  let participant_ids : gset Z := list_to_set all_commitments.*1 in
  let? seen := res_foldl (check_share participant_ids) shares ∅ in
  if (Z.of_nat (size seen) <? t)%Z then Ok None else
  let sum := fold_left (fun acc share => acc + pub_v share) shares 0 in
  let? '(r, _) := compute_group_commitment all_commitments group_public_key msg in
  Ok (Some (MkSchnorrSignature r sum)).

Definition verify (pk : G) (msg : bytes) (sig : SchnorrSignature F G) : result unit :=
  reject (g_is_zero pk) InvalidSignature ;?
  let? c := compute_challenge (r_point sig) pk msg in
  let lhs := generator ⊙ z sig in
  let rhs := r_point sig ⊕ pk ⊙ c in
  reject (negb (bool_decide (lhs = rhs))) InvalidSignature.

Definition hash_message (pk : G) (msg : bytes) : result (SchnorrSignature F G) := Err InvalidSignature.

End Frost.
