(* ===== verification/FrostTheorems.v ===== *)
(** * Theorems on FROST signatures

    A signer's share passes the share check; verified shares of all the
    committed participants combine to a valid Schnorr signature; a set of
    shares that leaves a committed participant out does not. *)
From S2P Require Import Prelude Algebra Interpolation Primitives Toy Pairing Codec Common Context Shares.
From S2P Require Import SignDerivation DkgSpec Feldman Frost.

(** ** Lists of entries *)

Lemma sort_by_id_perm {A} (l : list (Z * A)) : sort_by_id l ≡ₚ l.
Proof. apply merge_sort_Permutation. Qed.

Lemma sort_by_id_sorted {A} (l : list (Z * A)) : Sorted Z.le (sort_by_id l).*1.
Proof.
  assert (Sorted by_id (sort_by_id l)) as H.
  { apply Sorted_merge_sort. intros [x ?] [y ?]. unfold by_id. cbn. lia. }
  induction H as [|x l' Hs IH Hx]; cbn; constructor; [done|]. destruct Hx; cbn; by constructor.
Qed.

Lemma has_adjacent_dedup l : has_adjacent l = false -> dedup l = l.
Proof.
  induction l as [|x [|y l] IH]; [done|done|].
  change (has_adjacent (x :: y :: l)) with ((y =? x) || has_adjacent (y :: l)).
  intros [E H]%orb_false_iff. change (dedup (x :: y :: l)) with (if x =? y then dedup (y :: l) else x :: dedup (y :: l)).
  rewrite Z.eqb_sym, E. f_equal. by apply IH.
Qed.

Lemma NoDup_has_adjacent l : NoDup l -> has_adjacent l = false.
Proof.
  induction 1 as [|x l Hx Hnd IH]; [done|]. destruct l as [|y l]; [done|].
  change (has_adjacent (x :: y :: l)) with ((y =? x) || has_adjacent (y :: l)).
  rewrite IH, orb_false_r. apply Z.eqb_neq. intros ->. apply Hx. left.
Qed.

(** The neighbour test after sorting finds duplicates. *)
Lemma has_adjacent_sorted {A} (l : list (Z * A)) : has_adjacent (sort_by_id l).*1 = false <-> NoDup l.*1.
Proof.
  rewrite <- (sort_by_id_perm l) at 2. split; [|apply NoDup_has_adjacent].
  intros H%has_adjacent_dedup. rewrite <- H. apply dedup_NoDup, sort_by_id_sorted.
Qed.

Lemma find_id_Some {A} idx (l : list (Z * A)) a : find_id idx l = Some a -> (idx, a) ∈ l.
Proof.
  induction l as [|[i b] l IH]; cbn; [done|]. destruct (Z.eqb_spec i idx) as [->|].
  - intros [= ->]. left.
  - intros H. right. by apply IH.
Qed.

Lemma find_id_NoDup {A} idx (l : list (Z * A)) a :
  NoDup l.*1 -> (idx, a) ∈ l -> find_id idx l = Some a.
Proof.
  induction l as [|[i b] l IH]; cbn; [by intros _ ?%elem_of_nil|].
  intros [Hi Hnd]%NoDup_cons [[= -> ->]|Hin]%elem_of_cons; [by rewrite Z.eqb_refl|].
  destruct (Z.eqb_spec i idx) as [->|]; [|by apply IH]. exfalso. apply Hi.
  by apply (list_elem_of_fmap_2 fst) in Hin.
Qed.

Section Frost.
Context {F G : Type} {SF : ScalarField F} {CG : CurveGroup F G} {PO : PrimeOrder F G} {SHA : Sha2}.
Local Open Scope fr_scope.
Add Field FField : (f_theory (F:=F)).

(** ** Transcripts *)

Definition rho (cms : list (entry G)) (pk : G) (msg : bytes) (id : Z) : F :=
  match compute_binding_factor id pk msg (sort_by_id cms) with Ok r => r | _ => 0 end.

Lemma binding_factor_ok id (pk : G) msg cms :
  g_is_zero pk = false -> compute_binding_factor id pk msg (sort_by_id cms) = Ok (rho cms pk msg id).
Proof. intros H. unfold rho, compute_binding_factor. by rewrite H. Qed.

(** The group commitment as the fold over the sorted entries. *)
Definition group_commitment (cms : list (entry G)) (pk : G) (msg : bytes) : G :=
  fold_left (fun r e => r ⊕ (hiding e.2 ⊕ binding e.2 ⊙ rho cms pk msg e.1)) (sort_by_id cms) g_zero.

Lemma group_commitment_ok cms (pk : G) msg out :
  g_is_zero pk = false ->
  compute_group_commitment cms pk msg = Ok out <->
  NoDup cms.*1 /\
  out = (group_commitment cms pk msg, (fun e => (e.1, rho cms pk msg e.1)) <$> sort_by_id cms).
Proof.
  intros Hz. unfold compute_group_commitment, group_commitment.
  assert (forall l r bf, res_foldl (fun (st : G * list (Z * F)) (e : entry G) =>
    let '(r, binding_factors) := st in let '(id, commitment) := e in
    let? rho := compute_binding_factor id pk msg (sort_by_id cms) in
    Ok (r ⊕ (hiding commitment ⊕ binding commitment ⊙ rho), binding_factors ++ [(id, rho)])) l (r, bf) =
    Ok (fold_left (fun r e => r ⊕ (hiding e.2 ⊕ binding e.2 ⊙ rho cms pk msg e.1)) l r,
        bf ++ ((fun e => (e.1, rho cms pk msg e.1)) <$> l))) as H.
  { induction l as [|[id c] l IH]; intros r bf; cbn [res_foldl fold_left fmap list_fmap].
    - by rewrite app_nil_r.
    - rewrite binding_factor_ok by done. cbn [res_bind]. rewrite IH. by rewrite <- app_assoc. }
  rewrite H, <- has_adjacent_sorted. destruct (has_adjacent _); cbn [reject res_bind app].
  - split; [done|]. by intros [? _].
  - split; [by intros [= <-]|by intros [_ ->]].
Qed.

Lemma lagrange_coefficient_ok idx ids :
  Forall is_u32 ids -> is_u32 idx ->
  lagrange_coefficient (F:=F) idx ids = Ok (weight (from_u64 <$> ids) (from_u64 idx)).
Proof.
  intros Hu Hi. unfold lagrange_coefficient, weight.
  rewrite (others_ids (F:=F) ids idx Hu Hi), <- list_fmap_compose. unfold compose.
  assert (forall num den, fold_left (fun (st : F * F) j => if (j =? idx)%Z then st
    else (st.1 * from_u64 j, st.2 * (from_u64 j - from_u64 idx))) ids (num, den) =
    (num * fprod (from_u64 <$> filter (fun j => j <> idx) ids),
     den * fprod ((fun x => from_u64 x - from_u64 idx) <$> filter (fun j => j <> idx) ids))) as H.
  { clear Hu. induction ids as [|j ids IH]; intros num den; cbn [fold_left].
    - csimpl. f_equal; ring.
    - destruct (Z.eqb_spec j idx) as [->|Hj].
      + rewrite filter_cons_False by (intros E; by apply E). apply IH.
      + rewrite filter_cons_True by done. cbn [fst snd]. rewrite IH. csimpl. f_equal; ring. }
  rewrite H. rewrite inverse_Some.
  - cbn. do 2 f_equal; [ring|f_equal; ring].
  - intros E. apply (differences_nonzero (F:=F) ids idx Hu Hi). rewrite <- E. ring.
Qed.

(** ** Keys *)

Definition sign_factor (derivation metadata : option bytes) : F :=
  match derivation with Some d => derive_sign_scalar d metadata | None => 1 end.

Definition signing_key (cs : list F) (derivation metadata : option bytes) : G :=
  generator ⊙ (peval cs 0 * sign_factor derivation metadata).

Definition key_poly (cs : list F) : PubPoly G := MkPubPoly (commit_all cs).

Lemma key_poly_eval (cs : list F) i : PubPoly_eval (key_poly cs) i = generator ⊙ peval cs (from_u64 i).
Proof. unfold PubPoly_eval, key_poly. cbn. apply eval_points_commit. Qed.

Lemma effective_key cs derivation metadata :
  match derivation with
  | Some deriv => aggregate_pk_from_pub_poly (key_poly cs) ⊙ derive_sign_scalar deriv metadata
  | None => aggregate_pk_from_pub_poly (key_poly cs)
  end = signing_key cs derivation metadata.
Proof.
  unfold aggregate_pk_from_pub_poly, signing_key, sign_factor. rewrite key_poly_eval, from_u64_zero.
  destruct derivation; [by rewrite generator_mul|]. f_equal. ring.
Qed.

Lemma effective_key_share cs i derivation metadata :
  match derivation with
  | Some deriv => PubPoly_eval (key_poly cs) i ⊙ derive_sign_scalar deriv metadata
  | None => PubPoly_eval (key_poly cs) i
  end = generator ⊙ (peval cs (from_u64 i) * sign_factor derivation metadata).
Proof.
  rewrite key_poly_eval. unfold sign_factor. destruct derivation; [by rewrite generator_mul|]. f_equal. ring.
Qed.

Definition challenge (cms : list (entry G)) (pk : G) (msg : bytes) : F :=
  hash_to_scalar (FROST_CHALLENGE_DOMAIN ++ g_serialize (group_commitment cms pk msg)
    ++ g_serialize pk ++ msg).

(** The share check as one equation. *)
Lemma frost_verify_share_Ok msg cs share cms derivation metadata :
  Forall is_u32 cms.*1 ->
  let pk := signing_key cs derivation metadata in
  let id := pub_i share in
  verify_share msg (key_poly cs) share cms derivation metadata = Ok tt <->
  g_is_zero pk = false /\ NoDup cms.*1 /\ exists cm, (id, cm) ∈ cms /\
    generator ⊙ pub_v share = hiding cm ⊕ binding cm ⊙ rho cms pk msg id
      ⊕ generator ⊙ (peval cs (from_u64 id) * sign_factor derivation metadata)
        ⊙ (weight (from_u64 <$> cms.*1) (from_u64 id) * challenge cms pk msg).
Proof.
  intros Hu pk id. unfold verify_share. rewrite effective_key, effective_key_share. fold pk. fold id.
  assert (forall cm, (id, cm) ∈ cms -> is_u32 id) as Hid.
  { intros cm Hin. apply (list_elem_of_fmap_2 fst) in Hin. by eapply Forall_forall in Hu. }
  assert (forall cm, NoDup cms.*1 -> (id, cm) ∈ cms -> find_id id
    ((fun e : entry G => (e.1, rho cms pk msg e.1)) <$> sort_by_id cms) = Some (rho cms pk msg id)) as Hf.
  { intros cm Hnd Hin. apply find_id_NoDup.
    - rewrite <- list_fmap_compose. unfold compose. cbn. by rewrite sort_by_id_perm.
    - rewrite <- (sort_by_id_perm cms) in Hin.
      by apply (list_elem_of_fmap_2 (fun e : entry G => (e.1, rho cms pk msg e.1))) in Hin. }
  split.
  - intros H. bind_ok H as cm Hcm. apply ok_or_Ok, find_id_Some in Hcm. bind_ok H as ? Hz.
    apply reject_Ok in Hz. split; [done|]. bind_ok H as [R bf] Hg.
    apply group_commitment_ok in Hg as [Hnd [= -> ->]]; [|done]. split; [done|].
    rewrite (Hf cm Hnd Hcm) in H. cbn [ok_or res_bind compute_challenge] in H.
    rewrite lagrange_coefficient_ok in H by eauto. cbn [res_bind] in H.
    apply reject_Ok, negb_false_iff, bool_decide_eq_true in H. by exists cm.
  - intros (Hz & Hnd & cm & Hin & E). rewrite (find_id_NoDup _ _ cm) by done.
    cbn [ok_or res_bind]. rewrite Hz. cbn [reject res_bind].
    rewrite (proj2 (group_commitment_ok cms pk msg _ Hz) (conj Hnd eq_refl)). cbn [res_bind].
    rewrite (Hf cm Hnd Hin). cbn [ok_or res_bind compute_challenge].
    rewrite lagrange_coefficient_ok by eauto. cbn [res_bind].
    by apply reject_Ok, negb_false_iff, bool_decide_eq_true.
Qed.

(** ** Shares *)

(** A signer's share passes the share check for the same commitment list. *)
Lemma sign_verifies cs ks msg state cms derivation metadata share :
  pri_v (pri_share ks) = peval cs (from_u64 (pri_i (pri_share ks))) -> Forall is_u32 cms.*1 ->
  sign ks msg (key_poly cs) state cms derivation metadata = Ok share ->
  verify_share msg (key_poly cs) share cms derivation metadata = Ok tt.
Proof.
  intros Hks Hu H. unfold sign in H. bind_ok H as st Hst. bind_ok H as ? _. bind_ok H as cm Hcm.
  apply ok_or_Ok, find_id_Some in Hcm. bind_ok H as ? Hc.
  apply reject_Ok, orb_false_iff in Hc as [Hh%negb_false_iff Hb%negb_false_iff].
  apply bool_decide_eq_true in Hh, Hb. bind_ok H as epk He.
  assert (epk = signing_key cs derivation metadata) as ->.
  { rewrite <- effective_key. by destruct derivation; inv_ok. }
  bind_ok H as ? Hz. apply reject_Ok in Hz. bind_ok H as [R bf] Hg.
  apply group_commitment_ok in Hg as [Hnd [= -> ->]]; [|done].
  bind_ok H as r Hr. apply ok_or_Ok, find_id_Some in Hr.
  apply list_elem_of_fmap in Hr as (e & Ee & _). injection Ee as Ei Er. rewrite <- Ei in Er. subst r.
  cbn [compute_challenge res_bind] in H. rewrite lagrange_coefficient_ok in H; [|done|].
  2: { apply (list_elem_of_fmap_2 fst) in Hcm. by eapply Forall_forall in Hu. }
  cbn [res_bind] in H. apply Ok_inj in H as <-. apply frost_verify_share_Ok; [done|]. cbn [pub_i pub_v].
  split; [done|]. split; [done|]. exists cm. split; [done|]. rewrite Hh, Hb, <- Hks.
  fold (challenge cms (signing_key cs derivation metadata) msg).
  autorewrite with dlog. f_equal. unfold sign_factor. destruct derivation; ring.
Qed.

(** The partial signature of a participant among [shares]. *)
Definition partial_of (shares : list (PubShare F)) (id : Z) : F :=
  default 0 (find_id id ((fun s => (pub_i s, pub_v s)) <$> shares)).

Lemma partial_of_share shares s :
  NoDup (pub_i <$> shares) -> s ∈ shares -> partial_of shares (pub_i s) = pub_v s.
Proof.
  intros Hnd Hin. unfold partial_of. rewrite (find_id_NoDup _ _ (pub_v s)); [done| |].
  - by rewrite <- list_fmap_compose.
  - by apply (list_elem_of_fmap_2 (fun s => (pub_i s, pub_v s))) in Hin.
Qed.

Lemma partial_of_sum shares :
  NoDup (pub_i <$> shares) -> fsum (partial_of shares <$> (pub_i <$> shares)) = fsum (pub_v <$> shares).
Proof.
  intros Hnd. rewrite <- list_fmap_compose. apply fsum_ext. intros s Hs. by apply partial_of_share.
Qed.

(** A verified share fixes the discrete logarithm of its participant's bound
    commitment. *)
Lemma bound_commitment_value cs msg shares cms derivation metadata e :
  let pk := signing_key cs derivation metadata in
  Forall is_u32 cms.*1 -> (pub_i <$> shares) ≡ₚ cms.*1 -> NoDup cms.*1 ->
  Forall (fun s => verify_share msg (key_poly cs) s cms derivation metadata = Ok tt) shares -> e ∈ cms ->
  hiding e.2 ⊕ binding e.2 ⊙ rho cms pk msg e.1 =
  generator ⊙ (partial_of shares e.1 - challenge cms pk msg * sign_factor derivation metadata
    * (weight (from_u64 <$> cms.*1) (from_u64 e.1) * peval cs (from_u64 e.1))).
Proof.
  intros pk Hu Hperm Hnd Hv. destruct e as [id cm]. intros Hin. cbn [fst snd].
  assert (NoDup (pub_i <$> shares)) as Hnds by (by rewrite Hperm).
  pose proof (list_elem_of_fmap_2 fst _ _ Hin) as Hid. rewrite <- Hperm in Hid.
  apply list_elem_of_fmap in Hid as (s & Es & Hs). cbn in Es. subst id. rewrite partial_of_share by done.
  eapply Forall_forall in Hv; [|exact Hs]. apply frost_verify_share_Ok in Hv as (_ & _ & cm' & Hin' & E); [|done].
  assert (cm' = cm) as -> by (apply find_id_NoDup in Hin, Hin'; [congruence|done|done]). fold pk in E.
  destruct (proj1 (in_subgroup_spec _) (all_in_subgroup (hiding cm))) as [h Hh].
  destruct (proj1 (in_subgroup_spec _) (all_in_subgroup (binding cm))) as [b Hb].
  rewrite Hh, Hb in *. autorewrite with dlog in *. apply generator_inj in E. rewrite E. f_equal. ring.
Qed.

(** A group commitment whose entries have known discrete logarithms. *)
Lemma group_commitment_sum cms (pk : G) msg (v : Z -> F) :
  (forall e, e ∈ cms -> hiding e.2 ⊕ binding e.2 ⊙ rho cms pk msg e.1 = generator ⊙ v e.1) ->
  group_commitment cms pk msg = generator ⊙ fsum (v <$> cms.*1).
Proof.
  intros He. unfold group_commitment. rewrite generator_zero.
  assert (forall l acc, (forall e, e ∈ l -> e ∈ cms) ->
    fold_left (fun r e => r ⊕ (hiding e.2 ⊕ binding e.2 ⊙ rho cms pk msg e.1)) l (generator ⊙ acc) =
    generator ⊙ (acc + fsum (v <$> l.*1))) as H.
  { induction l as [|e l IH]; intros acc Hl; csimpl; [f_equal; ring|].
    rewrite He by (apply Hl; left). rewrite generator_add, IH by (intros e' ?; apply Hl; by right).
    f_equal. ring. }
  rewrite H by (intros e; by rewrite (sort_by_id_perm cms)). f_equal.
  rewrite (fsum_permutation _ (v <$> cms.*1)) by (by rewrite sort_by_id_perm). ring.
Qed.

(** With a verified share of every committed participant, the commitment and
    the challenged key add up to the sum of the shares. *)
Lemma group_commitment_value cs msg shares cms derivation metadata :
  let pk := signing_key cs derivation metadata in
  Forall is_u32 cms.*1 -> (pub_i <$> shares) ≡ₚ cms.*1 -> (length cs <= length cms)%nat ->
  NoDup cms.*1 ->
  Forall (fun s => verify_share msg (key_poly cs) s cms derivation metadata = Ok tt) shares ->
  group_commitment cms pk msg ⊕ pk ⊙ challenge cms pk msg = generator ⊙ fsum (pub_v <$> shares).
Proof.
  intros pk Hu Hperm Hcs Hnd Hv. set (c := challenge cms pk msg). set (f := sign_factor derivation metadata).
  set (wx id := weight (from_u64 <$> cms.*1) (from_u64 (F:=F) id) * peval cs (from_u64 (F:=F) id)).
  rewrite (group_commitment_sum cms pk msg (fun id => partial_of shares id - c * f * wx id))
    by (intros e He; by apply bound_commitment_value).
  rewrite <- partial_of_sum by (by rewrite Hperm).
  rewrite (fsum_permutation (partial_of shares <$> (pub_i <$> shares)) (partial_of shares <$> cms.*1))
    by (by rewrite Hperm).
  assert (peval cs 0 = fsum (wx <$> cms.*1)) as L.
  { rewrite <- (lagrange_zero cs (from_u64 <$> cms.*1)); [|by apply ids_NoDup|by rewrite !length_fmap].
    by rewrite <- list_fmap_compose. }
  unfold pk at 1, signing_key. fold f. rewrite L. autorewrite with dlog. f_equal.
  transitivity (fsum ((fun id => partial_of shares id + (- (c * f)) * wx id) <$> cms.*1)
    + fsum (wx <$> cms.*1) * f * c).
  - f_equal. apply fsum_ext. intros id _. ring.
  - rewrite fsum_plus, fsum_scale. ring.
Qed.

(** ** Recovery *)

Lemma check_share_loop (ids : gset Z) (shares : list (PubShare F)) seen :
  NoDup (pub_i <$> shares) -> Forall (fun s => pub_i s ∈ ids /\ pub_i s ∉ seen) shares ->
  res_foldl (check_share ids) shares seen = Ok (list_to_set (pub_i <$> shares) ∪ seen).
Proof.
  revert seen; induction shares as [|s shares IH]; intros seen Hnd Hin; csimpl.
  - f_equal. set_solver.
  - apply NoDup_cons in Hnd as [Hs Hnd]. apply Forall_cons in Hin as [[H1 H2] Hin].
    unfold check_share at 1. rewrite bool_decide_eq_true_2, bool_decide_eq_false_2 by done.
    cbn [negb reject res_bind]. rewrite IH; [f_equal; set_solver|done|].
    rewrite Forall_forall in Hin |- *. intros s' Hs'. destruct (Hin s' Hs') as [? ?]. split; [done|].
    apply not_elem_of_union. split; [|done]. rewrite not_elem_of_singleton. intros E. apply Hs.
    rewrite <- E. by apply list_elem_of_fmap_2.
Qed.

Lemma fold_left_sum (shares : list (PubShare F)) acc :
  fold_left (fun acc share => acc + pub_v share) shares acc = acc + fsum (pub_v <$> shares).
Proof. revert acc; induction shares as [|s l IH]; intros acc; csimpl; [ring|]. rewrite IH. ring. Qed.

(** Shares of distinct committed participants, all or some of them, are added. *)
Lemma recover_ok (shares : list (PubShare F)) t (pk : G) msg cms :
  (1 <= t <= Z.of_nat (length shares))%Z -> NoDup (pub_i <$> shares) ->
  Forall (fun s => pub_i s ∈ cms.*1) shares -> g_is_zero pk = false -> NoDup cms.*1 ->
  recover shares t pk msg cms =
  Ok (Some (MkSchnorrSignature (group_commitment cms pk msg) (fsum (pub_v <$> shares)))).
Proof.
  intros Ht Hnds Hin Hz Hnd. unfold recover.
  rewrite (proj2 (Z.eqb_neq t 0)), (proj2 (Z.ltb_ge _ t)) by lia. cbn [reject res_bind].
  rewrite check_share_loop; [|done|].
  2: { eapply Forall_impl; [exact Hin|]. intros s Hs. split; [by apply elem_of_list_to_set|set_solver]. }
  cbn [res_bind]. rewrite union_empty_r_L, size_list_to_set, length_fmap by done.
  rewrite (proj2 (Z.ltb_ge _ t)) by lia.
  rewrite (proj2 (group_commitment_ok cms pk msg _ Hz) (conj Hnd eq_refl)). cbn [res_bind].
  rewrite fold_left_sum. do 3 f_equal. ring.
Qed.

Lemma frost_verify_Ok (pk : G) msg sig :
  g_is_zero pk = false ->
  verify pk msg sig = Ok tt <->
  generator ⊙ z sig = r_point sig ⊕ pk
    ⊙ hash_to_scalar (FROST_CHALLENGE_DOMAIN ++ g_serialize (r_point sig) ++ g_serialize pk ++ msg).
Proof.
  intros Hz. unfold verify. rewrite Hz. cbn [reject res_bind compute_challenge].
  by rewrite reject_Ok, negb_false_iff, bool_decide_eq_true.
Qed.

Lemma verified_nonempty cs msg shares cms derivation metadata :
  Forall is_u32 cms.*1 -> shares <> [] ->
  Forall (fun s => verify_share msg (key_poly cs) s cms derivation metadata = Ok tt) shares ->
  g_is_zero (signing_key cs derivation metadata) = false /\ NoDup cms.*1.
Proof.
  intros Hu Hne Hv. destruct shares as [|s shares]; [done|]. apply Forall_cons in Hv as [Hv _].
  apply frost_verify_share_Ok in Hv as (Hz & Hnd & _); done.
Qed.

Lemma recover_complete cs msg shares cms derivation metadata t :
  Forall is_u32 cms.*1 -> (pub_i <$> shares) ≡ₚ cms.*1 -> (length cs <= length cms)%nat ->
  (1 <= t <= Z.of_nat (length shares))%Z ->
  Forall (fun s => verify_share msg (key_poly cs) s cms derivation metadata = Ok tt) shares ->
  let pk : G := signing_key cs derivation metadata in
  exists sig, recover shares t pk msg cms = Ok (Some sig) /\ verify pk msg sig = Ok tt.
Proof.
  intros Hu Hperm Hcs Ht Hv pk. assert (shares <> []) as Hne by (intros ->; cbn in Ht; lia).
  destruct (verified_nonempty cs msg shares cms derivation metadata Hu Hne Hv) as [Hz Hnd]. eexists. split.
  - apply recover_ok; [done|by rewrite Hperm| |done|done].
    apply Forall_forall. intros s Hs. rewrite <- Hperm. by apply list_elem_of_fmap_2.
  - apply frost_verify_Ok; [done|]. cbn [z r_point]. symmetry.
    by apply (group_commitment_value cs msg shares cms derivation metadata).
Qed.

(** C32: Robust FROST recovery.  Whoever produced them, shares that pass the
    share check, one for each participant of the commitment list, combine to
    a signature that verifies under the effective key. *)
Theorem frost_recover_verified cs msg shares cms derivation metadata t :
  Forall is_u32 cms.*1 -> (pub_i <$> shares) ≡ₚ cms.*1 -> (length cs <= length cms)%nat ->
  (1 <= t <= Z.of_nat (length shares))%Z ->
  Forall (fun s => verify_share msg (key_poly cs) s cms derivation metadata = Ok tt) shares ->
  let pk : G := signing_key cs derivation metadata in
  exists sig, recover shares t pk msg cms = Ok (Some sig) /\ verify pk msg sig = Ok tt.
Proof. apply recover_complete. Qed.

(** An incomplete set is not refused.  When one committed participant's
    share is left out and the threshold is still met, recovery succeeds, but
    the signature it returns verifies only if the missing share is zero. *)
Lemma frost_recover_incomplete cs msg missing shares cms derivation metadata t :
  Forall is_u32 cms.*1 -> (pub_i <$> missing :: shares) ≡ₚ cms.*1 -> (length cs <= length cms)%nat ->
  (1 <= t <= Z.of_nat (length shares))%Z ->
  Forall (fun s => verify_share msg (key_poly cs) s cms derivation metadata = Ok tt) (missing :: shares) ->
  let pk : G := signing_key cs derivation metadata in
  exists sig, recover shares t pk msg cms = Ok (Some sig) /\
    (verify pk msg sig = Ok tt <-> pub_v missing = 0).
Proof.
  intros Hu Hperm Hcs Ht Hv pk. assert (missing :: shares <> []) as Hne by done.
  destruct (verified_nonempty cs msg _ cms derivation metadata Hu Hne Hv) as [Hz Hnd].
  assert (NoDup (pub_i <$> missing :: shares)) as Hnds by (by rewrite Hperm). eexists. split.
  - apply recover_ok; [done|by apply NoDup_cons in Hnds as [_ ?]| |done|done].
    apply Forall_forall. intros s Hs. rewrite <- Hperm. apply list_elem_of_fmap_2. by right.
  - rewrite frost_verify_Ok by done. cbn [z r_point]. fold (challenge cms pk msg).
    pose proof (group_commitment_value cs msg (missing :: shares) cms derivation metadata Hu Hperm Hcs Hnd Hv) as E.
    fold pk in E. rewrite E. csimpl. split.
    + intros H%generator_inj. transitivity (pub_v missing + fsum (pub_v <$> shares) - fsum (pub_v <$> shares)); [ring|].
      rewrite <- H. ring.
    + intros ->. f_equal. ring.
Qed.

(** ** The two rounds *)

(** A participant after round one: its key share, its published commitment
    and its secret nonces. *)
Definition participant : Type := DistKeyShare F * FrostNonceCommitment G * FrostSigningState F.
Definition entry_of (p : participant) : entry G := (pri_i (pri_share p.1.1), p.1.2).

Definition round_one (cs : list F) (p : participant) : Prop :=
  let ks := p.1.1 in
  pri_v (pri_share ks) = peval cs (from_u64 (pri_i (pri_share ks))) /\
  exists fuel rng rng', generate_nonces fuel ks rng = Ok ((p.1.2, p.2), rng').

Lemma generate_nonces_Ok fuel ks rng (cm : FrostNonceCommitment G) st rng' :
  generate_nonces fuel ks rng = Ok ((cm, st), rng') ->
  hiding cm = generator ⊙ hiding_nonce st /\ binding cm = generator ⊙ binding_nonce st /\
  participant_index st = pri_i (pri_share ks).
Proof.
  unfold generate_nonces. intros H. bind_ok H as [d rng1] _. bind_ok H as [e rng2] _.
  apply Ok_inj in H. by injection H as <- <- _.
Qed.

(** A participant of round one signs in round two. *)
Lemma sign_total cs parts msg derivation metadata p :
  Forall is_u32 (entry_of <$> parts).*1 -> NoDup (entry_of <$> parts).*1 ->
  g_is_zero (signing_key cs derivation metadata) = false -> p ∈ parts -> round_one cs p ->
  exists zi, sign p.1.1 msg (key_poly cs) (Some p.2) (entry_of <$> parts) derivation metadata
    = Ok (MkPubShare (pri_i (pri_share p.1.1)) zi).
Proof.
  intros Hu Hnd Hz Hp (Hks & fuel & rng & rng' & Hg). apply generate_nonces_Ok in Hg as (Hh & Hb & Hi).
  set (cms := entry_of <$> parts) in *. pose proof (list_elem_of_fmap_2 entry_of _ _ Hp : entry_of p ∈ cms) as Hin.
  unfold sign. cbn [ok_or res_bind]. rewrite Hi, Z.eqb_refl. cbn [negb reject res_bind].
  rewrite (find_id_NoDup _ cms p.1.2) by done. cbn [ok_or res_bind].
  rewrite !bool_decide_eq_true_2 by done. cbn [negb orb reject res_bind].
  assert (match derivation with
    | Some deriv => reject (f_is_zero (derive_sign_scalar deriv metadata)) (SigningError "Zero derivation scalar") ;?
        Ok (aggregate_pk_from_pub_poly (key_poly cs) ⊙ derive_sign_scalar deriv metadata)
    | None => Ok (aggregate_pk_from_pub_poly (key_poly cs))
    end = Ok (signing_key cs derivation metadata)) as ->.
  { rewrite <- effective_key in Hz |- *. destruct derivation as [d|]; [|done].
    destruct (f_is_zero _) eqn:E; [|done]. apply f_is_zero_true in E. rewrite E in Hz.
    rewrite g_mul_zero in Hz by apply all_in_subgroup. by apply g_is_zero_false in Hz. }
  cbn [res_bind]. rewrite Hz. cbn [reject res_bind].
  rewrite (proj2 (group_commitment_ok cms _ msg _ Hz) (conj Hnd eq_refl)). cbn [res_bind].
  rewrite (find_id_NoDup _ _ (rho cms (signing_key cs derivation metadata) msg (pri_i (pri_share p.1.1)))).
  2: { rewrite <- list_fmap_compose. unfold compose. cbn. by rewrite sort_by_id_perm. }
  2: { rewrite <- (sort_by_id_perm cms) in Hin.
       by apply (list_elem_of_fmap_2 (fun e : entry G => (e.1, rho cms (signing_key cs derivation metadata) msg e.1))) in Hin. }
  cbn [ok_or res_bind compute_challenge]. rewrite lagrange_coefficient_ok; [|done|].
  2: { apply (list_elem_of_fmap_2 fst) in Hin. by eapply Forall_forall in Hu. }
  cbn [res_bind]. by eexists.
Qed.

Lemma Forall_choice {A B} (R : A -> B -> Prop) l :
  Forall (fun a => exists b, R a b) l -> exists k, Forall2 R l k.
Proof.
  induction 1 as [|a l [b Hb] _ [k IH]]; [by exists []|]. exists (b :: k). by constructor.
Qed.

(** The two rounds of FROST.  If every participant of the commitment list
    holds a share of the key polynomial and went through round one, then for
    any message and derivation every participant signs, and the shares
    combine to a signature that verifies under the effective key. *)
Lemma frost_round_trip cs parts msg derivation metadata t :
  let cms := entry_of <$> parts in
  let pk : G := signing_key cs derivation metadata in
  Forall (round_one cs) parts -> Forall is_u32 cms.*1 -> NoDup cms.*1 -> g_is_zero pk = false ->
  (length cs <= length parts)%nat -> (1 <= t <= Z.of_nat (length parts))%Z ->
  exists shares, Forall2 (fun p share =>
      sign p.1.1 msg (key_poly cs) (Some p.2) cms derivation metadata = Ok share) parts shares /\
    exists sig, recover shares t pk msg cms = Ok (Some sig) /\ verify pk msg sig = Ok tt.
Proof.
  intros cms pk Hr Hu Hnd Hz Hcs Ht.
  destruct (Forall_choice (fun p share => pub_i share = (entry_of p).1 /\
    sign p.1.1 msg (key_poly cs) (Some p.2) cms derivation metadata = Ok share /\
    verify_share msg (key_poly cs) share cms derivation metadata = Ok tt) parts) as [shares Hs].
  { rewrite Forall_forall in Hr |- *. intros p Hp. specialize (Hr p Hp).
    destruct (sign_total cs parts msg derivation metadata p) as [zi Hzi]; [done..|].
    eexists. split; [|split; [exact Hzi|]]; [done|]. eapply sign_verifies; [apply Hr|done|exact Hzi]. }
  exists shares. split; [eapply Forall2_impl; [exact Hs|]; by intros p sh (_ & ? & _)|].
  assert (length parts = length shares) as El by (by apply Forall2_length in Hs).
  apply recover_complete; [done| |subst cms; by rewrite length_fmap|by rewrite <- El|].
  - assert (Forall2 (fun p share => pub_i share = (entry_of p).1) parts shares) as Hi.
    { eapply Forall2_impl; [exact Hs|]. by intros p sh [? _]. }
    assert (pub_i <$> shares = cms.*1) as ->; [|done]. unfold cms. clear - Hi.
    induction Hi as [|p sh ps shs E _ IH]; csimpl; [done|]. by rewrite E, IH.
  - apply Forall_forall. intros s Hin. apply list_elem_of_lookup in Hin as [k Hk].
    by destruct (Forall2_lookup_r _ _ _ _ _ Hs Hk) as (p & _ & _ & _ & ?).
Qed.

End Frost.

(** ** Instances *)

Module FrostSample.

(** The key polynomial is [10 + 3x]; participants 3 and 1 sign. *)
Definition cs : list ToyF := [toy_F 10; toy_F 3].
Definition msg : bytes := bstr "pay bob".
Definition derivation : option bytes := Some (bstr "account-7").
Definition metadata : option bytes := Some (encode_metadata (bstr "policy") (bstr "resource") (bstr "sign")).
Definition key_share (i : Z) : DistKeyShare ToyF := MkDistKeyShare (MkPriShare i (peval cs (from_u64 i))).
Definition part (i : Z) : participant (F:=ToyF) (G:=ToyE) :=
  match generate_nonces 1 (key_share i) toy_rng with
  | Ok ((cm, st), _) => (key_share i, cm, st)
  | _ => (key_share i, MkFrostNonceCommitment g_zero g_zero, MkFrostSigningState (toy_F 0) (toy_F 0) 0)
  end.
Definition parts : list (participant (F:=ToyF) (G:=ToyE)) := [part 3; part 1].
Definition cms : list (entry ToyE) := entry_of <$> parts.
Definition share (i : Z) : PubShare ToyF :=
  match sign (key_share i) msg (key_poly (G:=ToyE) cs) (Some (part i).2) cms derivation metadata with
  | Ok s => s
  | _ => MkPubShare 0 (toy_F 0)
  end.

Lemma part_ok i : i = 1%Z \/ i = 3%Z -> round_one cs (part i).
Proof.
  intros [-> | ->]; (split; [vm_compute; reflexivity|]);
    exists 1%nat, toy_rng; eexists; vm_compute; reflexivity.
Qed.

Lemma frost_share_ok i :
  i = 1%Z \/ i = 3%Z ->
  verify_share msg (key_poly (G:=ToyE) cs) (share i) cms derivation metadata = Ok tt.
Proof. intros [-> | ->]; vm_compute; reflexivity. Qed.

Lemma ids_u32 : Forall is_u32 cms.*1.
Proof. repeat constructor; vm_compute; first [discriminate|reflexivity]. Qed.

End FrostSample.

Import FrostSample.

Lemma frost_recover_verified_witness :
  exists sig, recover [share 3; share 1] 2 (signing_key (G:=ToyE) cs derivation metadata) msg cms = Ok (Some sig) /\
    verify (signing_key (G:=ToyE) cs derivation metadata) msg sig = Ok tt.
Proof.
  apply (frost_recover_verified cs msg [share 3; share 1] cms derivation metadata 2).
  - exact ids_u32.
  - apply reflexive_eq. vm_compute. reflexivity.
  - cbn. lia.
  - cbn. lia.
  - constructor; [|constructor; [|constructor]]; apply frost_share_ok; [right|left]; reflexivity.
Defined.

