(* ===== verification/Signer.v ===== *)
(** * Threshold signers

    [crates/crypto/src/trait/sign.rs]: the trait the signing coordinator is
    generic in, and its two implementations, the BLS signer, which needs no
    nonces, and the FROST signer, which takes two rounds.  [crates/crypto/src/lib.rs]
    selects one of them when the node is built. *)
From S2P Require Import Prelude Algebra Interpolation Primitives Pairing Codec Common Context Shares SignDerivation Bls Frost.

(** [SigShareInner] is [Share]; the other parameters are the associated types. *)
Class ThresholdSigner (F G Signature Share NonceCommitment SigningState : Type) := {
  INTERACTIVE : bool;
  signer_name : bytes;
  signer_hash_message : G -> bytes -> result Signature;
  signature_serialize : CryptoSerialize Signature;
  share_serialize : CryptoSerialize Share;
  share_deserialize : CryptoDeserialize Share;
  nonce_serialize : CryptoSerialize NonceCommitment;
  nonce_deserialize : CryptoDeserialize NonceCommitment;
  state_serialize : CryptoSerialize SigningState;
  state_deserialize : CryptoDeserialize SigningState;
  signer_generate_nonces : nat -> DistKeyShare F -> Rng F -> result ((NonceCommitment * SigningState) * Rng F);
  signer_sign : DistKeyShare F -> bytes -> PubPoly G -> option SigningState -> list (Z * NonceCommitment) ->
    option bytes -> option bytes -> result (PubShare Share);
  signer_verify_share : bytes -> PubPoly G -> PubShare Share -> list (Z * NonceCommitment) ->
    option bytes -> option bytes -> result unit;
  signer_recover : list (PubShare Share) -> Z -> Z -> G -> bytes -> list (Z * NonceCommitment) ->
    result (option Signature);
  signer_verify : G -> bytes -> Signature -> result unit;
  signer_encode_metadata : bytes -> bytes -> bytes -> bytes;
  signer_derive_public_key : G -> bytes -> option bytes -> result G;
}.

(** ** [bls12_381/sign.rs] *)
Section BlsSigner.
Context {F G1 G2 GT S P : Type} {SF : ScalarField F} {CG1 : CurveGroup F G1} {CG2 : CurveGroup F G2}
  {BL2 : Blst F G2 S P} {PA : Pairing F G1 G2 GT} {HC : HashToCurve F G2} {SHA : Sha2}.

Definition ThresholdBlsSigner : ThresholdSigner F G1 (G2Point G2) (G2Point G2) unit unit := {|
  INTERACTIVE := false;
  signer_name := bstr "threshold-bls-g2-aug-v1";
  signer_hash_message := Bls.hash_message;
  signature_serialize := G2Point_serialize;
  share_serialize := G2Point_serialize;
  share_deserialize := G2Point_deserialize (F:=F);
  nonce_serialize := unit_serialize;
  nonce_deserialize := unit_deserialize;
  state_serialize := unit_serialize;
  state_deserialize := unit_deserialize;
  signer_generate_nonces _ ks rng := let? r := Bls.generate_nonces ks in Ok (r, rng);
  signer_sign ks msg pub_poly _ _ derivation metadata := Bls.sign ks msg pub_poly derivation metadata;
  signer_verify_share msg pub_poly share _ derivation metadata := Bls.verify_share msg pub_poly share derivation metadata;
  signer_recover shares t n _ _ _ := Bls.recover shares t n;
  signer_verify := Bls.verify;
  signer_encode_metadata := Bls.encode_metadata;
  signer_derive_public_key := Bls.derive_public_key (F:=F);
|}.
End BlsSigner.

(** ** [jubjub/sign.rs] *)
Section FrostSigner.
Context {F G : Type} {SF : ScalarField F} {CG : CurveGroup F G} {SHA : Sha2}.

Definition jubjub_fr_serialize : CryptoSerialize F :=
  {| to_bytes x := Ok (fr_serialize x); min_serialized_size := fr_size (F:=F) |}.
Definition jubjub_fr_deserialize : CryptoDeserialize F := {| from_bytes := scalar_from_bytes |}.

Definition SchnorrSignature_serialize : CryptoSerialize (SchnorrSignature F G) :=
  {| to_bytes := SchnorrSignature_to_bytes; min_serialized_size := g_size (G:=G) + fr_size (F:=F) |}.

Definition FrostNonceCommitment_serialize : CryptoSerialize (FrostNonceCommitment G) :=
  {| to_bytes := FrostNonceCommitment_to_bytes; min_serialized_size := 2 * g_size (G:=G) |}.
Definition FrostNonceCommitment_deserialize : CryptoDeserialize (FrostNonceCommitment G) :=
  {| from_bytes := FrostNonceCommitment_from_bytes (F:=F) |}.

Definition FrostSigningState_serialize : CryptoSerialize (FrostSigningState F) :=
  {| to_bytes := FrostSigningState_to_bytes; min_serialized_size := 4 + 2 * fr_size (F:=F) |}.
Definition FrostSigningState_deserialize : CryptoDeserialize (FrostSigningState F) :=
  {| from_bytes := FrostSigningState_from_bytes |}.

Definition ThresholdJubjubSigner :
    ThresholdSigner F G (SchnorrSignature F G) F (FrostNonceCommitment G) (FrostSigningState F) := {|
  INTERACTIVE := true;
  signer_name := bstr "threshold-frost-jubjub";
  signer_hash_message := Frost.hash_message;
  signature_serialize := SchnorrSignature_serialize;
  share_serialize := jubjub_fr_serialize;
  share_deserialize := jubjub_fr_deserialize;
  nonce_serialize := FrostNonceCommitment_serialize;
  nonce_deserialize := FrostNonceCommitment_deserialize;
  state_serialize := FrostSigningState_serialize;
  state_deserialize := FrostSigningState_deserialize;
  signer_generate_nonces := Frost.generate_nonces;
  signer_sign := Frost.sign;
  signer_verify_share := Frost.verify_share;
  signer_recover shares t _ pk msg all_commitments := Frost.recover shares t pk msg all_commitments;
  signer_verify := Frost.verify;
  signer_encode_metadata := Frost.encode_metadata;
  signer_derive_public_key := Frost.derive_public_key (F:=F);
|}.
End FrostSigner.

(** The key a signing transcript is verified with ([finalize_signature] of
    [sign/v0/coordinator/rounds/signing.rs]). *)
Definition verify_key {F G Signature Share NonceCommitment SigningState : Type} {SF : ScalarField F} {CG : CurveGroup F G}
    {TS : ThresholdSigner F G Signature Share NonceCommitment SigningState} (pub_poly : PubPoly G)
    (derivation metadata : option bytes) : result G :=
  let aggregate_pk := PubPoly_eval pub_poly 0 in
  match derivation with
  | Some deriv => signer_derive_public_key aggregate_pk deriv metadata
  | None => Ok aggregate_pk
  end.
