(* ===== verification/SignerContract.v ===== *)
(** * What a threshold signer promises

    The contract the signing coordinator relies on, whichever backend the node
    is built with: encodings round-trip, the share of a node whose key share is
    on the key polynomial is accepted, and a signing set whose shares are all
    accepted recovers a signature that verifies.  The BLS and the FROST signer
    both meet it. *)
From S2P Require Import Prelude Algebra Interpolation Primitives Pairing Toy Codec Common Context Shares SignDerivation Bls Frost.
From S2P Require Import BlsTheorems FrostTheorems Signer.

Section Contract.
Context {F G Signature Share NonceCommitment SigningState : Type} {SF : ScalarField F} {CG : CurveGroup F G}.

(** The public polynomial of a key polynomial. *)
Definition ring_poly (cs : list F) : PubPoly G := MkPubPoly (commit_all cs).

Section Signer.
Context {TS : ThresholdSigner F G Signature Share NonceCommitment SigningState}.

(** The commitments of a signing round: one for each of [t] signers when the
    scheme is interactive, none otherwise. *)
Definition signing_set (t : Z) (commitments : list (Z * NonceCommitment)) : Prop :=
  Forall is_u32 commitments.*1 /\
  if INTERACTIVE then Z.of_nat (length commitments) = t else commitments = [].

Class SignerContract := {
  share_wf : Share -> Prop;
  nonce_wf : NonceCommitment -> Prop;
  contract_share_encode v : share_wf v ->
    exists b, @to_bytes _ share_serialize v = Ok b /\ @from_bytes _ share_deserialize b = Ok v;
  contract_share_decode b v : @from_bytes _ share_deserialize b = Ok v -> share_wf v;
  contract_nonce_encode c : nonce_wf c ->
    exists b, @to_bytes _ nonce_serialize c = Ok b /\ @from_bytes _ nonce_deserialize b = Ok c;
  contract_nonce_decode b c : @from_bytes _ nonce_deserialize b = Ok c -> nonce_wf c;
  contract_signature_encode sig : exists b, @to_bytes _ signature_serialize sig = Ok b;
  contract_generate fuel ks rng c st rng' : signer_generate_nonces fuel ks rng = Ok ((c, st), rng') -> nonce_wf c;
  contract_sign cs ks msg state commitments derivation metadata share :
    pri_v (pri_share ks) = peval cs (from_u64 (pri_i (pri_share ks))) -> pri_v (pri_share ks) <> fzero ->
    Forall is_u32 commitments.*1 ->
    signer_sign ks msg (ring_poly cs) state commitments derivation metadata = Ok share ->
    pub_i share = pri_i (pri_share ks) /\ share_wf (pub_v share) /\
    signer_verify_share msg (ring_poly cs) share commitments derivation metadata = Ok tt;
  contract_recover cs msg shares commitments derivation metadata t n pk :
    signing_set t commitments -> verify_key (ring_poly cs) derivation metadata = Ok pk ->
    1 <= t <= n -> is_u32 n -> t <= Z.of_nat (length shares) -> (length cs <= Z.to_nat t)%nat ->
    NoDup (pub_i <$> shares) -> Forall (fun i => 1 <= i <= n) (pub_i <$> shares) ->
    Forall (fun share => share_wf (pub_v share) /\
      signer_verify_share msg (ring_poly cs) share commitments derivation metadata = Ok tt) shares ->
    exists signature, signer_recover shares t n pk msg commitments = Ok (Some signature) /\
      signer_verify pk msg signature = Ok tt;
}.
End Signer.
End Contract.
#[global] Arguments SignerContract {F G Signature Share NonceCommitment SigningState SF CG} TS.

(** ** The BLS signer *)
Section BlsContract.
Context {F G1 G2 GT S P : Type} {SF : ScalarField F} {CG1 : CurveGroup F G1} {CG2 : CurveGroup F G2}
  {BL2 : Blst F G2 S P} {PA : Pairing F G1 G2 GT} {HC : HashToCurve F G2} {SHA : Sha2}.
Local Open Scope fr_scope.
Add Field FField : (f_theory (F:=F)).

Lemma bls_verify_key cs derivation metadata (pk : G1) :
  verify_key (TS:=ThresholdBlsSigner (G2:=G2)) (ring_poly cs) derivation metadata = Ok pk -> pk = BlsTheorems.signing_key cs derivation metadata.
Proof.
  unfold verify_key, BlsTheorems.signing_key, BlsTheorems.sign_factor. change (ring_poly cs) with (BlsTheorems.key_poly (G1:=G1) cs).
  rewrite commit_eval_zero. destruct derivation as [d|]; cbn.
  - unfold Bls.derive_public_key. intros H. bind_ok H as ? _. apply Ok_inj in H as <-. by rewrite generator_mul.
  - intros [= <-]. f_equal. ring.
Qed.

Lemma bls_sign_contract cs ks msg derivation metadata share :
  pri_v (pri_share ks) = peval cs (from_u64 (pri_i (pri_share ks))) -> pri_v (pri_share ks) <> 0 ->
  Bls.sign ks msg (ring_poly (G:=G1) cs) derivation metadata = Ok share ->
  pub_i share = pri_i (pri_share ks) /\ in_subgroup (g2_inner (pub_v share)) = true /\
  Bls.verify_share msg (ring_poly (G:=G1) cs) share derivation metadata = Ok tt.
Proof.
  intros Hks Hnz H. destruct (bls_sign_share cs ks msg derivation metadata share Hks H) as (Hi & (h & Hh & Hv) & Hok).
  split; [done|]. split; [rewrite Hv; apply hash_to_g2_Ok in Hh as [Hsub _]; auto with orbis|].
  apply Hok. intros E. apply f_mul_zero in E as [|E]; [done|]. revert E. unfold BlsTheorems.sign_factor.
  unfold Bls.sign in H. destruct derivation as [d|]; [|intros E; by apply f_one_neq_zero in E].
  bind_ok H as ? _. bind_ok H as [xe epk] He. bind_ok He as ? Hd. apply reject_Ok in Hd. intros E.
  by rewrite (proj2 (f_is_zero_true _) E) in Hd.
Qed.

Lemma bls_contract : SignerContract (ThresholdBlsSigner (F:=F) (G1:=G1) (G2:=G2)).
Proof.
  refine {| share_wf v := in_subgroup (g2_inner v) = true; nonce_wf _ := True |}.
  - intros v Hv. destruct (@codec_roundtrip _ _ _ (G2Point_codec (F:=F)) v Hv) as (b & ? & ? & _). by exists b.
  - intros b v H. by apply (@codec_canonical _ _ _ (G2Point_codec (F:=F))) in H as [? _].
  - intros [] _. by exists [].
  - done.
  - intros sig. by eexists.
  - done.
  - intros cs ks msg state cms derivation metadata share Hks Hnz _ H. by apply (bls_sign_contract cs ks).
  - intros cs msg shares cms derivation metadata t n pk _ ->%bls_verify_key Ht Hn Hl Hcs Hnd Hr Hv.
    destruct (bls_recover_complete cs msg shares derivation metadata t n) as (sig & ? & ? & _); try done; [|by exists sig].
    split; [|eapply sublist_NoDup; [exact Hnd|apply sublist_take]].
    apply Forall_take. replace (as_u32 n) with n; [done|]. unfold as_u32, is_u32 in *. by rewrite Z.mod_small.
Qed.
End BlsContract.

(** ** The FROST signer *)
Section FrostContract.
Context {F G : Type} {SF : ScalarField F} {CG : CurveGroup F G} {PO : PrimeOrder F G} {SHA : Sha2}.
Local Open Scope fr_scope.
Add Field FField : (f_theory (F:=F)).

Lemma frost_verify_key cs derivation metadata (pk : G) :
  verify_key (TS:=ThresholdJubjubSigner) (ring_poly cs) derivation metadata = Ok pk ->
  pk = FrostTheorems.signing_key cs derivation metadata.
Proof.
  unfold verify_key. intros H. rewrite <- effective_key. unfold aggregate_pk_from_pub_poly.
  change (FrostTheorems.key_poly cs) with (ring_poly (G:=G) cs). destruct derivation as [d|]; [|by injection H as <-].
  cbn in H. unfold Frost.derive_public_key in H. bind_ok H as ? _. bind_ok H as ? _. bind_ok H as ? _. by apply Ok_inj in H.
Qed.

Lemma element_round_trip (P : G) : element_from_bytes (g_serialize P) = Ok P.
Proof.
  unfold element_from_bytes. rewrite g_serialize_length, Nat.eqb_refl. cbn.
  by rewrite g_deserialize_serialize by apply all_in_subgroup.
Qed.

Lemma nonce_round_trip (c : FrostNonceCommitment G) :
  exists b, FrostNonceCommitment_to_bytes c = Ok b /\ FrostNonceCommitment_from_bytes (F:=F) b = Ok c.
Proof.
  destruct c as [h e]. eexists. split; [done|]. unfold FrostNonceCommitment_from_bytes. cbn [hiding binding].
  rewrite length_app, !g_serialize_length. replace (2 * g_size (G:=G))%nat with (g_size (G:=G) + g_size (G:=G))%nat by lia.
  rewrite Nat.eqb_refl. cbn [negb reject res_bind].
  rewrite slice_head by (by rewrite ?g_serialize_length). cbn [res_bind]. rewrite element_round_trip. cbn [res_bind].
  rewrite slice_skip, slice_all by (rewrite ?g_serialize_length; lia). cbn [res_bind]. by rewrite element_round_trip.
Qed.

Lemma frost_sign_index ks msg (pub_poly : PubPoly G) state cms derivation metadata (share : PubShare F) :
  Frost.sign ks msg pub_poly state cms derivation metadata = Ok share -> pub_i share = pri_i (pri_share ks).
Proof.
  unfold Frost.sign. intros H. bind_ok H as st _. bind_ok H as ? _. bind_ok H as cm _. bind_ok H as ? _. bind_ok H as pk _.
  bind_ok H as ? _. bind_ok H as [R bf] _. bind_ok H as r _. bind_ok H as c _. bind_ok H as l _. by apply Ok_inj in H as <-.
Qed.

Lemma frost_contract : SignerContract (ThresholdJubjubSigner (F:=F) (G:=G)).
Proof.
  refine {| share_wf _ := True; nonce_wf _ := True |}; try done.
  - intros v _. eexists. split; [done|]. cbn. unfold scalar_from_bytes. rewrite fr_serialize_length, Nat.eqb_refl. cbn.
    by rewrite fr_deserialize_serialize.
  - intros c _. apply nonce_round_trip.
  - intros sig. by eexists.
  - intros cs ks msg state cms derivation metadata share Hks _ Hu H. cbn in H |- *.
    split; [by eapply frost_sign_index|]. split; [done|]. by apply (sign_verifies cs ks msg state).
  - intros cs msg shares cms derivation metadata t n pk [Hu Hlen] ->%frost_verify_key Ht Hn Hl Hcs Hnd Hr Hv.
    cbn in Hlen.
    assert (Forall (fun s => Frost.verify_share msg (FrostTheorems.key_poly cs) s cms derivation metadata = Ok tt) shares) as Hv'
      by (eapply Forall_impl; [exact Hv|]; by intros ? []).
    apply FrostTheorems.recover_complete; try done; [|lia|lia].
    apply submseteq_length_Permutation; [|rewrite !length_fmap; lia]. apply NoDup_submseteq; [done|].
    intros i (s & -> & Hs)%list_elem_of_fmap. rewrite Forall_forall in Hv'. specialize (Hv' s Hs).
    apply frost_verify_share_Ok in Hv' as (_ & _ & cm & Hin & _); [|done]. by apply (list_elem_of_fmap_2 fst) in Hin.
Qed.
End FrostContract.
