(* ===== verification/DkgSession.v ===== *)
(** * The DKG coordinator's state machine

    [bin/orbis-node/src/dkg/v0/coordinator/state_machine.rs], the session kinds
    of [messages.rs], the phases of [session_state/mod.rs] and the atomic
    section [claim_transition] of [coordinator/phases/mod.rs], which reads a
    session (its [DKGNode] included), decides, and moves the phase.  The
    constructors of [SessionKind] carry a [K], those of [DkgMode] have the
    plain names. *)
From S2P Require Import Prelude Algebra Interpolation Primitives Toy Codec Common Dkg DkgSpec.

(** ** Data *)

Inductive SessionKind : Type :=
  | KFresh
  | KFreshPet (ring_id : bytes)
  | KRefresh (ring_pk_hex : bytes)
  | KRefreshPet (ring_id : bytes)
  | KReshare (ring_pk_hex : bytes) (new_peer_node_keys : list bytes) (new_threshold : Z)
      (bulletin_post_id : bytes)
  | KResharePet (ring_id : bytes) (new_peer_node_keys : list bytes) (new_threshold : Z).

Definition ring_key (k : SessionKind) : option bytes :=
  match k with
  | KFresh => None
  | KFreshPet ring_id => Some ring_id
  | KRefresh ring_pk_hex => Some ring_pk_hex
  | KRefreshPet ring_id => Some ring_id
  | KReshare ring_pk_hex _ _ _ => Some ring_pk_hex
  | KResharePet ring_id _ _ => Some ring_id
  end.

Inductive DkgPhase : Type :=
  | Initializing
  | Phase0CommitmentHashes
  | Phase1Commitments
  | Phase2Shares
  | Phase4Completing
  | Phase4Complete.

#[global] Instance DkgPhase_eq_dec : EqDecision DkgPhase.
Proof. solve_decision. Defined.

Inductive DkgEvent : Type :=
  | CommitmentHashRecorded
  | CommitmentRecorded
  | ShareRecorded (from_node_id : Z)
  | ReshareParticipantSetAccepted
  | Phase2SharesDistributed (local_node_id : Z)
  | ReadinessChanged.

Definition evaluates_phase4 (e : DkgEvent) : bool :=
  match e with
  | ShareRecorded _ | ReshareParticipantSetAccepted | ReadinessChanged => true
  | _ => false
  end.

Inductive DkgCommand : Type :=
  | RevealCommitment
  | InitiatePhase2Shares
  | AckValidReshareShare (dealer_id : Z)
  | CompletePhase4.

#[global] Instance DkgCommand_eq_dec : EqDecision DkgCommand.
Proof. solve_decision. Defined.

Record Transition := MkTransition { next_phase : option DkgPhase; commands : list DkgCommand }.

Record SessionSnapshot := MkSessionSnapshot {
  ss_kind : SessionKind;
  ss_phase : DkgPhase;
  ss_role : DkgRole;
  ss_node_id : Z;
  ss_total_nodes : Z;
  ss_threshold : Z;
  has_polynomial : bool;
  commitment_hashes_received : Z;
  hash_broadcast_complete : bool;
  ss_commitments_received : Z;
  ss_shares_received : Z;
  reshare_selected_dealers : bool;
  secret_share_available : bool;
  aggregate_public_key_available : bool;
}.

(** [usize::saturating_sub]. *)
Definition saturating_sub (a b : Z) : Z := Z.max 0 (a - b).

(** [matches!(phase, ...)]. *)
Definition phase_in (p : DkgPhase) (ps : list DkgPhase) : bool := bool_decide (p ∈ ps).
Definition role_in (r : DkgRole) (rs : list DkgRole) : bool := bool_decide (r ∈ rs).

(** ** The snapshot's predicates *)

Definition is_reshare (s : SessionSnapshot) : bool :=
  match ss_kind s with KReshare _ _ _ _ | KResharePet _ _ _ => true | _ => false end.

Definition is_fresh (s : SessionSnapshot) : bool :=
  match ss_kind s with KFresh | KFreshPet _ => true | _ => false end.

Definition phase1_expected_commitments (s : SessionSnapshot) : option Z :=
  if is_reshare s then None
  else Some (match ss_role s with
             | Receiver => ss_total_nodes s
             | _ => saturating_sub (ss_total_nodes s) 1
             end).

Definition phase4_expected_shares (s : SessionSnapshot) : Z :=
  match ss_role s with
  | Receiver => ss_total_nodes s
  | _ => saturating_sub (ss_total_nodes s) 1
  end.

Definition should_initiate_phase2 (s : SessionSnapshot) : bool :=
  if is_fresh s && phase_in (ss_phase s) [Initializing; Phase0CommitmentHashes] then false
  else if phase_in (ss_phase s) [Phase2Shares; Phase4Completing; Phase4Complete] then false
  else if negb (bool_decide (ss_role s = Receiver)) && negb (has_polynomial s) then false
  else if bool_decide (ss_role s = Receiver) then false
  else match phase1_expected_commitments s with
       | Some expected => expected <=? ss_commitments_received s
       | None => false
       end.

Definition should_reveal_commitment (s : SessionSnapshot) : bool :=
  is_fresh s && bool_decide (ss_phase s = Phase0CommitmentHashes)
  && negb (bool_decide (ss_role s = Receiver)) && has_polynomial s && hash_broadcast_complete s
  && (saturating_sub (ss_total_nodes s) 1 <=? commitment_hashes_received s).

Definition should_ack_valid_reshare_share (s : SessionSnapshot) : bool :=
  is_reshare s && role_in (ss_role s) [Receiver; DealerReceiver].

Definition should_complete_phase4 (s : SessionSnapshot) : bool :=
  if phase_in (ss_phase s) [Phase4Completing; Phase4Complete] then false
  else if is_reshare s && role_in (ss_role s) [Receiver; DealerReceiver] then
    reshare_selected_dealers s && secret_share_available s && aggregate_public_key_available s
  else (phase4_expected_shares s <=? ss_shares_received s)
       && secret_share_available s && aggregate_public_key_available s.

(** ** The transition function *)

Definition push_phase4_if_ready (s : SessionSnapshot) (t : Transition) : Transition :=
  if should_complete_phase4 s then MkTransition (Some Phase4Completing) (commands t ++ [CompletePhase4])
  else t.

Definition transition (s : SessionSnapshot) (event : DkgEvent) : Transition :=
  let t := MkTransition None [] in
  match event with
  | CommitmentHashRecorded =>
      if should_reveal_commitment s then MkTransition (Some Phase1Commitments) [RevealCommitment] else t
  | CommitmentRecorded =>
      if should_initiate_phase2 s then MkTransition (Some Phase2Shares) [InitiatePhase2Shares] else t
  | ShareRecorded from_node_id =>
      let t := if should_ack_valid_reshare_share s
               then MkTransition None [AckValidReshareShare from_node_id] else t in
      push_phase4_if_ready s t
  | ReshareParticipantSetAccepted | ReadinessChanged => push_phase4_if_ready s t
  | Phase2SharesDistributed local_node_id =>
      let t := if bool_decide (ss_role s = DealerReceiver)
               then MkTransition None [AckValidReshareShare local_node_id] else t in
      if bool_decide (ss_role s = Dealer)
      then MkTransition (Some Phase4Completing) (commands t ++ [CompletePhase4]) else t
  end.

(** ** The session *)

Record DkgSessionState (F G : Type) := MkDkgSessionState {
  kind : SessionKind;
  phase : DkgPhase;
  node : DKGNode F G;
  received_hashes : gmap Z bytes;
  own_hash_broadcast_complete : bool;
  commitments_received : Z;
  shares_received : Z;
  selected_dealers : option (list Z);
}.
Arguments MkDkgSessionState {F G}. Arguments kind {F G}. Arguments phase {F G}. Arguments node {F G}.
Arguments received_hashes {F G}. Arguments own_hash_broadcast_complete {F G}.
Arguments commitments_received {F G}. Arguments shares_received {F G}. Arguments selected_dealers {F G}.

Definition is_ok {E A} (r : res E A) : bool := match r with Ok _ => true | _ => false end.

Section Session.
Context {F G S P : Type} {SF : ScalarField F} {CG : CurveGroup F G} {BL : Blst F G S P}.
Abbreviation state := (DkgSessionState F G).

(** [transition_phase], the metrics aside. *)
Definition transition_phase (p : DkgPhase) (s : state) : state :=
  if bool_decide (phase s = p) then s
  else MkDkgSessionState (kind s) p (node s) (received_hashes s) (own_hash_broadcast_complete s)
         (commitments_received s) (shares_received s) (selected_dealers s).

(** [update_phase_for_attempt] on the session it finds. *)
Definition update_phase_for_attempt (p : DkgPhase) (s : state) : state := transition_phase p s.

Definition snapshot_of (s : state) (event : DkgEvent) : SessionSnapshot :=
  let ev4 := evaluates_phase4 event in
  let n := node s in
  MkSessionSnapshot (kind s) (phase s) (role n) (id n) (total_nodes n) (threshold n)
    (negb (bool_decide (coefficients (commitment n) = [])))
    (Z.of_nat (size (received_hashes s))) (own_hash_broadcast_complete s)
    (commitments_received s) (shares_received s)
    (match selected_dealers s with Some _ => true | None => false end)
    (ev4 && is_ok (compute_secret_share n)) (ev4 && is_ok (compute_aggregate_public_key n)).

Definition claim_transition (event : DkgEvent) (s : state) : (SessionSnapshot * Transition) * state :=
  let snapshot := snapshot_of s event in
  let t := transition snapshot event in
  let s' := match next_phase t with Some p => transition_phase p s | None => s end in
  ((snapshot, t), s').

End Session.
