(* ===== verification/DkgSessionTheorems.v ===== *)
(** * Theorems on the DKG coordinator's state machine

    When phase 4 is claimed, that the claims of a session happen at most once
    while the phase only moves forward, and what an unconditional phase write
    does to that. *)
From S2P Require Import Prelude Algebra Interpolation Primitives Toy Codec Common Dkg DkgSpec Ceremony.
From S2P Require Import DkgTheorems DkgSession.

(** The order of the phases. *)
Definition phase_rank (p : DkgPhase) : nat :=
  match p with
  | Initializing => 0
  | Phase0CommitmentHashes => 1
  | Phase1Commitments => 2
  | Phase2Shares => 3
  | Phase4Completing => 4
  | Phase4Complete => 5
  end.

Lemma phase_in_true p ps : phase_in p ps = true <-> p ∈ ps.
Proof. apply bool_decide_eq_true. Qed.

Lemma phase_in_false p ps : phase_in p ps = false <-> p ∉ ps.
Proof. apply bool_decide_eq_false. Qed.

Lemma is_ok_true {E A} (r : res E A) : is_ok r = true <-> exists a, r = Ok a.
Proof. destruct r; cbn; naive_solver. Qed.

(** *** The transition function *)

Lemma should_complete_rank s : should_complete_phase4 s = true -> (phase_rank (ss_phase s) < 4)%nat.
Proof.
  unfold should_complete_phase4. case_match eqn:E; [done|]. intros _.
  apply phase_in_false in E. destruct (ss_phase s); cbn; [lia..| |]; exfalso; apply E; set_solver.
Qed.

Lemma should_initiate_rank s : should_initiate_phase2 s = true -> (phase_rank (ss_phase s) < 3)%nat.
Proof.
  unfold should_initiate_phase2. case_match; [done|]. case_match eqn:E; [done|]. intros _.
  apply phase_in_false in E. destruct (ss_phase s); cbn; [lia..| | |]; exfalso; apply E; set_solver.
Qed.

Lemma should_reveal_phase s : should_reveal_commitment s = true -> ss_phase s = Phase0CommitmentHashes.
Proof.
  unfold should_reveal_commitment. rewrite !andb_true_iff. intros [[[[[_ H] _] _] _] _].
  by apply bool_decide_eq_true in H.
Qed.

(** The commands that must not be repeated, with the phase each one claims. *)
Definition claims (c : DkgCommand) : option DkgPhase :=
  match c with
  | RevealCommitment => Some Phase1Commitments
  | InitiatePhase2Shares => Some Phase2Shares
  | CompletePhase4 => Some Phase4Completing
  | AckValidReshareShare _ => None
  end.

(** Completion by distribution is for departing dealers. *)
Definition dealer_distributed (r : DkgRole) (e : DkgEvent) : Prop :=
  r = Dealer /\ exists i, e = Phase2SharesDistributed i.

#[export] Instance dealer_distributed_dec r e : Decision (dealer_distributed r e).
Proof.
  destruct (decide (r = Dealer)) as [->|]; [|right; by intros [? _]].
  destruct e; first [right; by intros [_ [? [=]]]|left; split; [done|by eexists]].
Defined.

(** A transition claims at most one phase, strictly above the current one. *)
Lemma transition_spec s e :
  ~ dealer_distributed (ss_role s) e ->
  let t := transition s e in
  (next_phase t = None /\ Forall (fun c => claims c = None) (commands t)) \/
  exists p l c, next_phase t = Some p /\ commands t = l ++ [c] /\ claims c = Some p /\
    Forall (fun c => claims c = None) l /\ (phase_rank (ss_phase s) < phase_rank p)%nat.
Proof.
  intros Hd t. subst t. destruct e; cbn [transition].
  - case_match eqn:E; [right|left; by repeat constructor].
    apply should_reveal_phase in E. exists Phase1Commitments, [], RevealCommitment. rewrite E. cbn.
    repeat split; [constructor|lia].
  - case_match eqn:E; [right|left; by repeat constructor].
    apply should_initiate_rank in E. by exists Phase2Shares, [], InitiatePhase2Shares.
  - set (t := if should_ack_valid_reshare_share s then _ else _).
    assert (next_phase t = None /\ Forall (fun c => claims c = None) (commands t)) as [Hn Hc]
      by (subst t; case_match; cbn; split; by repeat constructor).
    unfold push_phase4_if_ready. case_match eqn:E; [right|by left]. apply should_complete_rank in E.
    by exists Phase4Completing, (commands t), CompletePhase4.
  - unfold push_phase4_if_ready. case_match eqn:E; [right|left; by repeat constructor].
    apply should_complete_rank in E. by exists Phase4Completing, [], CompletePhase4.
  - rewrite (bool_decide_eq_false_2 (ss_role s = Dealer)) by (intros H; apply Hd; split; eauto).
    left. case_match; cbn; split; by repeat constructor.
  - unfold push_phase4_if_ready. case_match eqn:E; [right|left; by repeat constructor].
    apply should_complete_rank in E. by exists Phase4Completing, [], CompletePhase4.
Qed.

(** When completion is commanded. *)
Lemma transition_completes s e :
  CompletePhase4 ∈ commands (transition s e) ->
  next_phase (transition s e) = Some Phase4Completing /\
  (dealer_distributed (ss_role s) e \/ (should_complete_phase4 s = true /\ evaluates_phase4 e = true)).
Proof.
  destruct e; cbn [transition].
  - case_match; set_solver.
  - case_match; set_solver.
  - unfold push_phase4_if_ready. case_match; [by auto|]. case_match; set_solver.
  - unfold push_phase4_if_ready. case_match; [by auto|set_solver].
  - case_bool_decide as Hd; [|case_match; set_solver]. intros _. split; [done|].
    left. split; [done|]. by eexists.
  - unfold push_phase4_if_ready. case_match; [by auto|set_solver].
Qed.

Section Session.
Context {F G S P : Type} {SF : ScalarField F} {CG : CurveGroup F G} {BL : Blst F G S P}.
Abbreviation state := (DkgSessionState F G).

Lemma phase_transition_phase p (s : state) : phase (transition_phase p s) = p.
Proof. unfold transition_phase. case_bool_decide; done. Qed.

Lemma node_transition_phase p (s : state) : node (transition_phase p s) = node s.
Proof. unfold transition_phase. case_bool_decide; done. Qed.

(** ** Phase 4 *)

(** A reshare session that receives, which waits for its selected dealers. *)
Definition reshare_receives (s : state) : bool :=
  is_reshare (snapshot_of s ReadinessChanged) && role_in (role (node s)) [Receiver; DealerReceiver].

(** The session has what completing it takes. *)
Definition completable (s : state) : Prop :=
  (exists sh, compute_secret_share (node s) = Ok sh) /\
  (exists pk, compute_aggregate_public_key (node s) = Ok pk) /\
  (if reshare_receives s then selected_dealers s <> None
   else (phase4_expected_shares (snapshot_of s ReadinessChanged) <= shares_received s)%Z).

(** Phase 4 can be claimed. *)
Definition ready (s : state) : Prop := phase s ∉ [Phase4Completing; Phase4Complete] /\ completable s.

Lemma completable_transition_phase p (s : state) : completable (transition_phase p s) <-> completable s.
Proof. unfold transition_phase. by case_bool_decide. Qed.

Lemma should_complete_ready (s : state) e :
  evaluates_phase4 e = true -> (should_complete_phase4 (snapshot_of s e) = true <-> ready s).
Proof.
  intros Ev. unfold ready, completable, reshare_receives, snapshot_of, should_complete_phase4. rewrite Ev. cbn -[elem_of].
  rewrite <- !is_ok_true, <- phase_in_false.
  destruct (phase_in (phase s) _); [naive_solver|]. fold (role (node s)).
  destruct (is_reshare _ && _); rewrite !andb_true_iff, ?Z.leb_le;
    [destruct (selected_dealers s)|]; naive_solver.
Qed.

Lemma phase4_claim_cases e (s : state) :
  CompletePhase4 ∈ commands (claim_transition e s).1.2 -> dealer_distributed (role (node s)) e \/ ready s.
Proof.
  intros [_ [Hd|[Hc Ev]]]%transition_completes; [by left|]. right. by apply should_complete_ready in Hc.
Qed.

(** C18: Phase 4 is only claimed when it can be completed.  When the atomic
    section commands [CompletePhase4], the session enters [Phase4Completing],
    and either this is a departing dealer that has distributed its shares, or
    phase 4 had not been claimed, the node can compute both its secret share
    and the aggregate key, a reshare receiver has its selected dealers, and
    every other session has counted a share from each peer. *)
Theorem phase4_claim_ready e (s s' : state) snap t :
  claim_transition e s = ((snap, t), s') -> CompletePhase4 ∈ commands t ->
  phase s' = Phase4Completing /\ (dealer_distributed (role (node s)) e \/ ready s).
Proof.
  intros H Hin. unfold claim_transition in H. injection H as <- <- <-.
  apply transition_completes in Hin as [Hn [Hd|[Hc Ev]]]; rewrite Hn, phase_transition_phase.
  - split; [done|]. by left.
  - split; [done|]. right. by apply should_complete_ready in Hc.
Qed.

(** ** Claims happen once *)

(** The distributions a claim announces. *)
Definition distributions (e : DkgEvent) : nat := match e with Phase2SharesDistributed _ => 1 | _ => 0 end.

(** The steps of a session, with the distributions they announce and the commands
    they give: the atomic sections, and whatever else the handlers do to it,
    provided the phase does not move back and the role stays. *)
Inductive step (s : state) : nat -> list DkgCommand -> state -> Prop :=
  | step_claim e : step s (distributions e) (commands (claim_transition e s).1.2) (claim_transition e s).2
  | step_other s' :
      (phase_rank (phase s) <= phase_rank (phase s'))%nat -> role (node s') = role (node s) -> step s 0 [] s'.

Inductive session_run (s : state) : nat -> list DkgCommand -> state -> Prop :=
  | run_nil : session_run s 0 [] s
  | run_step d cs s1 d' cs' s2 : step s d cs s1 -> session_run s1 d' cs' s2 -> session_run s (d + d') (cs ++ cs') s2.

(** How often a command is given. *)
Definition count (c : DkgCommand) (cs : list DkgCommand) : nat := length (filter (fun x => x = c) cs).

Lemma count_app c l k : count c (l ++ k) = (count c l + count c k)%nat.
Proof. unfold count. by rewrite filter_app, length_app. Qed.

Lemma count_notin c l : c ∉ l -> count c l = 0%nat.
Proof.
  induction l as [|x l IH]; [done|]. rewrite not_elem_of_cons. intros [Hx Hl]. unfold count in *.
  rewrite filter_cons_False by congruence. by apply IH.
Qed.

Lemma count_none (c : DkgCommand) p l : claims c = Some p -> Forall (fun c => claims c = None) l -> count c l = 0%nat.
Proof. intros Hc Hl. apply count_notin. intros Hin. rewrite Forall_forall in Hl. by rewrite (Hl _ Hin) in Hc. Qed.

Lemma claims_rank c p : claims c = Some p -> (phase_rank p <= 4)%nat.
Proof. destruct c; intros [= <-]; cbn; lia. Qed.

Lemma step_role s d cs s' : step s d cs s' -> role (node s') = role (node s).
Proof. intros [e|s1 _ ?]; [|done]. unfold claim_transition. cbn [snd]. case_match; [by rewrite node_transition_phase|done]. Qed.

(** A departing dealer that has distributed its shares. *)
Lemma dealer_claim (s : state) i :
  role (node s) = Dealer -> commands (claim_transition (Phase2SharesDistributed i) s).1.2 = [CompletePhase4] /\
  phase (claim_transition (Phase2SharesDistributed i) s).2 = Phase4Completing.
Proof.
  intros Hr. unfold claim_transition. cbn [fst snd transition snapshot_of ss_role]. rewrite Hr. cbn. split; [done|].
  apply phase_transition_phase.
Qed.

(** Any other claim. *)
Lemma step_claims s d cs s' c p :
  step s d cs s' -> claims c = Some p -> ~ (role (node s) = Dealer /\ c = CompletePhase4) ->
  ((phase_rank p <= phase_rank (phase s))%nat -> (phase_rank p <= phase_rank (phase s'))%nat) /\
  (count c cs = 0%nat \/ count c cs = 1%nat /\ (phase_rank (phase s) < phase_rank p <= phase_rank (phase s'))%nat).
Proof.
  intros [e|s1 Hr _] Hc Hn; [|split; [lia|by left]].
  destruct (decide (dealer_distributed (role (node s)) e)) as [[Hd [i ->]]|Hd].
  { destruct (dealer_claim s i Hd) as [-> ->]. pose proof (claims_rank _ _ Hc). split; [cbn; lia|]. left. apply count_notin.
    intros ->%list_elem_of_singleton. by apply Hn. }
  unfold claim_transition. cbn [fst snd].
  destruct (transition_spec (snapshot_of s e) e Hd) as [[-> Hl]|(q & l & x & -> & -> & Hq & Hl & Hr)].
  { split; [done|left]. by eapply count_none. }
  rewrite phase_transition_phase, count_app, (count_none c p l) by done. cbn in Hr. split; [lia|].
  destruct (decide (x = c)) as [->|Hne]; [right|left; apply count_notin; by intros <-%list_elem_of_singleton].
  replace q with p in * by congruence. unfold count. rewrite filter_cons_True by done. cbn. lia.
Qed.

(** A departing dealer completes when it has distributed, and then only. *)
Lemma step_dealer s d cs s' : step s d cs s' -> role (node s) = Dealer -> count CompletePhase4 cs = d.
Proof.
  intros [e|s1 _ _] Hr; [|done]. destruct (decide (CompletePhase4 ∈ commands (claim_transition e s).1.2)) as [Hin|Hin].
  - destruct (phase4_claim_cases e s Hin) as [[_ [i ->]]|[_ [[sh Hs] _]]]; [by rewrite (proj1 (dealer_claim s i Hr))|].
    unfold compute_secret_share in Hs. by rewrite Hr in Hs.
  - rewrite count_notin by done. destruct e; try done. by rewrite (proj1 (dealer_claim s _ Hr)), list_elem_of_singleton in Hin.
Qed.

Lemma run_claims s d cs s' c p :
  session_run s d cs s' -> claims c = Some p -> ~ (role (node s) = Dealer /\ c = CompletePhase4) ->
  (count c cs <= 1)%nat /\ ((phase_rank p <= phase_rank (phase s))%nat -> count c cs = 0%nat).
Proof.
  intros Hrun Hc. induction Hrun as [s|s d cs s1 d' cs' s2 Hs _ IH]; intros Hn; [split; [unfold count; cbn; lia|done]|].
  pose proof (step_role _ _ _ _ Hs) as Hrole. rewrite Hrole in IH. specialize (IH Hn) as [IH1 IH0].
  destruct (step_claims _ _ _ _ c p Hs Hc Hn) as [Hm [E|[E Hr]]]; rewrite count_app, E.
  - split; [lia|]. intros Hp. rewrite IH0; [done|]. by apply Hm.
  - rewrite IH0 by lia. split; lia.
Qed.

Lemma run_dealer s d cs s' : session_run s d cs s' -> role (node s) = Dealer -> count CompletePhase4 cs = d.
Proof.
  induction 1 as [s|s d cs s1 d' cs' s2 Hs _ IH]; intros Hr; [done|].
  rewrite count_app, (step_dealer _ _ _ _ Hs Hr), IH; [done|]. by rewrite (step_role _ _ _ _ Hs).
Qed.

(** C17: Every side effect is claimed at most once.  However the atomic sections
    of a session interleave with the rest of its handlers, as long as none of
    these moves the phase back or changes the role of the node, the commitment is
    revealed at most once and the shares are sent at most once; and phase 4 is completed at most once, except by
    a departing dealer, which completes it exactly as often as it announces that
    it has distributed its shares. *)
Theorem side_effects_once s d cs s' :
  session_run s d cs s' ->
  (count RevealCommitment cs <= 1)%nat /\ (count InitiatePhase2Shares cs <= 1)%nat /\
  (role (node s) <> Dealer -> (count CompletePhase4 cs <= 1)%nat) /\ (role (node s) = Dealer -> count CompletePhase4 cs = d).
Proof.
  intros Hrun. split_and!.
  - apply (run_claims _ _ _ _ RevealCommitment Phase1Commitments Hrun eq_refl). naive_solver.
  - apply (run_claims _ _ _ _ InitiatePhase2Shares Phase2Shares Hrun eq_refl). naive_solver.
  - intros Hr. apply (run_claims _ _ _ _ CompletePhase4 Phase4Completing Hrun eq_refl). naive_solver.
  - by apply (run_dealer _ _ _ _ Hrun).
Qed.

(** Nothing guards the completion of a departing dealer: announcing the
    distribution a second time commands [CompletePhase4] again, also after the
    session was complete, which it then no longer is. *)
Lemma dealer_completes_again (s : state) i :
  role (node s) = Dealer ->
  let s1 := update_phase_for_attempt Phase4Complete (claim_transition (Phase2SharesDistributed i) s).2 in
  session_run s 2 [CompletePhase4; CompletePhase4] (claim_transition (Phase2SharesDistributed i) s1).2 /\
  phase (claim_transition (Phase2SharesDistributed i) s1).2 = Phase4Completing.
Proof.
  intros Hr s1. destruct (dealer_claim s i Hr) as [H1 H2].
  pose proof (step_role _ _ _ _ (step_claim s (Phase2SharesDistributed i))) as Hr1.
  assert (role (node s1) = Dealer) as Hr2.
  { unfold s1, update_phase_for_attempt. rewrite node_transition_phase. congruence. }
  destruct (dealer_claim s1 i Hr2) as [H3 H4]. split; [|done].
  apply (run_step s 1 [CompletePhase4] (claim_transition (Phase2SharesDistributed i) s).2 1 [CompletePhase4]).
  { rewrite <- H1. apply (step_claim s (Phase2SharesDistributed i)). }
  apply (run_step _ 0 [] s1 1 [CompletePhase4]).
  { apply step_other; [unfold s1, update_phase_for_attempt; rewrite phase_transition_phase, H2; cbn; lia|congruence]. }
  apply (run_step s1 1 [CompletePhase4] (claim_transition (Phase2SharesDistributed i) s1).2 0 []); [|apply run_nil].
  rewrite <- H3 at 1. apply (step_claim s1 (Phase2SharesDistributed i)).
Qed.

(** An unconditional phase write undoes a claim.  If a recorded share
    commands [CompletePhase4] and the phase-2 initiator then writes
    [Phase2Shares], as [update_phase_for_attempt] does without looking at the
    phase, the next readiness event commands [CompletePhase4] a second time. *)
Lemma phase2_write_reclaims (s : state) i :
  CompletePhase4 ∈ commands (claim_transition (ShareRecorded i) s).1.2 ->
  let s1 := (claim_transition (ShareRecorded i) s).2 in
  let s2 := update_phase_for_attempt Phase2Shares s1 in
  CompletePhase4 ∈ commands (claim_transition ReadinessChanged s2).1.2.
Proof.
  intros Hin s1 s2. unfold claim_transition in Hin. cbn [fst snd] in Hin.
  apply transition_completes in Hin as [Hn [[_ [j Hj]]|[Hc Ev]]]; [done|].
  apply should_complete_ready in Hc as [_ Hc]; [|done].
  assert (ready s2) as Hr.
  { subst s2 s1. unfold update_phase_for_attempt, claim_transition. cbn [snd]. rewrite Hn. split.
    - rewrite phase_transition_phase. set_solver.
    - by rewrite !completable_transition_phase. }
  unfold claim_transition. cbn [fst snd transition]. unfold push_phase4_if_ready.
  rewrite (proj2 (should_complete_ready s2 ReadinessChanged eq_refl) Hr). cbn. left.
Qed.

End Session.

(** ** Instances *)

Module SessionSample.

(** Node 2 of the sample key generation, with the shares of its two peers. *)
Definition session (p : DkgPhase) : DkgSessionState ToyF ToyG1 :=
  MkDkgSessionState KFresh p (Sample.fin 2) ∅ true 2 2 None.

Lemma completes : CompletePhase4 ∈ commands (claim_transition (ShareRecorded 3) (session Phase2Shares)).1.2.
Proof. apply (bool_decide_unpack _). vm_compute. exact I. Qed.

End SessionSample.

Import SessionSample.

Lemma phase4_claim_ready_witness :
  phase (claim_transition (ShareRecorded 3) (session Phase2Shares)).2 = Phase4Completing /\
  (dealer_distributed (role (node (session Phase2Shares))) (ShareRecorded 3) \/ ready (session Phase2Shares)).
Proof.
  apply (phase4_claim_ready (ShareRecorded 3) (session Phase2Shares) _
    (claim_transition (ShareRecorded 3) (session Phase2Shares)).1.1
    (claim_transition (ShareRecorded 3) (session Phase2Shares)).1.2).
  - reflexivity.
  - exact completes.
Defined.

Lemma side_effects_once_witness :
  (count CompletePhase4 (commands (claim_transition (ShareRecorded 3) (session Phase2Shares)).1.2 ++ []) <= 1)%nat.
Proof.
  apply (side_effects_once (session Phase2Shares) (0 + 0) _ (claim_transition (ShareRecorded 3) (session Phase2Shares)).2).
  - apply run_step with (s1 := (claim_transition (ShareRecorded 3) (session Phase2Shares)).2).
    + apply (step_claim _ (ShareRecorded 3)).
    + apply run_nil.
  - intros H. by vm_compute in H.
Defined.
