(* ===== verification/ReportCodec.v ===== *)
(** * The canonical codec of fault reports

    [crates/reporting/src/codec.rs]: the big-endian, length-prefixed writers
    and the [Decoder] that reads the fields back, with the error of each early
    return.  A [Field] pairs a writer with the reader of the same field and
    states that they are inverse to each other: what was written is read back,
    and whatever a reader accepts is exactly what the writer produces for the
    value it returns.  [Canonical] states the same of a whole message, and is
    the interface the enclosing messages rely on. *)
From stdpp Require Import pretty.
From S2P Require Import Prelude Primitives Context.

(** ** Errors ([error.rs]) *)

Inductive ReportingError : Type :=
  | InvalidReport (msg : string)
  | Unauthorized (msg : string)
  | TargetReachable
  | HealthProbeInconclusive
  | Expired
  | UnsupportedReportType (name : string)
  | BulletinError (msg : string)
  | ReportSigningError (msg : string)
  | ReportSerializationError (msg : string)
  | CapacityReached.

Abbreviation report_result := (res ReportingError).

(** ** UTF-8

    [String::from_utf8] accepts the well-formed sequences of the Unicode
    standard (table 3-7): no overlong forms, no surrogates, nothing above
    U+10FFFF. *)
Definition in_range (lo hi : Z) (b : Byte.byte) : bool :=
  let v := byte.unsigned b in (lo <=? v) && (v <=? hi).

Definition continuation (b : Byte.byte) : bool := in_range 0x80 0xBF b.

(** The range of the byte after a leading one, and the number of further
    continuation bytes. *)
Definition sequence_of (b : Byte.byte) : option (Z * Z * nat) :=
  if in_range 0xC2 0xDF b then Some (0x80, 0xBF, 0%nat)
  else if in_range 0xE0 0xE0 b then Some (0xA0, 0xBF, 1%nat)
  else if in_range 0xE1 0xEC b || in_range 0xEE 0xEF b then Some (0x80, 0xBF, 1%nat)
  else if in_range 0xED 0xED b then Some (0x80, 0x9F, 1%nat)
  else if in_range 0xF0 0xF0 b then Some (0x90, 0xBF, 2%nat)
  else if in_range 0xF1 0xF3 b then Some (0x80, 0xBF, 2%nat)
  else if in_range 0xF4 0xF4 b then Some (0x80, 0x8F, 2%nat)
  else None.

Fixpoint utf8_valid (s : bytes) : bool :=
  match s with
  | [] => true
  | b :: s1 =>
      if in_range 0 0x7F b then utf8_valid s1
      else match sequence_of b, s1 with
           | Some (lo, hi, 0%nat), c :: s2 => in_range lo hi c && utf8_valid s2
           | Some (lo, hi, 1%nat), c :: d :: s3 => in_range lo hi c && continuation d && utf8_valid s3
           | Some (lo, hi, 2%nat), c :: d :: e :: s4 =>
               in_range lo hi c && continuation d && continuation e && utf8_valid s4
           | _, _ => false
           end
  end.

(** ** Writers *)

Definition push (out : bytes) (b : Byte.byte) : bytes := out ++ [b].
Definition write_u32 (out : bytes) (value : Z) : bytes := out ++ to_be_bytes 4 value.
Definition write_u64 (out : bytes) (value : Z) : bytes := out ++ to_be_bytes 8 value.
Definition write_bool (out : bytes) (value : bool) : bytes :=
  push out (if value then Byte.x01 else Byte.x00).

Definition write_bytes (out value : bytes) : bytes :=
  write_u32 out (as_u32 (Z.of_nat (length value))) ++ value.

Definition write_fixed_32 (out value : bytes) : bytes := out ++ value.

Definition write_string (out value : bytes) : bytes := write_bytes out value.

Definition write_string_vec (out : bytes) (values : list bytes) : bytes :=
  fold_left write_string values (write_u32 out (as_u32 (Z.of_nat (length values)))).

Definition write_optional_string (out : bytes) (value : option bytes) : bytes :=
  match value with Some v => write_string (push out Byte.x01) v | None => push out Byte.x00 end.

Definition write_optional_bytes (out : bytes) (value : option bytes) : bytes :=
  match value with Some v => write_bytes (push out Byte.x01) v | None => push out Byte.x00 end.

Definition write_optional_string_vec (out : bytes) (value : option (list bytes)) : bytes :=
  match value with Some v => write_string_vec (push out Byte.x01) v | None => push out Byte.x00 end.

Definition write_optional_u32 (out : bytes) (value : option Z) : bytes :=
  match value with Some v => write_u32 (push out Byte.x01) v | None => push out Byte.x00 end.

Definition write_optional_u64 (out : bytes) (value : option Z) : bytes :=
  match value with Some v => write_u64 (push out Byte.x01) v | None => push out Byte.x00 end.

(** The presence byte in front of any writer. *)
Definition write_optional {A} (write : bytes -> A -> bytes) (out : bytes) (value : option A) : bytes :=
  match value with Some v => write (push out Byte.x01) v | None => push out Byte.x00 end.

(** ** The decoder *)

Record Decoder := MkDecoder { dec_bytes : bytes; cursor : nat }.

Definition Decoder_new (b : bytes) : Decoder := MkDecoder b 0.

Abbreviation reader := (method Decoder ReportingError).

Definition advance (n : nat) : reader unit :=
  m_modify (fun d => MkDecoder (dec_bytes d) (cursor d + n)).

(** [bytes.get(cursor..cursor + n)], then moving the cursor; the addition
    saturates at [usize::MAX], where the range is out of bounds as well. *)
Definition take_bytes (n : Z) (e : ReportingError) : reader bytes :=
  let! d := m_get in
  let! b := m_lift (ok_or (if Z.of_nat (cursor d) + n <=? Z.of_nat (length (dec_bytes d))
                           then Some (take (Z.to_nat n) (drop (cursor d) (dec_bytes d))) else None) e) in
  advance (length b) ;!
  m_ret b.

(** A string in a diagnostic. *)
Definition show (s : bytes) : string := String.string_of_list_byte s.

Definition missing (label : string) : ReportingError := InvalidReport ("missing " +:+ label).
Definition truncated (label : string) : ReportingError := InvalidReport ("truncated " +:+ label).

Definition read_u8 (label : string) : reader Byte.byte :=
  let! d := m_get in
  let! b := m_lift (ok_or (dec_bytes d !! cursor d) (missing label)) in
  advance 1 ;!
  m_ret b.

Definition read_bool (label : string) : reader bool :=
  let! tag := read_u8 label in
  m_lift (match tag with
          | Byte.x00 => Ok false
          | Byte.x01 => Ok true
          | value => Err (InvalidReport ("invalid bool " +:+ label +:+ " tag " +:+ pretty (byte.unsigned value)))
          end).

Definition from_be_bytes (b : bytes) : Z := from_le_bytes (reverse b).

Definition read_u32 (label : string) : reader Z :=
  let! b := take_bytes 4 (missing label) in m_ret (from_be_bytes b).

Definition read_u64 (label : string) : reader Z :=
  let! b := take_bytes 8 (missing label) in m_ret (from_be_bytes b).

Definition read_bytes (label : string) : reader bytes :=
  let! len := read_u32 (label +:+ "_length") in
  take_bytes len (truncated label).

Definition read_string (label : string) : reader bytes :=
  let! len := read_u32 (label +:+ "_length") in
  let! b := take_bytes len (truncated label) in
  m_lift (ensure (utf8_valid b) (InvalidReport (label +:+ " is not utf-8"))) ;!
  m_ret b.

Definition read_fixed_32 (label : string) : reader bytes := take_bytes 32 (truncated label).

Definition read_optional {A} (read : string -> reader A) (label : string) : reader (option A) :=
  let! tag := read_u8 (label +:+ "_present") in
  match tag with
  | Byte.x00 => m_ret None
  | Byte.x01 => let! v := read label in m_ret (Some v)
  | value => m_lift (Err (InvalidReport
      ("invalid optional " +:+ label +:+ " tag " +:+ pretty (byte.unsigned value))))
  end.

Definition read_optional_bytes (label : string) : reader (option bytes) := read_optional read_bytes label.
Definition read_optional_u64 (label : string) : reader (option Z) := read_optional read_u64 label.

Definition finish : reader unit :=
  let! d := m_get in
  m_lift (reject (negb (cursor d =? length (dec_bytes d))%nat) (InvalidReport "trailing payload bytes")).

(** Decoding starts at the first byte; the decoder is dropped at the end. *)
Definition decode {A} (m : reader A) (b : bytes) : report_result A := (m (Decoder_new b)).1.

(** [bytes.try_into()] into an array of [n] bytes. *)
Definition read_array (n : nat) (what : string) (label : string) : reader bytes :=
  let! b := read_bytes label in
  m_lift (ensure (length b =? n)%nat
    (InvalidReport (what +:+ " must be " +:+ pretty n +:+ " bytes, got " +:+ pretty (length b)))) ;!
  m_ret b.

(** [for _ in 0..n { v.push(..) }]. *)
Fixpoint read_times {A} (n : nat) (rd : reader A) : reader (list A) :=
  match n with
  | O => m_ret []
  | S n' => let! x := rd in let! xs := read_times n' rd in m_ret (x :: xs)
  end.


(** ** What is left to read *)

(** The cursor is inside the input, and [r] is what follows it. *)
Definition view (d : Decoder) (r : bytes) : Prop :=
  (cursor d <= length (dec_bytes d))%nat /\ drop (cursor d) (dec_bytes d) = r.

Lemma view_new b : view (Decoder_new b) b.
Proof. split; cbn; [lia|by rewrite drop_0]. Qed.

Lemma view_advance d n r :
  view d r -> (n <= length r)%nat -> view (MkDecoder (dec_bytes d) (cursor d + n)) (drop n r).
Proof.
  intros [Hc <-] Hn. rewrite length_drop in Hn. split; cbn; [lia|]. by rewrite drop_drop.
Qed.

Lemma take_bytes_run n e d r :
  view d r -> 0 <= n ->
  take_bytes n e d =
    if n <=? Z.of_nat (length r)
    then (Ok (take (Z.to_nat n) r), MkDecoder (dec_bytes d) (cursor d + Z.to_nat n))
    else (Err e, d).
Proof.
  intros [Hc <-] Hn. unfold take_bytes, m_bind, m_get, m_lift, ok_or, advance, m_modify, m_ret.
  rewrite length_drop. destruct (Z.leb_spec n (Z.of_nat (length (dec_bytes d) - cursor d))).
  - rewrite (proj2 (Z.leb_le _ _)) by lia. rewrite length_take, length_drop.
    do 3 f_equal. lia.
  - by rewrite (proj2 (Z.leb_gt _ _)) by lia.
Qed.

(** A reader ends with a value or an error, never with a panic. *)
Definition returns {A} (p : report_result A * Decoder) : Prop :=
  match p.1 with Ok _ | Err _ => True | _ => False end.

(** ** Fields

    [enc] is what the writer appends for a value; [rd] reads it. *)
Class Field {A} (wf : A -> Prop) (enc : A -> bytes) (rd : reader A) : Prop := {
  field_read d a r : view d (enc a ++ r) -> wf a -> exists d', rd d = (Ok a, d') /\ view d' r;
  field_sound d r a d' : view d r -> rd d = (Ok a, d') ->
    wf a /\ exists r', r = enc a ++ r' /\ view d' r';
  field_returns d : returns (rd d);
}.

(** Reading a field, then the rest. *)
Section Steps.
Context {A B : Type} {wf : A -> Prop} {enc : A -> bytes} {rd : reader A} {Field0 : Field wf enc rd}.

Lemma step_read (k : A -> reader B) d a r :
  view d (enc a ++ r) -> wf a -> exists d', m_bind rd k d = k a d' /\ view d' r.
Proof.
  intros V W. destruct (field_read d a r V W) as (d' & E & V').
  exists d'. unfold m_bind. by rewrite E.
Qed.

Lemma step_sound (k : A -> reader B) d r x d2 :
  view d r -> m_bind rd k d = (Ok x, d2) ->
  exists a r' d', r = enc a ++ r' /\ wf a /\ view d' r' /\ k a d' = (Ok x, d2).
Proof.
  intros V H. unfold m_bind in H. destruct (rd d) as [[a| | |] d'] eqn:E; try discriminate.
  destruct (field_sound d r a d' V E) as (W & r' & -> & V'). eauto 10.
Qed.

Lemma step_returns (k : A -> reader B) d :
  (forall a d', returns (k a d')) -> returns (m_bind rd k d).
Proof.
  intros H. unfold m_bind. pose proof (field_returns d) as R. unfold returns in R.
  destruct (rd d) as [[] ?]; cbn in R; [apply H|done..].
Qed.
End Steps.

(** One field further, on the input and in the result.  [V] is the view of the
    decoder; the instance of the field is found from its reader. *)
Ltac read_field V :=
  match type of V with
  | view ?d _ =>
      match goal with
      | |- context [m_bind ?rd ?k d] =>
          let F := constr:(_ : Field _ _ rd) in
          let d' := fresh "d" in
          let E := fresh "E" in
          let V' := fresh "V" in
          first [edestruct (step_read (Field0 := F) k d tt _ V) as (d' & E & V')
                | edestruct (step_read (Field0 := F) k d _ _ V) as (d' & E & V')];
          [try first [exact I | eassumption] | rewrite E; clear E V; cbn beta iota; rename V' into V]
      end
  end.

Ltac sound_field H V :=
  match type of H with
  | m_bind ?rd ?k ?d = _ =>
      let F := constr:(_ : Field _ _ rd) in
      let a := fresh "a" in
      let r := fresh "r" in
      let d' := fresh "d" in
      let V' := fresh "V" in
      let W := fresh "W" in
      apply (step_sound (Field0 := F) k d _ _ _ V) in H as (a & r & d' & -> & W & V' & H);
      cbn beta iota in H; clear V; rename V' into V
  end.

(** A check or a conversion of values already read. *)
Lemma lift_sound {A B} (c : report_result A) (k : A -> reader B) d x d2 :
  m_bind (m_lift c) k d = (Ok x, d2) -> exists a, c = Ok a /\ k a d = (Ok x, d2).
Proof. unfold m_bind, m_lift. destruct c; try discriminate. eauto. Qed.

Lemma lift_returns {A B} (c : report_result A) (k : A -> reader B) d :
  no_panic c -> c <> OutOfFuel -> (forall a, returns (k a d)) -> returns (m_bind (m_lift c) k d).
Proof. unfold m_bind, m_lift. destruct c; cbn; try done. Qed.

(** A field whose value is converted: [f] parses exactly the image of [g]. *)
Lemma field_map {A B} (wf : A -> Prop) enc (rd : reader A) (wf' : B -> Prop) (g : B -> A)
    (f : A -> report_result B) :
  Field wf enc rd ->
  (forall b, wf' b -> wf (g b) /\ f (g b) = Ok b) ->
  (forall a b, wf a -> f a = Ok b -> wf' b /\ a = g b) ->
  (forall a, no_panic (f a) /\ f a <> OutOfFuel) ->
  Field wf' (fun b => enc (g b)) (let! a := rd in m_lift (f a)).
Proof.
  intros HF Hg Hf Hr. split.
  - intros d b r V W. destruct (Hg b W) as [Wg E].
    destruct (step_read (fun a => m_lift (f a)) d (g b) r V Wg) as (d' & -> & V').
    exists d'. unfold m_lift. by rewrite E.
  - intros d r b d' V H. apply (step_sound (fun a => m_lift (f a))) with (r := r) in H as (a & r' & d1 & -> & W & V' & H); [|done].
    unfold m_lift in H. injection H as E ->. destruct (Hf a b W E) as [W' ->]. eauto.
  - intros d. apply step_returns. intros a d'. unfold m_lift, returns; cbn.
    destruct (Hr a) as [H1 H2]. by destruct (f a).
Qed.

(** *** Integers *)

Lemma from_to_be_bytes n z : 0 <= z < 2 ^ (Z.of_nat n * 8) -> from_be_bytes (to_be_bytes n z) = z.
Proof. intros H. unfold from_be_bytes, to_be_bytes. rewrite reverse_involutive. by apply from_to_le_bytes. Qed.

Lemma to_from_be_bytes n b : length b = n -> to_be_bytes n (from_be_bytes b) = b.
Proof.
  intros H. unfold from_be_bytes, to_be_bytes. rewrite to_from_le_bytes by by rewrite length_reverse.
  apply reverse_involutive.
Qed.

Lemma from_be_bytes_range n b : length b = n -> 0 <= from_be_bytes b < 2 ^ (Z.of_nat n * 8).
Proof. intros <-. unfold from_be_bytes. rewrite <- length_reverse. apply from_le_bytes_range. Qed.

(** A fixed number of bytes. *)
Lemma field_take n e : 0 <= n -> Field (fun b => length b = Z.to_nat n) id (take_bytes n e).
Proof.
  intros Hn. split.
  - intros d b r V W. rewrite (take_bytes_run n e d _ V Hn). rewrite (proj2 (Z.leb_le _ _)).
    2:{ rewrite length_app. unfold id in *. lia. }
    unfold id in *. exists (MkDecoder (dec_bytes d) (cursor d + Z.to_nat n)).
    rewrite take_app_length' by done. split; [done|].
    apply (view_advance _ (Z.to_nat n)) in V; [|rewrite length_app; lia].
    by rewrite drop_app_length' in V.
  - intros d r b d' V H. rewrite (take_bytes_run n e d r V Hn) in H.
    destruct (Z.leb_spec n (Z.of_nat (length r))) as [L|L]; [|discriminate]. injection H as <- <-.
    rewrite length_take. split; [lia|]. exists (drop (Z.to_nat n) r). unfold id.
    rewrite take_drop. split; [done|]. apply view_advance; [done|lia].
  - intros d. unfold take_bytes, returns, m_bind, m_get, m_lift. by destruct (_ <=? _).
Qed.

Lemma field_int n e (w : Z) : w = Z.of_nat n ->
  Field (fun z => 0 <= z < 2 ^ (w * 8)) (to_be_bytes n) (let! b := take_bytes w e in m_ret (from_be_bytes b)).
Proof.
  intros ->. apply (field_map (fun b => length b = Z.to_nat (Z.of_nat n)) id (take_bytes (Z.of_nat n) e)
    (fun z => 0 <= z < 2 ^ (Z.of_nat n * 8)) (to_be_bytes n) (fun b => Ok (from_be_bytes b)));
    [apply field_take; lia|..].
  - intros z H. rewrite length_to_be_bytes, from_to_be_bytes by done. split; [lia|done].
  - intros b z H [= <-]. assert (length b = n) as L by lia. rewrite to_from_be_bytes by done.
    split; [by apply from_be_bytes_range|done].
  - done.
Qed.

#[global] Instance field_u32 l : Field is_u32 (to_be_bytes 4) (read_u32 l).
Proof. exact (field_int 4 (missing l) 4 eq_refl). Qed.

#[global] Instance field_u64 l : Field is_u64 (to_be_bytes 8) (read_u64 l).
Proof. exact (field_int 8 (missing l) 8 eq_refl). Qed.

(** *** Bytes and strings *)

Definition enc_bytes (b : bytes) : bytes := to_be_bytes 4 (as_u32 (Z.of_nat (length b))) ++ b.

Lemma enc_bytes_app out b : write_bytes out b = out ++ enc_bytes b.
Proof. unfold enc_bytes, write_bytes, write_u32. by rewrite <- app_assoc. Qed.

#[global] Instance field_bytes l : Field short enc_bytes (read_bytes l).
Proof.
  split.
  - intros d b r V W. unfold enc_bytes in V.
    rewrite <- app_assoc in V. unfold as_u32 in V. rewrite Z.mod_small in V by done.
    destruct (step_read (rd := read_u32 (l +:+ "_length")) (fun len => take_bytes len (truncated l)) d _ _ V W) as (d1 & E & V1).
    unfold read_bytes. rewrite E.
    apply (field_read (Field := field_take (Z.of_nat (length b)) (truncated l) ltac:(lia)) d1 b r V1). lia.
  - intros d r b d' V H.
    apply (step_sound (rd := read_u32 (l +:+ "_length")) (fun len => take_bytes len (truncated l)) _ _ _ _ V) in H
      as (len & r1 & d1 & -> & W & V1 & H).
    destruct W as [Hl0 Hl1].
    apply (field_sound (Field := field_take len (truncated l) Hl0) d1 r1 b d' V1) in H
      as (W & r' & -> & V'). unfold id in *.
    assert (Z.of_nat (length b) = len) as L by lia. split; [unfold short, is_u32; lia|]. exists r'.
    split; [|done]. unfold enc_bytes, as_u32.
    rewrite L, Z.mod_small by lia. by rewrite <- app_assoc.
  - intros d. apply step_returns. intros len d'. unfold take_bytes, returns, m_bind, m_get, m_lift.
    by destruct (_ <=? _).
Qed.

(** A [String]: bytes that are UTF-8. *)
Definition is_string (s : bytes) : Prop := short s /\ utf8_valid s = true.

Lemma read_string_eq l d :
  read_string l d = (let! b := read_bytes l in m_lift (
    if utf8_valid b then Ok b else Err (InvalidReport (l +:+ " is not utf-8")))) d.
Proof.
  unfold read_string, read_bytes. rewrite m_bind_assoc. unfold m_bind.
  destruct (read_u32 _ d) as [[]]; try done. destruct (take_bytes _ _ _) as [[]]; try done.
  unfold m_lift, ensure. by destruct (utf8_valid _).
Qed.

Lemma field_ext {A} wf enc (rd rd' : reader A) :
  (forall d, rd' d = rd d) -> Field wf enc rd -> Field wf enc rd'.
Proof.
  intros E [H1 H2 H3]. split.
  - intros d. rewrite E. apply H1.
  - intros d r a d'. rewrite E. apply H2.
  - intros d. rewrite E. apply H3.
Qed.

#[global] Instance field_string l : Field is_string enc_bytes (read_string l).
Proof.
  eapply field_ext; [apply read_string_eq|].
  apply (field_map short enc_bytes (read_bytes l) is_string id); [apply _|..].
  - intros b [W U]. unfold id. by rewrite U.
  - intros a b W H. destruct (utf8_valid a) eqn:U; [|discriminate]. injection H as <-. done.
  - intros a. by destruct (utf8_valid a).
Qed.

(** An array of [n] bytes, written as it is or with its length. *)
Definition is_array (n : nat) (b : bytes) : Prop := length b = n.

#[global] Instance field_fixed_32 l : Field (is_array 32) id (read_fixed_32 l).
Proof. exact (field_take 32 (truncated l) ltac:(done)). Qed.

Lemma read_array_eq n w l d :
  read_array n w l d = (let! b := read_bytes l in m_lift (
    if (length b =? n)%nat then Ok b else Err (InvalidReport
      (w +:+ " must be " +:+ pretty n +:+ " bytes, got " +:+ pretty (length b))))) d.
Proof.
  unfold read_array, m_bind. destruct (read_bytes l d) as [[]]; try done.
  unfold m_lift, ensure. by destruct (length _ =? n)%nat.
Qed.

#[global] Instance field_array n w l : TCEq (Z.of_nat n <? 2 ^ 32) true ->
  Field (is_array n) enc_bytes (read_array n w l).
Proof.
  intros Hn%TCEq_eq%Z.ltb_lt. eapply field_ext; [apply read_array_eq|].
  apply (field_map short enc_bytes (read_bytes l) (is_array n) id); [apply _|..].
  - intros b W. unfold id, is_array in *. rewrite W, Nat.eqb_refl. split; [|done].
    unfold short, is_u32. lia.
  - intros a b W H. destruct (length a =? n)%nat eqn:U; [|discriminate]. injection H as <-.
    split; [by apply Nat.eqb_eq|done].
  - intros a. by destruct (length a =? n)%nat.
Qed.

(** *** Tags *)

#[global] Instance field_u8 l : Field (fun _ => True) (fun b => [b]) (read_u8 l).
Proof.
  split.
  - intros d b r V _. destruct V as [Hc Hd]. unfold read_u8, m_bind, m_get, m_lift, advance, m_modify, m_ret.
    assert (dec_bytes d !! cursor d = Some b) as ->.
    { replace (cursor d) with (cursor d + 0)%nat by lia. by rewrite <- lookup_drop, Hd. }
    eexists; split; [reflexivity|].
    apply (view_advance d 1 ([b] ++ r)); [by split|cbn; lia].
  - intros d r b d' V H. unfold read_u8, m_bind, m_get, m_lift, advance, m_modify, m_ret in H.
    destruct (dec_bytes d !! cursor d) as [x|] eqn:E; [|discriminate]. injection H as <- <-.
    split; [done|]. destruct V as [Hc <-]. erewrite drop_S by done. eexists; split; [reflexivity|].
    apply lookup_lt_Some in E. split; cbn; [lia|]. f_equal. lia.
  - intros d. unfold read_u8, returns, m_bind, m_get, m_lift. by destruct (_ !! _).
Qed.

Definition enc_bool (b : bool) : bytes := [if b then Byte.x01 else Byte.x00].

#[global] Instance field_bool l : Field (fun _ => True) enc_bool (read_bool l).
Proof.
  apply (field_map (fun _ => True) (fun b => [b]) (read_u8 l) (fun _ => True)
    (fun b : bool => if b then Byte.x01 else Byte.x00)); [apply _|..].
  - by intros [].
  - intros [] b _ H; try discriminate; injection H as <-; done.
  - by intros [].
Qed.

(** *** Options and lists *)

Definition enc_opt {A} (enc : A -> bytes) (o : option A) : bytes :=
  match o with None => [Byte.x00] | Some a => [Byte.x01] ++ enc a end.

#[global] Instance field_optional {A} wf enc (read : string -> reader A) l :
  Field wf enc (read l) -> Field (on_some wf) (enc_opt enc) (read_optional read l).
Proof.
  intros HF. split.
  - intros d o r V W. unfold read_optional. destruct o as [a|]; cbn [enc_opt] in V.
    + rewrite <- app_assoc in V. read_field V. read_field V. eauto.
    + read_field V. eauto.
  - intros d r o d' V H. unfold read_optional in H. sound_field H V. destruct a; try discriminate.
    + injection H as <- <-. split; [done|]. eauto.
    + sound_field H V. injection H as <- <-. split; [done|]. eexists. cbn [enc_opt].
      split; [by rewrite <- app_assoc|done].
  - intros d. apply step_returns. intros [] d'; try done. by apply step_returns.
Qed.

#[global] Instance field_optional_bytes l : Field (on_some short) (enc_opt enc_bytes) (read_optional_bytes l).
Proof. unfold read_optional_bytes. apply _. Qed.

#[global] Instance field_optional_u64 l : Field (on_some is_u64) (enc_opt (to_be_bytes 8)) (read_optional_u64 l).
Proof. unfold read_optional_u64. apply _. Qed.

(** A count, then that many elements. *)
Definition read_counted {A} (label : string) (rd : reader A) : reader (list A) :=
  let! count := read_u32 label in read_times (Z.to_nat count) rd.

Definition enc_list {A} (enc : A -> bytes) (l : list A) : bytes :=
  to_be_bytes 4 (as_u32 (Z.of_nat (length l))) ++ mjoin (enc <$> l).

Definition is_list {A} (wf : A -> Prop) (l : list A) : Prop :=
  is_u32 (Z.of_nat (length l)) /\ Forall wf l.

Section Times.
Context {A : Type} {wf : A -> Prop} {enc : A -> bytes} {rd : reader A} {Field0 : Field wf enc rd}.

Lemma field_times n :
  Field (fun l => length l = n /\ Forall wf l) (fun l => mjoin (enc <$> l)) (read_times n rd).
Proof.
  induction n as [|n IH]; split.
  - intros d l r V [L _]. destruct l; [|done]. eauto.
  - intros d r l d' V H. injection H as <- <-. eauto.
  - done.
  - intros d l r V [L W]. destruct l as [|a l]; [done|]. apply Forall_cons in W as [Wa W].
    cbn in V. rewrite <- app_assoc in V. cbn [read_times].
    read_field V. read_field V; [split; [cbn in L; lia|done]|]. eauto.
  - intros d r l d' V H. cbn [read_times] in H. sound_field H V. sound_field H V.
    destruct W0 as [L W0]. injection H as <- <-. split; [split; [cbn; lia|by constructor]|].
    eexists. cbn. split; [by rewrite <- app_assoc|done].
  - intros d. cbn [read_times]. apply step_returns. intros a d1. by apply (step_returns (rd := read_times n rd)).
Qed.

#[global] Instance field_counted l : Field (is_list wf) (enc_list enc) (read_counted l rd).
Proof.
  split.
  - intros d xs r V [L W]. unfold enc_list, as_u32 in V. rewrite Z.mod_small, <- app_assoc in V by done.
    unfold read_counted. read_field V.
    apply (field_read (Field := field_times _) _ xs r V). split; [lia|done].
  - intros d r xs d' V H. unfold read_counted in H. sound_field H V.
    apply (field_sound (Field := field_times _) _ _ xs d' V) in H as ([L Wx] & r2 & -> & V2).
    unfold is_u32 in W. assert (Z.of_nat (length xs) = a) as E by lia.
    split; [split; [unfold is_u32; lia|done]|]. exists r2.
    unfold enc_list, as_u32. rewrite E, Z.mod_small, <- app_assoc by done. done.
  - intros d. apply step_returns. intros c d'. apply (field_returns (Field := field_times _)).
Qed.
End Times.

(** ** Messages *)

(** A message type whose decoder accepts exactly its canonical encodings. *)
Class Canonical (T : Type) := {
  canonical_bytes : T -> bytes;
  from_canonical_bytes : bytes -> report_result T;
  canonical_wf : T -> Prop;
  canonical_exact b x : from_canonical_bytes b = Ok x <-> canonical_bytes x = b /\ canonical_wf x;
  canonical_returns b : no_panic (from_canonical_bytes b) /\ from_canonical_bytes b <> OutOfFuel;
}.

Lemma canonical_inj `{Canonical T} (x y : T) :
  canonical_wf x -> canonical_wf y -> canonical_bytes x = canonical_bytes y -> x = y.
Proof.
  intros Wx Wy E. apply (Ok_inj (E := ReportingError)).
  transitivity (from_canonical_bytes (T := T) (canonical_bytes x)).
  - symmetry. by apply canonical_exact.
  - by apply canonical_exact.
Qed.

Lemma canonical_decode `{Canonical T} (x : T) :
  canonical_wf x -> from_canonical_bytes (canonical_bytes x) = Ok x.
Proof. intros W. by apply canonical_exact. Qed.

(** A message inside another, behind its length. *)
Definition is_nested `{Canonical T} (x : T) : Prop := canonical_wf x /\ short (canonical_bytes x).

Definition read_nested `{Canonical T} (l : string) : reader T :=
  let! b := read_bytes l in m_lift (from_canonical_bytes b).

#[global] Instance field_nested `{Canonical T} l : Field (is_nested (T := T)) (fun x => enc_bytes (canonical_bytes x)) (read_nested l).
Proof.
  apply (field_map short enc_bytes (read_bytes l) is_nested canonical_bytes from_canonical_bytes); [apply _|..].
  - intros b [W S]. split; [done|]. by apply canonical_decode.
  - intros a b W E. apply canonical_exact in E as [<- Wb]. done.
  - apply canonical_returns.
Qed.

(** *** Whole messages: the fields in order, then [finish] *)

Lemma decode_Ok {A} (m : reader A) b x : decode m b = Ok x <-> exists d, m (Decoder_new b) = (Ok x, d).
Proof.
  unfold decode. destruct (m (Decoder_new b)) as [o d]. cbn. split; [intros ->; eauto|].
  by intros (d' & [= -> _]).
Qed.

Lemma finish_read {A} (k : unit -> reader A) d : view d [] -> m_bind finish k d = k tt d.
Proof.
  intros [Hc Hd%(f_equal length)]. rewrite length_drop in Hd. cbn in Hd.
  unfold finish, m_bind, m_get, m_lift. replace (cursor d) with (length (dec_bytes d)) by lia.
  by rewrite Nat.eqb_refl.
Qed.

Lemma finish_sound {A} (k : unit -> reader A) d r x d2 :
  view d r -> m_bind finish k d = (Ok x, d2) -> r = [] /\ k tt d = (Ok x, d2).
Proof.
  intros [Hc <-] H. unfold finish, m_bind, m_get, m_lift in H.
  destruct (cursor d =? length (dec_bytes d))%nat eqn:E; [|discriminate]. split; [|done].
  apply Nat.eqb_eq in E. rewrite E. apply drop_all.
Qed.

Lemma finish_returns {A} (k : unit -> reader A) d : (forall d', returns (k tt d')) -> returns (m_bind finish k d).
Proof.
  intros H. unfold finish, m_bind, m_get, m_lift. destruct (cursor d =? length (dec_bytes d))%nat; [apply H|done].
Qed.

(** What each writer appends. *)
Lemma write_string_app out v : write_string out v = out ++ enc_bytes v.
Proof. apply enc_bytes_app. Qed.
Lemma write_fixed_32_app out v : write_fixed_32 out v = out ++ id v.
Proof. done. Qed.
Lemma write_u32_app out v : write_u32 out v = out ++ to_be_bytes 4 v.
Proof. done. Qed.
Lemma write_u64_app out v : write_u64 out v = out ++ to_be_bytes 8 v.
Proof. done. Qed.
Lemma write_bool_app out v : write_bool out v = out ++ enc_bool v.
Proof. done. Qed.
Lemma push_app out b : push out b = out ++ [b].
Proof. done. Qed.
Lemma write_optional_bytes_app out v : write_optional_bytes out v = out ++ enc_opt enc_bytes v.
Proof. destruct v; cbn; [|done]. unfold push. by rewrite enc_bytes_app, <- app_assoc. Qed.
Lemma write_optional_string_app out v : write_optional_string out v = out ++ enc_opt enc_bytes v.
Proof. apply write_optional_bytes_app. Qed.
Lemma write_optional_u64_app out v : write_optional_u64 out v = out ++ enc_opt (to_be_bytes 8) v.
Proof. destruct v; cbn; [|done]. unfold push, write_u64. by rewrite <- app_assoc. Qed.

Lemma write_optional_app {A} (write : bytes -> A -> bytes) (enc : A -> bytes) :
  (forall out a, write out a = out ++ enc a) -> forall out v, write_optional write out v = out ++ enc_opt enc v.
Proof. intros H out [a|]; cbn; [|done]. unfold push. by rewrite H, <- app_assoc. Qed.

(** A loop that writes a counted list. *)
Lemma write_list_app {A} (write : bytes -> A -> bytes) (enc : A -> bytes) :
  (forall out a, write out a = out ++ enc a) ->
  forall l out, fold_left write l (write_u32 out (as_u32 (Z.of_nat (length l)))) = out ++ enc_list enc l.
Proof.
  intros H l out. unfold enc_list, write_u32. rewrite app_assoc.
  generalize (out ++ to_be_bytes 4 (as_u32 (Z.of_nat (length l)))). clear out. intros out.
  revert out; induction l as [|a l IH]; intros out; cbn; [by rewrite app_nil_r|].
  by rewrite IH, H, <- app_assoc.
Qed.

Lemma length_enc_bytes b : length (enc_bytes b) = (4 + length b)%nat.
Proof. unfold enc_bytes. by rewrite length_app, length_to_be_bytes. Qed.

(** From here on the encodings of fields stay folded. *)
Global Opaque enc_bytes enc_opt enc_list.

(** The files that define further writers extend [wire_more]. *)
Ltac wire_more := idtac.

Ltac wire_norm :=
  wire_more;
  rewrite ?enc_bytes_app, ?write_string_app, ?write_fixed_32_app, ?write_u32_app, ?write_u64_app,
    ?write_bool_app, ?push_app, ?write_optional_bytes_app, ?write_optional_string_app,
    ?write_optional_u64_app, <- ?app_assoc; cbn [app].

Ltac wire_split := repeat match goal with H : _ /\ _ |- _ => destruct H end.

Ltac wire_join := repeat match goal with |- _ /\ _ => split; [assumption|] end; assumption.

(** Whatever the decoder accepts is the encoding of what it returns. *)
Ltac wire_sound enc wf :=
  let d := fresh "d" in
  let H := fresh "H" in
  let V := fresh "V" in
  intros (d & H);
  match type of H with _ (Decoder_new ?b) = _ => pose proof (view_new b) as V end;
  repeat sound_field H V;
  apply (finish_sound _ _ _ _ _ V) in H as (-> & H); injection H as <- _;
  split; [unfold enc; cbv zeta; wire_norm; rewrite ?app_nil_r; reflexivity | unfold wf; wire_join].

(** An encoding is read back. *)
Ltac wire_read enc wf :=
  let W := fresh "W" in
  let V := fresh "V" in
  let d := fresh "d" in
  intros [<- W];
  match goal with |- exists d, ?m (Decoder_new (enc ?x)) = _ =>
    pose proof (view_new (enc x)) as V; revert V; generalize (Decoder_new (enc x)); intros d V;
    rewrite <- (app_nil_r (enc x)) in V;
    unfold enc in V; cbv zeta in V; revert V; wire_norm; intros V;
    destruct x; unfold wf in W; wire_split
  end;
  repeat read_field V; rewrite finish_read by exact V; eexists; reflexivity.

Ltac wire_exact from enc wf :=
  intros; unfold from; rewrite decode_Ok; split; [wire_sound enc wf | wire_read enc wf].

Lemma decode_returns {A} (m : reader A) b :
  (forall d, returns (m d)) -> no_panic (decode m b) /\ decode m b <> OutOfFuel.
Proof. intros H. specialize (H (Decoder_new b)). unfold decode, returns in *. by destruct (m _) as [[] ?]. Qed.

Ltac wire_returns from :=
  intros; apply decode_returns; intros;
  repeat (apply step_returns; intros); apply finish_returns; intros; exact I.

Ltac wire_message enc from wf :=
  refine {| canonical_bytes := enc; from_canonical_bytes := from; canonical_wf := wf |};
  [abstract wire_exact from enc wf | abstract wire_returns from].

(** A struct of fields inside a message; [unf] unfolds its reader and writer. *)
Ltac wire_struct unf enc wf :=
  let V := fresh "V" in
  let W := fresh "W" in
  let H := fresh "H" in
  let s := fresh "s" in
  let d := fresh "d" in
  split;
  [ intros d s ? V W; destruct s; unfold wf in W; unfold enc in V; unf; cbv zeta in V; revert V; wire_norm;
    intros V; wire_split; repeat read_field V; eexists; split; [reflexivity | exact V]
  | intros d ? s ? V H; unf; unfold m_ret in H; repeat sound_field H V; injection H as <- <-;
    split; [unfold wf; wire_join | eexists; split; [unfold enc; unf; cbv zeta; wire_norm; reflexivity | exact V]]
  | intros d; unf; repeat (apply step_returns; intros); exact I ].

(** ** Injectivity

    A readable field is a prefix code. *)
Lemma field_inj {A} {wf : A -> Prop} {enc : A -> bytes} {rd : reader A} `{!Field wf enc rd} a b x y :
  wf a -> wf b -> enc a ++ x = enc b ++ y -> a = b /\ x = y.
Proof.
  intros Wa Wb E. pose proof (view_new (enc a ++ x)) as V.
  destruct (field_read _ a x V Wa) as (d1 & H1 & [_ V1]). rewrite E in V, H1.
  destruct (field_read _ b y V Wb) as (d2 & H2 & [_ V2]). rewrite H1 in H2.
  injection H2 as -> ->. split; [done|by rewrite <- V1, <- V2].
Qed.

Lemma enc_bytes_inj a b x y : short a -> short b -> enc_bytes a ++ x = enc_bytes b ++ y -> a = b /\ x = y.
Proof. apply (field_inj (rd := read_bytes "x")). Qed.
Lemma enc_string_inj a b x y :
  is_string a -> is_string b -> enc_bytes a ++ x = enc_bytes b ++ y -> a = b /\ x = y.
Proof. apply (field_inj (rd := read_string "x")). Qed.
Lemma enc_u32_inj a b x y :
  is_u32 a -> is_u32 b -> to_be_bytes 4 a ++ x = to_be_bytes 4 b ++ y -> a = b /\ x = y.
Proof. apply (field_inj (rd := read_u32 "x")). Qed.
Lemma enc_u64_inj a b x y :
  is_u64 a -> is_u64 b -> to_be_bytes 8 a ++ x = to_be_bytes 8 b ++ y -> a = b /\ x = y.
Proof. apply (field_inj (rd := read_u64 "x")). Qed.
Lemma enc_fixed_inj a b x y : is_array 32 a -> is_array 32 b -> id a ++ x = id b ++ y -> a = b /\ x = y.
Proof. apply (field_inj (rd := read_fixed_32 "x")). Qed.
Lemma enc_bool_inj a b x y : enc_bool a ++ x = enc_bool b ++ y -> a = b /\ x = y.
Proof. by apply (field_inj (rd := read_bool "x")). Qed.
Lemma enc_opt_string_inj a b x y :
  on_some is_string a -> on_some is_string b -> enc_opt enc_bytes a ++ x = enc_opt enc_bytes b ++ y ->
  a = b /\ x = y.
Proof. apply (field_inj (rd := read_optional read_string "x")). Qed.
Lemma enc_opt_bytes_inj a b x y :
  on_some short a -> on_some short b -> enc_opt enc_bytes a ++ x = enc_opt enc_bytes b ++ y -> a = b /\ x = y.
Proof. apply (field_inj (rd := read_optional_bytes "x")). Qed.
Lemma enc_opt_u64_inj a b x y :
  on_some is_u64 a -> on_some is_u64 b ->
  enc_opt (to_be_bytes 8) a ++ x = enc_opt (to_be_bytes 8) b ++ y -> a = b /\ x = y.
Proof. apply (field_inj (rd := read_optional_u64 "x")). Qed.
Lemma enc_opt_u32_inj a b x y :
  on_some is_u32 a -> on_some is_u32 b ->
  enc_opt (to_be_bytes 4) a ++ x = enc_opt (to_be_bytes 4) b ++ y -> a = b /\ x = y.
Proof. apply (field_inj (rd := read_optional read_u32 "x")). Qed.
Lemma enc_string_vec_inj a b x y :
  is_list is_string a -> is_list is_string b ->
  enc_list enc_bytes a ++ x = enc_list enc_bytes b ++ y -> a = b /\ x = y.
Proof. apply (field_inj (rd := read_counted "x" (read_string "x"))). Qed.
Lemma enc_opt_string_vec_inj a b x y :
  on_some (is_list is_string) a -> on_some (is_list is_string) b ->
  enc_opt (enc_list enc_bytes) a ++ x = enc_opt (enc_list enc_bytes) b ++ y -> a = b /\ x = y.
Proof. apply (field_inj (rd := read_optional (fun _ => read_counted "x" (read_string "x")) "x")). Qed.

(** Cuts equal fields off the front of two equal encodings. *)
Ltac wire_cut lem H := apply lem in H as [? H]; [|assumption..].

Ltac wire_inj H :=
  lazymatch type of H with
  | enc_bytes _ ++ _ = _ => first [wire_cut enc_string_inj H | wire_cut enc_bytes_inj H]
  | to_be_bytes 4 _ ++ _ = _ => wire_cut enc_u32_inj H
  | to_be_bytes 8 _ ++ _ = _ => wire_cut enc_u64_inj H
  | enc_bool _ ++ _ = _ => apply enc_bool_inj in H as [? H]
  | enc_opt enc_bytes _ ++ _ = _ => first [wire_cut enc_opt_string_inj H | wire_cut enc_opt_bytes_inj H]
  | enc_opt (to_be_bytes 4) _ ++ _ = _ => wire_cut enc_opt_u32_inj H
  | enc_opt (to_be_bytes 8) _ ++ _ = _ => wire_cut enc_opt_u64_inj H
  | enc_list enc_bytes _ ++ _ = _ => wire_cut enc_string_vec_inj H
  | enc_opt (enc_list enc_bytes) _ ++ _ = _ => wire_cut enc_opt_string_vec_inj H
  | id _ ++ _ = _ => wire_cut enc_fixed_inj H
  end.
