(* ===== verification/ReportStatements.v ===== *)
(** * The messages of [crates/reporting] *)
From S2P Require Import Prelude Primitives Context ReportCodec.

(** The equations of the writers apply to the writers, not to what they unfold
    to. *)
#[local] Set Keyed Unification.

Inductive CommitteeScope : Type := Current | PendingNew.

Definition CommitteeScope_tag (s : CommitteeScope) : Byte.byte :=
  match s with Current => Byte.x01 | PendingNew => Byte.x02 end.

Definition CommitteeScope_from_tag (tag : Byte.byte) : report_result CommitteeScope :=
  match tag with
  | Byte.x01 => Ok Current
  | Byte.x02 => Ok PendingNew
  | value => Err (InvalidReport ("unknown committee scope " +:+ pretty.pretty (byte.unsigned value)))
  end.

Definition read_scope (label : string) : reader CommitteeScope :=
  let! tag := read_u8 label in m_lift (CommitteeScope_from_tag tag).

#[global] Instance field_scope l : Field (fun _ => True) (fun s => [CommitteeScope_tag s]) (read_scope l).
Proof.
  apply (field_map (fun _ => True) (fun b => [b]) (read_u8 l) (fun _ => True) CommitteeScope_tag); [apply _|..].
  - by intros [].
  - intros [] b _ H; try discriminate; injection H as <-; done.
  - by intros [].
Qed.

(** ** [NodeOffline] *)

Record NodeOffline := MkNodeOffline {
  no_origin_protocol : bytes;
  no_origin_protocol_version : Z;
  no_accused_committee_scope : CommitteeScope;
  no_signing_committee_scope : CommitteeScope;
}.

Definition NodeOffline_canonical_bytes (s : NodeOffline) : bytes :=
  let out := write_string [] (no_origin_protocol s) in
  let out := write_u64 out (no_origin_protocol_version s) in
  let out := push out (CommitteeScope_tag (no_accused_committee_scope s)) in
  let out := push out (CommitteeScope_tag (no_signing_committee_scope s)) in
  out.

Definition NodeOffline_from_canonical_bytes : bytes -> report_result NodeOffline := decode (
  let! origin_protocol := read_string "origin_protocol" in
  let! origin_protocol_version := read_u64 "origin_protocol_version" in
  let! accused_committee_scope := read_scope "accused_committee_scope" in
  let! signing_committee_scope := read_scope "signing_committee_scope" in
  finish ;!
  m_ret (MkNodeOffline origin_protocol origin_protocol_version accused_committee_scope
    signing_committee_scope)).

Definition NodeOffline_wf (s : NodeOffline) : Prop :=
  let '(MkNodeOffline origin_protocol version _ _) := s in
  is_string origin_protocol /\ is_u64 version.

#[global] Instance NodeOffline_canonical : Canonical NodeOffline.
Proof.
  wire_message NodeOffline_canonical_bytes NodeOffline_from_canonical_bytes
    NodeOffline_wf.
Defined.

(** ** [PreReencryptResponseStatement] *)

Record PreReencryptResponseStatement := MkPreReencryptResponseStatement {
  pr_domain : bytes;
  pr_chain_id : bytes;
  pr_ring_id : bytes;
  pr_ring_pk : bytes;
  pr_ring_state_sha256 : bytes;
  pr_protocol_version : Z;
  pr_request_id : bytes;
  pr_signed_at : Z;
  pr_responder_node_key : bytes;
  pr_origin_protocol : bytes;
  pr_object_id : bytes;
  pr_rdr_pk : bytes;
  pr_derivation : option bytes;
  pr_from_node_id : Z;
  pr_share : bytes;
  pr_challenge : bytes;
  pr_proof : bytes;
  pr_crypto_backend : bytes;
  pr_timestamp : option Z;
  pr_document_inline : bool;
}.

Definition PreReencryptResponseStatement_canonical_bytes (s : PreReencryptResponseStatement) : bytes :=
  let out := write_string [] (pr_domain s) in
  let out := write_string out (pr_chain_id s) in
  let out := write_string out (pr_ring_id s) in
  let out := write_string out (pr_ring_pk s) in
  let out := write_string out (pr_ring_state_sha256 s) in
  let out := write_u64 out (pr_protocol_version s) in
  let out := write_string out (pr_request_id s) in
  let out := write_u64 out (pr_signed_at s) in
  let out := write_string out (pr_responder_node_key s) in
  let out := write_string out (pr_origin_protocol s) in
  let out := write_string out (pr_object_id s) in
  let out := write_bytes out (pr_rdr_pk s) in
  let out := write_optional_bytes out (pr_derivation s) in
  let out := write_u32 out (pr_from_node_id s) in
  let out := write_bytes out (pr_share s) in
  let out := write_bytes out (pr_challenge s) in
  let out := write_bytes out (pr_proof s) in
  let out := write_string out (pr_crypto_backend s) in
  let out := write_optional_u64 out (pr_timestamp s) in
  let out := write_bool out (pr_document_inline s) in
  out.

Definition PreReencryptResponseStatement_from_canonical_bytes : bytes -> report_result PreReencryptResponseStatement := decode (
  let! domain := read_string "domain" in
  let! chain_id := read_string "chain_id" in
  let! ring_id := read_string "ring_id" in
  let! ring_pk := read_string "ring_pk" in
  let! ring_state_sha256 := read_string "ring_state_sha256" in
  let! protocol_version := read_u64 "protocol_version" in
  let! request_id := read_string "request_id" in
  let! signed_at := read_u64 "signed_at" in
  let! responder_node_key := read_string "responder_node_key" in
  let! origin_protocol := read_string "origin_protocol" in
  let! object_id := read_string "object_id" in
  let! rdr_pk := read_bytes "rdr_pk" in
  let! derivation := read_optional_bytes "derivation" in
  let! from_node_id := read_u32 "from_node_id" in
  let! share := read_bytes "share" in
  let! challenge := read_bytes "challenge" in
  let! proof := read_bytes "proof" in
  let! crypto_backend := read_string "crypto_backend" in
  let! timestamp := read_optional_u64 "timestamp" in
  let! document_inline := read_bool "document_inline" in
  finish ;!
  m_ret (MkPreReencryptResponseStatement domain chain_id ring_id ring_pk ring_state_sha256 protocol_version
    request_id signed_at responder_node_key origin_protocol object_id rdr_pk derivation from_node_id share
    challenge proof crypto_backend timestamp document_inline)).

Definition PreReencryptResponseStatement_wf (s : PreReencryptResponseStatement) : Prop :=
  let '(MkPreReencryptResponseStatement domain chain_id ring_id ring_pk ring_state_sha256 protocol_version
      request_id signed_at responder_node_key origin_protocol object_id rdr_pk derivation from_node_id share
      challenge proof crypto_backend timestamp _) := s in
  is_string domain /\ is_string chain_id /\ is_string ring_id /\ is_string ring_pk /\
  is_string ring_state_sha256 /\ is_u64 protocol_version /\ is_string request_id /\ is_u64 signed_at /\
  is_string responder_node_key /\ is_string origin_protocol /\ is_string object_id /\ short rdr_pk /\
  on_some short derivation /\ is_u32 from_node_id /\ short share /\ short challenge /\ short proof /\
  is_string crypto_backend /\ on_some is_u64 timestamp.

#[global] Instance PreReencryptResponseStatement_canonical : Canonical PreReencryptResponseStatement.
Proof.
  wire_message PreReencryptResponseStatement_canonical_bytes PreReencryptResponseStatement_from_canonical_bytes
    PreReencryptResponseStatement_wf.
Defined.

(** ** [SignResponseStatement] *)

Record SignResponseStatement := MkSignResponseStatement {
  sr_domain : bytes;
  sr_chain_id : bytes;
  sr_ring_id : bytes;
  sr_ring_pk : bytes;
  sr_ring_state_sha256 : bytes;
  sr_protocol_version : Z;
  sr_request_id : bytes;
  sr_signed_at : Z;
  sr_responder_node_key : bytes;
  sr_origin_protocol : bytes;
  sr_accused_committee_scope : CommitteeScope;
  sr_signing_committee_scope : CommitteeScope;
  sr_from_node_id : Z;
  sr_message : bytes;
  sr_signing_commitments : bytes;
  sr_derivation : option bytes;
  sr_metadata : option bytes;
  sr_sig_share : bytes;
  sr_crypto_backend : bytes;
}.

Definition SignResponseStatement_canonical_bytes (s : SignResponseStatement) : bytes :=
  let out := write_string [] (sr_domain s) in
  let out := write_string out (sr_chain_id s) in
  let out := write_string out (sr_ring_id s) in
  let out := write_string out (sr_ring_pk s) in
  let out := write_string out (sr_ring_state_sha256 s) in
  let out := write_u64 out (sr_protocol_version s) in
  let out := write_string out (sr_request_id s) in
  let out := write_u64 out (sr_signed_at s) in
  let out := write_string out (sr_responder_node_key s) in
  let out := write_string out (sr_origin_protocol s) in
  let out := push out (CommitteeScope_tag (sr_accused_committee_scope s)) in
  let out := push out (CommitteeScope_tag (sr_signing_committee_scope s)) in
  let out := write_u32 out (sr_from_node_id s) in
  let out := write_bytes out (sr_message s) in
  let out := write_bytes out (sr_signing_commitments s) in
  let out := write_optional_bytes out (sr_derivation s) in
  let out := write_optional_bytes out (sr_metadata s) in
  let out := write_bytes out (sr_sig_share s) in
  let out := write_string out (sr_crypto_backend s) in
  out.

Definition SignResponseStatement_from_canonical_bytes : bytes -> report_result SignResponseStatement := decode (
  let! domain := read_string "domain" in
  let! chain_id := read_string "chain_id" in
  let! ring_id := read_string "ring_id" in
  let! ring_pk := read_string "ring_pk" in
  let! ring_state_sha256 := read_string "ring_state_sha256" in
  let! protocol_version := read_u64 "protocol_version" in
  let! request_id := read_string "request_id" in
  let! signed_at := read_u64 "signed_at" in
  let! responder_node_key := read_string "responder_node_key" in
  let! origin_protocol := read_string "origin_protocol" in
  let! accused_committee_scope := read_scope "accused_committee_scope" in
  let! signing_committee_scope := read_scope "signing_committee_scope" in
  let! from_node_id := read_u32 "from_node_id" in
  let! message := read_bytes "message" in
  let! signing_commitments := read_bytes "signing_commitments" in
  let! derivation := read_optional_bytes "derivation" in
  let! metadata := read_optional_bytes "metadata" in
  let! sig_share := read_bytes "sig_share" in
  let! crypto_backend := read_string "crypto_backend" in
  finish ;!
  m_ret (MkSignResponseStatement domain chain_id ring_id ring_pk ring_state_sha256 protocol_version request_id
    signed_at responder_node_key origin_protocol accused_committee_scope signing_committee_scope from_node_id
    message signing_commitments derivation metadata sig_share crypto_backend)).

Definition SignResponseStatement_wf (s : SignResponseStatement) : Prop :=
  let '(MkSignResponseStatement domain chain_id ring_id ring_pk ring_state_sha256 protocol_version request_id
      signed_at responder_node_key origin_protocol _ _ from_node_id message signing_commitments derivation
      metadata sig_share crypto_backend) := s in
  is_string domain /\ is_string chain_id /\ is_string ring_id /\ is_string ring_pk /\
  is_string ring_state_sha256 /\ is_u64 protocol_version /\ is_string request_id /\ is_u64 signed_at /\
  is_string responder_node_key /\ is_string origin_protocol /\ is_u32 from_node_id /\ short message /\
  short signing_commitments /\ on_some short derivation /\ on_some short metadata /\ short sig_share /\
  is_string crypto_backend.

#[global] Instance SignResponseStatement_canonical : Canonical SignResponseStatement.
Proof.
  wire_message SignResponseStatement_canonical_bytes SignResponseStatement_from_canonical_bytes
    SignResponseStatement_wf.
Defined.

(** ** [RelayRequestStatement] *)

Record RelayRequestStatement := MkRelayRequestStatement {
  rr_domain : bytes;
  rr_chain_id : bytes;
  rr_ring_id : bytes;
  rr_ring_pk : bytes;
  rr_ring_state_sha256 : bytes;
  rr_protocol_version : Z;
  rr_request_id : bytes;
  rr_signed_at : Z;
  rr_user_signed_at : Z;
  rr_relayer_node_key : bytes;
  rr_origin_protocol : bytes;
  rr_accused_committee_scope : CommitteeScope;
  rr_signing_committee_scope : CommitteeScope;
  rr_from_node_id : Z;
  rr_actor_id : bytes;
  rr_object_id : bytes;
  rr_valid_window_start : option Z;
  rr_valid_window_end : option Z;
  rr_timestamp : option Z;
  rr_document_inline : bool;
}.

Definition RelayRequestStatement_canonical_bytes (s : RelayRequestStatement) : bytes :=
  let out := write_string [] (rr_domain s) in
  let out := write_string out (rr_chain_id s) in
  let out := write_string out (rr_ring_id s) in
  let out := write_string out (rr_ring_pk s) in
  let out := write_string out (rr_ring_state_sha256 s) in
  let out := write_u64 out (rr_protocol_version s) in
  let out := write_string out (rr_request_id s) in
  let out := write_u64 out (rr_signed_at s) in
  let out := write_u64 out (rr_user_signed_at s) in
  let out := write_string out (rr_relayer_node_key s) in
  let out := write_string out (rr_origin_protocol s) in
  let out := push out (CommitteeScope_tag (rr_accused_committee_scope s)) in
  let out := push out (CommitteeScope_tag (rr_signing_committee_scope s)) in
  let out := write_u32 out (rr_from_node_id s) in
  let out := write_string out (rr_actor_id s) in
  let out := write_string out (rr_object_id s) in
  let out := write_optional_u64 out (rr_valid_window_start s) in
  let out := write_optional_u64 out (rr_valid_window_end s) in
  let out := write_optional_u64 out (rr_timestamp s) in
  let out := write_bool out (rr_document_inline s) in
  out.

Definition RelayRequestStatement_from_canonical_bytes : bytes -> report_result RelayRequestStatement := decode (
  let! domain := read_string "domain" in
  let! chain_id := read_string "chain_id" in
  let! ring_id := read_string "ring_id" in
  let! ring_pk := read_string "ring_pk" in
  let! ring_state_sha256 := read_string "ring_state_sha256" in
  let! protocol_version := read_u64 "protocol_version" in
  let! request_id := read_string "request_id" in
  let! signed_at := read_u64 "signed_at" in
  let! user_signed_at := read_u64 "user_signed_at" in
  let! relayer_node_key := read_string "relayer_node_key" in
  let! origin_protocol := read_string "origin_protocol" in
  let! accused_committee_scope := read_scope "accused_committee_scope" in
  let! signing_committee_scope := read_scope "signing_committee_scope" in
  let! from_node_id := read_u32 "from_node_id" in
  let! actor_id := read_string "actor_id" in
  let! object_id := read_string "object_id" in
  let! valid_window_start := read_optional_u64 "valid_window_start" in
  let! valid_window_end := read_optional_u64 "valid_window_end" in
  let! timestamp := read_optional_u64 "timestamp" in
  let! document_inline := read_bool "document_inline" in
  finish ;!
  m_ret (MkRelayRequestStatement domain chain_id ring_id ring_pk ring_state_sha256 protocol_version request_id
    signed_at user_signed_at relayer_node_key origin_protocol accused_committee_scope signing_committee_scope
    from_node_id actor_id object_id valid_window_start valid_window_end timestamp document_inline)).

Definition RelayRequestStatement_wf (s : RelayRequestStatement) : Prop :=
  let '(MkRelayRequestStatement domain chain_id ring_id ring_pk ring_state_sha256 protocol_version request_id
      signed_at user_signed_at relayer_node_key origin_protocol _ _ from_node_id actor_id object_id
      valid_window_start valid_window_end timestamp _) := s in
  is_string domain /\ is_string chain_id /\ is_string ring_id /\ is_string ring_pk /\
  is_string ring_state_sha256 /\ is_u64 protocol_version /\ is_string request_id /\ is_u64 signed_at /\
  is_u64 user_signed_at /\ is_string relayer_node_key /\ is_string origin_protocol /\ is_u32 from_node_id /\
  is_string actor_id /\ is_string object_id /\ on_some is_u64 valid_window_start /\
  on_some is_u64 valid_window_end /\ on_some is_u64 timestamp.

#[global] Instance RelayRequestStatement_canonical : Canonical RelayRequestStatement.
Proof.
  wire_message RelayRequestStatement_canonical_bytes RelayRequestStatement_from_canonical_bytes
    RelayRequestStatement_wf.
Defined.
