(* ===== verification/ReportDkg.v ===== *)
(** * DKG fault evidence

    [crates/reporting/src/dkg.rs]: the signed statements a DKG participant can
    be held to -- commitments, shares, public contributions, leader deliveries
    and control messages -- with their canonical encoding and decoder.  Every
    statement is an instance of [Canonical]: the decoder accepts the encodings
    of well-formed statements and nothing else. *)
From S2P Require Import Prelude Primitives Context ReportCodec ReportStatements.

(** The equations of the writers apply to the writers, not to what they unfold
    to. *)
#[local] Set Keyed Unification.

(** ** [DkgCommitmentStatement] *)

Record DkgCommitmentStatement := MkDkgCommitmentStatement {
  dc_domain : bytes;
  dc_chain_id : bytes;
  dc_ring_id : bytes;
  dc_ring_pk : bytes;
  dc_ring_state_sha256 : bytes;
  dc_protocol_version : Z;
  dc_request_id : bytes;
  dc_signed_at : Z;
  dc_responder_node_key : bytes;
  dc_origin_protocol : bytes;
  dc_accused_committee_scope : CommitteeScope;
  dc_signing_committee_scope : CommitteeScope;
  dc_from_node_id : Z;
  dc_commitment : bytes;
  dc_session_nonce : bytes;
  dc_attempt_id : bytes;
  dc_crypto_backend : bytes;
}.

Definition DkgCommitmentStatement_canonical_bytes (s : DkgCommitmentStatement) : bytes :=
  let out := write_string [] (dc_domain s) in
  let out := write_string out (dc_chain_id s) in
  let out := write_string out (dc_ring_id s) in
  let out := write_string out (dc_ring_pk s) in
  let out := write_string out (dc_ring_state_sha256 s) in
  let out := write_u64 out (dc_protocol_version s) in
  let out := write_string out (dc_request_id s) in
  let out := write_u64 out (dc_signed_at s) in
  let out := write_string out (dc_responder_node_key s) in
  let out := write_string out (dc_origin_protocol s) in
  let out := push out (CommitteeScope_tag (dc_accused_committee_scope s)) in
  let out := push out (CommitteeScope_tag (dc_signing_committee_scope s)) in
  let out := write_u32 out (dc_from_node_id s) in
  let out := write_bytes out (dc_commitment s) in
  let out := write_bytes out (dc_session_nonce s) in
  let out := write_bytes out (dc_attempt_id s) in
  let out := write_string out (dc_crypto_backend s) in
  out.

Definition DkgCommitmentStatement_from_canonical_bytes : bytes -> report_result DkgCommitmentStatement := decode (
  let! domain := read_string "domain" in
  let! chain_id := read_string "chain_id" in
  let! ring_id := read_string "ring_id" in
  let! ring_pk := read_string "ring_pk" in
  let! ring_state_sha256 := read_string "ring_state_sha256" in
  let! protocol_version := read_u64 "protocol_version" in
  let! request_id := read_string "request_id" in
  let! signed_at := read_u64 "signed_at" in
  let! responder_node_key := read_string "responder_node_key" in
  let! origin_protocol := read_string "origin_protocol" in
  let! accused_committee_scope := read_scope "accused_committee_scope" in
  let! signing_committee_scope := read_scope "signing_committee_scope" in
  let! from_node_id := read_u32 "from_node_id" in
  let! commitment := read_bytes "commitment" in
  let! session_nonce := read_array 16 "DKG commitment session_nonce" "session_nonce" in
  let! attempt_id := read_array 32 "DKG commitment attempt_id" "attempt_id" in
  let! crypto_backend := read_string "crypto_backend" in
  finish ;!
  m_ret (MkDkgCommitmentStatement domain chain_id ring_id ring_pk ring_state_sha256 protocol_version request_id
    signed_at responder_node_key origin_protocol accused_committee_scope signing_committee_scope from_node_id
    commitment session_nonce attempt_id crypto_backend)).

Definition DkgCommitmentStatement_wf (s : DkgCommitmentStatement) : Prop :=
  let '(MkDkgCommitmentStatement domain chain_id ring_id ring_pk ring_state_sha256 protocol_version request_id
      signed_at responder_node_key origin_protocol _ _ from_node_id commitment session_nonce attempt_id
      crypto_backend) := s in
  is_string domain /\ is_string chain_id /\ is_string ring_id /\ is_string ring_pk /\
  is_string ring_state_sha256 /\ is_u64 protocol_version /\ is_string request_id /\ is_u64 signed_at /\
  is_string responder_node_key /\ is_string origin_protocol /\ is_u32 from_node_id /\ short commitment /\
  is_array 16 session_nonce /\ is_array 32 attempt_id /\ is_string crypto_backend.

#[global] Instance DkgCommitmentStatement_canonical : Canonical DkgCommitmentStatement.
Proof.
  wire_message DkgCommitmentStatement_canonical_bytes DkgCommitmentStatement_from_canonical_bytes
    DkgCommitmentStatement_wf.
Defined.

(** Two statements that prove a dealer's equivocation. *)
Definition proves_equivocation_with (self other : DkgCommitmentStatement) : bool :=
  bool_decide (dc_attempt_id self = dc_attempt_id other) &&
  bool_decide (dc_session_nonce self = dc_session_nonce other) &&
  (dc_from_node_id self =? dc_from_node_id other) &&
  negb (bool_decide (dc_commitment self = dc_commitment other)).

(** ** [DkgShareStatement] *)

Record DkgShareStatement := MkDkgShareStatement {
  ds_domain : bytes;
  ds_chain_id : bytes;
  ds_ring_id : bytes;
  ds_ring_pk : bytes;
  ds_ring_state_sha256 : bytes;
  ds_protocol_version : Z;
  ds_request_id : bytes;
  ds_signed_at : Z;
  ds_responder_node_key : bytes;
  ds_receiver_node_key : bytes;
  ds_origin_protocol : bytes;
  ds_accused_committee_scope : CommitteeScope;
  ds_signing_committee_scope : CommitteeScope;
  ds_from_node_id : Z;
  ds_to_node_id : Z;
  ds_commitment_statement : DkgCommitmentStatement;
  ds_commitment_signature : bytes;
  ds_share_value : bytes;
  ds_nonce : bytes;
  ds_crypto_backend : bytes;
}.

Definition DkgShareStatement_canonical_bytes (s : DkgShareStatement) : bytes :=
  let out := write_string [] (ds_domain s) in
  let out := write_string out (ds_chain_id s) in
  let out := write_string out (ds_ring_id s) in
  let out := write_string out (ds_ring_pk s) in
  let out := write_string out (ds_ring_state_sha256 s) in
  let out := write_u64 out (ds_protocol_version s) in
  let out := write_string out (ds_request_id s) in
  let out := write_u64 out (ds_signed_at s) in
  let out := write_string out (ds_responder_node_key s) in
  let out := write_string out (ds_receiver_node_key s) in
  let out := write_string out (ds_origin_protocol s) in
  let out := push out (CommitteeScope_tag (ds_accused_committee_scope s)) in
  let out := push out (CommitteeScope_tag (ds_signing_committee_scope s)) in
  let out := write_u32 out (ds_from_node_id s) in
  let out := write_u32 out (ds_to_node_id s) in
  let out := write_bytes out (DkgCommitmentStatement_canonical_bytes (ds_commitment_statement s)) in
  let out := write_bytes out (ds_commitment_signature s) in
  let out := write_bytes out (ds_share_value s) in
  let out := write_bytes out (ds_nonce s) in
  let out := write_string out (ds_crypto_backend s) in
  out.

Definition DkgShareStatement_from_canonical_bytes : bytes -> report_result DkgShareStatement := decode (
  let! domain := read_string "domain" in
  let! chain_id := read_string "chain_id" in
  let! ring_id := read_string "ring_id" in
  let! ring_pk := read_string "ring_pk" in
  let! ring_state_sha256 := read_string "ring_state_sha256" in
  let! protocol_version := read_u64 "protocol_version" in
  let! request_id := read_string "request_id" in
  let! signed_at := read_u64 "signed_at" in
  let! responder_node_key := read_string "responder_node_key" in
  let! receiver_node_key := read_string "receiver_node_key" in
  let! origin_protocol := read_string "origin_protocol" in
  let! accused_committee_scope := read_scope "accused_committee_scope" in
  let! signing_committee_scope := read_scope "signing_committee_scope" in
  let! from_node_id := read_u32 "from_node_id" in
  let! to_node_id := read_u32 "to_node_id" in
  let! commitment_statement := read_nested (T := DkgCommitmentStatement) "commitment_statement" in
  let! commitment_signature := read_bytes "commitment_signature" in
  let! share_value := read_bytes "share_value" in
  let! nonce := read_array 16 "DKG share nonce" "nonce" in
  let! crypto_backend := read_string "crypto_backend" in
  finish ;!
  m_ret (MkDkgShareStatement domain chain_id ring_id ring_pk ring_state_sha256 protocol_version request_id
    signed_at responder_node_key receiver_node_key origin_protocol accused_committee_scope
    signing_committee_scope from_node_id to_node_id commitment_statement commitment_signature share_value nonce
    crypto_backend)).

Definition DkgShareStatement_wf (s : DkgShareStatement) : Prop :=
  let '(MkDkgShareStatement domain chain_id ring_id ring_pk ring_state_sha256 protocol_version request_id
      signed_at responder_node_key receiver_node_key origin_protocol _ _ from_node_id to_node_id
      commitment_statement commitment_signature share_value nonce crypto_backend) := s in
  is_string domain /\ is_string chain_id /\ is_string ring_id /\ is_string ring_pk /\
  is_string ring_state_sha256 /\ is_u64 protocol_version /\ is_string request_id /\ is_u64 signed_at /\
  is_string responder_node_key /\ is_string receiver_node_key /\ is_string origin_protocol /\
  is_u32 from_node_id /\ is_u32 to_node_id /\ is_nested commitment_statement /\ short commitment_signature /\
  short share_value /\ is_array 16 nonce /\ is_string crypto_backend.

#[global] Instance DkgShareStatement_canonical : Canonical DkgShareStatement.
Proof.
  wire_message DkgShareStatement_canonical_bytes DkgShareStatement_from_canonical_bytes
    DkgShareStatement_wf.
Defined.

(** ** Endpoint-signed contributions *)

Record EndpointSignedContribution := MkEndpointSignedContribution {
  ec_origin : bytes;
  ec_signature : bytes;
  ec_data : bytes;
}.

Definition EndpointSignedContribution_write_canonical (out : bytes) (s : EndpointSignedContribution) : bytes :=
  let out := write_bytes out (ec_origin s) in
  let out := write_bytes out (ec_signature s) in
  let out := write_bytes out (ec_data s) in
  out.

Definition EndpointSignedContribution_read_canonical (prefix : string) : reader EndpointSignedContribution :=
  let! origin := read_bytes (prefix +:+ "_origin") in
  let! signature := read_bytes (prefix +:+ "_signature") in
  let! data := read_bytes (prefix +:+ "_data") in
  m_ret (MkEndpointSignedContribution origin signature data).

Definition EndpointSignedContribution_wf (s : EndpointSignedContribution) : Prop :=
  let '(MkEndpointSignedContribution origin signature data) := s in
  short origin /\ short signature /\ short data.

Definition enc_EndpointSignedContribution (s : EndpointSignedContribution) : bytes := EndpointSignedContribution_write_canonical [] s.

Lemma EndpointSignedContribution_write_app out s : EndpointSignedContribution_write_canonical out s = out ++ enc_EndpointSignedContribution s.
Proof. unfold enc_EndpointSignedContribution, EndpointSignedContribution_write_canonical. cbv zeta. wire_norm. reflexivity. Qed.

#[global] Instance field_EndpointSignedContribution l :
  Field EndpointSignedContribution_wf enc_EndpointSignedContribution (EndpointSignedContribution_read_canonical l).
Proof.
  wire_struct ltac:(unfold EndpointSignedContribution_read_canonical, EndpointSignedContribution_write_canonical in *) enc_EndpointSignedContribution EndpointSignedContribution_wf.
Qed.

(** ** Control-message artifacts *)

Record ControlMessageArtifact := MkControlMessageArtifact {
  ca_signature : bytes;
  ca_data : bytes;
  ca_signed_at : Z;
}.

Definition ControlMessageArtifact_write_canonical (out : bytes) (s : ControlMessageArtifact) : bytes :=
  let out := write_bytes out (ca_signature s) in
  let out := write_bytes out (ca_data s) in
  let out := write_u64 out (ca_signed_at s) in
  out.

Definition ControlMessageArtifact_read_canonical (prefix : string) : reader ControlMessageArtifact :=
  let! signature := read_bytes (prefix +:+ "_signature") in
  let! data := read_bytes (prefix +:+ "_data") in
  let! signed_at := read_u64 (prefix +:+ "_signed_at") in
  m_ret (MkControlMessageArtifact signature data signed_at).

Definition ControlMessageArtifact_wf (s : ControlMessageArtifact) : Prop :=
  let '(MkControlMessageArtifact signature data signed_at) := s in
  short signature /\ short data /\ is_u64 signed_at.

Definition enc_ControlMessageArtifact (s : ControlMessageArtifact) : bytes := ControlMessageArtifact_write_canonical [] s.

Lemma ControlMessageArtifact_write_app out s : ControlMessageArtifact_write_canonical out s = out ++ enc_ControlMessageArtifact s.
Proof. unfold enc_ControlMessageArtifact, ControlMessageArtifact_write_canonical. cbv zeta. wire_norm. reflexivity. Qed.

#[global] Instance field_ControlMessageArtifact l :
  Field ControlMessageArtifact_wf enc_ControlMessageArtifact (ControlMessageArtifact_read_canonical l).
Proof.
  wire_struct ltac:(unfold ControlMessageArtifact_read_canonical, ControlMessageArtifact_write_canonical in *) enc_ControlMessageArtifact ControlMessageArtifact_wf.
Qed.

Global Opaque enc_EndpointSignedContribution enc_ControlMessageArtifact.

Ltac wire_more ::=
  rewrite ?EndpointSignedContribution_write_app, ?ControlMessageArtifact_write_app,
    ?(write_optional_app _ _ EndpointSignedContribution_write_app),
    ?(write_optional_app _ _ ControlMessageArtifact_write_app).

(** ** Kinds of fault *)

Inductive DkgPublicOriginFaultKind : Type := InvalidPayload | OriginEquivocation.

Definition DkgPublicOriginFaultKind_as_str (k : DkgPublicOriginFaultKind) : bytes :=
  match k with
  | InvalidPayload => bstr "invalid_payload"
  | OriginEquivocation => bstr "origin_equivocation"
  end.

Definition DkgPublicOriginFaultKind_from_str (value : bytes) : report_result DkgPublicOriginFaultKind :=
  if decide (value = bstr "invalid_payload") then Ok InvalidPayload
  else if decide (value = bstr "origin_equivocation") then Ok OriginEquivocation
  else Err (InvalidReport ("unknown DKG public-origin fault kind " +:+ show value)).

Definition read_DkgPublicOriginFaultKind (label : string) : reader DkgPublicOriginFaultKind :=
  let! value := read_string label in m_lift (DkgPublicOriginFaultKind_from_str value).

#[global] Instance field_DkgPublicOriginFaultKind l :
  Field (fun _ => True) (fun k => enc_bytes (DkgPublicOriginFaultKind_as_str k)) (read_DkgPublicOriginFaultKind l).
Proof.
  apply (field_map is_string enc_bytes (read_string l) (fun _ => True) DkgPublicOriginFaultKind_as_str);
    [apply _|by intros [] _|..]; intros a; unfold DkgPublicOriginFaultKind_from_str;
    [intros b _ H | ]; repeat case_decide; by simplify_eq.
Qed.

Inductive DkgLeaderPublicFaultKind : Type := InvalidManifest | ChunkIndexOutOfRange | OversizedChunk | DuplicateChunkOrigin.

Definition DkgLeaderPublicFaultKind_as_str (k : DkgLeaderPublicFaultKind) : bytes :=
  match k with
  | InvalidManifest => bstr "invalid_manifest"
  | ChunkIndexOutOfRange => bstr "chunk_index_out_of_range"
  | OversizedChunk => bstr "oversized_chunk"
  | DuplicateChunkOrigin => bstr "duplicate_chunk_origin"
  end.

Definition DkgLeaderPublicFaultKind_from_str (value : bytes) : report_result DkgLeaderPublicFaultKind :=
  if decide (value = bstr "invalid_manifest") then Ok InvalidManifest
  else if decide (value = bstr "chunk_index_out_of_range") then Ok ChunkIndexOutOfRange
  else if decide (value = bstr "oversized_chunk") then Ok OversizedChunk
  else if decide (value = bstr "duplicate_chunk_origin") then Ok DuplicateChunkOrigin
  else Err (InvalidReport ("unknown DKG leader public-fault kind " +:+ show value)).

Definition read_DkgLeaderPublicFaultKind (label : string) : reader DkgLeaderPublicFaultKind :=
  let! value := read_string label in m_lift (DkgLeaderPublicFaultKind_from_str value).

#[global] Instance field_DkgLeaderPublicFaultKind l :
  Field (fun _ => True) (fun k => enc_bytes (DkgLeaderPublicFaultKind_as_str k)) (read_DkgLeaderPublicFaultKind l).
Proof.
  apply (field_map is_string enc_bytes (read_string l) (fun _ => True) DkgLeaderPublicFaultKind_as_str);
    [apply _|by intros [] _|..]; intros a; unfold DkgLeaderPublicFaultKind_from_str;
    [intros b _ H | ]; repeat case_decide; by simplify_eq.
Qed.

Inductive DkgControlMessageFaultKind : Type := LeaderPrepareFault | AckEquivocation | OversizedRepairPage.

Definition DkgControlMessageFaultKind_as_str (k : DkgControlMessageFaultKind) : bytes :=
  match k with
  | LeaderPrepareFault => bstr "leader_prepare_fault"
  | AckEquivocation => bstr "ack_equivocation"
  | OversizedRepairPage => bstr "oversized_repair_page"
  end.

Definition DkgControlMessageFaultKind_from_str (value : bytes) : report_result DkgControlMessageFaultKind :=
  if decide (value = bstr "leader_prepare_fault") then Ok LeaderPrepareFault
  else if decide (value = bstr "ack_equivocation") then Ok AckEquivocation
  else if decide (value = bstr "oversized_repair_page") then Ok OversizedRepairPage
  else Err (InvalidReport ("unknown DKG control-message fault kind " +:+ show value)).

Definition read_DkgControlMessageFaultKind (label : string) : reader DkgControlMessageFaultKind :=
  let! value := read_string label in m_lift (DkgControlMessageFaultKind_from_str value).

#[global] Instance field_DkgControlMessageFaultKind l :
  Field (fun _ => True) (fun k => enc_bytes (DkgControlMessageFaultKind_as_str k)) (read_DkgControlMessageFaultKind l).
Proof.
  apply (field_map is_string enc_bytes (read_string l) (fun _ => True) DkgControlMessageFaultKind_as_str);
    [apply _|by intros [] _|..]; intros a; unfold DkgControlMessageFaultKind_from_str;
    [intros b _ H | ]; repeat case_decide; by simplify_eq.
Qed.

(** ** [DkgPublicOriginFaultStatement] *)

Record DkgPublicOriginFaultStatement := MkDkgPublicOriginFaultStatement {
  po_domain : bytes;
  po_chain_id : bytes;
  po_ring_id : bytes;
  po_ring_pk : bytes;
  po_ring_state_sha256 : bytes;
  po_protocol_version : Z;
  po_request_id : bytes;
  po_signed_at : Z;
  po_responder_node_key : bytes;
  po_origin_protocol : bytes;
  po_accused_committee_scope : CommitteeScope;
  po_signing_committee_scope : CommitteeScope;
  po_attempt_id : bytes;
  po_phase : bytes;
  po_fault_kind : DkgPublicOriginFaultKind;
  po_contribution_a : EndpointSignedContribution;
  po_contribution_b : option EndpointSignedContribution;
}.

Definition DkgPublicOriginFaultStatement_canonical_bytes (s : DkgPublicOriginFaultStatement) : bytes :=
  let out := write_string [] (po_domain s) in
  let out := write_string out (po_chain_id s) in
  let out := write_string out (po_ring_id s) in
  let out := write_string out (po_ring_pk s) in
  let out := write_string out (po_ring_state_sha256 s) in
  let out := write_u64 out (po_protocol_version s) in
  let out := write_string out (po_request_id s) in
  let out := write_u64 out (po_signed_at s) in
  let out := write_string out (po_responder_node_key s) in
  let out := write_string out (po_origin_protocol s) in
  let out := push out (CommitteeScope_tag (po_accused_committee_scope s)) in
  let out := push out (CommitteeScope_tag (po_signing_committee_scope s)) in
  let out := write_bytes out (po_attempt_id s) in
  let out := write_string out (po_phase s) in
  let out := write_string out (DkgPublicOriginFaultKind_as_str (po_fault_kind s)) in
  let out := EndpointSignedContribution_write_canonical out (po_contribution_a s) in
  let out := write_optional EndpointSignedContribution_write_canonical out (po_contribution_b s) in
  out.

Definition DkgPublicOriginFaultStatement_from_canonical_bytes : bytes -> report_result DkgPublicOriginFaultStatement := decode (
  let! domain := read_string "domain" in
  let! chain_id := read_string "chain_id" in
  let! ring_id := read_string "ring_id" in
  let! ring_pk := read_string "ring_pk" in
  let! ring_state_sha256 := read_string "ring_state_sha256" in
  let! protocol_version := read_u64 "protocol_version" in
  let! request_id := read_string "request_id" in
  let! signed_at := read_u64 "signed_at" in
  let! responder_node_key := read_string "responder_node_key" in
  let! origin_protocol := read_string "origin_protocol" in
  let! accused_committee_scope := read_scope "accused_committee_scope" in
  let! signing_committee_scope := read_scope "signing_committee_scope" in
  let! attempt_id := read_array 32 "DKG public-origin attempt_id" "attempt_id" in
  let! phase := read_string "phase" in
  let! fault_kind := read_DkgPublicOriginFaultKind "fault_kind" in
  let! contribution_a := EndpointSignedContribution_read_canonical "contribution_a" in
  let! contribution_b := read_optional EndpointSignedContribution_read_canonical "contribution_b" in
  finish ;!
  m_ret (MkDkgPublicOriginFaultStatement domain chain_id ring_id ring_pk ring_state_sha256 protocol_version
    request_id signed_at responder_node_key origin_protocol accused_committee_scope signing_committee_scope
    attempt_id phase fault_kind contribution_a contribution_b)).

Definition DkgPublicOriginFaultStatement_wf (s : DkgPublicOriginFaultStatement) : Prop :=
  let '(MkDkgPublicOriginFaultStatement domain chain_id ring_id ring_pk ring_state_sha256 protocol_version
      request_id signed_at responder_node_key origin_protocol _ _ attempt_id phase _ contribution_a
      contribution_b) := s in
  is_string domain /\ is_string chain_id /\ is_string ring_id /\ is_string ring_pk /\
  is_string ring_state_sha256 /\ is_u64 protocol_version /\ is_string request_id /\ is_u64 signed_at /\
  is_string responder_node_key /\ is_string origin_protocol /\ is_array 32 attempt_id /\ is_string phase /\
  EndpointSignedContribution_wf contribution_a /\ on_some EndpointSignedContribution_wf contribution_b.

#[global] Instance DkgPublicOriginFaultStatement_canonical : Canonical DkgPublicOriginFaultStatement.
Proof.
  wire_message DkgPublicOriginFaultStatement_canonical_bytes DkgPublicOriginFaultStatement_from_canonical_bytes
    DkgPublicOriginFaultStatement_wf.
Defined.

(** ** [DkgLeaderEquivocationStatement] *)

Record DkgLeaderEquivocationStatement := MkDkgLeaderEquivocationStatement {
  le_domain : bytes;
  le_chain_id : bytes;
  le_ring_id : bytes;
  le_ring_pk : bytes;
  le_ring_state_sha256 : bytes;
  le_protocol_version : Z;
  le_request_id : bytes;
  le_signed_at : Z;
  le_responder_node_key : bytes;
  le_origin_protocol : bytes;
  le_accused_committee_scope : CommitteeScope;
  le_signing_committee_scope : CommitteeScope;
  le_attempt_id : bytes;
  le_phase : bytes;
  le_delivery_id_a : bytes;
  le_delivery_a : EndpointSignedContribution;
  le_delivery_id_b : bytes;
  le_delivery_b : EndpointSignedContribution;
}.

Definition DkgLeaderEquivocationStatement_canonical_bytes (s : DkgLeaderEquivocationStatement) : bytes :=
  let out := write_string [] (le_domain s) in
  let out := write_string out (le_chain_id s) in
  let out := write_string out (le_ring_id s) in
  let out := write_string out (le_ring_pk s) in
  let out := write_string out (le_ring_state_sha256 s) in
  let out := write_u64 out (le_protocol_version s) in
  let out := write_string out (le_request_id s) in
  let out := write_u64 out (le_signed_at s) in
  let out := write_string out (le_responder_node_key s) in
  let out := write_string out (le_origin_protocol s) in
  let out := push out (CommitteeScope_tag (le_accused_committee_scope s)) in
  let out := push out (CommitteeScope_tag (le_signing_committee_scope s)) in
  let out := write_bytes out (le_attempt_id s) in
  let out := write_string out (le_phase s) in
  let out := write_bytes out (le_delivery_id_a s) in
  let out := EndpointSignedContribution_write_canonical out (le_delivery_a s) in
  let out := write_bytes out (le_delivery_id_b s) in
  let out := EndpointSignedContribution_write_canonical out (le_delivery_b s) in
  out.

Definition DkgLeaderEquivocationStatement_from_canonical_bytes : bytes -> report_result DkgLeaderEquivocationStatement := decode (
  let! domain := read_string "domain" in
  let! chain_id := read_string "chain_id" in
  let! ring_id := read_string "ring_id" in
  let! ring_pk := read_string "ring_pk" in
  let! ring_state_sha256 := read_string "ring_state_sha256" in
  let! protocol_version := read_u64 "protocol_version" in
  let! request_id := read_string "request_id" in
  let! signed_at := read_u64 "signed_at" in
  let! responder_node_key := read_string "responder_node_key" in
  let! origin_protocol := read_string "origin_protocol" in
  let! accused_committee_scope := read_scope "accused_committee_scope" in
  let! signing_committee_scope := read_scope "signing_committee_scope" in
  let! attempt_id := read_array 32 "DKG leader-equivocation attempt_id" "attempt_id" in
  let! phase := read_string "phase" in
  let! delivery_id_a := read_array 16 "DKG leader-equivocation delivery_id_a" "delivery_id_a" in
  let! delivery_a := EndpointSignedContribution_read_canonical "delivery_a" in
  let! delivery_id_b := read_array 16 "DKG leader-equivocation delivery_id_b" "delivery_id_b" in
  let! delivery_b := EndpointSignedContribution_read_canonical "delivery_b" in
  finish ;!
  m_ret (MkDkgLeaderEquivocationStatement domain chain_id ring_id ring_pk ring_state_sha256 protocol_version
    request_id signed_at responder_node_key origin_protocol accused_committee_scope signing_committee_scope
    attempt_id phase delivery_id_a delivery_a delivery_id_b delivery_b)).

Definition DkgLeaderEquivocationStatement_wf (s : DkgLeaderEquivocationStatement) : Prop :=
  let '(MkDkgLeaderEquivocationStatement domain chain_id ring_id ring_pk ring_state_sha256 protocol_version
      request_id signed_at responder_node_key origin_protocol _ _ attempt_id phase delivery_id_a delivery_a
      delivery_id_b delivery_b) := s in
  is_string domain /\ is_string chain_id /\ is_string ring_id /\ is_string ring_pk /\
  is_string ring_state_sha256 /\ is_u64 protocol_version /\ is_string request_id /\ is_u64 signed_at /\
  is_string responder_node_key /\ is_string origin_protocol /\ is_array 32 attempt_id /\ is_string phase /\
  is_array 16 delivery_id_a /\ EndpointSignedContribution_wf delivery_a /\ is_array 16 delivery_id_b /\
  EndpointSignedContribution_wf delivery_b.

#[global] Instance DkgLeaderEquivocationStatement_canonical : Canonical DkgLeaderEquivocationStatement.
Proof.
  wire_message DkgLeaderEquivocationStatement_canonical_bytes DkgLeaderEquivocationStatement_from_canonical_bytes
    DkgLeaderEquivocationStatement_wf.
Defined.

(** ** [DkgLeaderPublicFaultStatement] *)

Record DkgLeaderPublicFaultStatement := MkDkgLeaderPublicFaultStatement {
  lp_domain : bytes;
  lp_chain_id : bytes;
  lp_ring_id : bytes;
  lp_ring_pk : bytes;
  lp_ring_state_sha256 : bytes;
  lp_protocol_version : Z;
  lp_request_id : bytes;
  lp_signed_at : Z;
  lp_responder_node_key : bytes;
  lp_origin_protocol : bytes;
  lp_accused_committee_scope : CommitteeScope;
  lp_signing_committee_scope : CommitteeScope;
  lp_attempt_id : bytes;
  lp_phase : bytes;
  lp_fault_kind : DkgLeaderPublicFaultKind;
  lp_delivery_id : bytes;
  lp_delivery : EndpointSignedContribution;
}.

Definition DkgLeaderPublicFaultStatement_canonical_bytes (s : DkgLeaderPublicFaultStatement) : bytes :=
  let out := write_string [] (lp_domain s) in
  let out := write_string out (lp_chain_id s) in
  let out := write_string out (lp_ring_id s) in
  let out := write_string out (lp_ring_pk s) in
  let out := write_string out (lp_ring_state_sha256 s) in
  let out := write_u64 out (lp_protocol_version s) in
  let out := write_string out (lp_request_id s) in
  let out := write_u64 out (lp_signed_at s) in
  let out := write_string out (lp_responder_node_key s) in
  let out := write_string out (lp_origin_protocol s) in
  let out := push out (CommitteeScope_tag (lp_accused_committee_scope s)) in
  let out := push out (CommitteeScope_tag (lp_signing_committee_scope s)) in
  let out := write_bytes out (lp_attempt_id s) in
  let out := write_string out (lp_phase s) in
  let out := write_string out (DkgLeaderPublicFaultKind_as_str (lp_fault_kind s)) in
  let out := write_bytes out (lp_delivery_id s) in
  let out := EndpointSignedContribution_write_canonical out (lp_delivery s) in
  out.

Definition DkgLeaderPublicFaultStatement_from_canonical_bytes : bytes -> report_result DkgLeaderPublicFaultStatement := decode (
  let! domain := read_string "domain" in
  let! chain_id := read_string "chain_id" in
  let! ring_id := read_string "ring_id" in
  let! ring_pk := read_string "ring_pk" in
  let! ring_state_sha256 := read_string "ring_state_sha256" in
  let! protocol_version := read_u64 "protocol_version" in
  let! request_id := read_string "request_id" in
  let! signed_at := read_u64 "signed_at" in
  let! responder_node_key := read_string "responder_node_key" in
  let! origin_protocol := read_string "origin_protocol" in
  let! accused_committee_scope := read_scope "accused_committee_scope" in
  let! signing_committee_scope := read_scope "signing_committee_scope" in
  let! attempt_id := read_array 32 "DKG leader public-fault attempt_id" "attempt_id" in
  let! phase := read_string "phase" in
  let! fault_kind := read_DkgLeaderPublicFaultKind "fault_kind" in
  let! delivery_id := read_array 16 "DKG leader public-fault delivery_id" "delivery_id" in
  let! delivery := EndpointSignedContribution_read_canonical "delivery" in
  finish ;!
  m_ret (MkDkgLeaderPublicFaultStatement domain chain_id ring_id ring_pk ring_state_sha256 protocol_version
    request_id signed_at responder_node_key origin_protocol accused_committee_scope signing_committee_scope
    attempt_id phase fault_kind delivery_id delivery)).

Definition DkgLeaderPublicFaultStatement_wf (s : DkgLeaderPublicFaultStatement) : Prop :=
  let '(MkDkgLeaderPublicFaultStatement domain chain_id ring_id ring_pk ring_state_sha256 protocol_version
      request_id signed_at responder_node_key origin_protocol _ _ attempt_id phase _ delivery_id delivery) := s
      in
  is_string domain /\ is_string chain_id /\ is_string ring_id /\ is_string ring_pk /\
  is_string ring_state_sha256 /\ is_u64 protocol_version /\ is_string request_id /\ is_u64 signed_at /\
  is_string responder_node_key /\ is_string origin_protocol /\ is_array 32 attempt_id /\ is_string phase /\
  is_array 16 delivery_id /\ EndpointSignedContribution_wf delivery.

#[global] Instance DkgLeaderPublicFaultStatement_canonical : Canonical DkgLeaderPublicFaultStatement.
Proof.
  wire_message DkgLeaderPublicFaultStatement_canonical_bytes DkgLeaderPublicFaultStatement_from_canonical_bytes
    DkgLeaderPublicFaultStatement_wf.
Defined.

(** ** [DkgControlMessageFaultStatement] *)

Record DkgControlMessageFaultStatement := MkDkgControlMessageFaultStatement {
  cm_domain : bytes;
  cm_chain_id : bytes;
  cm_ring_id : bytes;
  cm_ring_pk : bytes;
  cm_ring_state_sha256 : bytes;
  cm_protocol_version : Z;
  cm_request_id : bytes;
  cm_signed_at : Z;
  cm_responder_node_key : bytes;
  cm_origin_protocol : bytes;
  cm_accused_committee_scope : CommitteeScope;
  cm_signing_committee_scope : CommitteeScope;
  cm_attempt_id : bytes;
  cm_message_kind : bytes;
  cm_fault_kind : DkgControlMessageFaultKind;
  cm_artifact_a : ControlMessageArtifact;
  cm_artifact_b : option ControlMessageArtifact;
}.

Definition DkgControlMessageFaultStatement_canonical_bytes (s : DkgControlMessageFaultStatement) : bytes :=
  let out := write_string [] (cm_domain s) in
  let out := write_string out (cm_chain_id s) in
  let out := write_string out (cm_ring_id s) in
  let out := write_string out (cm_ring_pk s) in
  let out := write_string out (cm_ring_state_sha256 s) in
  let out := write_u64 out (cm_protocol_version s) in
  let out := write_string out (cm_request_id s) in
  let out := write_u64 out (cm_signed_at s) in
  let out := write_string out (cm_responder_node_key s) in
  let out := write_string out (cm_origin_protocol s) in
  let out := push out (CommitteeScope_tag (cm_accused_committee_scope s)) in
  let out := push out (CommitteeScope_tag (cm_signing_committee_scope s)) in
  let out := write_bytes out (cm_attempt_id s) in
  let out := write_string out (cm_message_kind s) in
  let out := write_string out (DkgControlMessageFaultKind_as_str (cm_fault_kind s)) in
  let out := ControlMessageArtifact_write_canonical out (cm_artifact_a s) in
  let out := write_optional ControlMessageArtifact_write_canonical out (cm_artifact_b s) in
  out.

Definition DkgControlMessageFaultStatement_from_canonical_bytes : bytes -> report_result DkgControlMessageFaultStatement := decode (
  let! domain := read_string "domain" in
  let! chain_id := read_string "chain_id" in
  let! ring_id := read_string "ring_id" in
  let! ring_pk := read_string "ring_pk" in
  let! ring_state_sha256 := read_string "ring_state_sha256" in
  let! protocol_version := read_u64 "protocol_version" in
  let! request_id := read_string "request_id" in
  let! signed_at := read_u64 "signed_at" in
  let! responder_node_key := read_string "responder_node_key" in
  let! origin_protocol := read_string "origin_protocol" in
  let! accused_committee_scope := read_scope "accused_committee_scope" in
  let! signing_committee_scope := read_scope "signing_committee_scope" in
  let! attempt_id := read_array 32 "DKG control-message fault attempt_id" "attempt_id" in
  let! message_kind := read_string "message_kind" in
  let! fault_kind := read_DkgControlMessageFaultKind "fault_kind" in
  let! artifact_a := ControlMessageArtifact_read_canonical "artifact_a" in
  let! artifact_b := read_optional ControlMessageArtifact_read_canonical "artifact_b" in
  finish ;!
  m_ret (MkDkgControlMessageFaultStatement domain chain_id ring_id ring_pk ring_state_sha256 protocol_version
    request_id signed_at responder_node_key origin_protocol accused_committee_scope signing_committee_scope
    attempt_id message_kind fault_kind artifact_a artifact_b)).

Definition DkgControlMessageFaultStatement_wf (s : DkgControlMessageFaultStatement) : Prop :=
  let '(MkDkgControlMessageFaultStatement domain chain_id ring_id ring_pk ring_state_sha256 protocol_version
      request_id signed_at responder_node_key origin_protocol _ _ attempt_id message_kind _ artifact_a
      artifact_b) := s in
  is_string domain /\ is_string chain_id /\ is_string ring_id /\ is_string ring_pk /\
  is_string ring_state_sha256 /\ is_u64 protocol_version /\ is_string request_id /\ is_u64 signed_at /\
  is_string responder_node_key /\ is_string origin_protocol /\ is_array 32 attempt_id /\ is_string message_kind
  /\ ControlMessageArtifact_wf artifact_a /\ on_some ControlMessageArtifact_wf artifact_b.

#[global] Instance DkgControlMessageFaultStatement_canonical : Canonical DkgControlMessageFaultStatement.
Proof.
  wire_message DkgControlMessageFaultStatement_canonical_bytes DkgControlMessageFaultStatement_from_canonical_bytes
    DkgControlMessageFaultStatement_wf.
Defined.

Record SignedDkgCommitment := MkSignedDkgCommitment {
  sc_statement : DkgCommitmentStatement;
  sc_signature : bytes;
}.
