(* ===== verification/ReportPet.v ===== *)
(** * PET blinding: digests, signed statements and certificates

    [crates/reporting/src/pet_blind.rs]. *)
From S2P Require Import Prelude Primitives Context ReportCodec ReportStatements.

#[local] Set Keyed Unification.

Definition PET_BLIND_CONTEXT_DOMAIN : bytes := bstr "orbis-pet-blind-context-v2".
Definition PET_BLIND_COMMIT_DOMAIN : bytes := bstr "orbis-pet-blind-commit-v2".
Definition PET_BLIND_SELECTION_DOMAIN : bytes := bstr "orbis-pet-blind-selection-v2".
Definition PET_BLIND_PROOF_TRANSCRIPT_DOMAIN : bytes := bstr "orbis-pet-blind-proof-transcript-v2".
Definition PET_BLIND_REVEAL_RESPONSE_DOMAIN : bytes := bstr "orbis-pet-blind-reveal-response-v2".
Definition PET_BLIND_DECRYPT_RESPONSE_DOMAIN : bytes := bstr "orbis-pet-blind-decrypt-response-v2".
Definition PET_BLIND_CERTIFICATE_DOMAIN : bytes := bstr "orbis-pet-blind-certificate-v2".
Definition PET_PUBLIC_POLYNOMIAL_DOMAIN : bytes := bstr "orbis-pet-public-polynomial-v2" ++ [Byte.x00].

(** ** The context of an attempt *)

Record PetBlindContext := MkPetBlindContext {
  pc_chain_id : bytes;
  pc_protocol_version : Z;
  pc_crypto_backend : bytes;
  pc_ring_id : bytes;
  pc_ring_pk : bytes;
  pc_ring_state_sha256 : bytes;
  pc_pet_pk : bytes;
  pc_public_polynomial_digest : bytes;
  pc_object_id : bytes;
  pc_salt : option bytes;
  pc_timestamp : option Z;
  pc_document_inline : bool;
  pc_audit_target_object_id : bytes;
  pc_actor_id : bytes;
  pc_valid_window_start : option Z;
  pc_valid_window_end : option Z;
  pc_coordinator_node_key : bytes;
  pc_attempt_id : bytes;
}.

Definition PetBlindContext_canonical_bytes (s : PetBlindContext) : bytes :=
  let out := write_string [] (pc_chain_id s) in
  let out := write_u64 out (pc_protocol_version s) in
  let out := write_string out (pc_crypto_backend s) in
  let out := write_string out (pc_ring_id s) in
  let out := write_string out (pc_ring_pk s) in
  let out := write_string out (pc_ring_state_sha256 s) in
  let out := write_string out (pc_pet_pk s) in
  let out := write_fixed_32 out (pc_public_polynomial_digest s) in
  let out := write_string out (pc_object_id s) in
  let out := write_optional_string out (pc_salt s) in
  let out := write_optional_u64 out (pc_timestamp s) in
  let out := write_bool out (pc_document_inline s) in
  let out := write_string out (pc_audit_target_object_id s) in
  let out := write_string out (pc_actor_id s) in
  let out := write_optional_u64 out (pc_valid_window_start s) in
  let out := write_optional_u64 out (pc_valid_window_end s) in
  let out := write_string out (pc_coordinator_node_key s) in
  let out := write_string out (pc_attempt_id s) in
  out.

Definition PetBlindContext_wf (s : PetBlindContext) : Prop :=
  let '(MkPetBlindContext chain_id protocol_version crypto_backend ring_id ring_pk ring_state_sha256 pet_pk
      public_polynomial_digest object_id salt timestamp _ audit_target_object_id actor_id valid_window_start
      valid_window_end coordinator_node_key attempt_id) := s in
  is_string chain_id /\ is_u64 protocol_version /\ is_string crypto_backend /\ is_string ring_id /\
  is_string ring_pk /\ is_string ring_state_sha256 /\ is_string pet_pk /\ is_array 32 public_polynomial_digest
  /\ is_string object_id /\ on_some is_string salt /\ on_some is_u64 timestamp /\
  is_string audit_target_object_id /\ is_string actor_id /\ on_some is_u64 valid_window_start /\
  on_some is_u64 valid_window_end /\ is_string coordinator_node_key /\ is_string attempt_id.

Definition pet_context_message (c : PetBlindContext) : bytes :=
  write_string [] PET_BLIND_CONTEXT_DOMAIN ++ PetBlindContext_canonical_bytes c.

(** ** Digests *)

Section Digests.
Context `{Sha2}.

Definition PetBlindContext_context_digest (c : PetBlindContext) : bytes := sha256 (pet_context_message c).

Definition pet_public_polynomial_digest (b : bytes) : bytes :=
  sha256 (PET_PUBLIC_POLYNOMIAL_DOMAIN ++ to_be_bytes 8 (Z.of_nat (length b)) ++ b).
End Digests.

(** The message under [C_i]. *)
Definition pet_commit_message (attempt_id context_digest : bytes) (node_id : Z)
    (commit_salt blinded_r blinded_diff : bytes) : bytes :=
  let out := write_string [] PET_BLIND_COMMIT_DOMAIN in
  let out := write_string out attempt_id in
  let out := write_fixed_32 out context_digest in
  let out := write_u32 out node_id in
  let out := write_fixed_32 out commit_salt in
  let out := write_bytes out blinded_r in
  let out := write_bytes out blinded_diff in
  out.

Definition pet_blind_commit_hash `{Sha2} (attempt_id context_digest : bytes) (node_id : Z)
    (commit_salt blinded_r blinded_diff : bytes) : bytes :=
  sha256 (pet_commit_message attempt_id context_digest node_id commit_salt blinded_r blinded_diff).

(** [sort_by_key(|(node_id, _)| node_id)]: stable. *)
Fixpoint insert_by_key {A} (x : Z * A) (l : list (Z * A)) : list (Z * A) :=
  match l with
  | [] => [x]
  | y :: l' => if x.1 <=? y.1 then x :: l else y :: insert_by_key x l'
  end.

Definition sort_by_key {A} (l : list (Z * A)) : list (Z * A) := foldr insert_by_key [] l.

Definition write_selected (out : bytes) (entry : Z * bytes) : bytes :=
  let out := write_u32 out entry.1 in
  write_fixed_32 out entry.2.

Definition pet_selection_message (attempt_id context_digest : bytes) (commitments : list (Z * bytes)) : bytes :=
  let sorted := sort_by_key commitments in
  let out := write_string [] PET_BLIND_SELECTION_DOMAIN in
  let out := write_string out attempt_id in
  let out := write_fixed_32 out context_digest in
  let out := write_u32 out (as_u32 (Z.of_nat (length sorted))) in
  fold_left write_selected sorted out.

Definition pet_blind_selection_digest `{Sha2} (attempt_id context_digest : bytes)
    (commitments : list (Z * bytes)) : bytes :=
  sha256 (pet_selection_message attempt_id context_digest commitments).

Definition pet_transcript_message (attempt_id context_digest selection_digest : bytes) (node_id : Z)
    (commitment : bytes) : bytes :=
  let out := write_string [] PET_BLIND_PROOF_TRANSCRIPT_DOMAIN in
  let out := write_string out attempt_id in
  let out := write_fixed_32 out context_digest in
  let out := write_fixed_32 out selection_digest in
  let out := write_u32 out node_id in
  let out := write_fixed_32 out commitment in
  out.

Definition pet_blind_proof_transcript_digest `{Sha2} (attempt_id context_digest selection_digest : bytes)
    (node_id : Z) (commitment : bytes) : bytes :=
  sha256 (pet_transcript_message attempt_id context_digest selection_digest node_id commitment).

(** ** [PetBlindRevealStatement] *)

Record PetBlindRevealStatement := MkPetBlindRevealStatement {
  rv_domain : bytes;
  rv_chain_id : bytes;
  rv_ring_id : bytes;
  rv_ring_pk : bytes;
  rv_ring_state_sha256 : bytes;
  rv_protocol_version : Z;
  rv_attempt_id : bytes;
  rv_context_digest : bytes;
  rv_selection_digest : bytes;
  rv_responder_node_key : bytes;
  rv_from_node_id : Z;
  rv_commitment : bytes;
  rv_blinded_r : bytes;
  rv_blinded_diff : bytes;
  rv_commit_salt : bytes;
  rv_challenge : bytes;
  rv_proof : bytes;
  rv_signed_at : Z;
}.

Definition PetBlindRevealStatement_canonical_bytes (s : PetBlindRevealStatement) : bytes :=
  let out := write_string [] (rv_domain s) in
  let out := write_string out (rv_chain_id s) in
  let out := write_string out (rv_ring_id s) in
  let out := write_string out (rv_ring_pk s) in
  let out := write_string out (rv_ring_state_sha256 s) in
  let out := write_u64 out (rv_protocol_version s) in
  let out := write_string out (rv_attempt_id s) in
  let out := write_fixed_32 out (rv_context_digest s) in
  let out := write_fixed_32 out (rv_selection_digest s) in
  let out := write_string out (rv_responder_node_key s) in
  let out := write_u32 out (rv_from_node_id s) in
  let out := write_bytes out (rv_commitment s) in
  let out := write_bytes out (rv_blinded_r s) in
  let out := write_bytes out (rv_blinded_diff s) in
  let out := write_fixed_32 out (rv_commit_salt s) in
  let out := write_bytes out (rv_challenge s) in
  let out := write_bytes out (rv_proof s) in
  let out := write_u64 out (rv_signed_at s) in
  out.

Definition PetBlindRevealStatement_from_canonical_bytes : bytes -> report_result PetBlindRevealStatement := decode (
  let! domain := read_string "domain" in
  let! chain_id := read_string "chain_id" in
  let! ring_id := read_string "ring_id" in
  let! ring_pk := read_string "ring_pk" in
  let! ring_state_sha256 := read_string "ring_state_sha256" in
  let! protocol_version := read_u64 "protocol_version" in
  let! attempt_id := read_string "attempt_id" in
  let! context_digest := read_fixed_32 "context_digest" in
  let! selection_digest := read_fixed_32 "selection_digest" in
  let! responder_node_key := read_string "responder_node_key" in
  let! from_node_id := read_u32 "from_node_id" in
  let! commitment := read_bytes "commitment" in
  let! blinded_r := read_bytes "blinded_r" in
  let! blinded_diff := read_bytes "blinded_diff" in
  let! commit_salt := read_fixed_32 "commit_salt" in
  let! challenge := read_bytes "challenge" in
  let! proof := read_bytes "proof" in
  let! signed_at := read_u64 "signed_at" in
  finish ;!
  m_ret (MkPetBlindRevealStatement domain chain_id ring_id ring_pk ring_state_sha256 protocol_version attempt_id
    context_digest selection_digest responder_node_key from_node_id commitment blinded_r blinded_diff
    commit_salt challenge proof signed_at)).

Definition PetBlindRevealStatement_wf (s : PetBlindRevealStatement) : Prop :=
  let '(MkPetBlindRevealStatement domain chain_id ring_id ring_pk ring_state_sha256 protocol_version attempt_id
      context_digest selection_digest responder_node_key from_node_id commitment blinded_r blinded_diff
      commit_salt challenge proof signed_at) := s in
  is_string domain /\ is_string chain_id /\ is_string ring_id /\ is_string ring_pk /\
  is_string ring_state_sha256 /\ is_u64 protocol_version /\ is_string attempt_id /\ is_array 32 context_digest
  /\ is_array 32 selection_digest /\ is_string responder_node_key /\ is_u32 from_node_id /\ short commitment /\
  short blinded_r /\ short blinded_diff /\ is_array 32 commit_salt /\ short challenge /\ short proof /\
  is_u64 signed_at.

#[global] Instance PetBlindRevealStatement_canonical : Canonical PetBlindRevealStatement.
Proof.
  wire_message PetBlindRevealStatement_canonical_bytes PetBlindRevealStatement_from_canonical_bytes
    PetBlindRevealStatement_wf.
Defined.

(** ** [PetBlindDecryptStatement] *)

Record PetBlindDecryptStatement := MkPetBlindDecryptStatement {
  dy_domain : bytes;
  dy_chain_id : bytes;
  dy_ring_id : bytes;
  dy_ring_pk : bytes;
  dy_ring_state_sha256 : bytes;
  dy_protocol_version : Z;
  dy_attempt_id : bytes;
  dy_context_digest : bytes;
  dy_certificate_digest : bytes;
  dy_responder_node_key : bytes;
  dy_from_node_id : Z;
  dy_aggregate_r : bytes;
  dy_aggregate_diff : bytes;
  dy_partial : bytes;
  dy_challenge : bytes;
  dy_proof : bytes;
  dy_signed_at : Z;
  dy_public_polynomial : bytes;
}.

Definition PetBlindDecryptStatement_canonical_bytes (s : PetBlindDecryptStatement) : bytes :=
  let out := write_string [] (dy_domain s) in
  let out := write_string out (dy_chain_id s) in
  let out := write_string out (dy_ring_id s) in
  let out := write_string out (dy_ring_pk s) in
  let out := write_string out (dy_ring_state_sha256 s) in
  let out := write_u64 out (dy_protocol_version s) in
  let out := write_string out (dy_attempt_id s) in
  let out := write_fixed_32 out (dy_context_digest s) in
  let out := write_fixed_32 out (dy_certificate_digest s) in
  let out := write_string out (dy_responder_node_key s) in
  let out := write_u32 out (dy_from_node_id s) in
  let out := write_bytes out (dy_aggregate_r s) in
  let out := write_bytes out (dy_aggregate_diff s) in
  let out := write_bytes out (dy_partial s) in
  let out := write_bytes out (dy_challenge s) in
  let out := write_bytes out (dy_proof s) in
  let out := write_u64 out (dy_signed_at s) in
  let out := write_bytes out (dy_public_polynomial s) in
  out.

Definition PetBlindDecryptStatement_from_canonical_bytes : bytes -> report_result PetBlindDecryptStatement := decode (
  let! domain := read_string "domain" in
  let! chain_id := read_string "chain_id" in
  let! ring_id := read_string "ring_id" in
  let! ring_pk := read_string "ring_pk" in
  let! ring_state_sha256 := read_string "ring_state_sha256" in
  let! protocol_version := read_u64 "protocol_version" in
  let! attempt_id := read_string "attempt_id" in
  let! context_digest := read_fixed_32 "context_digest" in
  let! certificate_digest := read_fixed_32 "certificate_digest" in
  let! responder_node_key := read_string "responder_node_key" in
  let! from_node_id := read_u32 "from_node_id" in
  let! aggregate_r := read_bytes "aggregate_r" in
  let! aggregate_diff := read_bytes "aggregate_diff" in
  let! partial := read_bytes "partial" in
  let! challenge := read_bytes "challenge" in
  let! proof := read_bytes "proof" in
  let! signed_at := read_u64 "signed_at" in
  let! public_polynomial := read_bytes "public_polynomial" in
  finish ;!
  m_ret (MkPetBlindDecryptStatement domain chain_id ring_id ring_pk ring_state_sha256 protocol_version
    attempt_id context_digest certificate_digest responder_node_key from_node_id aggregate_r aggregate_diff
    partial challenge proof signed_at public_polynomial)).

Definition PetBlindDecryptStatement_wf (s : PetBlindDecryptStatement) : Prop :=
  let '(MkPetBlindDecryptStatement domain chain_id ring_id ring_pk ring_state_sha256 protocol_version attempt_id
      context_digest certificate_digest responder_node_key from_node_id aggregate_r aggregate_diff partial
      challenge proof signed_at public_polynomial) := s in
  is_string domain /\ is_string chain_id /\ is_string ring_id /\ is_string ring_pk /\
  is_string ring_state_sha256 /\ is_u64 protocol_version /\ is_string attempt_id /\ is_array 32 context_digest
  /\ is_array 32 certificate_digest /\ is_string responder_node_key /\ is_u32 from_node_id /\ short aggregate_r
  /\ short aggregate_diff /\ short partial /\ short challenge /\ short proof /\ is_u64 signed_at /\
  short public_polynomial.

#[global] Instance PetBlindDecryptStatement_canonical : Canonical PetBlindDecryptStatement.
Proof.
  wire_message PetBlindDecryptStatement_canonical_bytes PetBlindDecryptStatement_from_canonical_bytes
    PetBlindDecryptStatement_wf.
Defined.

Record PetBlindSignedReveal := MkPetBlindSignedReveal {
  srv_statement : PetBlindRevealStatement;
  srv_response_signature : bytes;
}.

Record PetBlindSignedDecrypt := MkPetBlindSignedDecrypt {
  sdy_statement : PetBlindDecryptStatement;
  sdy_response_signature : bytes;
}.

(** ** Certificates *)

Record PetBlindCertificate := MkPetBlindCertificate {
  ce_public_polynomial : bytes;
  ce_attempt_id : bytes;
  ce_context_digest : bytes;
  ce_all_commitments : list (Z * bytes);
  ce_reveals : list PetBlindSignedReveal;
}.

Definition write_commitment (out : bytes) (entry : Z * bytes) : bytes :=
  let out := write_u32 out entry.1 in
  write_bytes out entry.2.

Definition write_reveal (out : bytes) (reveal : PetBlindSignedReveal) : bytes :=
  let out := write_bytes out (PetBlindRevealStatement_canonical_bytes (srv_statement reveal)) in
  write_bytes out (srv_response_signature reveal).

Definition PetBlindCertificate_canonical_bytes (s : PetBlindCertificate) : bytes :=
  let out := write_string [] PET_BLIND_CERTIFICATE_DOMAIN in
  let out := write_bytes out (ce_public_polynomial s) in
  let out := write_string out (ce_attempt_id s) in
  let out := write_fixed_32 out (ce_context_digest s) in
  let out := write_u32 out (as_u32 (Z.of_nat (length (ce_all_commitments s)))) in
  let out := fold_left write_commitment (ce_all_commitments s) out in
  let out := write_u32 out (as_u32 (Z.of_nat (length (ce_reveals s)))) in
  let out := fold_left write_reveal (ce_reveals s) out in
  out.

Definition certificate_digest `{Sha2} (s : PetBlindCertificate) : bytes :=
  sha256 (PetBlindCertificate_canonical_bytes s).

Definition read_certificate_domain : reader unit :=
  let! domain := read_string "domain" in
  m_lift (ensure (bool_decide (domain = PET_BLIND_CERTIFICATE_DOMAIN))
    (InvalidReport "invalid PET certificate domain")).

Definition read_commitment : reader (Z * bytes) :=
  let! node_id := read_u32 "all_commitments_node_id" in
  let! commitment := read_bytes "all_commitments_commitment" in
  m_ret (node_id, commitment).

Definition read_reveal : reader PetBlindSignedReveal :=
  let! statement := read_nested (T := PetBlindRevealStatement) "reveals_statement" in
  let! response_signature := read_bytes "reveals_response_signature" in
  m_ret (MkPetBlindSignedReveal statement response_signature).

Definition PetBlindCertificate_from_canonical_bytes : bytes -> report_result PetBlindCertificate := decode (
  read_certificate_domain ;!
  let! public_polynomial := read_bytes "public_polynomial" in
  let! attempt_id := read_string "attempt_id" in
  let! context_digest := read_fixed_32 "context_digest" in
  let! all_commitments := read_counted "all_commitments_count" read_commitment in
  let! reveals := read_counted "reveals_count" read_reveal in
  finish ;!
  m_ret (MkPetBlindCertificate public_polynomial attempt_id context_digest all_commitments reveals)).

Definition commitment_wf (entry : Z * bytes) : Prop := let '(node_id, c) := entry in is_u32 node_id /\ short c.

Definition signed_reveal_wf (r : PetBlindSignedReveal) : Prop :=
  let '(MkPetBlindSignedReveal statement signature) := r in is_nested statement /\ short signature.

Definition PetBlindCertificate_wf (s : PetBlindCertificate) : Prop :=
  let '(MkPetBlindCertificate public_polynomial attempt_id context_digest all_commitments reveals) := s in
  short public_polynomial /\ is_string attempt_id /\ is_array 32 context_digest /\
  is_list commitment_wf all_commitments /\ is_list signed_reveal_wf reveals.

(** *** The fields of a certificate *)

Definition enc_commitment (entry : Z * bytes) : bytes := write_commitment [] entry.
Definition enc_reveal (r : PetBlindSignedReveal) : bytes := write_reveal [] r.

#[global] Instance field_commitment : Field commitment_wf enc_commitment read_commitment.
Proof. wire_struct ltac:(unfold read_commitment, write_commitment in *) enc_commitment commitment_wf. Qed.

#[global] Instance field_reveal : Field signed_reveal_wf enc_reveal read_reveal.
Proof. wire_struct ltac:(unfold read_reveal, write_reveal in *) enc_reveal signed_reveal_wf. Qed.

#[global] Instance field_certificate_domain :
  Field (fun _ => True) (fun _ => enc_bytes PET_BLIND_CERTIFICATE_DOMAIN) read_certificate_domain.
Proof.
  apply (field_map is_string enc_bytes (read_string "domain") (fun _ => True)
    (fun _ => PET_BLIND_CERTIFICATE_DOMAIN)); [apply _|by intros [] _|..].
  - intros a [] _ E%ensure_Ok%bool_decide_eq_true. done.
  - intros a. by destruct (bool_decide _).
Qed.

Lemma write_commitment_app out e : write_commitment out e = out ++ enc_commitment e.
Proof. unfold enc_commitment, write_commitment. cbv zeta. wire_norm. reflexivity. Qed.

Lemma write_reveal_app out r : write_reveal out r = out ++ enc_reveal r.
Proof. unfold enc_reveal, write_reveal. cbv zeta. wire_norm. reflexivity. Qed.

Global Opaque enc_commitment enc_reveal.

Ltac wire_more ::=
  rewrite ?(write_list_app _ _ write_commitment_app), ?(write_list_app _ _ write_reveal_app).

#[global] Instance PetBlindCertificate_canonical : Canonical PetBlindCertificate.
Proof.
  wire_message PetBlindCertificate_canonical_bytes PetBlindCertificate_from_canonical_bytes
    PetBlindCertificate_wf.
Defined.
