(* ===== verification/Evidence.v ===== *)
(** * Fault reports: evidence, envelopes and the payloads they carry

    [crates/reporting/src/invalid_crypto.rs], [envelope.rs] and the payload of
    [relay.rs]. *)
From S2P Require Import Prelude Primitives Context ReportCodec ReportStatements ReportDkg ReportPet.

#[local] Set Keyed Unification.

(** ** [InvalidCryptoResponse] *)

Inductive InvalidCryptoResponse : Type :=
  | EvPre (statement : PreReencryptResponseStatement) (response_signature : bytes)
  | EvSign (statement : SignResponseStatement) (response_signature : bytes)
  | EvPetBlindReveal (statement : PetBlindRevealStatement) (response_signature : bytes)
  | EvPetBlindDecrypt (statement : PetBlindDecryptStatement) (response_signature : bytes)
  | EvDkgShare (statement : DkgShareStatement) (response_signature : bytes)
  | EvDkgInvalidRefreshCommitment (statement : DkgCommitmentStatement) (response_signature : bytes)
  | EvDkgEquivocation (commitment_a commitment_b : SignedDkgCommitment)
  | EvDkgPublicOriginFault (statement : DkgPublicOriginFaultStatement)
  | EvDkgLeaderEquivocation (statement : DkgLeaderEquivocationStatement)
  | EvDkgLeaderPublicFault (statement : DkgLeaderPublicFaultStatement)
  | EvDkgLeaderBatchMismatch (statement : DkgLeaderEquivocationStatement)
  | EvDkgControlMessageFault (statement : DkgControlMessageFaultStatement).

(** The tag, the statement and the signature of the single-statement kinds. *)
Definition write_statement `{Canonical T} (tag : bytes) (statement : T) : bytes :=
  write_bytes (write_string [] tag) (canonical_bytes statement).

Definition write_signed `{Canonical T} (tag : bytes) (statement : T) (signature : bytes) : bytes :=
  write_bytes (write_statement tag statement) signature.

Definition InvalidCryptoResponse_canonical_bytes (e : InvalidCryptoResponse) : bytes :=
  match e with
  | EvPre statement signature => write_signed (bstr "pre") statement signature
  | EvSign statement signature => write_signed (bstr "sign") statement signature
  | EvPetBlindReveal statement signature => write_signed (bstr "pet_blind_reveal") statement signature
  | EvPetBlindDecrypt statement signature => write_signed (bstr "pet_blind_decrypt") statement signature
  | EvDkgShare statement signature => write_signed (bstr "dkg_share") statement signature
  | EvDkgInvalidRefreshCommitment statement signature =>
      write_signed (bstr "dkg_invalid_refresh_commitment") statement signature
  | EvDkgEquivocation a b =>
      let out := write_signed (bstr "dkg_equivocation") (sc_statement a) (sc_signature a) in
      let out := write_bytes out (canonical_bytes (sc_statement b)) in
      write_bytes out (sc_signature b)
  | EvDkgPublicOriginFault statement => write_statement (bstr "dkg_public_origin_fault") statement
  | EvDkgLeaderEquivocation statement => write_statement (bstr "dkg_leader_equivocation") statement
  | EvDkgLeaderPublicFault statement => write_statement (bstr "dkg_leader_public_fault") statement
  | EvDkgLeaderBatchMismatch statement => write_statement (bstr "dkg_leader_batch_mismatch") statement
  | EvDkgControlMessageFault statement => write_statement (bstr "dkg_control_message_fault") statement
  end.

(** Both byte strings are read before the statement is decoded. *)
Definition read_signed `{Canonical T} (mk : T -> bytes -> InvalidCryptoResponse) : reader InvalidCryptoResponse :=
  let! statement_bytes := read_bytes "statement" in
  let! response_signature := read_bytes "response_signature" in
  let! statement := m_lift (from_canonical_bytes statement_bytes) in
  m_ret (mk statement response_signature).

Definition read_statement `{Canonical T} (mk : T -> InvalidCryptoResponse) : reader InvalidCryptoResponse :=
  let! statement_bytes := read_bytes "statement" in
  let! statement := m_lift (from_canonical_bytes statement_bytes) in
  m_ret (mk statement).

Definition read_equivocation : reader InvalidCryptoResponse :=
  let! statement_a := read_bytes "commitment_a_statement" in
  let! signature_a := read_bytes "commitment_a_signature" in
  let! statement_b := read_bytes "commitment_b_statement" in
  let! signature_b := read_bytes "commitment_b_signature" in
  let! a := m_lift (from_canonical_bytes statement_a) in
  let! b := m_lift (from_canonical_bytes statement_b) in
  m_ret (EvDkgEquivocation (MkSignedDkgCommitment a signature_a) (MkSignedDkgCommitment b signature_b)).

Definition read_evidence (kind : bytes) : reader InvalidCryptoResponse :=
  if decide (kind = bstr "pre") then read_signed EvPre
  else if decide (kind = bstr "sign") then read_signed EvSign
  else if decide (kind = bstr "pet_blind_reveal") then read_signed EvPetBlindReveal
  else if decide (kind = bstr "pet_blind_decrypt") then read_signed EvPetBlindDecrypt
  else if decide (kind = bstr "dkg_share") then read_signed EvDkgShare
  else if decide (kind = bstr "dkg_invalid_refresh_commitment") then read_signed EvDkgInvalidRefreshCommitment
  else if decide (kind = bstr "dkg_equivocation") then read_equivocation
  else if decide (kind = bstr "dkg_public_origin_fault") then read_statement EvDkgPublicOriginFault
  else if decide (kind = bstr "dkg_leader_equivocation") then read_statement EvDkgLeaderEquivocation
  else if decide (kind = bstr "dkg_leader_public_fault") then read_statement EvDkgLeaderPublicFault
  else if decide (kind = bstr "dkg_leader_batch_mismatch") then read_statement EvDkgLeaderBatchMismatch
  else if decide (kind = bstr "dkg_control_message_fault") then read_statement EvDkgControlMessageFault
  else m_lift (Err (InvalidReport ("unsupported invalid crypto evidence kind " +:+ show kind))).

Definition InvalidCryptoResponse_from_canonical_bytes : bytes -> report_result InvalidCryptoResponse := decode (
  let! evidence_kind := read_string "evidence_kind" in
  let! evidence := read_evidence evidence_kind in
  finish ;!
  m_ret evidence).

Definition request_id (e : InvalidCryptoResponse) : bytes :=
  match e with
  | EvPre statement _ => pr_request_id statement
  | EvSign statement _ => sr_request_id statement
  | EvPetBlindReveal statement _ => rv_attempt_id statement
  | EvPetBlindDecrypt statement _ => dy_attempt_id statement
  | EvDkgShare statement _ => ds_request_id statement
  | EvDkgInvalidRefreshCommitment statement _ => dc_request_id statement
  | EvDkgEquivocation a _ => dc_request_id (sc_statement a)
  | EvDkgPublicOriginFault statement => po_request_id statement
  | EvDkgLeaderEquivocation statement => le_request_id statement
  | EvDkgLeaderPublicFault statement => lp_request_id statement
  | EvDkgLeaderBatchMismatch statement => le_request_id statement
  | EvDkgControlMessageFault statement => cm_request_id statement
  end.

Definition attempt_id (e : InvalidCryptoResponse) : option bytes :=
  match e with
  | EvPre _ _ | EvSign _ _ | EvPetBlindReveal _ _ | EvPetBlindDecrypt _ _ => None
  | EvDkgShare statement _ => Some (dc_attempt_id (ds_commitment_statement statement))
  | EvDkgInvalidRefreshCommitment statement _ => Some (dc_attempt_id statement)
  | EvDkgEquivocation a _ => Some (dc_attempt_id (sc_statement a))
  | EvDkgPublicOriginFault statement => Some (po_attempt_id statement)
  | EvDkgLeaderEquivocation statement => Some (le_attempt_id statement)
  | EvDkgLeaderPublicFault statement => Some (lp_attempt_id statement)
  | EvDkgLeaderBatchMismatch statement => Some (le_attempt_id statement)
  | EvDkgControlMessageFault statement => Some (cm_attempt_id statement)
  end.

Definition signing_committee_scope (e : InvalidCryptoResponse) : CommitteeScope :=
  match e with
  | EvPre _ _ | EvPetBlindReveal _ _ | EvPetBlindDecrypt _ _ | EvDkgEquivocation _ _ => Current
  | EvSign statement _ => sr_signing_committee_scope statement
  | EvDkgShare statement _ => ds_signing_committee_scope statement
  | EvDkgInvalidRefreshCommitment statement _ => dc_signing_committee_scope statement
  | EvDkgPublicOriginFault statement => po_signing_committee_scope statement
  | EvDkgLeaderEquivocation statement => le_signing_committee_scope statement
  | EvDkgLeaderPublicFault statement => lp_signing_committee_scope statement
  | EvDkgLeaderBatchMismatch statement => le_signing_committee_scope statement
  | EvDkgControlMessageFault statement => cm_signing_committee_scope statement
  end.

(** ** The evidence codec is exact *)

Definition evidence_kind (e : InvalidCryptoResponse) : bytes :=
  match e with
  | EvPre _ _ => bstr "pre"
  | EvSign _ _ => bstr "sign"
  | EvPetBlindReveal _ _ => bstr "pet_blind_reveal"
  | EvPetBlindDecrypt _ _ => bstr "pet_blind_decrypt"
  | EvDkgShare _ _ => bstr "dkg_share"
  | EvDkgInvalidRefreshCommitment _ _ => bstr "dkg_invalid_refresh_commitment"
  | EvDkgEquivocation _ _ => bstr "dkg_equivocation"
  | EvDkgPublicOriginFault _ => bstr "dkg_public_origin_fault"
  | EvDkgLeaderEquivocation _ => bstr "dkg_leader_equivocation"
  | EvDkgLeaderPublicFault _ => bstr "dkg_leader_public_fault"
  | EvDkgLeaderBatchMismatch _ => bstr "dkg_leader_batch_mismatch"
  | EvDkgControlMessageFault _ => bstr "dkg_control_message_fault"
  end.

Definition enc_signed `{Canonical T} (s : T) (sig : bytes) : bytes :=
  enc_bytes (canonical_bytes s) ++ enc_bytes sig.

Definition signed_wf `{Canonical T} (s : T) (sig : bytes) : Prop := is_nested s /\ short sig.

(** What follows the kind. *)
Definition evidence_body (e : InvalidCryptoResponse) : bytes :=
  match e with
  | EvPre s sig => enc_signed s sig
  | EvSign s sig => enc_signed s sig
  | EvPetBlindReveal s sig => enc_signed s sig
  | EvPetBlindDecrypt s sig => enc_signed s sig
  | EvDkgShare s sig => enc_signed s sig
  | EvDkgInvalidRefreshCommitment s sig => enc_signed s sig
  | EvDkgEquivocation a b =>
      enc_signed (sc_statement a) (sc_signature a) ++ enc_signed (sc_statement b) (sc_signature b)
  | EvDkgPublicOriginFault s => enc_bytes (canonical_bytes s)
  | EvDkgLeaderEquivocation s => enc_bytes (canonical_bytes s)
  | EvDkgLeaderPublicFault s => enc_bytes (canonical_bytes s)
  | EvDkgLeaderBatchMismatch s => enc_bytes (canonical_bytes s)
  | EvDkgControlMessageFault s => enc_bytes (canonical_bytes s)
  end.

Definition InvalidCryptoResponse_wf (e : InvalidCryptoResponse) : Prop :=
  match e with
  | EvPre s sig => signed_wf s sig
  | EvSign s sig => signed_wf s sig
  | EvPetBlindReveal s sig => signed_wf s sig
  | EvPetBlindDecrypt s sig => signed_wf s sig
  | EvDkgShare s sig => signed_wf s sig
  | EvDkgInvalidRefreshCommitment s sig => signed_wf s sig
  | EvDkgEquivocation a b =>
      signed_wf (sc_statement a) (sc_signature a) /\ signed_wf (sc_statement b) (sc_signature b)
  | EvDkgPublicOriginFault s => is_nested s
  | EvDkgLeaderEquivocation s => is_nested s
  | EvDkgLeaderPublicFault s => is_nested s
  | EvDkgLeaderBatchMismatch s => is_nested s
  | EvDkgControlMessageFault s => is_nested s
  end.

Lemma evidence_bytes e :
  InvalidCryptoResponse_canonical_bytes e = enc_bytes (evidence_kind e) ++ evidence_body e.
Proof.
  destruct e; unfold InvalidCryptoResponse_canonical_bytes, write_signed, write_statement, evidence_body,
    enc_signed, evidence_kind; cbv zeta; wire_norm; reflexivity.
Qed.

Lemma field_wf_iff {A} wf wf' enc (rd : reader A) :
  (forall a, wf' a <-> wf a) -> Field wf enc rd -> Field wf' enc rd.
Proof.
  intros E [H1 H2 H3]. split; [|intros d r a d' V H; rewrite E; eauto|done].
  intros d a r V W%E. eauto.
Qed.

(** A statement decoded after its bytes were read. *)
Section Nested.
Context {T B : Type} {HC : Canonical T}.
Implicit Types (s : T) (k : T -> reader B).

Lemma nested_read s k d :
  is_nested s -> m_bind (m_lift (from_canonical_bytes (canonical_bytes s))) k d = k s d.
Proof. intros [W _]. unfold m_bind, m_lift. by rewrite (canonical_decode s W). Qed.

Lemma nested_sound b k d x d' :
  short b -> m_bind (m_lift (from_canonical_bytes b)) k d = (Ok x, d') ->
  exists s, canonical_bytes s = b /\ is_nested s /\ k s d = (Ok x, d').
Proof.
  intros S E. unfold m_bind, m_lift in E. destruct (from_canonical_bytes b) as [s| | |] eqn:D; try discriminate.
  apply canonical_exact in D as [<- W]. by exists s.
Qed.

Lemma nested_returns b k d :
  (forall s, returns (k s d)) -> returns (m_bind (m_lift (from_canonical_bytes b)) k d).
Proof.
  intros R. destruct (canonical_returns (T := T) b) as [? ?]. unfold returns, m_bind, m_lift.
  destruct (from_canonical_bytes b); try done. apply R.
Qed.
End Nested.

Lemma field_signed {T} {HC : Canonical T} mk enc :
  (forall s sig, enc (mk s sig) = enc_signed s sig) ->
  Field (fun e => exists s sig, e = mk s sig /\ signed_wf s sig) enc (read_signed (T := T) mk).
Proof.
  intros E. unfold read_signed, enc_signed in *. split.
  - intros d e r V (s & sig & -> & [[Wc Ss] Wsig]). rewrite E, <- app_assoc in V.
    do 2 read_field V. rewrite nested_read by done. eauto.
  - intros d r e d' V H. do 2 sound_field H V. apply nested_sound in H as (s & <- & Ws & H); [|done].
    injection H as <- <-. split; [by exists s, a0|]. eexists. rewrite E. by rewrite <- app_assoc.
  - intros d. do 2 (apply step_returns; intros). by apply nested_returns.
Qed.

Lemma field_statement {T} {HC : Canonical T} mk enc :
  (forall s, enc (mk s) = enc_bytes (canonical_bytes s)) ->
  Field (fun e => exists s, e = mk s /\ is_nested s) enc (read_statement (T := T) mk).
Proof.
  intros E. unfold read_statement. split.
  - intros d e r V (s & -> & [Wc Ss]). rewrite E in V. read_field V. rewrite nested_read by done. eauto.
  - intros d r e d' V H. sound_field H V. apply nested_sound in H as (s & <- & Ws & H); [|done].
    injection H as <- <-. split; [by exists s|]. eexists. by rewrite E.
  - intros d. apply step_returns; intros. by apply nested_returns.
Qed.

Lemma field_equivocation :
  Field (fun e => exists a b, e = EvDkgEquivocation a b /\ InvalidCryptoResponse_wf e) evidence_body read_equivocation.
Proof.
  unfold read_equivocation. split.
  - intros d e r V (a & b & -> & [[Wa Sa] [Wb Sb]]). destruct a as [a sa], b as [b sb], Wa, Wb.
    cbn [evidence_body sc_statement sc_signature] in *. unfold enc_signed in V. rewrite <- !app_assoc in V.
    do 4 read_field V. rewrite !nested_read by done. eauto.
  - intros d r e d' V H. do 4 sound_field H V. do 2 (apply nested_sound in H as (? & <- & ? & H); [|done]).
    injection H as <- <-. split; [by do 2 eexists|]. eexists. cbn [evidence_body sc_statement sc_signature].
    unfold enc_signed. by rewrite <- !app_assoc.
  - intros d. do 4 (apply step_returns; intros). by do 2 (apply nested_returns; intros).
Qed.

Lemma field_reject {A} wf enc (e : ReportingError) : (forall a, ~ wf a) -> Field wf enc (m_lift (S := Decoder) (A := A) (Err e)).
Proof. intros H. split; [by intros d a r _ W%H|by intros ? ? ? ? _ [=]|done]. Qed.

#[global] Instance field_evidence kind :
  Field (fun e => InvalidCryptoResponse_wf e /\ evidence_kind e = kind) evidence_body (read_evidence kind).
Proof.
  unfold read_evidence.
  repeat match goal with |- context [decide (kind = ?b)] => destruct (decide (kind = b)) as [->|?] end;
    (eapply field_wf_iff; [|first [by apply field_signed | by apply field_statement | apply field_equivocation
       | apply (field_reject (fun _ => False)); tauto]]);
    intros e; (split; [intros [W K]; destruct e; try discriminate K; try contradiction; eauto|naive_solver]).
Qed.

Ltac wire_more ::= rewrite ?evidence_bytes.

#[global] Instance InvalidCryptoResponse_canonical : Canonical InvalidCryptoResponse.
Proof.
  refine {| canonical_bytes := InvalidCryptoResponse_canonical_bytes;
            from_canonical_bytes := InvalidCryptoResponse_from_canonical_bytes;
            canonical_wf := InvalidCryptoResponse_wf |}.
  - intros b e. unfold InvalidCryptoResponse_from_canonical_bytes. rewrite decode_Ok. split.
    + intros (d & H). pose proof (view_new b) as V. do 2 sound_field H V.
      apply (finish_sound _ _ _ _ _ V) in H as [-> [= <- _]]. destruct W0 as [W0 <-].
      rewrite evidence_bytes, app_nil_r. done.
    + intros [<- W]. pose proof (view_new (InvalidCryptoResponse_canonical_bytes e)) as V.
      revert V. generalize (Decoder_new (InvalidCryptoResponse_canonical_bytes e)). intros d V.
      rewrite evidence_bytes, <- (app_nil_r (evidence_body e)) in V.
      read_field V; [by destruct e|]. read_field V; [done|]. rewrite finish_read by done. eauto.
  - wire_returns InvalidCryptoResponse_from_canonical_bytes.
Defined.

(** ** [UnauthorizedRequestPayload] *)

Record UnauthorizedRequestPayload := MkUnauthorizedRequestPayload {
  ur_statement : RelayRequestStatement;
  ur_relay_signature : bytes;
  ur_checked_at_anchor : bytes;
}.

Definition UnauthorizedRequestPayload_canonical_bytes (s : UnauthorizedRequestPayload) : bytes :=
  let out := write_bytes [] (canonical_bytes (ur_statement s)) in
  let out := write_bytes out (ur_relay_signature s) in
  let out := write_string out (ur_checked_at_anchor s) in
  out.

(** The statement is decoded after [finish]. *)
Definition UnauthorizedRequestPayload_from_canonical_bytes : bytes -> report_result UnauthorizedRequestPayload :=
  decode (
  let! statement_bytes := read_bytes "statement" in
  let! relay_signature := read_bytes "relay_signature" in
  let! checked_at_anchor := read_string "checked_at_anchor" in
  finish ;!
  let! statement := m_lift (from_canonical_bytes statement_bytes) in
  m_ret (MkUnauthorizedRequestPayload statement relay_signature checked_at_anchor)).

Definition UnauthorizedRequestPayload_wf (s : UnauthorizedRequestPayload) : Prop :=
  is_nested (ur_statement s) /\ short (ur_relay_signature s) /\ is_string (ur_checked_at_anchor s).

#[global] Instance UnauthorizedRequestPayload_canonical : Canonical UnauthorizedRequestPayload.
Proof.
  refine {| canonical_bytes := UnauthorizedRequestPayload_canonical_bytes;
            from_canonical_bytes := UnauthorizedRequestPayload_from_canonical_bytes;
            canonical_wf := UnauthorizedRequestPayload_wf |}.
  - intros b s. unfold UnauthorizedRequestPayload_from_canonical_bytes. rewrite decode_Ok. split.
    + intros (d & H). pose proof (view_new b) as V. do 3 sound_field H V.
      apply (finish_sound _ _ _ _ _ V) in H as [-> H]. apply nested_sound in H as (st & <- & ? & H); [|done].
      injection H as <- _. split; [|done].
      unfold UnauthorizedRequestPayload_canonical_bytes. cbv zeta. cbn [ur_statement ur_relay_signature ur_checked_at_anchor].
      wire_norm. by rewrite app_nil_r.
    + intros [<- ([Wc Ws] & Wr & Wa)]. destruct s as [st sig anchor]. cbn in Wc, Ws, Wr, Wa.
      set (b := UnauthorizedRequestPayload_canonical_bytes _). pose proof (view_new b) as V.
      revert V. generalize (Decoder_new b). intros d V. rewrite <- (app_nil_r b) in V.
      unfold b, UnauthorizedRequestPayload_canonical_bytes in V. cbv zeta in V.
      cbn [ur_statement ur_relay_signature ur_checked_at_anchor] in V. revert V. wire_norm. intros V.
      do 3 read_field V. rewrite finish_read, nested_read by done. eauto.
  - intros b. apply decode_returns. intros d. do 3 (apply step_returns; intros).
    apply finish_returns. intros. by apply nested_returns.
Defined.

(** ** Exactness of the report formats *)

(** [from] accepts exactly the encodings of well-formed values, each of them as
    the value it encodes, and returns on every input. *)
Definition exact_format {T} (to : T -> bytes) (from : bytes -> report_result T) (wf : T -> Prop) : Prop :=
  (forall b x, from b = Ok x <-> to x = b /\ wf x) /\ (forall b, no_panic (from b) /\ from b <> OutOfFuel).

Lemma canonical_format `{Canonical T} : exact_format (T := T) canonical_bytes from_canonical_bytes canonical_wf.
Proof. split; [apply canonical_exact|apply canonical_returns]. Qed.

(** C19: the evidence of a fault report has one encoding.  The parsers of the
    three payloads a report can carry, and of the certificate of a PET attempt,
    accept exactly the canonical encodings of well-formed values: every value
    that is encoded is read back, no other byte string is accepted, so two
    parties that verify a signature over the bytes agree on what was signed, and
    no input makes them panic. *)
Theorem evidence_exact :
  exact_format InvalidCryptoResponse_canonical_bytes InvalidCryptoResponse_from_canonical_bytes InvalidCryptoResponse_wf /\
  exact_format UnauthorizedRequestPayload_canonical_bytes UnauthorizedRequestPayload_from_canonical_bytes
    UnauthorizedRequestPayload_wf /\
  exact_format NodeOffline_canonical_bytes NodeOffline_from_canonical_bytes NodeOffline_wf /\
  exact_format PetBlindCertificate_canonical_bytes PetBlindCertificate_from_canonical_bytes PetBlindCertificate_wf.
Proof.
  split_and!; [exact (canonical_format (T := InvalidCryptoResponse))|exact (canonical_format (T := UnauthorizedRequestPayload))
    |exact (canonical_format (T := NodeOffline))|exact (canonical_format (T := PetBlindCertificate))].
Qed.
