(* ===== verification/Identity.v ===== *)
(** * Node identities

    [crates/common/src/peer_id.rs] and [bin/orbis-node/src/helpers/identity.rs]:
    the node part of a peer id and the numbering of a committee.  Every member
    numbers the committee on its own, from the list it was sent; the theorems
    show that they agree. *)
From S2P Require Import Prelude Primitives.

#[global] Instance byte_countable : Countable Byte.byte :=
  inj_countable Byte.to_N Byte.of_N Byte.of_to_N.

(** [peer_id.split('@').next()]: everything before the first ["@"]. *)
Fixpoint node_part (peer_id : bytes) : bytes :=
  match peer_id with
  | [] => []
  | b :: rest => if decide (b = Byte.x40) then [] else b :: node_part rest
  end.

Definition extract_node_part (peer_id : bytes) : bytes := node_part peer_id.

(** ** [Vec::sort] and [Vec::dedup] on strings *)

(** The order of [str]: lexicographic on the bytes. *)
Fixpoint str_le (a b : bytes) : Prop :=
  match a, b with
  | [], _ => True
  | _ :: _, [] => False
  | x :: a, y :: b => byte.unsigned x < byte.unsigned y \/ (x = y /\ str_le a b)
  end.

#[global] Instance str_le_dec : RelDecision str_le.
Proof.
  intros a. induction a as [|x a IH]; intros [|y b]; cbn; apply _.
Defined.

Lemma byte_unsigned_inj x y : byte.unsigned x = byte.unsigned y -> x = y.
Proof. intros E. rewrite <- (byte.of_Z_unsigned x), E. apply byte.of_Z_unsigned. Qed.

#[global] Instance str_le_trans : Transitive str_le.
Proof.
  intros a. induction a as [|x a IH]; intros [|y b] [|z c]; cbn; try done.
  intros [?|[-> ?]] [?|[-> ?]]; [left; lia|by left|by left|right; eauto].
Qed.

#[global] Instance str_le_total : Total str_le.
Proof.
  intros a. induction a as [|x a IH]; intros [|y b]; cbn; try tauto.
  destruct (Z.lt_trichotomy (byte.unsigned x) (byte.unsigned y)) as [?|[E|?]]; [tauto| |tauto].
  apply byte_unsigned_inj in E as ->. destruct (IH b); tauto.
Qed.

#[global] Instance str_le_antisymm : AntiSymm (=) str_le.
Proof.
  intros a. induction a as [|x a IH]; intros [|y b]; cbn; try done.
  intros [?|[-> ?]] [?|[E ?]]; subst; try lia. f_equal. by apply IH.
Qed.

Definition sort_strings (l : list bytes) : list bytes := merge_sort str_le l.

(** [Vec::dedup] removes consecutive repeats. *)
Fixpoint dedup (l : list bytes) : list bytes :=
  match l with
  | [] => []
  | x :: rest =>
      match rest with
      | y :: _ => if decide (x = y) then dedup rest else x :: dedup rest
      | [] => [x]
      end
  end.

(** ** Numbering a committee *)

Definition sorted_peer_ids (all_peer_ids : list bytes) : list bytes :=
  dedup (sort_strings (extract_node_part <$> all_peer_ids)).

Definition determine_session_node_id (our_peer_id : bytes) (all_peer_ids : list bytes) : option Z :=
  let our_node_part := extract_node_part our_peer_id in
  index ← list_find (fun peer_id => peer_id = our_node_part) (sorted_peer_ids all_peer_ids);
  Some (as_u32 (Z.of_nat index.1 + 1)).

Definition node_key_for_id (node_id : Z) (all_peer_ids : list bytes) : option bytes :=
  if node_id <? 1 then None
  else sorted_peer_ids all_peer_ids !! Z.to_nat (node_id - 1).

(** ** The sorted list without repeats *)

Lemma elem_of_dedup x l : x ∈ dedup l <-> x ∈ l.
Proof.
  induction l as [|y [|z l] IH]; [done|done|]. cbn [dedup] in *.
  destruct (decide (y = z)) as [->|]; rewrite ?elem_of_cons, IH, ?elem_of_cons; tauto.
Qed.

Lemma dedup_sorted l : StronglySorted str_le l -> StronglySorted str_le (dedup l) /\ NoDup (dedup l).
Proof.
  induction 1 as [|y l S [IHs IHn] F]; [split; constructor|]. cbn [dedup]. destruct l as [|z l].
  - split; [repeat constructor|by apply NoDup_singleton].
  - destruct (decide (y = z)) as [->|Hne]; [done|].
    assert (forall x, x ∈ dedup (z :: l) -> str_le y x) as Hle.
    { intros x Hx. apply (proj1 (elem_of_dedup _ _)) in Hx. rewrite Forall_forall in F. by apply F. }
    split; constructor; try done; [by apply Forall_forall|].
    intros Hy. apply (proj1 (elem_of_dedup _ _)) in Hy. apply Hne. apply elem_of_cons in Hy as [Hy|Hy]; [done|].
    apply (anti_symm str_le); [by inversion F|].
    apply StronglySorted_inv in S as [_ F']. rewrite Forall_forall in F'. by apply F'.
Qed.

Lemma sorted_peer_ids_spec l :
  StronglySorted str_le (sorted_peer_ids l) /\ NoDup (sorted_peer_ids l) /\
  (forall k, k ∈ sorted_peer_ids l <-> k ∈ (extract_node_part <$> l)).
Proof.
  assert (StronglySorted str_le (sort_strings (extract_node_part <$> l))) as S.
  { apply Sorted_StronglySorted; [apply _|]. apply Sorted_merge_sort. apply _. }
  destruct (dedup_sorted _ S). split_and!; [done..|]. intros k. unfold sorted_peer_ids.
  rewrite elem_of_dedup. unfold sort_strings. by rewrite merge_sort_Permutation.
Qed.

(** Two lists that name the same members are numbered alike. *)
Lemma sorted_peer_ids_same l1 l2 :
  (forall k, k ∈ (extract_node_part <$> l1) <-> k ∈ (extract_node_part <$> l2)) ->
  sorted_peer_ids l1 = sorted_peer_ids l2.
Proof.
  intros H. destruct (sorted_peer_ids_spec l1) as (S1 & N1 & E1), (sorted_peer_ids_spec l2) as (S2 & N2 & E2).
  apply (StronglySorted_unique str_le); [done..|]. apply NoDup_Permutation; [done..|].
  intros k. by rewrite E1, E2.
Qed.

Lemma sorted_peer_ids_length l : (length (sorted_peer_ids l) <= length l)%nat.
Proof.
  destruct (sorted_peer_ids_spec l) as (_ & N & E). rewrite <- (length_fmap extract_node_part l).
  apply submseteq_length, NoDup_submseteq; [done|]. intros k Hk. by apply E.
Qed.

(** The number of a member is its position, counted from 1. *)
Lemma session_node_id_Some me l i :
  Z.of_nat (length l) < 2 ^ 32 ->
  determine_session_node_id me l = Some i <->
  1 <= i /\ sorted_peer_ids l !! Z.to_nat (i - 1) = Some (extract_node_part me).
Proof.
  intros HL. destruct (sorted_peer_ids_spec l) as (_ & N & _). pose proof (sorted_peer_ids_length l) as L.
  unfold determine_session_node_id. split.
  - intros ((j & k) & (Hj & <- & _)%list_find_Some & [= <-])%bind_Some. cbn in *.
    apply lookup_lt_Some in Hj as Hlt. unfold as_u32. rewrite Z.mod_small by lia. split; [lia|].
    rewrite <- Hj. f_equal. lia.
  - intros [H1 Hi]. apply lookup_lt_Some in Hi as Hlt.
    apply bind_Some. exists (Z.to_nat (i - 1), extract_node_part me). split.
    + apply list_find_Some. split_and!; [done..|]. intros j y Hj Hne ->.
      pose proof (NoDup_lookup _ _ _ _ N Hi Hj). lia.
    + cbn. unfold as_u32. rewrite Z.mod_small by lia. f_equal. lia.
Qed.

(** ** The numbering *)

(** C38: the numbering of a committee is a bijection that every member computes
    alike.  A member's session id and [node_key_for_id] are inverse to each
    other, the ids are exactly 1 to the number of distinct members, exactly the
    members have one, and two lists that name the same members (in any order,
    with repeats, with other addresses) give the same ids. *)
Theorem session_ids_bijective (l1 l2 : list bytes) :
  Z.of_nat (length l1) < 2 ^ 32 ->
  (forall k, k ∈ (extract_node_part <$> l1) <-> k ∈ (extract_node_part <$> l2)) ->
  (forall me i, determine_session_node_id me l1 = Some i <->
     node_key_for_id i l1 = Some (extract_node_part me)) /\
  (forall i, is_Some (node_key_for_id i l1) <-> 1 <= i <= Z.of_nat (length (sorted_peer_ids l1))) /\
  (forall me, is_Some (determine_session_node_id me l1) <-> extract_node_part me ∈ (extract_node_part <$> l1)) /\
  (forall me, determine_session_node_id me l1 = determine_session_node_id me l2) /\
  (forall i, node_key_for_id i l1 = node_key_for_id i l2).
Proof.
  intros HL HE. pose proof (sorted_peer_ids_same _ _ HE) as Hs.
  assert (forall me i, determine_session_node_id me l1 = Some i <->
     node_key_for_id i l1 = Some (extract_node_part me)) as Hinv.
  { intros me i. rewrite session_node_id_Some by done. unfold node_key_for_id.
    destruct (Z.ltb_spec i 1); naive_solver lia. }
  split_and!; [done|..].
  - intros i. unfold node_key_for_id. destruct (Z.ltb_spec i 1); [split; [by intros []|lia]|].
    rewrite lookup_lt_is_Some. lia.
  - intros me. destruct (sorted_peer_ids_spec l1) as (_ & _ & E). rewrite <- E, list_elem_of_lookup. split.
    + intros [i Hi]. apply session_node_id_Some in Hi as [_ Hi]; [|done]. eauto.
    + intros [j Hj]. exists (Z.of_nat j + 1). apply session_node_id_Some; [done|]. split; [lia|].
      rewrite <- Hj. f_equal. lia.
  - intros me. unfold determine_session_node_id. by rewrite Hs.
  - intros i. unfold node_key_for_id. by rewrite Hs.
Qed.

Lemma session_ids_bijective_witness :
  determine_session_node_id (bstr "bb@10.0.0.2:4000") [bstr "cc"; bstr "bb"; bstr "aa@h:1"; bstr "bb@x:1"] = Some 2 /\
  node_key_for_id 2 [bstr "aa"; bstr "bb"; bstr "cc"] = Some (bstr "bb").
Proof.
  destruct (session_ids_bijective [bstr "cc"; bstr "bb"; bstr "aa@h:1"; bstr "bb@x:1"]
    [bstr "aa"; bstr "bb"; bstr "cc"]) as (H1 & _ & _ & _ & H5).
  - vm_compute. reflexivity.
  - intros k. cbn. set_solver.
  - rewrite H1, <- H5. vm_compute. done.
Defined.
