(* ===== verification/NodeState.v ===== *)
(** * State the node keeps between messages

    [bin/orbis-node]: the one-use secrets a responder holds between two rounds
    ([pet/v0/pending_blind.rs], the nonce states of [sign/v0/response_state.rs])
    and the collection of responses ([helpers/response_manager.rs]).  Each
    operation runs under one write lock, so an execution is a sequence of
    operations in some order; the theorems quantify over every sequence. *)
From stdpp Require Import pretty.
From S2P Require Import Prelude Primitives Identity.

(** ** Time

    An [Instant] in nanoseconds; [duration_since] saturates at zero. *)
Abbreviation Instant := Z.

Definition from_secs (s : Z) : Z := s * 1000000000.

Definition duration_since (now earlier : Instant) : Z := Z.max 0 (now - earlier).

(** [hex::encode] and [hex::decode]. *)
Class Hex := {
  hex_encode : bytes -> bytes;
  hex_decode : bytes -> option bytes;
  hex_decode_encode b : hex_decode (hex_encode b) = Some b;
}.

Lemma hex_encode_inj `{Hex} a b : hex_encode a = hex_encode b -> a = b.
Proof. intros E. apply (inj Some). by rewrite <- !hex_decode_encode, E. Qed.

(** Lower-case hexadecimal, the instance the concrete examples use. *)
Definition hex_digit (n : Z) : Byte.byte := byte.of_Z (if n <? 10 then n + 48 else n + 87).

Definition digit_value (b : Byte.byte) : option Z :=
  let v := byte.unsigned b in
  if (48 <=? v) && (v <=? 57) then Some (v - 48)
  else if (97 <=? v) && (v <=? 102) then Some (v - 87)
  else if (65 <=? v) && (v <=? 70) then Some (v - 55)
  else None.

Fixpoint plain_hex_decode (s : bytes) : option bytes :=
  match s with
  | [] => Some []
  | [_] => None
  | h :: l :: rest =>
      x ← digit_value h; y ← digit_value l; bs ← plain_hex_decode rest; Some (byte.of_Z (16 * x + y) :: bs)
  end.

Definition plain_hex_encode (b : bytes) : bytes :=
  b ≫= (fun x => [hex_digit (byte.unsigned x / 16); hex_digit (byte.unsigned x mod 16)]).

Lemma plain_hex_decode_encode b : plain_hex_decode (plain_hex_encode b) = Some b.
Proof. induction b as [|x b IH]; [done|]. cbn. fold (plain_hex_encode b). rewrite IH. by destruct x. Qed.

Definition plain_hex : Hex := {|
  hex_encode := plain_hex_encode;
  hex_decode := plain_hex_decode;
  hex_decode_encode := plain_hex_decode_encode;
|}.

(** [format!("v{protocol_version}:{id}")]: the keys of the per-version maps. *)
Definition versioned_key (protocol_version : Z) (id : bytes) : bytes :=
  bstr "v" ++ bstr (pretty (Z.to_N protocol_version)) ++ bstr ":" ++ id.

Lemma submseteq_NoDup {A} (l k : list A) : NoDup k -> l ⊆+ k -> NoDup l.
Proof. intros N [x E]%submseteq_Permutation. rewrite E in N. by apply NoDup_app in N as [? _]. Qed.

(** ** A map of one-use entries with a lifetime and a bounded size *)

Inductive StoreOutcome := Stored | AlreadyExists | LimitReached.

Class OneUse (Entry : Type) := {
  entry_created_at : Entry -> Instant;
  entry_peer : Entry -> bytes;
  entry_ttl : Z;
  entry_limit : nat;
}.

Section OneUse.
Context {Entry : Type} {HE : OneUse Entry}.
Abbreviation store_map := (gmap bytes Entry).

Definition expired (now : Instant) (e : Entry) : bool :=
  entry_ttl <=? duration_since now (entry_created_at e).

Definition remove_expired (now : Instant) (map : store_map) : store_map :=
  filter (fun kv => expired now kv.2 = false) map.

Definition store_entry (now : Instant) (key : bytes) (e : Entry) (map : store_map) : StoreOutcome * store_map :=
  let map := remove_expired now map in
  if (entry_limit <=? size map)%nat then (LimitReached, map)
  else if bool_decide (is_Some (map !! key)) then (AlreadyExists, map)
  else (Stored, <[key := e]> map).

Definition take_entry (key requester : bytes) (map : store_map) : option Entry * store_map :=
  match map !! key with
  | None => (None, map)
  | Some e => if bool_decide (entry_peer e = requester) then (Some e, delete key map) else (None, map)
  end.

(** An execution: the calls in the order they got the lock, what each of them
    stored and for which peer, and what was handed out to which peer. *)
Inductive store_call :=
  | CallStore (now : Instant) (key : bytes) (e : Entry)
  | CallTake (key requester : bytes)
  | CallSweep (now : Instant).

Record store_log := MkLog {
  log_map : store_map;
  log_stored : list (bytes * bytes * Entry);
  log_taken : list (bytes * bytes * Entry);
}.

Definition run_call (l : store_log) (c : store_call) : store_log :=
  match c with
  | CallStore now key e =>
      let '(outcome, map) := store_entry now key e (log_map l) in
      MkLog map (match outcome with Stored => [(key, entry_peer e, e)] | _ => [] end ++ log_stored l) (log_taken l)
  | CallTake key requester =>
      let '(taken, map) := take_entry key requester (log_map l) in
      MkLog map (log_stored l) (match taken with Some e => [(key, requester, e)] | None => [] end ++ log_taken l)
  | CallSweep now => MkLog (remove_expired now (log_map l)) (log_stored l) (log_taken l)
  end.

Definition run_calls (cs : list store_call) : store_log := fold_left run_call cs (MkLog ∅ [] []).

Definition owned (kv : bytes * Entry) : bytes * bytes * Entry := (kv.1, entry_peer kv.2, kv.2).

(** What was handed out and what is still held was stored, each entry once. *)
Definition log_inv (l : store_log) : Prop :=
  log_taken l ++ (owned <$> map_to_list (log_map l)) ⊆+ log_stored l /\ (size (log_map l) <= entry_limit)%nat.

Lemma remove_expired_subseteq now map : remove_expired now map ⊆ map.
Proof. apply map_filter_subseteq. Qed.

Lemma run_call_inv l c : log_inv l -> log_inv (run_call l c).
Proof.
  intros [S L]. assert (forall now, log_inv (MkLog (remove_expired now (log_map l)) (log_stored l) (log_taken l))) as HS.
  { intros now. split; cbn.
    - etrans; [|exact S]. apply submseteq_app; [done|].
      apply fmap_submseteq, map_to_list_submseteq, remove_expired_subseteq.
    - etrans; [|exact L]. apply map_subseteq_size, remove_expired_subseteq. }
  destruct c as [now key e|key requester|now]; cbn [run_call]; [|unfold take_entry|exact (HS now)].
  - specialize (HS now) as HN. destruct HN as [S1 L1]. unfold store_entry.
    destruct (_ <=? _)%nat eqn:EL; [done|]. case_bool_decide as EK; [done|].
    apply eq_None_not_Some in EK. apply Nat.leb_gt in EL. split; cbn.
    + rewrite map_to_list_insert by done. cbn. rewrite <- Permutation_middle. by constructor.
    + rewrite map_size_insert_None by done. lia.
  - destruct (log_map l !! key) as [e|] eqn:EK; [|done]. case_bool_decide as EP; [|done]. split; cbn.
    + etrans; [|exact S]. rewrite <- (map_to_list_delete _ _ _ EK). cbn. rewrite <- Permutation_middle.
      unfold owned at 2. cbn. by rewrite EP.
    + etrans; [|exact L]. apply map_subseteq_size, delete_subseteq.
Qed.

Lemma run_calls_inv cs : log_inv (run_calls cs).
Proof.
  unfold run_calls. assert (log_inv (MkLog ∅ [] [])) as H by (split; cbn; [by rewrite map_to_list_empty|]; rewrite map_size_empty; lia).
  revert H. generalize (MkLog ∅ [] []). induction cs as [|c cs IH]; intros l H; [done|].
  apply IH, run_call_inv, H.
Qed.

(** What a call hands out is bound to the peer that stored it. *)
Lemma take_entry_peer key requester map e map' :
  take_entry key requester map = (Some e, map') -> entry_peer e = requester /\ map !! key = Some e.
Proof. unfold take_entry. destruct (map !! key); [|done]. case_bool_decide; [|done]. by intros [= -> _]. Qed.

(** A stored entry is available to its peer. *)
Lemma store_take now key e map map' :
  store_entry now key e map = (Stored, map') -> take_entry key (entry_peer e) map' = (Some e, delete key map').
Proof.
  unfold store_entry. destruct (_ <=? _)%nat; [done|]. case_bool_decide; [done|]. intros [= <-].
  unfold take_entry. rewrite lookup_insert_eq. by rewrite bool_decide_true.
Qed.
End OneUse.

(** ** Keys

    The version is decimal, so the first [":"] ends it: entries of two
    versions, or of two ids, never share a key. *)
Lemma pretty_N_go_no_colon n s : Byte.x3a ∉ bstr s -> Byte.x3a ∉ bstr (pretty_N_go n s).
Proof.
  revert s. induction (N.lt_wf_0 n) as [n _ IH]. intros s H.
  destruct (decide (n = 0)%N) as [->|Hn]; [done|].
  rewrite pretty_N_go_step by lia. apply IH; [apply N.div_lt; lia|].
  unfold bstr in *. cbn. intros [E|?]%elem_of_cons; [|done]. revert E.
  unfold pretty_N_char. by repeat case_match.
Qed.

Lemma pretty_N_no_colon (n : N) : Byte.x3a ∉ bstr (pretty n).
Proof.
  unfold pretty, pretty_N. destruct (decide _); [vm_compute; by intros ?%list_elem_of_singleton|].
  apply pretty_N_go_no_colon. vm_compute. by intros ?%not_elem_of_nil.
Qed.

Lemma bstr_inj s t : bstr s = bstr t -> s = t.
Proof.
  intros E. rewrite <- (String.string_of_list_byte_of_string s), <- (String.string_of_list_byte_of_string t).
  by f_equal.
Qed.

Lemma separator_inj (c : Byte.byte) (a b x y : bytes) :
  c ∉ a -> c ∉ b -> a ++ [c] ++ x = b ++ [c] ++ y -> a = b /\ x = y.
Proof.
  revert b. induction a as [|u a IH]; intros [|v b] Ha Hb E.
  - by injection E as ->.
  - injection E as <- _. by destruct Hb; left.
  - injection E as -> _. by destruct Ha; left.
  - apply not_elem_of_cons in Ha as [_ Ha], Hb as [_ Hb]. injection E as -> E. by apply (IH b) in E as [-> ->].
Qed.

Lemma versioned_key_inj v w a b :
  0 <= v -> 0 <= w -> versioned_key v a = versioned_key w b -> v = w /\ a = b.
Proof.
  intros Hv Hw [E ->]%app_inv_head%separator_inj; [|apply pretty_N_no_colon..]. split; [|done].
  apply bstr_inj, (inj pretty) in E. lia.
Qed.

(** ** [PetPendingBlindingStore] *)
Module PendingBlind.

Definition MAX_PET_BLIND_PENDING : nat := 1000.
Definition PET_BLIND_PENDING_TTL : Z := from_secs 45.

Record PendingBlinding {F : Type} := MkPendingBlinding {
  z_i : F;
  commit_salt : bytes;
  node_id : Z;
  context_digest : bytes;
  commitment : bytes;
  coordinator_peer_id : bytes;
  created_at : Instant;
}.
#[global] Arguments PendingBlinding : clear implicits.

#[global] Instance pending_one_use F : OneUse (PendingBlinding F) := {|
  entry_created_at := created_at;
  entry_peer := coordinator_peer_id;
  entry_ttl := PET_BLIND_PENDING_TTL;
  entry_limit := MAX_PET_BLIND_PENDING;
|}.

Section Store.
Context {F : Type}.
Abbreviation pending_map := (gmap bytes (PendingBlinding F)).

(** [now] is read for the sweep, [created] when the entry is built. *)
Definition store (now created : Instant) (protocol_version : Z) (attempt_id : bytes) (z_i : F)
    (commit_salt : bytes) (node_id : Z) (context_digest commitment coordinator_peer_id : bytes)
    (map : pending_map) : StoreOutcome * pending_map :=
  store_entry now (versioned_key protocol_version attempt_id)
    (MkPendingBlinding F z_i commit_salt node_id context_digest commitment coordinator_peer_id created) map.

Definition take (protocol_version : Z) (attempt_id requesting_peer_id : bytes) (map : pending_map) :
    option (PendingBlinding F) * pending_map :=
  take_entry (versioned_key protocol_version attempt_id) requesting_peer_id map.
End Store.

(** An execution of the PET responder: commits and reveals. *)
Inductive blind_call (F : Type) :=
  | Commit (now created : Instant) (protocol_version : Z) (attempt_id : bytes) (z_i : F)
      (commit_salt : bytes) (node_id : Z) (context_digest commitment peer : bytes)
  | Reveal (protocol_version : Z) (attempt_id peer : bytes)
  | Sweep (now : Instant).
#[global] Arguments Commit {F} now created protocol_version attempt_id z_i commit_salt node_id context_digest commitment peer.
#[global] Arguments Reveal {F} protocol_version attempt_id peer.
#[global] Arguments Sweep {F} now.

Section Executions.
Context {F : Type}.

Record blind_log := MkBlindLog {
  blind_map : gmap bytes (PendingBlinding F);
  blind_stored : list (bytes * bytes * PendingBlinding F);
  blind_taken : list (bytes * bytes * PendingBlinding F);
}.

Definition run_blind_call (l : blind_log) (c : blind_call F) : blind_log :=
  match c with
  | Commit now created v attempt z salt node digest commitment peer =>
      let '(outcome, map) := store now created v attempt z salt node digest commitment peer (blind_map l) in
      MkBlindLog map
        (match outcome with
         | Stored => [(versioned_key v attempt, peer, MkPendingBlinding F z salt node digest commitment peer created)]
         | _ => []
         end ++ blind_stored l) (blind_taken l)
  | Reveal v attempt peer =>
      let '(entry, map) := take v attempt peer (blind_map l) in
      MkBlindLog map (blind_stored l)
        (match entry with Some e => [(versioned_key v attempt, peer, e)] | None => [] end ++ blind_taken l)
  | Sweep now => MkBlindLog (remove_expired now (blind_map l)) (blind_stored l) (blind_taken l)
  end.

Definition run_blind_calls (cs : list (blind_call F)) : blind_log :=
  fold_left run_blind_call cs (MkBlindLog ∅ [] []).

Definition to_call (c : blind_call F) : store_call :=
  match c with
  | Commit now created v attempt z salt node digest commitment peer =>
      CallStore now (versioned_key v attempt) (MkPendingBlinding F z salt node digest commitment peer created)
  | Reveal v attempt peer => CallTake (versioned_key v attempt) peer
  | Sweep now => CallSweep now
  end.

Definition blind_sim (l : blind_log) (s : store_log (Entry := PendingBlinding F)) : Prop :=
  l = MkBlindLog (log_map s) (log_stored s) (log_taken s).

Lemma run_blind_calls_sim cs : blind_sim (run_blind_calls cs) (run_calls (to_call <$> cs)).
Proof.
  unfold run_blind_calls, run_calls.
  assert (blind_sim (MkBlindLog ∅ [] []) (MkLog ∅ [] [])) as H by done.
  revert H. generalize (MkBlindLog ∅ [] []), (MkLog (Entry := PendingBlinding F) ∅ [] []).
  induction cs as [|c cs IH]; intros l s ->; [done|]. apply IH. unfold blind_sim.
  destruct s as [m stored taken], c; cbn; [unfold store|unfold take|done].
  - by destruct (store_entry _ _ _ m) as [[] ?].
  - by destruct (take_entry _ _ m) as [[] ?].
Qed.

(** A blinding scalar is opened at most once, and only to the coordinator
    it was committed to.  In every execution of the store, in whatever order
    commits, reveals and expiry sweeps get the lock, the entries handed out are,
    as a multiset, among those committed, each to its own peer; the store never
    exceeds its limit; and a commit that was accepted can be opened by its
    coordinator. *)
Lemma blinding_opened_once (cs : list (blind_call F)) :
  blind_taken (run_blind_calls cs) ⊆+ blind_stored (run_blind_calls cs) /\
  (size (blind_map (run_blind_calls cs)) <= MAX_PET_BLIND_PENDING)%nat /\
  (forall now created v attempt z salt node digest commitment peer map,
     store now created v attempt z salt node digest commitment peer (blind_map (run_blind_calls cs)) = (Stored, map) ->
     take v attempt peer map =
       (Some (MkPendingBlinding F z salt node digest commitment peer created), delete (versioned_key v attempt) map)).
Proof.
  split_and!; [..|intros; exact (store_take _ _ (MkPendingBlinding F _ _ _ _ _ _ _) _ _ H)].
  all: rewrite (run_blind_calls_sim cs); destruct (run_calls_inv (to_call <$> cs)) as [S L].
  2: done.
  etrans; [|exact S]. by apply submseteq_inserts_r.
Qed.
End Executions.

End PendingBlind.

(** ** The nonce states of [SignResponseManager] *)
Module NonceStates.

Definition MAX_NONCE_STATES : nat := 1000.
Definition SIGN_NONCE_TTL : Z := from_secs 45.

Record NonceEntry := MkNonceEntry {
  nonce_bytes : bytes;
  context_key : bytes;
  coordinator_peer_id : bytes;
  created_at : Instant;
}.

Record ConsumedNonce := MkConsumedNonce {
  consumed_bytes : bytes;
  consumed_context_key : bytes;
}.

#[global] Instance nonce_one_use : OneUse NonceEntry := {|
  entry_created_at := created_at;
  entry_peer := coordinator_peer_id;
  entry_ttl := SIGN_NONCE_TTL;
  entry_limit := MAX_NONCE_STATES;
|}.

Definition store_nonce_for_version (now created : Instant) (protocol_version : Z)
    (request_id nonce context_key coordinator_peer_id : bytes) (states : gmap bytes NonceEntry) :
    StoreOutcome * gmap bytes NonceEntry :=
  store_entry now (versioned_key protocol_version request_id)
    (MkNonceEntry nonce context_key coordinator_peer_id created) states.

Definition consume_nonce_for_sign_request_for_version (protocol_version : Z)
    (request_id coordinator_peer_id : bytes) (states : gmap bytes NonceEntry) :
    option ConsumedNonce * gmap bytes NonceEntry :=
  let '(entry, states) := take_entry (versioned_key protocol_version request_id) coordinator_peer_id states in
  ((fun e => MkConsumedNonce (nonce_bytes e) (context_key e)) <$> entry, states).

Definition into_bytes_for_context (consumed : ConsumedNonce) (expected_context_key : bytes) : option bytes :=
  if bool_decide (consumed_context_key consumed = expected_context_key) then Some (consumed_bytes consumed)
  else None.

(** An execution of the signing responder: nonces stored in Round 1 for a
    coordinator under a context, nonces asked for in Round 2. *)
Inductive nonce_call :=
  | StoreNonce (now created : Instant) (protocol_version : Z) (request_id nonce context_key peer : bytes)
  | SpendNonce (protocol_version : Z) (request_id peer expected_context_key : bytes)
  | SweepNonces (now : Instant).

(** A nonce with its key, its coordinator and its context. *)
Definition grant : Type := bytes * bytes * bytes * bytes.

Record nonce_log := MkNonceLog {
  nonce_states : gmap bytes NonceEntry;
  nonces_stored : list grant;
  nonces_released : list grant;
}.

Definition run_nonce_call (l : nonce_log) (c : nonce_call) : nonce_log :=
  match c with
  | StoreNonce now created v id nonce ctx peer =>
      let '(outcome, states) := store_nonce_for_version now created v id nonce ctx peer (nonce_states l) in
      MkNonceLog states
        (match outcome with Stored => [(versioned_key v id, peer, ctx, nonce)] | _ => [] end ++ nonces_stored l)
        (nonces_released l)
  | SpendNonce v id peer ctx =>
      let '(consumed, states) := consume_nonce_for_sign_request_for_version v id peer (nonce_states l) in
      MkNonceLog states (nonces_stored l)
        (match consumed ≫= (fun c => into_bytes_for_context c ctx) with
         | Some nonce => [(versioned_key v id, peer, ctx, nonce)]
         | None => []
         end ++ nonces_released l)
  | SweepNonces now => MkNonceLog (remove_expired now (nonce_states l)) (nonces_stored l) (nonces_released l)
  end.

Definition run_nonce_calls (cs : list nonce_call) : nonce_log := fold_left run_nonce_call cs (MkNonceLog ∅ [] []).

Definition nonce_grant (t : bytes * bytes * NonceEntry) : grant :=
  let '(key, peer, e) := t in (key, peer, context_key e, nonce_bytes e).

(** The execution is one of the one-use map; what it releases was taken. *)
Definition nonce_sim (l : nonce_log) (s : store_log (Entry := NonceEntry)) : Prop :=
  nonce_states l = log_map s /\ nonces_stored l = nonce_grant <$> log_stored s /\
  nonces_released l ⊆+ nonce_grant <$> log_taken s.

Definition to_call (c : nonce_call) : store_call :=
  match c with
  | StoreNonce now created v id nonce ctx peer =>
      CallStore now (versioned_key v id) (MkNonceEntry nonce ctx peer created)
  | SpendNonce v id peer _ => CallTake (versioned_key v id) peer
  | SweepNonces now => CallSweep now
  end.

Lemma run_nonce_call_sim l s c : nonce_sim l s -> nonce_sim (run_nonce_call l c) (run_call s (to_call c)).
Proof.
  destruct s as [map stored taken], l as [states ns nr]. intros (E1 & E2 & E3). cbn in *. subst.
  destruct c as [now created v id nonce ctx peer|v id peer ctx|now]; cbn; [..|done].
  - unfold store_nonce_for_version. by destruct (store_entry _ _ _ map) as [[] ?].
  - unfold consume_nonce_for_sign_request_for_version.
    destruct (take_entry _ _ map) as [[e|] m]; cbn; [|done]. split_and!; [done..|]. cbn.
    unfold into_bytes_for_context. cbn. case_bool_decide as EC; cbn; [|by apply submseteq_cons].
    rewrite EC. by apply submseteq_skip.
Qed.

Lemma run_nonce_calls_sim cs : nonce_sim (run_nonce_calls cs) (run_calls (to_call <$> cs)).
Proof.
  unfold run_nonce_calls, run_calls. assert (nonce_sim (MkNonceLog ∅ [] []) (MkLog ∅ [] [])) as H by done.
  revert H. generalize (MkNonceLog ∅ [] []), (MkLog (Entry := NonceEntry) ∅ [] []).
  induction cs as [|c cs IH]; intros l s H; [done|]. apply IH, run_nonce_call_sim, H.
Qed.

Lemma released_stored cs : nonces_released (run_nonce_calls cs) ⊆+ nonces_stored (run_nonce_calls cs).
Proof.
  destruct (run_nonce_calls_sim cs) as (_ & E2 & E3), (run_calls_inv (to_call <$> cs)) as [S _].
  rewrite E2. etrans; [exact E3|]. apply fmap_submseteq. etrans; [|exact S]. by apply submseteq_inserts_r.
Qed.

(** A signing nonce is spent at most once, by the coordinator it was made
    for and under the context that authorized it.  In every execution of the
    nonce store, in whatever order stores, spends and expiry sweeps get the
    lock, the nonces released are, as a multiset, among the nonces stored, each
    with its own request, peer and context; and the store never holds more than
    its limit.  In particular nonces that were all distinct when stored are
    released without a repeat. *)
Lemma nonce_spent_once (cs : list nonce_call) :
  nonces_released (run_nonce_calls cs) ⊆+ nonces_stored (run_nonce_calls cs) /\
  (size (nonce_states (run_nonce_calls cs)) <= MAX_NONCE_STATES)%nat /\
  (NoDup (nonces_stored (run_nonce_calls cs)).*2 -> NoDup (nonces_released (run_nonce_calls cs)).*2).
Proof.
  destruct (run_nonce_calls_sim cs) as (E1 & _), (run_calls_inv (to_call <$> cs)) as [_ L].
  pose proof (released_stored cs) as HS. split_and!; [done|by rewrite E1|]. intros N.
  by eapply submseteq_NoDup, fmap_submseteq.
Qed.

End NonceStates.
