(* ===== verification/Envelope.v ===== *)
(** * Report envelopes

    [crates/reporting/src/envelope.rs]: the container every fault report is
    signed and submitted in, its identifier and its validity. *)
From S2P Require Import Prelude Primitives Toy Context ReportCodec ReportStatements ReportPet Evidence Identity NodeState.

#[local] Set Keyed Unification.

Definition REPORT_DOMAIN : bytes := bstr "orbis-mpc-fault-report".
Definition REPORT_TTL_SECS : Z := 120.
Definition CHAIN_BLOCK_GRACE_SECS : Z := 10.

Record ReportedDocumentEvidence := MkReportedDocumentEvidence {
  rde_document : bytes;
  rde_proof : bytes;
  rde_policy_id : bytes;
  rde_resource : bytes;
  rde_permission : bytes;
  rde_tier : option bytes;
  rde_pet_tag : option bytes;
  rde_pet_tag_proof : option bytes;
}.

Record ReportEnvelope := MkReportEnvelope {
  re_domain : bytes;
  re_report_type : bytes;
  re_chain_id : bytes;
  re_ring_id : bytes;
  re_ring_pk : bytes;
  re_ring_state_sha256 : bytes;
  re_reporter_node_key : bytes;
  re_accused_node_key : bytes;
  re_accused_peer_id : bytes;
  re_observed_at : Z;
  re_expires_at : Z;
  re_payload : bytes;
  re_session_id : bytes;
}.

Definition ReportEnvelope_canonical_bytes (e : ReportEnvelope) : bytes :=
  let out := write_string [] (re_domain e) in
  let out := write_string out (re_report_type e) in
  let out := write_string out (re_chain_id e) in
  let out := write_string out (re_ring_id e) in
  let out := write_string out (re_ring_pk e) in
  let out := write_string out (re_ring_state_sha256 e) in
  let out := write_string out (re_reporter_node_key e) in
  let out := write_string out (re_accused_node_key e) in
  let out := write_string out (re_accused_peer_id e) in
  let out := write_u64 out (re_observed_at e) in
  let out := write_u64 out (re_expires_at e) in
  let out := write_bytes out (re_payload e) in
  let out := write_string out (re_session_id e) in
  out.

Definition report_id `{Sha2} `{Hex} (e : ReportEnvelope) : bytes :=
  hex_encode (sha256 (ReportEnvelope_canonical_bytes e)).

(** The loop over the labelled fields. *)
Fixpoint nonempty_fields (fields : list (string * bytes)) : report_result unit :=
  match fields with
  | [] => Ok tt
  | (label, value) :: fields =>
      reject (bool_decide (value = [])) (InvalidReport (label +:+ " cannot be empty")) ;?
      nonempty_fields fields
  end.

Definition labelled_fields (e : ReportEnvelope) : list (string * bytes) :=
  [("report_type", re_report_type e); ("chain_id", re_chain_id e); ("ring_id", re_ring_id e);
   ("ring_pk", re_ring_pk e); ("ring_state_sha256", re_ring_state_sha256 e);
   ("reporter_node_key", re_reporter_node_key e); ("accused_node_key", re_accused_node_key e);
   ("accused_peer_id", re_accused_peer_id e); ("session_id", re_session_id e)].

Definition validate_shape (e : ReportEnvelope) (now : Z) : report_result unit :=
  reject (negb (bool_decide (re_domain e = REPORT_DOMAIN)))
    (InvalidReport ("unexpected domain " +:+ show (re_domain e))) ;?
  reject (now <? re_observed_at e) (InvalidReport "observed_at cannot be in the future") ;?
  reject ((re_expires_at e <? re_observed_at e)
          || negb (Z.max 0 (re_expires_at e - re_observed_at e) =? REPORT_TTL_SECS))
    (InvalidReport "invalid report validity window") ;?
  reject (re_expires_at e <? now) Expired ;?
  nonempty_fields (labelled_fields e) ;?
  reject (bool_decide (re_reporter_node_key e = re_accused_node_key e))
    (InvalidReport "reporter and accused node must differ").

(** ** Properties *)

Definition ReportEnvelope_wf (e : ReportEnvelope) : Prop :=
  let '(MkReportEnvelope domain report_type chain_id ring_id ring_pk state reporter accused peer observed expires
        payload session) := e in
  short domain /\ short report_type /\ short chain_id /\ short ring_id /\ short ring_pk /\ short state /\
  short reporter /\ short accused /\ short peer /\ is_u64 observed /\ is_u64 expires /\ short payload /\ short session.

Lemma ReportEnvelope_canonical_inj a b :
  ReportEnvelope_wf a -> ReportEnvelope_wf b ->
  ReportEnvelope_canonical_bytes a = ReportEnvelope_canonical_bytes b -> a = b.
Proof.
  destruct a, b. unfold ReportEnvelope_wf. intros Wa Wb E%(f_equal (fun b => b ++ [])). wire_split. revert E.
  unfold ReportEnvelope_canonical_bytes. cbv zeta.
  cbn [re_domain re_report_type re_chain_id re_ring_id re_ring_pk re_ring_state_sha256 re_reporter_node_key
       re_accused_node_key re_accused_peer_id re_observed_at re_expires_at re_payload re_session_id].
  wire_norm. intros E. repeat wire_inj E. by subst.
Qed.

Lemma nonempty_fields_Ok l : nonempty_fields l = Ok tt <-> Forall (fun f => f.2 <> []) l.
Proof.
  induction l as [|[label v] l IH]; [done|]. rewrite Forall_cons, <- IH. cbn. unfold reject. case_bool_decide; naive_solver.
Qed.

Lemma validate_shape_Ok e now :
  validate_shape e now = Ok tt <->
  re_domain e = REPORT_DOMAIN /\ re_expires_at e = re_observed_at e + REPORT_TTL_SECS /\
  re_observed_at e <= now <= re_expires_at e /\ Forall (fun f => f.2 <> []) (labelled_fields e) /\
  re_reporter_node_key e <> re_accused_node_key e.
Proof.
  unfold validate_shape, REPORT_TTL_SECS. rewrite <- nonempty_fields_Ok. split.
  - intros E. bind_ok E as ? Hd%reject_Ok. bind_ok E as ? H1%reject_Ok. bind_ok E as ? H2%reject_Ok.
    bind_ok E as ? H3%reject_Ok. bind_ok E as [] H4. apply reject_Ok, bool_decide_eq_false in E.
    apply negb_false_iff, bool_decide_eq_true in Hd. split_and!; try done; lia.
  - intros (-> & H1 & H2 & -> & H3). rewrite bool_decide_true by done. cbn [negb reject res_bind].
    rewrite (bool_decide_false _ H3).
    repeat match goal with |- context [reject ?b _] => replace b with false by lia; cbn [reject res_bind] end. done.
Qed.

(** C37: a report is accepted in exactly one window.  [validate_shape] accepts an
    envelope at exactly the times from its observation to 120 seconds later,
    when it carries the report domain, names every party, and does not accuse
    its own reporter; and two envelopes with the same report id are equal or
    exhibit a collision of SHA-256, so an identifier that was accepted cannot
    be reused for another accusation or another window. *)
Theorem report_window `{Sha2} `{Hex} (a b : ReportEnvelope) :
  ReportEnvelope_wf a -> ReportEnvelope_wf b ->
  (forall now, validate_shape a now = Ok tt <->
     (re_domain a = REPORT_DOMAIN /\ Forall (fun f => f.2 <> []) (labelled_fields a) /\
      re_reporter_node_key a <> re_accused_node_key a /\
      re_expires_at a = re_observed_at a + REPORT_TTL_SECS) /\
     re_observed_at a <= now <= re_observed_at a + REPORT_TTL_SECS) /\
  (report_id a = report_id b ->
   a = b \/ collision sha256 (ReportEnvelope_canonical_bytes a) (ReportEnvelope_canonical_bytes b)).
Proof.
  intros Wa Wb. split.
  - intros now. rewrite validate_shape_Ok. split; [intros (? & E & ? & ? & ?); rewrite E in *; tauto|].
    intros ((? & ? & ? & E) & ?). rewrite E. tauto.
  - intros E%hex_encode_inj. apply (same_or_collision sha256) in E as [E|E]; [left|by right].
    by apply ReportEnvelope_canonical_inj.
Qed.

Lemma report_window_witness :
  let Sh := toy_sha2 in let Hx := plain_hex in
  let e := MkReportEnvelope REPORT_DOMAIN (bstr "node_offline") (bstr "c") (bstr "r") (bstr "k") (bstr "s") (bstr "a")
    (bstr "b") (bstr "p") 100 220 [] (bstr "i") in
  validate_shape e 220 = Ok tt /\ validate_shape e 221 = Err Expired /\ e = e.
Proof.
  intros Sh Hx e. assert (ReportEnvelope_wf e) as W by (repeat split; done).
  pose proof (report_window e e W W) as [Hw _]. split_and!; [apply Hw|vm_compute; reflexivity|reflexivity].
  repeat split; try (repeat constructor; discriminate); vm_compute; discriminate.
Defined.
