(* ===== verification/Collection.v ===== *)
(** * Collecting the answers of a committee

    The initiators of the protocols share a loop: the results of the peer tasks
    are checked in the order they arrive, at most one answer is counted for every
    member, and the loop ends when enough answers are accepted; what the response
    table holds is checked afterwards.  Here the loop is taken on its own, over
    the check of one answer, with what every instance relies on: the collected
    items belong to different members and passed the check, and the answers of
    enough members make the loop succeed, whatever arrives in between. *)
From S2P Require Import Prelude.

Section Collection.
Context {A I : Type}.

(** The member an answer counts for, that of an accepted item, and the check, which
    takes the members seen so far. *)
Context (node : A -> option Z) (index : I -> Z) (check : A -> gset Z -> option I * gset Z).

Definition absorb (a : A) (c : gset Z * list I) : gset Z * list I :=
  let '(r, seen) := check a c.1 in (seen, c.2 ++ option_list r).

Definition gain (a : A) (c : gset Z * list I) : Z := Z.of_nat (length (option_list (check a c.1).1)).

Fixpoint collect_until (min : Z) (l : list A) (n : Z) (c : gset Z * list I) : Z * (gset Z * list I) :=
  match l with
  | [] => (n, c)
  | a :: l =>
      let n := n + gain a c in
      let c := absorb a c in
      if min <=? n then (n, c) else collect_until min l n c
  end.

Definition collect_all (l : list A) (c : gset Z * list I) : gset Z * list I := fold_left (fun c a => absorb a c) l c.

(** What a check does: it marks the member it counts, at most, and accepts at
    most one item of a member. *)
Definition fair_check (accepted : I -> Prop) (a : A) : Prop :=
  forall seen r seen', check a seen = (r, seen') ->
    (seen' = seen \/ exists i, node a = Some i /\ seen' = {[i]} ∪ seen) /\
    forall x, r = Some x -> node a = Some (index x) /\ (index x ∉ seen) /\ index x ∈ seen' /\ accepted x.

(** An answer that is accepted as soon as its member was not seen. *)
Definition valid_answer (a : A) : Prop :=
  exists i, node a = Some i /\ forall seen, i ∉ seen -> exists x, check a seen = (Some x, {[i]} ∪ seen).

Record collected (accepted : I -> Prop) (c : gset Z * list I) : Prop := {
  collected_distinct : NoDup (index <$> c.2);
  collected_seen : Forall (fun x => index x ∈ c.1) c.2;
  collected_accepted : Forall accepted c.2;
}.

Lemma step_seen accepted a c :
  fair_check accepted a ->
  c.1 ⊆ (absorb a c).1 /\ (absorb a c).1 ⊆ list_to_set (option_list (node a)) ∪ c.1.
Proof.
  intros Hf. unfold absorb. destruct (check a c.1) as [r seen] eqn:E. destruct (Hf _ _ _ E) as [Hs _]. cbn.
  destruct Hs as [->|(i & -> & ->)]; set_solver.
Qed.

Lemma step_collected accepted a c : fair_check accepted a -> collected accepted c -> collected accepted (absorb a c).
Proof.
  intros Hf [D V C]. pose proof (step_seen accepted a c Hf) as [Hs _]. unfold absorb in *.
  destruct (check a c.1) as [r seen] eqn:E. destruct (Hf _ _ _ E) as [_ Hx]. cbn in Hs.
  assert (Forall (fun x => index x ∈ seen) c.2) as V' by (eapply Forall_impl; [exact V|]; intros x; apply Hs).
  destruct r as [x|]; cbn; [|by rewrite app_nil_r]. destruct (Hx x eq_refl) as (_ & Hn & Hin & Ha).
  constructor; cbn; [|by apply Forall_app_2, Forall_singleton..].
  rewrite fmap_app. apply NoDup_app. split_and!; [done| |apply NoDup_singleton].
  intros i (y & -> & Hy)%list_elem_of_fmap Ei%list_elem_of_singleton. rewrite Forall_forall in V. apply V in Hy. congruence.
Qed.

Lemma collect_all_collected accepted l c :
  Forall (fair_check accepted) l -> collected accepted c ->
  collected accepted (collect_all l c) /\ (length c.2 <= length (collect_all l c).2)%nat.
Proof.
  intros Hl. revert c. induction Hl as [|a l Ha Hl IH]; intros c I0; [done|]. cbn.
  destruct (IH _ (step_collected accepted a c Ha I0)) as [I1 L]. split; [done|]. etrans; [|exact L].
  unfold absorb. destruct (check a c.1). cbn. rewrite length_app. lia.
Qed.

Lemma collect_until_collected accepted min l n c :
  Forall (fair_check accepted) l -> collected accepted c -> collected accepted (collect_until min l n c).2.
Proof.
  intros Hl. revert n c. induction Hl as [|a l Ha Hl IH]; intros n c I0; [done|]. cbn.
  pose proof (step_collected accepted a c Ha I0). destruct (_ <=? _); [done|]. by apply IH.
Qed.

Lemma collect_until_count min l n c :
  n <= (collect_until min l n c).1 /\
  Z.of_nat (length (collect_until min l n c).2.2) - (collect_until min l n c).1 = Z.of_nat (length c.2) - n.
Proof.
  revert n c. induction l as [|a l IH]; intros n c; [cbn; lia|]. cbn.
  assert (Z.of_nat (length (absorb a c).2) = Z.of_nat (length c.2) + gain a c) as E.
  { unfold absorb, gain. destruct (check a c.1). cbn. rewrite length_app. lia. }
  assert (0 <= gain a c) by (unfold gain; lia). destruct (_ <=? _); cbn; [lia|].
  destruct (IH (n + gain a c) (absorb a c)). lia.
Qed.

(** No member of [l] was seen. *)
Let unseen (l : list A) (seen : gset Z) := forall a i, a ∈ l -> node a = Some i -> i ∉ seen.

Lemma unseen_tail a l (seen seen' : gset Z) :
  NoDup (omap node (a :: l)) -> unseen (a :: l) seen -> seen' ⊆ list_to_set (option_list (node a)) ∪ seen ->
  NoDup (omap node l) /\ unseen l seen'.
Proof.
  intros N Hu Hs. cbn in N. destruct (node a) as [j|] eqn:Ea; cbn in *.
  - apply NoDup_cons in N as [Hj N]. split; [done|]. intros b i Hb Hi [Ei|Hi']%Hs%elem_of_union.
    + apply elem_of_union in Ei as [->%elem_of_singleton|[]%elem_of_empty]. apply Hj, list_elem_of_omap. by exists b.
    + revert Hi'. apply (Hu b); [by right|done].
  - split; [done|]. intros b i Hb Hi [[]%elem_of_empty|Hi']%Hs%elem_of_union. revert Hi'. apply (Hu b); [by right|done].
Qed.

Lemma valid_gain a c i : valid_answer a -> node a = Some i -> i ∉ c.1 -> gain a c = 1.
Proof. intros (j & Hj & H) Hi Hn. rewrite Hi in Hj. injection Hj as <-. destruct (H _ Hn) as [x E]. unfold gain. by rewrite E. Qed.

Lemma collect_until_valid accepted min hs l n c :
  sublist hs l -> Forall (fair_check accepted) l -> Forall valid_answer hs -> NoDup (omap node l) -> unseen l c.1 ->
  min <= (collect_until min l n c).1 \/ n + Z.of_nat (length hs) <= (collect_until min l n c).1.
Proof.
  intros Hsub. revert n c. induction Hsub as [|a hs l Hsub IH|a hs l Hsub IH]; intros n c Hf Hh N Hu; [cbn; lia|..];
    apply Forall_cons in Hf as [Ha Hf]; destruct (step_seen accepted a c Ha) as [_ Hs];
    destruct (unseen_tail _ _ _ _ N Hu Hs) as [N' Hu']; cbn [collect_until]; destruct (Z.leb_spec min (n + gain a c)); try (by left).
  - apply Forall_cons in Hh as [Hv Hh]. pose proof Hv as (i & Hi & _).
    assert (gain a c = 1) as G by (apply (valid_gain a c i); [done..|]; apply (Hu a); [by left|done]).
    destruct (IH (n + gain a c) (absorb a c) Hf Hh N' Hu'); [by left|right]. cbn [length]. lia.
  - assert (0 <= gain a c) by (unfold gain; lia). destruct (IH (n + gain a c) (absorb a c) Hf Hh N' Hu'); [by left|right]. lia.
Qed.

(** The collection of an initiator: its own items, the loop while any is missing,
    then the stored answers. *)
Definition collection (min : Z) (own : list I) (arrivals stored : list A) : gset Z * list I :=
  let c := (list_to_set (index <$> own), own) in
  collect_all stored (if 0 <? min then (collect_until min arrivals 0 c).2 else c).

Lemma own_collected accepted own :
  Forall accepted own -> NoDup (index <$> own) -> collected accepted (list_to_set (index <$> own), own).
Proof.
  intros Ho D. constructor; cbn; [done| |done]. apply Forall_forall. intros x Hx. by apply elem_of_list_to_set, list_elem_of_fmap_2.
Qed.

Lemma collection_enough accepted t own arrivals stored hs :
  Forall (fair_check accepted) (arrivals ++ stored) -> Forall accepted own ->
  NoDup ((index <$> own) ++ omap node arrivals) -> sublist hs arrivals -> Forall valid_answer hs ->
  t <= Z.of_nat (length own + length hs) ->
  let c := collection (Z.max 0 (t - Z.of_nat (length own))) own arrivals stored in
  collected accepted c /\ t <= Z.of_nat (length c.2).
Proof.
  intros [Hf Hfs]%Forall_app Ho (D1 & D2 & D3)%NoDup_app Hsub Hh Ht. unfold collection.
  set (c0 := (list_to_set (index <$> own), own)). set (min := Z.max 0 (t - Z.of_nat (length own))).
  set (c1 := if 0 <? min then _ else c0).
  assert (collected accepted c0) as I0 by (by apply own_collected).
  assert (collected accepted c1) as I1 by (unfold c1; destruct (0 <? min); [by apply collect_until_collected|done]).
  assert (t <= Z.of_nat (length c1.2)) as L1.
  { unfold c1. destruct (Z.ltb_spec 0 min) as [H0|H0]; [|cbn; lia].
    destruct (collect_until_count min arrivals 0 c0) as [_ Hc]. cbn [c0 snd] in Hc.
    destruct (collect_until_valid accepted min hs arrivals 0 c0) as [?|?]; try done; [|lia..].
    intros a i Ha Hi Hin%elem_of_list_to_set. apply (D2 i Hin), list_elem_of_omap. by exists a. }
  destruct (collect_all_collected accepted stored c1 Hfs I1). split; [done|lia].
Qed.

(** Without any answer counted on, what is collected is still valid. *)
Lemma collection_collected accepted min own arrivals stored :
  Forall (fair_check accepted) (arrivals ++ stored) -> Forall accepted own -> NoDup (index <$> own) ->
  collected accepted (collection min own arrivals stored).
Proof.
  intros [Hf Hfs]%Forall_app Ho D. unfold collection. apply collect_all_collected; [done|].
  pose proof (own_collected accepted own Ho D). destruct (0 <? min); [by apply collect_until_collected|done].
Qed.
End Collection.
