(* ===== verification/Responses.v ===== *)
(** * Collecting responses

    [helpers/response_manager.rs], the generic manager the PRE, PET and signing
    coordinators collect their responses in, and the per-version wrappers of
    [pre/v0/response_state.rs], [sign/v0/response_state.rs] and
    [pet/v0/response_state.rs].  Every operation holds the write lock for its
    whole body. *)
From S2P Require Import Prelude Primitives Identity NodeState.

Record AuthenticatedResponse {M : Type} := MkAuthenticatedResponse {
  message : M;
  sender_peer_hex : bytes;
}.
#[global] Arguments AuthenticatedResponse : clear implicits.

Inductive ResponseInitOutcome := InitCreated | InitAlreadyExists | InitLimitReached.

Inductive ResponseStoreOutcome := ResponseStored | UnexpectedOrDuplicatePeer | MissingRequest.

Record ResponseEntry {M : Type} := MkResponseEntry {
  responses : list (AuthenticatedResponse M);
  expected_peers : gset bytes;
  entry_created : Instant;
}.
#[global] Arguments ResponseEntry : clear implicits.

(** ** The manager *)
Section Manager.
Context {M : Type} `{Hex}.
Abbreviation response_map := (gmap bytes (ResponseEntry M)).

(** One tick of [expiration_worker]. *)
Definition expire_responses (now : Instant) (ttl : Z) (map : response_map) : response_map :=
  filter (fun kv => (ttl <? duration_since now (entry_created kv.2)) = false) map.

Definition init_response (max_entries : nat) (now : Instant) (request_id : bytes)
    (expected_peer_ids : list bytes) (map : response_map) : ResponseInitOutcome * response_map :=
  if bool_decide (is_Some (map !! request_id)) then (InitAlreadyExists, map)
  else if (max_entries <=? size map)%nat then (InitLimitReached, map)
  else
    let expected : gset bytes := list_to_set (extract_node_part <$> expected_peer_ids) in
    (InitCreated, <[request_id := MkResponseEntry M [] expected now]> map).

Definition store_response (request_id : bytes) (msg : M) (sender_peer_bytes : bytes) (map : response_map) :
    ResponseStoreOutcome * response_map :=
  let sender_hex := hex_encode sender_peer_bytes in
  match map !! request_id with
  | Some entry =>
      if bool_decide (sender_hex ∈ expected_peers entry) then
        (ResponseStored,
         <[request_id := MkResponseEntry M (responses entry ++ [MkAuthenticatedResponse M msg sender_hex])
             (expected_peers entry ∖ {[sender_hex]}) (entry_created entry)]> map)
      else (UnexpectedOrDuplicatePeer, map)
  | None => (MissingRequest, map)
  end.

Definition take_authenticated_responses (request_id : bytes) (map : response_map) :
    option (list (AuthenticatedResponse M)) * response_map :=
  (responses <$> map !! request_id, delete request_id map).

Definition remove_response (request_id : bytes) (map : response_map) : response_map := delete request_id map.

(** ** The per-version wrappers *)

Definition init_response_for_version (max_entries : nat) (now : Instant) (protocol_version : Z) (request_id : bytes)
    (expected_peer_ids : list bytes) (map : response_map) :=
  init_response max_entries now (versioned_key protocol_version request_id) expected_peer_ids map.

Definition store_response_for_version (protocol_version : Z) (request_id : bytes) (msg : M)
    (sender_peer_bytes : bytes) (map : response_map) :=
  store_response (versioned_key protocol_version request_id) msg sender_peer_bytes map.

Definition take_authenticated_responses_for_version (protocol_version : Z) (request_id : bytes)
    (map : response_map) :=
  take_authenticated_responses (versioned_key protocol_version request_id) map.

Definition remove_response_for_version (protocol_version : Z) (request_id : bytes) (map : response_map) :=
  remove_response (versioned_key protocol_version request_id) map.

(** ** Executions

    One step per operation that gets the lock; [declared] remembers, for every
    entry, the peers its [init_response] named. *)
Record collect_state := MkCollect {
  entries : response_map;
  declared : gmap bytes (list bytes);
}.

Inductive collect_step (max_entries : nat) (ttl : Z) : collect_state -> collect_state -> Prop :=
  | step_init now request_id peers map map' decl :
      init_response max_entries now request_id peers map = (InitCreated, map') ->
      collect_step max_entries ttl (MkCollect map decl) (MkCollect map' (<[request_id := peers]> decl))
  | step_init_refused now request_id peers map map' decl o :
      init_response max_entries now request_id peers map = (o, map') -> o <> InitCreated ->
      collect_step max_entries ttl (MkCollect map decl) (MkCollect map' decl)
  | step_store request_id msg sender map map' decl o :
      store_response request_id msg sender map = (o, map') ->
      collect_step max_entries ttl (MkCollect map decl) (MkCollect map' decl)
  | step_take request_id map map' decl rs :
      take_authenticated_responses request_id map = (rs, map') ->
      collect_step max_entries ttl (MkCollect map decl) (MkCollect map' decl)
  | step_remove request_id map decl :
      collect_step max_entries ttl (MkCollect map decl) (MkCollect (remove_response request_id map) decl)
  | step_expire now map decl :
      collect_step max_entries ttl (MkCollect map decl) (MkCollect (expire_responses now ttl map) decl).

Definition collect_init : collect_state := MkCollect ∅ ∅.

(** The senders heard so far and the peers still expected partition the peers
    that were declared, and no sender is heard twice. *)
Definition entry_ok (peers : list bytes) (e : ResponseEntry M) : Prop :=
  NoDup (sender_peer_hex <$> responses e) /\
  list_to_set (C := gset bytes) (sender_peer_hex <$> responses e) ## expected_peers e /\
  list_to_set (sender_peer_hex <$> responses e) ∪ expected_peers e =
    list_to_set (C := gset bytes) (extract_node_part <$> peers).

Definition collect_inv (max_entries : nat) (s : collect_state) : Prop :=
  (size (entries s) <= max_entries)%nat /\
  map_Forall (fun id e => exists peers, declared s !! id = Some peers /\ entry_ok peers e) (entries s).

Lemma store_entry_ok peers e msg sender :
  sender ∈ expected_peers e -> entry_ok peers e ->
  entry_ok peers (MkResponseEntry M (responses e ++ [MkAuthenticatedResponse M msg sender])
    (expected_peers e ∖ {[sender]}) (entry_created e)).
Proof.
  intros Hs (N & D & U). unfold entry_ok. cbn. rewrite fmap_app, list_to_set_app_L. cbn. split_and!.
  - apply NoDup_app. split_and!; [done| |apply NoDup_singleton].
    intros k Hk Hk'. apply list_elem_of_singleton in Hk' as ->. set_solver.
  - set_solver.
  - rewrite <- U. apply set_eq. intros k. destruct (decide (k = sender)); set_solver.
Qed.

Lemma collect_step_inv max_entries ttl s s' :
  collect_step max_entries ttl s s' -> collect_inv max_entries s -> collect_inv max_entries s'.
Proof.
  intros St [L I].
  destruct St as [now id peers map map' decl E|now id peers map map' decl o E Ho|id msg sender map map' decl o E
    |id map map' decl rs E|id map decl|now map decl]; cbn in *.
  - unfold init_response in E. case_bool_decide as Hn; [done|]. destruct (_ <=? _)%nat eqn:Hl; [done|].
    injection E as <-. apply eq_None_not_Some in Hn. apply Nat.leb_gt in Hl. split; cbn.
    + rewrite map_size_insert_None by done. lia.
    + apply map_Forall_insert_2.
      * exists peers. rewrite lookup_insert_eq. split; [done|]. repeat split; cbn; [constructor|set_solver..].
      * intros k e Hk. destruct (I k e Hk) as (p & Hp & Ok). exists p. rewrite lookup_insert_ne; [done|congruence].
  - unfold init_response in E. destruct (bool_decide _); [by injection E as <- <-|].
    destruct (_ <=? _)%nat; injection E as <- <-; done.
  - unfold store_response in E. destruct (map !! id) as [e|] eqn:Hid; [|by injection E as <- <-].
    case_bool_decide as Hs; injection E as <- <-; [|done]. split; cbn.
    + rewrite map_size_insert_Some by eauto. done.
    + apply map_Forall_insert_2; [|done]. destruct (I id e Hid) as (p & Hp & Ok). exists p.
      split; [done|by apply store_entry_ok].
  - injection E as <- <-. split; cbn; [|by apply map_Forall_delete].
    etrans; [|exact L]. apply map_subseteq_size, delete_subseteq.
  - split; cbn; [|by apply map_Forall_delete]. etrans; [|exact L]. apply map_subseteq_size, delete_subseteq.
  - split; cbn; [etrans; [|exact L]; apply map_subseteq_size, map_filter_subseteq|].
    intros k e Hk. apply map_lookup_filter_Some in Hk as [Hk _]. by apply I.
Qed.

Lemma collect_reachable_inv max_entries ttl s :
  rtc (collect_step max_entries ttl) collect_init s -> collect_inv max_entries s.
Proof.
  intros R. assert (collect_inv max_entries collect_init) as H0 by (split; cbn; [rewrite map_size_empty; lia|apply map_Forall_empty]).
  induction R as [|s1 s2 s3 St _ IH]; eauto using collect_step_inv.
Qed.

(** C26: in every reachable state, what a coordinator takes for a request are
    responses of distinct authenticated senders, all of them among the peers
    the request was opened for, so never more than it asked; and no more
    requests are open than the limit allows. *)
Theorem responses_authenticated max_entries ttl s request_id rs map' :
  rtc (collect_step max_entries ttl) collect_init s ->
  take_authenticated_responses request_id (entries s) = (Some rs, map') ->
  (size (entries s) <= max_entries)%nat /\ map' !! request_id = None /\
  exists peers, declared s !! request_id = Some peers /\
    NoDup (sender_peer_hex <$> rs) /\
    (forall r, r ∈ rs -> sender_peer_hex r ∈ (extract_node_part <$> peers)) /\
    (length rs <= length peers)%nat.
Proof.
  intros [L I]%collect_reachable_inv E. unfold take_authenticated_responses in E. injection E as E <-.
  apply fmap_Some in E as (e & He & ->). destruct (I _ _ He) as (peers & Hp & N & D & U).
  split_and!; [done|apply lookup_delete_eq|]. exists peers.
  assert (forall r, r ∈ responses e -> sender_peer_hex r ∈ (extract_node_part <$> peers)) as Hin.
  { intros r Hr. apply (elem_of_list_to_set (C := gset bytes)). rewrite <- U. apply elem_of_union_l.
    apply elem_of_list_to_set. by apply list_elem_of_fmap_2. }
  split_and!; [done..|]. rewrite <- (length_fmap sender_peer_hex (responses e)), <- (length_fmap extract_node_part peers).
  apply submseteq_length, NoDup_submseteq; [done|].
  intros k (r & -> & Hr)%list_elem_of_fmap. by apply Hin.
Qed.
End Manager.

#[local] Existing Instance plain_hex.

Lemma responses_authenticated_witness :
  let peers := [bstr "aa@h:1"; bstr "bb"] in
  let map1 := (init_response (M := Z) 10 0 (bstr "r") peers ∅).2 in
  let map2 := (store_response (bstr "r") 5 [Byte.xbb] map1).2 in
  exists rs map', take_authenticated_responses (bstr "r") map2 = (Some rs, map') /\
    message <$> rs = [5] /\ NoDup (sender_peer_hex <$> rs).
Proof.
  intros peers map1 map2.
  set (e1 := MkResponseEntry Z [] (list_to_set (extract_node_part <$> peers)) 0).
  assert (init_response (M := Z) 10 0 (bstr "r") peers ∅ = (InitCreated, <[bstr "r" := e1]> ∅)) as E1 by
    (unfold init_response; by rewrite lookup_empty, map_size_empty).
  set (e2 := MkResponseEntry Z [MkAuthenticatedResponse Z 5 (bstr "bb")]
    (list_to_set (extract_node_part <$> peers) ∖ {[bstr "bb"]}) 0).
  assert (store_response (bstr "r") 5 [Byte.xbb] (<[bstr "r" := e1]> ∅) =
    (ResponseStored, <[bstr "r" := e2]> (<[bstr "r" := e1]> ∅))) as E2.
  { unfold store_response. rewrite lookup_insert_eq. by rewrite bool_decide_true by (cbn; set_solver). }
  unfold map2, map1. rewrite E1. cbn [snd]. rewrite E2. cbn [snd].
  eexists _, _. unfold take_authenticated_responses. rewrite lookup_insert_eq.
  split; [reflexivity|]. split; [reflexivity|].
  refine (let '(conj _ (conj _ (ex_intro _ _ (conj _ (conj N _))))) :=
    responses_authenticated (M := Z) 10 0 (MkCollect (<[bstr "r" := e2]> (<[bstr "r" := e1]> ∅))
      (<[bstr "r" := peers]> ∅)) (bstr "r") (responses e2) _ _ _ in N).
  - eapply rtc_l; [|eapply rtc_l; [|apply rtc_refl]]; [by apply step_init with 0|by eapply step_store].
  - unfold take_authenticated_responses, entries. by rewrite lookup_insert_eq.
Defined.
