(* ===== verification/Auth.v ===== *)
(** * Caller authentication

    [crates/authn/src]: verification of the JWT bearer tokens, the DID keys they
    are signed with and the actor they speak for; and the single-use guard of
    [bin/orbis-node/src/helpers/jti_replay.rs].  The JSON Web Token library, the
    base58 decoder and the Ed25519 point check are parameters. *)
From S2P Require Import Prelude Primitives Context Identity NodeState.

Inductive AuthNError : Type :=
  | JwtError (msg : string)
  | DidError (msg : string)
  | AuthUnauthorized (msg : string).

Abbreviation auth_result := (res AuthNError).

(** ** Strings *)

Definition starts_with (prefix s : bytes) : bool := bool_decide (take (length prefix) s = prefix).

Definition strip_prefix (prefix s : bytes) : option bytes :=
  if starts_with prefix s then Some (drop (length prefix) s) else None.

(** [s.split_once(sep)] on one byte, and [s.splitn(n, sep)]. *)
Fixpoint split_once (sep : Byte.byte) (s : bytes) : option (bytes * bytes) :=
  match s with
  | [] => None
  | b :: rest =>
      if decide (b = sep) then Some ([], rest)
      else '(l, r) ← split_once sep rest; Some (b :: l, r)
  end.

Fixpoint splitn (n : nat) (sep : Byte.byte) (s : bytes) : list bytes :=
  match n with
  | 0%nat => []
  | 1%nat => [s]
  | S n => match split_once sep s with Some (l, r) => l :: splitn n sep r | None => [s] end
  end.

(** The characters of a string. *)
Definition code_bits (b : Byte.byte) (n : Z) : Z := Z.land (byte.unsigned b) (2 ^ n - 1).

Fixpoint chars (s : bytes) : list Z :=
  match s with
  | [] => []
  | a :: s1 =>
      if byte.unsigned a <? 0x80 then byte.unsigned a :: chars s1
      else match s1 with
      | [] => []
      | b :: s2 =>
          if byte.unsigned a <? 0xE0 then (code_bits a 5 * 64 + code_bits b 6) :: chars s2
          else match s2 with
          | [] => []
          | c :: s3 =>
              if byte.unsigned a <? 0xF0 then
                (code_bits a 4 * 4096 + code_bits b 6 * 64 + code_bits c 6) :: chars s3
              else match s3 with
              | [] => []
              | d :: s4 =>
                  (code_bits a 3 * 262144 + code_bits b 6 * 4096 + code_bits c 6 * 64 + code_bits d 6) :: chars s4
              end
          end
      end
  end.

Definition between (lo hi c : Z) : bool := (lo <=? c) && (c <=? hi).

(** [char::is_whitespace]: the Unicode property [White_Space]. *)
Definition is_whitespace (c : Z) : bool :=
  between 0x9 0xD c || (c =? 0x20) || (c =? 0x85) || (c =? 0xA0) || (c =? 0x1680) || between 0x2000 0x200A c
  || (c =? 0x2028) || (c =? 0x2029) || (c =? 0x202F) || (c =? 0x205F) || (c =? 0x3000).

(** [char::is_control]: the Unicode category [Cc]. *)
Definition is_control (c : Z) : bool := between 0 0x1F c || between 0x7F 0x9F c.

(** ** Tokens *)

Record BearerToken {C : Type} := MkBearerToken {
  issuer_id : bytes;
  subject_id : option bytes;
  issued_time : Z;
  expiration_time : Z;
  not_before : option Z;
  jwt_id : bytes;
  claims : C;
}.
#[global] Arguments BearerToken : clear implicits.

(** The libraries.  [decode_insecure] parses a token without checking its
    signature, [decode_signed] parses it after checking its signature under a
    key; both parse the same claims. *)
Class JwtLib (C : Type) := {
  header_is_eddsa : bytes -> option bool;
  decode_insecure : bytes -> option (BearerToken C);
  decode_signed : bytes -> bytes -> option (BearerToken C);
  bs58_decode : bytes -> option bytes;
  ed25519_key_valid : bytes -> bool;
  from_ed_components : bytes -> option bytes;
  decode_same key token t : decode_signed key token = Some t -> decode_insecure token = Some t;
}.

Definition wf_token {C} (t : BearerToken C) : Prop :=
  is_u64 (issued_time t) /\ is_u64 (expiration_time t) /\ on_some is_u64 (not_before t).

(** [u64::saturating_sub] and [u64::saturating_add]. *)
Definition saturating_sub (a b : Z) : Z := Z.max 0 (a - b).
Definition saturating_add (a b : Z) : Z := Z.min (2 ^ 64 - 1) (a + b).

Section Verify.
Context {C : Type} `{JwtLib C}.

Definition ed25519_public_key (did : bytes) : auth_result bytes :=
  let? fingerprint := ok_or (strip_prefix (bstr "did:key:z") did)
    (DidError "issuer DID must be a base58btc did:key") in
  reject (48 <? Z.of_nat (length fingerprint)) (DidError "invalid Ed25519 did:key length") ;?
  let? bs := ok_or (bs58_decode fingerprint) (DidError "invalid did:key encoding") in
  reject (negb (length bs =? 34)%nat || negb (bool_decide (take 2 bs = [Byte.xed; Byte.x01])))
    (DidError "issuer DID must contain an Ed25519 public key") ;?
  let key := drop 2 bs in
  reject (negb (ed25519_key_valid key)) (DidError "invalid Ed25519 public key") ;?
  Ok key.

Definition validate_relay_issuer (issuer : bytes) : auth_result unit :=
  let? _ := ed25519_public_key issuer in Ok tt.

Definition resolve_jwt_did (token_str : bytes) (current_time max_token_lifetime_secs max_jwt_bytes
    clock_skew_leeway_secs : Z) : auth_result (BearerToken C) :=
  reject (max_jwt_bytes <? Z.of_nat (length token_str)) (JwtError "Token too large: {} bytes exceeds maximum {}") ;?
  let? eddsa := ok_or (header_is_eddsa token_str) (JwtError "Failed to decode JWT header: {}") in
  reject (negb eddsa) (JwtError "Unsupported algorithm: {:?}, expected EdDSA") ;?
  let? unverified := ok_or (decode_insecure token_str) (JwtError "Failed to decode JWT claims: {}") in
  reject (negb (starts_with (bstr "did:key:") (issuer_id unverified)))
    (DidError "issuer DID must use the did:key method") ;?
  let? public_key := ed25519_public_key (issuer_id unverified) in
  let? decoding_key := ok_or (from_ed_components public_key) (JwtError "Failed to build decoding key: {}") in
  let? token := ok_or (decode_signed decoding_key token_str) (JwtError "JWT signature verification failed: {}") in
  reject (expiration_time token <=? saturating_sub current_time clock_skew_leeway_secs)
    (JwtError "Token has expired") ;?
  reject (saturating_add current_time clock_skew_leeway_secs <? issued_time token)
    (JwtError "Token issued in the future") ;?
  reject (match not_before token with
          | Some nbf => saturating_add current_time clock_skew_leeway_secs <? nbf
          | None => false
          end) (JwtError "Token not yet valid (nbf)") ;?
  reject (expiration_time token <? issued_time token) (JwtError "Invalid token: issued after expiration") ;?
  reject (max_token_lifetime_secs <? expiration_time token - issued_time token)
    (JwtError "Token lifetime exceeds maximum") ;?
  Ok token.

(** [resolve_actor_id]: who a verified token speaks for. *)
Definition is_method_char (b : Byte.byte) : bool :=
  between 0x61 0x7A (byte.unsigned b) || between 0x30 0x39 (byte.unsigned b).

Definition valid_did (subject : bytes) : bool :=
  match splitn 3 Byte.x3a subject with
  | [did; method; identifier] =>
      bool_decide (did = bstr "did") && negb (bool_decide (method = [])) && forallb is_method_char method
      && negb (bool_decide (identifier = []))
  | _ => false
  end.

Definition resolve_actor_id (token : BearerToken C) (trusted_relay_issuers : list bytes) : auth_result bytes :=
  match subject_id token with
  | None => Ok (issuer_id token)
  | Some subject =>
      reject (negb (bool_decide (issuer_id token ∈ trusted_relay_issuers)))
        (AuthUnauthorized "token issuer is not allowed to delegate an actor") ;?
      reject ((255 <? Z.of_nat (length subject)) || negb (valid_did subject)
              || existsb (fun c => is_whitespace c || is_control c) (chars subject))
        (AuthUnauthorized "delegated actor must be a valid DID") ;?
      Ok subject
  end.
End Verify.

(** ** [JtiReplayGuard] *)

Inductive ReplayError := AlreadyUsed | MissingJti.

Inductive Outcome := Recorded | RecordedAfterEvicting.

Definition MAX_TOKEN_LIFETIME_SECS : Z := 24 * 60 * 60.
Definition JWT_CLOCK_SKEW_LEEWAY_SECS : Z := 5 * 60.
Definition MAX_JWT_BYTES : Z := 16 * 1024.
Definition MAX_JTI_ENTRIES : Z := 1000000.

Abbreviation seen_map := (gmap bytes Instant).

(** The order in which a hash map yields its entries is unspecified: the model
    is given one. *)
Class HashOrder := {
  hash_iter : seen_map -> list (bytes * Instant);
  hash_iter_perm m : hash_iter m ≡ₚ map_to_list m;
}.

(** [Iterator::min_by_key]: the first of the smallest. *)
Fixpoint min_by_expiry (l : list (bytes * Instant)) : option (bytes * Instant) :=
  match l with
  | [] => None
  | x :: rest =>
      match min_by_expiry rest with
      | Some y => if y.2 <? x.2 then Some y else Some x
      | None => Some x
      end
  end.

Section Guard.
Context `{HashOrder}.

Definition sweep_expired (now : Instant) (map : seen_map) : seen_map := filter (fun kv => now < kv.2) map.

Definition retention (token_exp_unix now_unix : Z) : Z :=
  from_secs (saturating_add (Z.min (saturating_sub token_exp_unix now_unix) MAX_TOKEN_LIFETIME_SECS)
    JWT_CLOCK_SKEW_LEEWAY_SECS).

Definition try_record_with_cap (jti : bytes) (deadline now : Instant) (max_entries : Z) (map : seen_map) :
    res ReplayError Outcome * seen_map :=
  let map := sweep_expired now map in
  if bool_decide (is_Some (map !! jti)) then (Err AlreadyUsed, map)
  else
    let '(outcome, map) :=
      if max_entries <=? Z.of_nat (size map) then
        match min_by_expiry (hash_iter map) with
        | Some oldest => (RecordedAfterEvicting, delete oldest.1 map)
        | None => (Recorded, map)
        end
      else (Recorded, map) in
    (Ok outcome, <[jti := deadline]> map).

Definition try_record (jti : bytes) (deadline now : Instant) (map : seen_map) : res ReplayError Outcome * seen_map :=
  try_record_with_cap jti deadline now MAX_JTI_ENTRIES map.

(** [now] and [now_unix] are the two clocks read on entry. *)
Definition check_and_record (jti : bytes) (token_exp_unix : Z) (now : Instant) (now_unix : Z) (map : seen_map) :
    res ReplayError Outcome * seen_map :=
  if bool_decide (jti = []) then (Err MissingJti, map)
  else
    let deadline := now + retention token_exp_unix now_unix in
    let map := sweep_expired now map in
    try_record jti deadline now map.

(** An entry stays until its deadline unless it is evicted for room. *)
Lemma sweep_lookup now map k d : map !! k = Some d -> now < d -> sweep_expired now map !! k = Some d.
Proof. intros E L. by apply map_lookup_filter_Some. Qed.

Lemma sweep_lookup_Some now map k d : sweep_expired now map !! k = Some d -> map !! k = Some d /\ now < d.
Proof. by intros ?%map_lookup_filter_Some. Qed.

Lemma min_by_expiry_min l x : min_by_expiry l = Some x -> x ∈ l /\ forall y, y ∈ l -> x.2 <= y.2.
Proof.
  revert x. induction l as [|a l IH]; intros x E; [done|]. cbn in E.
  destruct (min_by_expiry l) as [b|] eqn:Eb.
  - destruct (IH b eq_refl) as [Hb Hm]. destruct (Z.ltb_spec b.2 a.2); injection E as <-.
    + split; [by right|]. intros y [->|Hy]%elem_of_cons; [lia|by apply Hm].
    + split; [by left|]. intros y [->|Hy]%elem_of_cons; [lia|]. specialize (Hm y Hy). lia.
  - injection E as <-. destruct l as [|b l]; [|cbn in Eb; destruct (min_by_expiry l); [case_match|]; done].
    split; [by left|]. intros y ->%list_elem_of_singleton. done.
Qed.

Lemma check_keeps jti exp now now_unix map o map' k d :
  check_and_record jti exp now now_unix map = (o, map') -> o <> Ok RecordedAfterEvicting ->
  map !! k = Some d -> now < d -> map' !! k = Some d.
Proof.
  intros E Ho Hk L. unfold check_and_record in E. case_bool_decide; [by injection E as <- <-|].
  unfold try_record, try_record_with_cap in E.
  assert (sweep_expired now (sweep_expired now map) !! k = Some d) as Hs by auto using sweep_lookup.
  set (swept := sweep_expired now (sweep_expired now map)) in *. case_bool_decide as Hj; [by injection E as <- <-|].
  assert (jti <> k) as Hne by (intros ->; apply Hj; eauto).
  destruct (_ <=? _); [destruct (min_by_expiry _)|]; injection E as <- <-; try done;
    by rewrite lookup_insert_ne.
Qed.

Lemma check_seen jti exp now now_unix map d :
  jti <> [] -> map !! jti = Some d -> now < d -> (check_and_record jti exp now now_unix map).1 = Err AlreadyUsed.
Proof.
  intros Hn Hk L. unfold check_and_record. rewrite bool_decide_false by done.
  unfold try_record, try_record_with_cap. rewrite bool_decide_true; [done|]. exists d. auto using sweep_lookup.
Qed.

Lemma check_records jti exp now now_unix map o map' :
  check_and_record jti exp now now_unix map = (Ok o, map') ->
  jti <> [] /\ map' !! jti = Some (now + retention exp now_unix).
Proof.
  intros E. unfold check_and_record in E. case_bool_decide as Hj; [done|]. split; [done|].
  unfold try_record, try_record_with_cap in E. case_bool_decide; [done|].
  destruct (_ <=? _); [destruct (min_by_expiry _)|]; injection E as <- <-; apply lookup_insert_eq.
Qed.
End Guard.

(** ** What an accepted token shows *)
Section Accepted.
Context {C : Type} `{JwtLib C}.

Definition verified_by (token_str : bytes) (t : BearerToken C) (key : bytes) : Prop :=
  exists decoding_key, ed25519_public_key (C := C) (issuer_id t) = Ok key /\
    from_ed_components key = Some decoding_key /\ decode_signed decoding_key token_str = Some t.

Definition in_window (t : BearerToken C) (now lifetime leeway : Z) : Prop :=
  saturating_sub now leeway < expiration_time t /\ issued_time t <= saturating_add now leeway /\
  on_some (fun nbf => nbf <= saturating_add now leeway) (not_before t) /\
  issued_time t <= expiration_time t /\ expiration_time t - issued_time t <= lifetime.

Lemma resolve_jwt_did_Ok token_str now lifetime size leeway t :
  resolve_jwt_did token_str now lifetime size leeway = Ok t <->
  Z.of_nat (length token_str) <= size /\ header_is_eddsa token_str = Some true /\
  starts_with (bstr "did:key:") (issuer_id t) = true /\ (exists key, verified_by token_str t key) /\
  in_window t now lifetime leeway.
Proof.
  unfold resolve_jwt_did, verified_by, in_window. split.
  - intros E. bind_ok E as ? ?%reject_Ok. bind_ok E as eddsa ?%ok_or_Ok. bind_ok E as ? Ha%reject_Ok.
    bind_ok E as u Hu%ok_or_Ok. bind_ok E as ? Hd%reject_Ok. bind_ok E as key Hk. bind_ok E as dk Hf%ok_or_Ok.
    bind_ok E as t' D%ok_or_Ok. pose proof (decode_same _ _ _ D) as Eu. rewrite Hu in Eu. injection Eu as ->.
    inv_ok. apply negb_false_iff in Ha as ->, Hd. split_and!; try lia; try done; eauto 10.
    destruct (not_before t); cbn; [lia|done].
  - intros (L & Hh & Hd & (key & dk & Hk & Hf & D) & W1 & W2 & W3 & W4 & W5).
    rewrite (decode_same _ _ _ D), Hh. cbn [res_bind ok_or]. rewrite Hd, Hk. cbn [res_bind].
    rewrite Hf. cbn [res_bind ok_or]. rewrite D. cbn [res_bind ok_or].
    repeat match goal with |- context [reject ?b _] => replace b with false; cbn [reject res_bind] end;
      try lia; try done.
    destruct (not_before t); cbn in *; lia.
Qed.

(** C21: an accepted request speaks for an actor that vouched for it.  The token
    is signed by the Ed25519 key its own issuer DID spells out, inside its time
    window and lifetime up to the clock skew; and the actor is either that
    issuer, or a well-formed DID for which a trusted relay issued the token. *)
Theorem actor_authenticated token_str now lifetime size leeway t relays actor :
  resolve_jwt_did token_str now lifetime size leeway = Ok t ->
  resolve_actor_id t relays = Ok actor ->
  (exists key, verified_by token_str t key /\ length key = 32%nat) /\ in_window t now lifetime leeway /\
  ((subject_id t = None /\ actor = issuer_id t) \/
   (subject_id t = Some actor /\ issuer_id t ∈ relays /\ valid_did actor = true)).
Proof.
  intros (_ & _ & _ & (key & dk & Hk & V) & W)%resolve_jwt_did_Ok E. split_and!; [|done|].
  - exists key. split; [by exists dk|]. unfold ed25519_public_key in Hk. inv_ok. rewrite length_drop.
    match goal with Hl : _ || _ = false |- _ => apply orb_false_iff in Hl as [Hl%negb_false_iff _] end.
    match goal with Hl : _ = true |- _ => apply Nat.eqb_eq in Hl; lia end.
  - unfold resolve_actor_id in E. destruct (subject_id t) as [s|]; [right|left; by inv_ok]. inv_ok.
    match goal with Hb : negb (bool_decide _) = false |- _ => apply negb_false_iff, bool_decide_eq_true in Hb end.
    match goal with Hl : _ || _ || _ = false |- _ => apply orb_false_iff in Hl as [[_ Hl]%orb_false_iff _] end.
    split_and!; [done..|by apply negb_false_iff].
Qed.
End Accepted.

(** ** Single use *)
Section SingleUse.
Context {C : Type} `{JwtLib C} `{HashOrder}.

(** The wall clock in seconds, [epoch] nanoseconds ahead of the monotonic one. *)
Definition unix_at (epoch : Z) (now : Instant) : Z := (epoch + now) / 1000000000.

(** The calls of the guard in the order they got the lock. *)
Inductive guard_call :=
  | GuardCheck (jti : bytes) (exp : Z) (now : Instant)
  | GuardSweep (now : Instant).

Definition call_time (c : guard_call) : Instant :=
  match c with GuardCheck _ _ now => now | GuardSweep now => now end.

Definition guard_step (epoch : Z) (s : list (res ReplayError Outcome) * seen_map) (c : guard_call) :=
  match c with
  | GuardCheck jti exp now =>
      let '(o, map) := check_and_record jti exp now (unix_at epoch now) s.2 in (s.1 ++ [o], map)
  | GuardSweep now => (s.1, sweep_expired now s.2)
  end.

Definition guard_run (epoch : Z) (map : seen_map) (cs : list guard_call) :
    list (res ReplayError Outcome) * seen_map :=
  fold_left (guard_step epoch) cs ([], map).

(** [token] is accepted at [now]: it verifies under the node's settings. *)
Definition token_valid (token_str : bytes) (t : BearerToken C) (now_unix : Z) : Prop :=
  resolve_jwt_did token_str now_unix MAX_TOKEN_LIFETIME_SECS MAX_JWT_BYTES JWT_CLOCK_SKEW_LEEWAY_SECS = Ok t.

Lemma guard_run_outcomes epoch cs outs map outs' map' :
  fold_left (guard_step epoch) cs (outs, map) = (outs', map') -> forall o, o ∈ outs -> o ∈ outs'.
Proof.
  revert outs map. induction cs as [|c cs IH]; intros outs map E o Ho; [by injection E as <- <-|].
  cbn in E. destruct (guard_step epoch (outs, map) c) as [outs1 map1] eqn:Ec.
  apply (IH outs1 map1 E). destruct c; cbn in Ec; [|by injection Ec as <- <-].
  destruct (check_and_record _ _ _ _ _). injection Ec as <- <-. apply elem_of_app. by left.
Qed.

Lemma guard_run_keeps epoch cs outs map outs' map' k d :
  fold_left (guard_step epoch) cs (outs, map) = (outs', map') -> Ok RecordedAfterEvicting ∉ outs' ->
  Forall (fun c => call_time c < d) cs -> map !! k = Some d -> map' !! k = Some d.
Proof.
  revert outs map. induction cs as [|c cs IH]; intros outs map E No F Hk; [by injection E as <- <-|].
  cbn in E. destruct (guard_step epoch (outs, map) c) as [outs1 map1] eqn:Ec.
  apply Forall_cons in F as [Fc F]. apply (IH outs1 map1 E No F).
  destruct c as [jti exp now|now]; cbn in Ec, Fc.
  - destruct (check_and_record _ _ _ _ _) as [o m] eqn:Eo. injection Ec as <- <-.
    apply (check_keeps _ _ _ _ _ _ _ _ _ Eo); [|done..]. intros ->. apply No.
    apply (guard_run_outcomes _ _ _ _ _ _ E). apply elem_of_app. right. by left.
  - injection Ec as <- <-. by apply sweep_lookup.
Qed.

(** The retention outlives the token, if it was not issued in the future. *)
Lemma retention_covers epoch token_str t t0 t1 :
  token_valid token_str t (unix_at epoch t0) -> token_valid token_str t (unix_at epoch t1) ->
  issued_time t <= unix_at epoch t0 ->
  t1 < t0 + retention (expiration_time t) (unix_at epoch t0).
Proof.
  intros (_ & _ & _ & _ & _ & _ & _ & W1 & W2)%resolve_jwt_did_Ok (_ & _ & _ & _ & V & _)%resolve_jwt_did_Ok I.
  unfold retention, unix_at, saturating_add, saturating_sub, from_secs, MAX_TOKEN_LIFETIME_SECS,
    JWT_CLOCK_SKEW_LEEWAY_SECS in *.
  pose proof (Z.mul_div_le (epoch + t0) 1000000000). pose proof (Z.mod_pos_bound (epoch + t1) 1000000000).
  pose proof (Z.div_mod (epoch + t1) 1000000000). lia.
Qed.

(** C22: a token is accepted once.  When a node has accepted a token that was not
    issued in its future, then whatever calls the guard serves in between, at
    any later time at which the token still verifies the guard rejects it as
    used, unless the guard had to evict an entry for room meanwhile. *)
Theorem token_single_use epoch token_str t t0 t1 map o map1 cs outs map2 :
  token_valid token_str t (unix_at epoch t0) -> issued_time t <= unix_at epoch t0 ->
  check_and_record (jwt_id t) (expiration_time t) t0 (unix_at epoch t0) map = (Ok o, map1) ->
  guard_run epoch map1 cs = (outs, map2) -> Ok RecordedAfterEvicting ∉ outs ->
  Forall (fun c => call_time c <= t1) cs ->
  token_valid token_str t (unix_at epoch t1) ->
  (check_and_record (jwt_id t) (expiration_time t) t1 (unix_at epoch t1) map2).1 = Err AlreadyUsed.
Proof.
  intros V0 I E R No F V1. pose proof (retention_covers _ _ _ _ _ V0 V1 I) as L.
  apply check_records in E as [Hj Hk]. eapply (check_seen _ _ _ _ _ _ Hj); [|exact L].
  apply (guard_run_keeps _ _ _ _ _ _ _ _ R No); [|done].
  eapply Forall_impl; [exact F|]. cbn. lia.
Qed.

(** A token issued in the node's future can be used twice.  The verifier
    accepts a token issued up to five minutes ahead, valid until five minutes
    after it expires, while the guard keeps its id for at most the maximal
    lifetime plus five minutes: a token issued five minutes ahead with the
    maximal lifetime is accepted now, and again once the guard has swept it,
    and still verifies then. *)
Lemma skewed_token_replayed epoch token_str t t0 :
  token_valid token_str t (unix_at epoch t0) -> jwt_id t <> [] ->
  0 <= unix_at epoch t0 -> unix_at epoch t0 < 2 ^ 63 ->
  issued_time t = unix_at epoch t0 + JWT_CLOCK_SKEW_LEEWAY_SECS ->
  expiration_time t = issued_time t + MAX_TOKEN_LIFETIME_SECS ->
  let t1 := t0 + from_secs (MAX_TOKEN_LIFETIME_SECS + JWT_CLOCK_SKEW_LEEWAY_SECS) in
  exists map1 map2,
    check_and_record (jwt_id t) (expiration_time t) t0 (unix_at epoch t0) ∅ = (Ok Recorded, map1) /\
    token_valid token_str t (unix_at epoch t1) /\
    check_and_record (jwt_id t) (expiration_time t) t1 (unix_at epoch t1) map1 = (Ok Recorded, map2).
Proof.
  intros V Hj G0 G1 Hi He t1.
  assert (unix_at epoch t1 = unix_at epoch t0 + (MAX_TOKEN_LIFETIME_SECS + JWT_CLOCK_SKEW_LEEWAY_SECS)) as Eu.
  { unfold unix_at, t1, from_secs. rewrite Z.add_assoc, Z.div_add by lia. done. }
  assert (retention (expiration_time t) (unix_at epoch t0) =
    from_secs (MAX_TOKEN_LIFETIME_SECS + JWT_CLOCK_SKEW_LEEWAY_SECS)) as Er.
  { unfold retention, saturating_add, saturating_sub, MAX_TOKEN_LIFETIME_SECS, JWT_CLOCK_SKEW_LEEWAY_SECS in *.
    f_equal. lia. }
  assert (forall now, sweep_expired now ∅ = ∅) as Sw by (intros; apply map_filter_empty).
  assert (sweep_expired t1 {[jwt_id t := t1]} = ∅) as Sw1.
  { apply map_filter_singleton_False. cbn. lia. }
  exists {[jwt_id t := t1]}, {[jwt_id t := t1 + retention (expiration_time t) (unix_at epoch t1)]}. split_and!.
  - unfold check_and_record, try_record, try_record_with_cap. rewrite bool_decide_false by done.
    rewrite !Sw, lookup_empty, Er, map_size_empty. done.
  - apply resolve_jwt_did_Ok in V as (A & B & D & K & W1 & W2 & W3 & W4 & W5).
    apply resolve_jwt_did_Ok. split_and!; try done. unfold in_window. rewrite Eu.
    unfold saturating_add, saturating_sub, MAX_TOKEN_LIFETIME_SECS, JWT_CLOCK_SKEW_LEEWAY_SECS in *.
    split_and!; try lia. destruct (not_before t); cbn in *; [lia|done].
  - unfold check_and_record, try_record, try_record_with_cap. rewrite bool_decide_false by done.
    rewrite !Sw1, Sw, lookup_empty, map_size_empty. done.
Qed.
End SingleUse.

(** ** Examples *)

Definition example_token (iat exp : Z) : BearerToken unit :=
  MkBearerToken unit (bstr "did:key:zK") None iat exp None (bstr "id") tt.

Definition example_jwt (t : BearerToken unit) : JwtLib unit := {|
  header_is_eddsa _ := Some true;
  decode_insecure _ := Some t;
  decode_signed _ _ := Some t;
  bs58_decode _ := Some ([Byte.xed; Byte.x01] ++ repeat Byte.x07 32);
  ed25519_key_valid _ := true;
  from_ed_components k := Some k;
  decode_same _ _ _ E := E;
|}.

Definition list_order : HashOrder := {| hash_iter := map_to_list; hash_iter_perm _ := reflexivity _ |}.

Lemma actor_authenticated_witness :
  let t := example_token 1000 2000 in
  let H := example_jwt t in
  (subject_id t = None /\ bstr "did:key:zK" = issuer_id t) \/
  (subject_id t = Some (bstr "did:key:zK") /\ issuer_id t ∈ [] /\ valid_did (bstr "did:key:zK") = true).
Proof.
  intros t H. refine (proj2 (proj2 (actor_authenticated (C := unit) [] 1500 86400 16384 300 t [] _ _ _)));
    vm_compute; reflexivity.
Defined.

Lemma token_single_use_witness :
  let t := example_token 1000 2000 in
  let H := example_jwt t in
  let H0 := list_order in
  exists o map1, check_and_record (jwt_id t) 2000 (from_secs 1500) 1500 ∅ = (Ok o, map1) /\
    (check_and_record (jwt_id t) 2000 (from_secs 2100) 2100 map1).1 = Err AlreadyUsed.
Proof.
  intros t H H0.
  assert (check_and_record (jwt_id t) 2000 (from_secs 1500) 1500 ∅ =
    (Ok Recorded, <[jwt_id t := from_secs 1500 + retention 2000 1500]> ∅)) as E.
  { unfold check_and_record, try_record, try_record_with_cap, sweep_expired.
    rewrite !map_filter_empty, lookup_empty, map_size_empty. done. }
  eexists _, _. split; [exact E|].
  eapply (token_single_use (C := unit) 0 [] t (from_secs 1500) (from_secs 2100) ∅ Recorded _ [] [] _);
    [vm_compute; reflexivity|vm_compute; discriminate|exact E|reflexivity|apply not_elem_of_nil|constructor
    |vm_compute; reflexivity].
Defined.

