(* ===== verification/Routes.v ===== *)
(** * Committee routes

    [crates/common/src/peer_id.rs] and [bin/orbis-node/src/helpers/node_routes.rs]:
    peer identifiers and the routes of a committee, resolved from the NodeInfo
    records of the bulletin.  What parses as a socket address is a parameter. *)
From S2P Require Import Prelude Primitives Identity NodeState Auth.

(** ** Strings *)

Definition is_ascii_digit (c : Z) : bool := between 0x30 0x39 c.
Definition is_ascii_hexdigit (c : Z) : bool := is_ascii_digit c || between 0x41 0x46 c || between 0x61 0x66 c.
Definition is_ascii_alphanumeric (c : Z) : bool := is_ascii_digit c || between 0x41 0x5A c || between 0x61 0x7A c.

Definition to_ascii_lowercase (s : bytes) : bytes :=
  (fun b => if between 0x41 0x5A (byte.unsigned b) then byte.of_Z (byte.unsigned b + 32) else b) <$> s.

Definition eq_ignore_ascii_case (a b : bytes) : bool := bool_decide (to_ascii_lowercase a = to_ascii_lowercase b).

(** A string as the encodings of its characters. *)
Fixpoint char_chunks (s : bytes) : list bytes :=
  match s with
  | [] => []
  | a :: s1 =>
      if byte.unsigned a <? 0x80 then [a] :: char_chunks s1
      else match s1 with
      | [] => [[a]]
      | b :: s2 =>
          if byte.unsigned a <? 0xE0 then [a; b] :: char_chunks s2
          else match s2 with
          | [] => [[a; b]]
          | c :: s3 =>
              if byte.unsigned a <? 0xF0 then [a; b; c] :: char_chunks s3
              else match s3 with
              | [] => [[a; b; c]]
              | d :: s4 => [a; b; c; d] :: char_chunks s4
              end
          end
      end
  end.

Fixpoint trim_start (l : list bytes) : list bytes :=
  match l with
  | [] => []
  | c :: rest => if existsb is_whitespace (chars c) then trim_start rest else l
  end.

(** [str::trim]. *)
Definition trim (s : bytes) : bytes := mjoin (rev (trim_start (rev (trim_start (char_chunks s))))).

(** [str::rfind] of one byte: what is before it and what is after it. *)
Definition rsplit_once (sep : Byte.byte) (s : bytes) : option (bytes * bytes) :=
  '(r, l) ← split_once sep (rev s); Some (rev l, rev r).

(** [str::parse::<u16>]: an optional plus sign and at least one digit. *)
Fixpoint digits_value (acc : Z) (s : bytes) : option Z :=
  match s with
  | [] => Some acc
  | b :: s => if is_ascii_digit (byte.unsigned b) then digits_value (10 * acc + (byte.unsigned b - 0x30)) s else None
  end.

Definition parse_u16 (s : bytes) : option Z :=
  let s := match s with b :: rest => if decide (b = Byte.x2b) then rest else s | [] => s end in
  if bool_decide (s = []) then None
  else n ← digits_value 0 s; if n <? 2 ^ 16 then Some n else None.

(** [&s[..n]] on a [str]: panics inside the encoding of a character. *)
Definition is_char_boundary (s : bytes) (n : Z) : bool :=
  (n =? 0) || (n =? Z.of_nat (length s))
  || match s !! Z.to_nat n with Some b => negb (between 0x80 0xBF (byte.unsigned b)) | None => false end.

Definition slice_to {E} (s : bytes) (n : Z) : res E bytes :=
  if is_char_boundary s n then Ok (take (Z.to_nat n) s) else Panic.

(** ** [peer_id.rs] *)

Definition MAX_PEER_ID_LENGTH : Z := 256.
Definition EXPECTED_HEX_NODE_ID_LENGTH : Z := 64.

Inductive PeerIdValidationError :=
  | PeerIdEmpty
  | PeerIdTooLong (length max : Z)
  | PeerIdInvalidFormat (msg : string)
  | PeerIdInvalidSocketAddr (msg : string)
  | PeerIdInvalidNodeIdLength (length expected : Z)
  | PeerIdInvalidCharacters (msg : string).

Section PeerIds.
(** [str::parse::<SocketAddr>] succeeds. *)
Context (is_socket_addr : bytes -> bool).

Definition is_valid_address (address : bytes) : bool :=
  if is_socket_addr address then true
  else match rsplit_once Byte.x3a address with
       | None => false
       | Some (host, port) =>
           match parse_u16 port with Some port => negb (port =? 0) | None => false end
           && negb (bool_decide (host = []))
           && forallb (fun c => is_ascii_alphanumeric c || (c =? 0x2D) || (c =? 0x2E)) (chars host)
           && negb (bool_decide (head host = Some Byte.x2d))
           && negb (bool_decide (last host = Some Byte.x2d))
       end.

Definition validate_peer_id (peer_id : bytes) : res PeerIdValidationError unit :=
  reject (bool_decide (peer_id = [])) PeerIdEmpty ;?
  reject (MAX_PEER_ID_LENGTH <? Z.of_nat (length peer_id))
    (PeerIdTooLong (Z.of_nat (length peer_id)) MAX_PEER_ID_LENGTH) ;?
  let parts := splitn 2 Byte.x40 peer_id in
  let node_id := default [] (head parts) in
  reject (negb (Z.of_nat (length node_id) =? EXPECTED_HEX_NODE_ID_LENGTH))
    (PeerIdInvalidNodeIdLength (Z.of_nat (length node_id)) EXPECTED_HEX_NODE_ID_LENGTH) ;?
  (if forallb is_ascii_hexdigit (chars node_id) then Ok tt
   else let? _ := slice_to node_id (Z.min (Z.of_nat (length node_id)) 20) in
        Err (PeerIdInvalidCharacters
          "Node ID must contain only hexadecimal characters (0-9, a-f, A-F), got: {}")) ;?
  match tail parts with
  | address :: _ =>
      reject (bool_decide (address = [])) (PeerIdInvalidFormat "Socket address after '@' cannot be empty") ;?
      reject (negb (is_valid_address address)) (PeerIdInvalidSocketAddr
        "Cannot parse '{address}' as a valid address (expected ip:port or hostname:port)")
  | [] => Ok tt
  end.

Definition canonicalize_peer_id (peer_id : bytes) : res PeerIdValidationError bytes :=
  validate_peer_id peer_id ;?
  let parts := splitn 2 Byte.x40 peer_id in
  let node_id := to_ascii_lowercase (default [] (head parts)) in
  Ok (match tail parts with
      | address :: _ => node_id ++ bstr "@" ++ address
      | [] => node_id
      end).

Definition peer_identity_matches (existing_peer_id expected_peer_id : bytes) : res PeerIdValidationError bool :=
  validate_peer_id existing_peer_id ;?
  validate_peer_id expected_peer_id ;?
  Ok (eq_ignore_ascii_case (node_part existing_peer_id) (node_part expected_peer_id)).

(** ** [node_routes.rs] *)

Record NodeInfo := MkNodeInfo {
  ni_peer_id : bytes;
  ni_controller_key : bytes;
  ni_whitelisted_policy_ids : list bytes;
  ni_whitelisted_ring_ids : list bytes;
}.

Record NodeRoute := MkNodeRoute { nr_node_key : bytes; nr_peer_id : bytes }.

(** The bulletin's answer for a node key, and the parser of its post. *)
Context {Post : Type} (read : bytes -> option Post) (try_from : Post -> option NodeInfo).

(** The body of the loop: the route of one key. *)
Definition resolve_route (node_key : bytes) : res string NodeRoute :=
  let? post := ok_or (read node_key) "NodeInfo for node {node_key} not found: {e}" in
  let? node_info := ok_or (try_from post) "NodeInfo for node {node_key} is malformed: {e}" in
  let peer_id := trim (ni_peer_id node_info) in
  reject (bool_decide (peer_id = [])) "NodeInfo for node {node_key} has an empty peer_id" ;?
  let? peer_id := map_err (canonicalize_peer_id peer_id) "NodeInfo for node {node_key} has invalid peer_id: {e}" in
  Ok (MkNodeRoute node_key peer_id).

Fixpoint resolve_routes (seen_node_keys seen_peer_parts : list bytes) (peer_node_keys : list bytes) :
    res string (list NodeRoute) :=
  match peer_node_keys with
  | [] => Ok []
  | node_key :: rest =>
      reject (bool_decide (trim node_key = [])) "peer_node_keys contains an empty node key" ;?
      reject (bool_decide (node_key ∈ seen_node_keys)) "duplicate peer_node_key: {node_key}" ;?
      let? route := resolve_route node_key in
      let peer_part := extract_node_part (nr_peer_id route) in
      reject (bool_decide (peer_part ∈ seen_peer_parts))
        "duplicate resolved peer_id node part for peer_node_key {node_key}: {peer_part}" ;?
      let? routes := resolve_routes (node_key :: seen_node_keys) (peer_part :: seen_peer_parts) rest in
      Ok (route :: routes)
  end.

Definition resolve_node_routes (peer_node_keys : list bytes) : res string (list NodeRoute) :=
  resolve_routes [] [] peer_node_keys.

Definition peer_ids_from_routes (routes : list NodeRoute) : list bytes := nr_peer_id <$> routes.

Fixpoint validate_all_peer_ids (peer_ids : list bytes) : res (bytes * PeerIdValidationError) unit :=
  match peer_ids with
  | [] => Ok tt
  | peer_id :: rest =>
      match validate_peer_id peer_id with
      | Ok _ => validate_all_peer_ids rest
      | Err e => Err (peer_id, e)
      | Panic => Panic
      | OutOfFuel => OutOfFuel
      end
  end.

Definition resolve_and_validate_peer_ids (peer_node_keys : list bytes) (empty_committee_message : string) :
    res string (list bytes) :=
  reject (bool_decide (peer_node_keys = [])) empty_committee_message ;?
  let? routes := resolve_node_routes peer_node_keys in
  let peer_ids := peer_ids_from_routes routes in
  map_err (validate_all_peer_ids peer_ids) "Invalid peer ID '{invalid_peer_id}': {validation_error}" ;?
  Ok peer_ids.
End PeerIds.

(** [expected.insert(..)] for every resolved route. *)
Fixpoint expected_routes (expected : gmap bytes bytes) (routes : list NodeRoute) : res string (gmap bytes bytes) :=
  match routes with
  | [] => Ok expected
  | r :: routes =>
      reject (bool_decide (is_Some (expected !! nr_node_key r))) "resolved Vera routes contain duplicate node key {}" ;?
      expected_routes (<[nr_node_key r := nr_peer_id r]> expected) routes
  end.

Fixpoint check_supplied (expected : gmap bytes bytes) (supplied_keys : gset bytes) (supplied : list (bytes * bytes)) :
    res string (gset bytes) :=
  match supplied with
  | [] => Ok supplied_keys
  | (node_key, peer_route) :: supplied =>
      reject (bool_decide (node_key ∈ supplied_keys))
        "supplied transport routes contain duplicate node key {node_key}" ;?
      let? expected_route := ok_or (expected !! node_key)
        "supplied transport route names unexpected node key {node_key}" in
      reject (negb (bool_decide (peer_route = expected_route)))
        "supplied transport route for node key {node_key} does not match Vera NodeInfo" ;?
      check_supplied expected ({[node_key]} ∪ supplied_keys) supplied
  end.

Definition validate_node_route_bindings (node_keys peer_routes : list bytes) (resolved_routes : list NodeRoute) :
    res string unit :=
  reject (negb (length node_keys =? length peer_routes)%nat)
    "supplied node-key count {} does not match route count {}" ;?
  let? expected := expected_routes ∅ resolved_routes in
  let? supplied_keys := check_supplied expected ∅ (zip node_keys peer_routes) in
  reject (negb (size supplied_keys =? size expected)%nat
          || negb (bool_decide (dom expected ⊆ supplied_keys)))
    "supplied transport routes do not cover the resolved committee".

(** The numbering by node key, for a list without repeats. *)
Fixpoint assign_ids (idx : Z) (assignments : gmap bytes Z) (sorted : list bytes) : res string (gmap bytes Z) :=
  match sorted with
  | [] => Ok assignments
  | node_key :: sorted =>
      reject (bool_decide (is_Some (assignments !! node_key))) "duplicate peer_node_key: {node_key}" ;?
      assign_ids (idx + 1) (<[node_key := as_u32 (idx + 1)]> assignments) sorted
  end.

Definition canonical_node_id_assignments_from_node_keys (peer_node_keys : list bytes) : res string (gmap bytes Z) :=
  assign_ids 0 ∅ (sort_strings peer_node_keys).

Definition node_id_to_peer_id_from_routes (routes : list NodeRoute) (node_id_assignments : gmap bytes Z) :
    res string (gmap Z bytes) :=
  res_foldl (fun map route =>
    let? node_id := ok_or (node_id_assignments !! nr_node_key route) "missing node_id assignment for {}" in
    Ok (<[node_id := nr_peer_id route]> map)) routes ∅.

Definition node_key_for_peer (routes : list NodeRoute) (sender_peer_hex : bytes) : option bytes :=
  route ← list_find (fun route => extract_node_part (nr_peer_id route) = sender_peer_hex) routes;
  Some (nr_node_key route.2).

(** ** Properties *)

Lemma split_once_node_part s :
  node_part s = match split_once Byte.x40 s with Some (l, _) => l | None => s end.
Proof.
  induction s as [|b s IH]; [done|]. cbn. destruct (decide (b = Byte.x40)); [done|].
  rewrite IH. by destruct (split_once Byte.x40 s) as [[]|].
Qed.

Lemma splitn_node_part s : default [] (head (splitn 2 Byte.x40 s)) = node_part s.
Proof. rewrite split_once_node_part. cbn. by destruct (split_once Byte.x40 s) as [[]|]. Qed.

Lemma node_part_no_at s : Byte.x40 ∉ node_part s.
Proof.
  induction s as [|b s IH]; cbn; [apply not_elem_of_nil|]. destruct (decide (b = Byte.x40)); [apply not_elem_of_nil|].
  by apply not_elem_of_cons.
Qed.

Lemma node_part_app s rest : Byte.x40 ∉ s -> node_part (s ++ bstr "@" ++ rest) = s.
Proof.
  induction s as [|b s IH]; [done|]. cbn [node_part app]. rewrite not_elem_of_cons. intros [Hb Hs].
  destruct (decide (b = Byte.x40)); [congruence|]. by rewrite IH.
Qed.

Lemma node_part_self s : Byte.x40 ∉ s -> node_part s = s.
Proof.
  induction s as [|b s IH]; cbn; [done|]. rewrite not_elem_of_cons. intros [Hb Hs].
  destruct (decide (b = Byte.x40)); [congruence|]. by rewrite IH.
Qed.

Lemma lower_byte (b : Byte.byte) :
  let l := if between 0x41 0x5A (byte.unsigned b) then byte.of_Z (byte.unsigned b + 32) else b in
  (l = Byte.x40 -> b = Byte.x40) /\ (if between 0x41 0x5A (byte.unsigned l) then byte.of_Z (byte.unsigned l + 32) else l) = l.
Proof. destruct b; split; vm_compute; congruence. Qed.

Lemma lowercase_no_at s : Byte.x40 ∉ s -> Byte.x40 ∉ to_ascii_lowercase s.
Proof.
  intros H (b & E & Hb)%list_elem_of_fmap. symmetry in E. apply lower_byte in E. by subst.
Qed.

Lemma lowercase_idem s : to_ascii_lowercase (to_ascii_lowercase s) = to_ascii_lowercase s.
Proof. unfold to_ascii_lowercase. rewrite <- list_fmap_compose. apply list_fmap_ext. intros i b _. apply lower_byte. Qed.

Section Resolution.
Context (is_socket_addr : bytes -> bool) {Post : Type} (read : bytes -> option Post) (try_from : Post -> option NodeInfo).

(** A canonical peer id has the node part of the original, in lower case. *)
Lemma canonicalize_node_part p q :
  canonicalize_peer_id is_socket_addr p = Ok q -> node_part q = to_ascii_lowercase (node_part p).
Proof.
  unfold canonicalize_peer_id. intros E. bind_ok E as ? _. apply Ok_inj in E as <-. rewrite splitn_node_part.
  pose proof (lowercase_no_at _ (node_part_no_at p)) as N.
  destruct (tail _); [by apply node_part_self|by apply node_part_app].
Qed.

Lemma resolve_route_Ok key r :
  resolve_route is_socket_addr read try_from key = Ok r ->
  nr_node_key r = key /\ to_ascii_lowercase (extract_node_part (nr_peer_id r)) = extract_node_part (nr_peer_id r) /\
  exists post info, read key = Some post /\ try_from post = Some info /\
    canonicalize_peer_id is_socket_addr (trim (ni_peer_id info)) = Ok (nr_peer_id r).
Proof.
  unfold resolve_route. intros E. bind_ok E as post Hp%ok_or_Ok. bind_ok E as info Hi%ok_or_Ok. bind_ok E as ? _.
  bind_ok E as q Hq%map_err_Ok. apply Ok_inj in E as <-. cbn [nr_node_key nr_peer_id]. split_and!; [done| |eauto].
  unfold extract_node_part. rewrite (canonicalize_node_part _ _ Hq). apply lowercase_idem.
Qed.

Lemma resolve_routes_Ok keys sk sp routes :
  resolve_routes is_socket_addr read try_from sk sp keys = Ok routes ->
  nr_node_key <$> routes = keys /\ NoDup keys /\ (forall k, k ∈ keys -> k ∉ sk) /\
  NoDup ((fun r => extract_node_part (nr_peer_id r)) <$> routes) /\
  (forall k, k ∈ ((fun r => extract_node_part (nr_peer_id r)) <$> routes) -> k ∉ sp) /\
  Forall (fun r => resolve_route is_socket_addr read try_from (nr_node_key r) = Ok r) routes.
Proof.
  revert sk sp routes. induction keys as [|k keys IH]; intros sk sp routes E; cbn in E.
  - apply Ok_inj in E as <-. split_and!; try constructor; intros ? ?%elem_of_nil; done.
  - bind_ok E as ? _. bind_ok E as ? Hk%reject_Ok%bool_decide_eq_false. bind_ok E as r Hr.
    bind_ok E as ? Hp%reject_Ok%bool_decide_eq_false. bind_ok E as rs Hrs. apply Ok_inj in E as <-.
    apply IH in Hrs as (<- & N & Sk & Np & Sp & A). destruct (resolve_route_Ok _ _ Hr) as (Hkey & _).
    rewrite !fmap_cons, Hkey. split_and!; [done| |..].
    + constructor; [|done]. intros H%Sk. set_solver.
    + intros y [->|H%Sk]%elem_of_cons; set_solver.
    + constructor; [|done]. intros H%Sp. set_solver.
    + intros y [->|H%Sp]%elem_of_cons; set_solver.
    + constructor; [by rewrite Hkey|done].
Qed.
End Resolution.

(** *** Supplied routes *)

Definition route_pairs (routes : list NodeRoute) : list (bytes * bytes) := (fun r => (nr_node_key r, nr_peer_id r)) <$> routes.

Lemma expected_routes_Ok routes e e' :
  expected_routes e routes = Ok e' ->
  NoDup (nr_node_key <$> routes) /\ (forall r, r ∈ routes -> e !! nr_node_key r = None) /\
  forall k v, e' !! k = Some v <-> e !! k = Some v \/ (k, v) ∈ route_pairs routes.
Proof.
  revert e. induction routes as [|r routes IH]; intros e E; cbn [expected_routes] in E.
  - apply Ok_inj in E as <-. split_and!; [constructor|intros ? ?%elem_of_nil; done|].
    intros k v. unfold route_pairs. cbn. rewrite elem_of_nil. tauto.
  - bind_ok E as u Hn%reject_Ok%bool_decide_eq_false. rewrite <- eq_None_not_Some in Hn.
    apply IH in E as (N & D & L). rewrite fmap_cons, NoDup_cons. split_and!; [|done|..].
    + intros (q & Hq & Hin)%list_elem_of_fmap. specialize (D q Hin). rewrite <- Hq, lookup_insert_eq in D. done.
    + intros q [->|Hin]%elem_of_cons; [done|]. specialize (D q Hin). by apply lookup_insert_None in D as [? _].
    + intros k v. unfold route_pairs. rewrite fmap_cons, elem_of_cons, L.
      destruct (decide (nr_node_key r = k)) as [<-|Hk].
      * rewrite lookup_insert_eq, Hn. naive_solver.
      * rewrite lookup_insert_ne by done. naive_solver.
Qed.

Lemma expected_routes_total routes e :
  NoDup (nr_node_key <$> routes) -> (forall r, r ∈ routes -> e !! nr_node_key r = None) ->
  exists e', expected_routes e routes = Ok e'.
Proof.
  revert e. induction routes as [|r routes IH]; intros e N D; cbn [expected_routes]; [eauto|].
  rewrite fmap_cons, NoDup_cons in N. destruct N as [Hr N]. rewrite (D r) by (by left).
  rewrite bool_decide_false by (by intros []). apply IH; [done|]. intros q Hq. rewrite lookup_insert_ne.
  - apply D. by right.
  - intros E. apply Hr. rewrite E. by apply list_elem_of_fmap_2.
Qed.

Lemma check_supplied_Ok e l seen ks :
  check_supplied e seen l = Ok ks <->
  NoDup l.*1 /\ (forall k, k ∈ l.*1 -> k ∉ seen) /\ (forall k v, (k, v) ∈ l -> e !! k = Some v) /\
  ks = list_to_set (C := gset bytes) l.*1 ∪ seen.
Proof.
  revert seen. induction l as [|[k v] l IH]; intros seen; cbn [check_supplied].
  - split; [intros [= <-]|intros (_ & _ & _ & ->)]; cbn; [|by rewrite (left_id_L ∅ (∪))].
    split_and!; [constructor|set_solver..].
  - rewrite fmap_cons, NoDup_cons. cbn [fst list_to_set]. split.
    + intros E. bind_ok E as u Hk%reject_Ok%bool_decide_eq_false. bind_ok E as w Hw%ok_or_Ok.
      bind_ok E as u2 Hv%reject_Ok%negb_false_iff%bool_decide_eq_true. subst w.
      apply IH in E as (N & D & L & ->). split_and!; [intros Hin%D; set_solver|done| |..].
      * intros j [->|Hj%D]%elem_of_cons; [done|set_solver].
      * intros j w [[= -> ->]|?]%elem_of_cons; eauto.
      * set_solver.
    + intros ([Hk N] & D & L & ->). rewrite bool_decide_false by (apply D; by left). cbn [reject res_bind].
      rewrite (L k v) by (by left). cbn [ok_or res_bind]. rewrite bool_decide_true by done. cbn [negb reject res_bind].
      apply IH. split_and!; [done| |intros; apply L; by right|set_solver].
      intros j Hj. specialize (D j). set_solver.
Qed.

Lemma pairs_functional routes k v w :
  NoDup (nr_node_key <$> routes) -> (k, v) ∈ route_pairs routes -> (k, w) ∈ route_pairs routes -> v = w.
Proof.
  intros N (a & [= -> ->] & (i & Hi)%list_elem_of_lookup)%list_elem_of_fmap
    (b & [= E ->] & (j & Hj)%list_elem_of_lookup)%list_elem_of_fmap.
  assert (i = j) as ->; [|congruence].
  eapply NoDup_lookup; [exact N|by rewrite list_lookup_fmap, Hi|]. rewrite list_lookup_fmap, Hj. cbn. congruence.
Qed.

Lemma pairs_NoDup routes : NoDup (nr_node_key <$> routes) -> NoDup (route_pairs routes).
Proof.
  intros N. apply (NoDup_fmap_1 fst). unfold route_pairs. by rewrite <- list_fmap_compose.
Qed.

(** C24: supplied transport routes are the bulletin's.  The check accepts the
    node keys and routes of a request exactly when there are as many of both
    and, paired up, they are a permutation of the routes resolved from the
    bulletin, no key of which repeats: no route is left out, added, or given to
    another key. *)
Theorem route_bindings_exact (node_keys peer_routes : list bytes) (resolved_routes : list NodeRoute) :
  validate_node_route_bindings node_keys peer_routes resolved_routes = Ok tt <->
  length node_keys = length peer_routes /\ NoDup (nr_node_key <$> resolved_routes) /\
  zip node_keys peer_routes ≡ₚ route_pairs resolved_routes.
Proof.
  unfold validate_node_route_bindings. split.
  - intros E. bind_ok E as u Hl%reject_Ok%negb_false_iff%Nat.eqb_eq. bind_ok E as e He. bind_ok E as ks Hks.
    apply reject_Ok, orb_false_iff in E as [_ Hd%negb_false_iff%bool_decide_eq_true].
    apply expected_routes_Ok in He as (N & _ & L). apply check_supplied_Ok in Hks as (Nz & _ & Lz & ->).
    split_and!; [done..|]. apply NoDup_Permutation; [by apply (NoDup_fmap_1 fst)|by apply pairs_NoDup|].
    intros [k v]. split; [intros H%Lz%L; by destruct H as [?|?]; [rewrite lookup_empty in *|]|].
    intros H. assert (k ∈ dom e) as Hk%Hd by (apply elem_of_dom; exists v; apply L; by right).
    rewrite (right_id_L ∅ (∪)) in Hk. apply elem_of_list_to_set in Hk as ([k' w] & -> & Hw)%list_elem_of_fmap.
    cbn in *. pose proof (Lz _ _ Hw) as [?|Hw']%L; [rewrite lookup_empty in *; done|].
    by rewrite (pairs_functional _ _ _ _ N H Hw').
  - intros (Hl & N & Pz). rewrite (proj2 (Nat.eqb_eq _ _) Hl). cbn [negb reject res_bind].
    destruct (expected_routes_total resolved_routes ∅ N) as [e He]; [intros; apply lookup_empty|]. rewrite He.
    apply expected_routes_Ok in He as (_ & _ & L). cbn [res_bind].
    assert (check_supplied e ∅ (zip node_keys peer_routes) = Ok (dom e)) as ->.
    + apply check_supplied_Ok. rewrite (right_id_L ∅ (∪)). split_and!; [|set_solver| |].
      * rewrite Pz. unfold route_pairs. by rewrite <- list_fmap_compose.
      * intros k v H. apply L. right. by rewrite <- Pz.
      * apply set_eq. intros k. rewrite elem_of_dom, elem_of_list_to_set, list_elem_of_fmap. split.
        -- intros [v [?|H]%L]; [rewrite lookup_empty in *; done|]. exists (k, v). by rewrite Pz.
        -- intros ([k' v] & -> & H). exists v. apply L. right. by rewrite <- Pz.
    + cbn [res_bind]. rewrite size_dom, Nat.eqb_refl, bool_decide_true by done. done.
Qed.

(** *** The two numberings of a committee *)

Lemma assign_ids_Ok idx m l :
  NoDup l -> (forall k, k ∈ l -> m !! k = None) ->
  exists m', assign_ids idx m l = Ok m' /\ forall k, m' !! k =
    match list_find (fun j => j = k) l with
    | Some (i, _) => Some (as_u32 (idx + Z.of_nat i + 1))
    | None => m !! k
    end.
Proof.
  revert idx m. induction l as [|j l IH]; intros idx m N D; cbn [assign_ids]; [by exists m|].
  apply NoDup_cons in N as [Hj N]. rewrite (D j) by (by left). rewrite bool_decide_false by (by intros []).
  cbn [reject res_bind]. destruct (IH (idx + 1) (<[j:=as_u32 (idx + 1)]> m) N) as (m' & -> & L).
  - intros k Hk. rewrite lookup_insert_ne by (intros ->; done). apply D. by right.
  - exists m'. split; [done|]. intros k. rewrite L. cbn [list_find]. destruct (decide (j = k)) as [->|Hjk].
    + destruct (list_find _ l) as [[i y]|] eqn:F.
      * apply list_find_Some in F as (Hi & -> & _). by apply list_elem_of_lookup_2 in Hi.
      * rewrite lookup_insert_eq. f_equal. f_equal. lia.
    + rewrite lookup_insert_ne by done. destruct (list_find _ l) as [[i y]|]; [|done]. cbn. do 2 f_equal. lia.
Qed.

Lemma assign_ids_fresh idx m l m' :
  assign_ids idx m l = Ok m' -> NoDup l /\ forall k, k ∈ l -> m !! k = None.
Proof.
  revert idx m. induction l as [|j l IH]; intros idx m E; cbn [assign_ids] in E.
  - split; [constructor|intros ? ?%elem_of_nil; done].
  - bind_ok E as u Hn%reject_Ok%bool_decide_eq_false. rewrite <- eq_None_not_Some in Hn.
    apply IH in E as [N D]. split.
    + constructor; [|done]. intros H%D. by rewrite lookup_insert_eq in H.
    + intros k [->|H%D]%elem_of_cons; [done|]. by apply lookup_insert_None in H as [? _].
Qed.

Lemma dedup_distinct l : NoDup l -> dedup l = l.
Proof.
  induction 1 as [|x l Hx N IH]; [done|]. cbn [dedup]. destruct l as [|y l]; [done|].
  destruct (decide (x = y)) as [->|]; [exfalso; apply Hx; by left|by rewrite IH].
Qed.

(** The two numberings of a committee agree.  Numbering by node key, which
    DKG, signing and reporting use, is defined exactly when no key repeats; and
    then, for keys without a route suffix, it gives every key the number that
    [determine_session_node_id], which PRE and PET use, gives it, and no other
    key a number. *)
Lemma numberings_agree (keys : list bytes) :
  (forall k, k ∈ keys -> Byte.x40 ∉ k) ->
  (NoDup keys <-> exists m, canonical_node_id_assignments_from_node_keys keys = Ok m) /\
  forall m, canonical_node_id_assignments_from_node_keys keys = Ok m ->
    forall key, Byte.x40 ∉ key -> m !! key = determine_session_node_id key keys.
Proof.
  intros Hat. unfold canonical_node_id_assignments_from_node_keys.
  assert (sort_strings keys ≡ₚ keys) as Ps by apply merge_sort_Permutation.
  assert (NoDup keys -> exists m, assign_ids 0 ∅ (sort_strings keys) = Ok m /\
    forall key, Byte.x40 ∉ key -> m !! key = determine_session_node_id key keys) as Hok.
  { intros N. destruct (assign_ids_Ok 0 ∅ (sort_strings keys)) as (m & Hm & L); [by rewrite Ps|done|].
    exists m. split; [done|]. intros key Hk. rewrite L. unfold determine_session_node_id, sorted_peer_ids.
    rewrite (node_part_self key : _ -> extract_node_part key = key) by done. assert (extract_node_part <$> keys = keys) as ->.
    { transitivity (id <$> keys); [|apply list_fmap_id]. apply list_fmap_ext. intros i k Hi. apply node_part_self, Hat.
      by eapply list_elem_of_lookup_2. }
    rewrite dedup_distinct by (by rewrite Ps). destruct (list_find _ _) as [[i k]|]; done. }
  split; [split; [intros N; destruct (Hok N) as (m & ? & _); eauto|]|].
  - intros [m Hm]. apply assign_ids_fresh in Hm as [N _]. by rewrite Ps in N.
  - intros m Hm. pose proof (assign_ids_fresh _ _ _ _ Hm) as [N _]. rewrite Ps in N.
    destruct (Hok N) as (m' & Hm' & L). rewrite Hm in Hm'. by apply Ok_inj in Hm' as <-.
Qed.

(** *** Validation of peer ids *)

(** A malformed peer id can abort its validation.  The validation of a peer
    id that is neither empty nor longer than 256 bytes and whose node part has
    64 bytes, not all of them hexadecimal digits, panics exactly when byte 20 of
    the node part lies inside the encoding of a character, because the error
    message slices the node part there; no other peer id makes it panic. *)
Lemma peer_id_validation_panics (is_socket_addr : bytes -> bool) (peer_id : bytes) :
  validate_peer_id is_socket_addr peer_id = Panic <->
  Z.of_nat (length peer_id) <= MAX_PEER_ID_LENGTH /\
  Z.of_nat (length (node_part peer_id)) = EXPECTED_HEX_NODE_ID_LENGTH /\
  forallb is_ascii_hexdigit (chars (node_part peer_id)) = false /\
  exists b, node_part peer_id !! 20%nat = Some b /\ 0x80 <= byte.unsigned b <= 0xBF.
Proof.
  unfold validate_peer_id. cbv zeta. rewrite splitn_node_part. unfold EXPECTED_HEX_NODE_ID_LENGTH.
  case_bool_decide as E; cbn [reject res_bind]; [subst; cbn; split; [done|lia]|].
  destruct (Z.ltb_spec MAX_PEER_ID_LENGTH (Z.of_nat (length peer_id))); cbn [reject res_bind]; [split; [done|lia]|].
  destruct (Z.eqb_spec (Z.of_nat (length (node_part peer_id))) 64) as [L|]; cbn [negb reject res_bind]; [|split; [done|lia]].
  destruct (forallb _ _) eqn:Hh; cbn [res_bind].
  - split; [|naive_solver]. destruct (tail _); [done|]. unfold reject. case_bool_decide; cbn [res_bind]; [done|].
    by destruct (negb _).
  - unfold slice_to, is_char_boundary. rewrite L. change (64 `min` 20) with 20. cbn [Z.eqb Pos.eqb orb].
    destruct (lookup_lt_is_Some_2 (node_part peer_id) 20) as [b Hb]; [lia|]. change (Z.to_nat 20) with 20%nat. rewrite Hb.
    unfold between. destruct (Z.leb_spec 0x80 (byte.unsigned b)), (Z.leb_spec (byte.unsigned b) 0xBF);
      cbn [andb negb res_bind]; split; try done; try (intros (_ & _ & _ & ? & [= <-] & ?); lia).
    intros _. split_and!; [done|done|done|]. exists b. split; [done|lia].
Qed.

(** A peer id of 64 bytes with a two-byte character across byte 20. *)
Example peer_id_panic_example :
  let a n := repeat Byte.x61 n in
  validate_peer_id (fun _ => false) (a 19%nat ++ [Byte.xc3; Byte.xa9] ++ a 43%nat) = Panic.
Proof. vm_compute. reflexivity. Qed.
