(* ===== verification/Bulletin.v ===== *)
(** * Ring state and document identities

    [crates/bulletin/src/trait.rs] and [reporting.rs]: the ring payload, its
    canonical state digest and its protocol upgrade; [network/src/protocol.rs]
    and [bin/orbis-node/src/helpers/protocol_version.rs]: the gate on the
    protocol version; [crates/common/src/blockchain/orbis/ids.rs] and
    [bin/orbis-node/src/pre/v0/helpers.rs]: document identifiers and what they
    bind. *)
From S2P Require Import Prelude Primitives Toy Context Pet ReportCodec Identity NodeState.

#[local] Set Keyed Unification.

(** ** Ring payloads *)

Record DemeritConfig := MkDemeritConfig {
  node_offline_demerits : Z;
  reset_interval_seconds : Z;
  invalid_crypto_response_demerits : Z;
  unauthorized_request_demerits : Z;
}.

Record ReportingConfig := MkReportingConfig {
  demerit_config : DemeritConfig;
  backup_node_keys : list bytes;
  kick_threshold : Z;
}.

Record UpgradeInfo := MkUpgradeInfo {
  current_version : Z;
  next_version : option Z;
  activation_time : option Z;
}.

Record RingPayload := MkRingPayload {
  ring_pk : bytes;
  new_peer_node_keys : option (list bytes);
  new_threshold : option Z;
  peer_node_keys : list bytes;
  rp_threshold : Z;
  pss_interval : Z;
  block_number_nonce : Z;
  rp_policy_id : option bytes;
  trusted_auth_relay_dids : option (list bytes);
  upgrade_info : UpgradeInfo;
  reporting : ReportingConfig;
  requires_pet : bool;
  pet_pk : option bytes;
}.

(** *** The protocol version in force *)

Inductive BulletinParseError := ParseError (msg : string).

Definition effective_version (u : UpgradeInfo) (current_time : Z) : res BulletinParseError Z :=
  match next_version u, activation_time u with
  | None, None => Ok (current_version u)
  | Some next, Some activation =>
      reject (next <=? current_version u) (ParseError "next_version {} must be greater than current_version {}") ;?
      reject (activation =? 0) (ParseError "activation_time must be positive") ;?
      Ok (if activation <=? current_time then next else current_version u)
  | _, _ => Err (ParseError "next_version and activation_time must both be set or both be absent")
  end.

(** [network::routes_for_version]: the installed protocol versions. *)
Definition SUPPORTED_PROTOCOL_VERSIONS : list Z := [0].

Definition routes_for_version (version : Z) : option Z :=
  if bool_decide (version ∈ SUPPORTED_PROTOCOL_VERSIONS) then Some version else None.

Definition resolve_ring_protocol_decision (current_time : Z) (ring : RingPayload) : res string Z :=
  let? effective := map_err (effective_version (upgrade_info ring) current_time)
    "malformed protocol upgrade state for ring {ring_id}" in
  ok_or (routes_for_version effective) "protocol version for ring {ring_id} is not installed".

Definition ensure_ring_protocol_route (current_time : Z) (ring : RingPayload) (route_version : Z) : res string Z :=
  let? version := resolve_ring_protocol_decision current_time ring in
  reject (negb (version =? route_version)) "protocol route mismatch for ring {ring_id}" ;?
  Ok version.

(** *** Reading a ring

    The bulletin answers the attempts one after the other; a post that was read
    is parsed. *)
Definition MAX_RING_READ_ATTEMPTS : nat := 3.

Section Reads.
Context {Post : Type} (read : nat -> option Post) (try_from : Post -> option RingPayload).

(** The loop, with [more] attempts after this one. *)
Fixpoint read_loop (attempt more : nat) : res string Post :=
  match read attempt with
  | Some post => Ok post
  | None =>
      match more with
      | S more => read_loop (S attempt) more
      | O => Err "failed to read protocol state for ring {ring_id} after {MAX_RING_READ_ATTEMPTS} attempts"
      end
  end.

Definition read_ring_payload : res string RingPayload :=
  let? ring_post := read_loop 1 (MAX_RING_READ_ATTEMPTS - 1) in
  ok_or (try_from ring_post) "malformed ring payload for ring {ring_id}".

Definition read_ring_for_route (current_time route_version : Z) : res string RingPayload :=
  let? ring_payload := read_ring_payload in
  ensure_ring_protocol_route current_time ring_payload route_version ;?
  Ok ring_payload.
End Reads.

(** *** The canonical ring state *)

Definition write_demerit_config (out : bytes) (value : DemeritConfig) : bytes :=
  let out := write_u64 out (node_offline_demerits value) in
  let out := write_u64 out (reset_interval_seconds value) in
  let out := write_u64 out (invalid_crypto_response_demerits value) in
  let out := write_u64 out (unauthorized_request_demerits value) in
  out.

Definition write_reporting_config (out : bytes) (value : ReportingConfig) : bytes :=
  let out := write_demerit_config out (demerit_config value) in
  let out := write_string_vec out (backup_node_keys value) in
  let out := write_u64 out (kick_threshold value) in
  out.

Definition canonical_ring_state_bytes (payload : RingPayload) : bytes :=
  let out := write_string [] (ring_pk payload) in
  let out := write_string_vec out (peer_node_keys payload) in
  let out := write_u32 out (rp_threshold payload) in
  let out := write_optional_string_vec out (new_peer_node_keys payload) in
  let out := write_optional_u32 out (new_threshold payload) in
  let out := write_u64 out (pss_interval payload) in
  let out := write_u64 out (block_number_nonce payload) in
  let out := write_optional_string out (rp_policy_id payload) in
  let out := write_bool out (bool_decide (is_Some (trusted_auth_relay_dids payload))) in
  let out := write_string_vec out (default [] (trusted_auth_relay_dids payload)) in
  let out := write_u64 out (current_version (upgrade_info payload)) in
  let out := write_optional_u64 out (next_version (upgrade_info payload)) in
  let out := write_optional_u64 out (activation_time (upgrade_info payload)) in
  let out := write_reporting_config out (reporting payload) in
  out.

Definition ring_state_sha256 `{Sha2} `{Hex} (payload : RingPayload) : bytes :=
  hex_encode (sha256 (canonical_ring_state_bytes payload)).

(** What the digest covers: everything but [requires_pet] and [pet_pk]. *)
Definition ring_state (p : RingPayload) : RingPayload :=
  MkRingPayload (ring_pk p) (new_peer_node_keys p) (new_threshold p) (peer_node_keys p) (rp_threshold p)
    (pss_interval p) (block_number_nonce p) (rp_policy_id p) (trusted_auth_relay_dids p) (upgrade_info p)
    (reporting p) false None.

Definition demerit_wf (d : DemeritConfig) : Prop :=
  let '(MkDemeritConfig a b c e) := d in is_u64 a /\ is_u64 b /\ is_u64 c /\ is_u64 e.

Definition ring_wf (p : RingPayload) : Prop :=
  is_string (ring_pk p) /\ on_some (is_list is_string) (new_peer_node_keys p) /\ on_some is_u32 (new_threshold p) /\
  is_list is_string (peer_node_keys p) /\ is_u32 (rp_threshold p) /\ is_u64 (pss_interval p) /\
  is_u64 (block_number_nonce p) /\ on_some is_string (rp_policy_id p) /\
  is_list is_string (default [] (trusted_auth_relay_dids p)) /\
  is_u64 (current_version (upgrade_info p)) /\ on_some is_u64 (next_version (upgrade_info p)) /\
  on_some is_u64 (activation_time (upgrade_info p)) /\ demerit_wf (demerit_config (reporting p)) /\
  is_list is_string (backup_node_keys (reporting p)) /\ is_u64 (kick_threshold (reporting p)).

Lemma write_string_vec_app out v : write_string_vec out v = out ++ enc_list enc_bytes v.
Proof. apply write_list_app. apply write_string_app. Qed.

Lemma write_optional_string_vec_app out v : write_optional_string_vec out v = out ++ enc_opt (enc_list enc_bytes) v.
Proof. apply (write_optional_app write_string_vec), write_string_vec_app. Qed.

Lemma write_optional_u32_app out v : write_optional_u32 out v = out ++ enc_opt (to_be_bytes 4) v.
Proof. apply (write_optional_app write_u32), write_u32_app. Qed.

Ltac wire_more ::=
  rewrite ?write_string_vec_app, ?write_optional_string_vec_app, ?write_optional_u32_app.

Lemma relays_inj {A} (a b : option (list A)) :
  bool_decide (is_Some a) = bool_decide (is_Some b) -> default [] a = default [] b -> a = b.
Proof. destruct a, b; cbn; intros E1 E2; [by subst|discriminate E1..|done]. Qed.

Lemma canonical_ring_state_inj p q :
  ring_wf p -> ring_wf q -> canonical_ring_state_bytes p = canonical_ring_state_bytes q -> ring_state p = ring_state q.
Proof.
  destruct p as [p1 p2 p3 p4 p5 p6 p7 p8 p9 [u1 u2 u3] [[d1 d2 d3 d4] r2 r3] p12 p13].
  destruct q as [q1 q2 q3 q4 q5 q6 q7 q8 q9 [v1 v2 v3] [[e1 e2 e3 e4] s2 s3] q12 q13].
  intros Wp Wq E%(f_equal (fun b => b ++ [])). unfold ring_wf, demerit_wf in Wp, Wq.
  cbn -[is_list is_string is_u32 is_u64 on_some] in Wp, Wq. wire_split. revert E.
  unfold canonical_ring_state_bytes, write_reporting_config, write_demerit_config. cbv zeta.
  cbn [ring_pk new_peer_node_keys new_threshold peer_node_keys rp_threshold pss_interval block_number_nonce
       rp_policy_id trusted_auth_relay_dids upgrade_info reporting current_version next_version activation_time
       demerit_config backup_node_keys kick_threshold node_offline_demerits reset_interval_seconds
       invalid_crypto_response_demerits unauthorized_request_demerits].
  wire_norm. intros E. repeat wire_inj E.
  assert (p9 = q9) as Hr by by apply relays_inj.
  unfold ring_state. cbn. by subst.
Qed.

(** ** Document identifiers *)

Record IdPetTag := MkIdPetTag { id_ephemeral_point : bytes; id_masked_fingerprint : bytes }.
Record IdPetTagProof := MkIdPetTagProof { id_tag_challenge : bytes; id_tag_response : bytes }.

Record DocumentPayload := MkDocumentPayload {
  ring_id : bytes;
  document : bytes;
  proof : bytes;
  policy_id : bytes;
  resource : bytes;
  permission : bytes;
  tier : option bytes;
  timestamp : option Z;
  pet_tag : option bytes;
  pet_tag_proof : option bytes;
}.

(** [serde_json::from_str] at the four shapes an identifier is derived from,
    which admit no unknown field, and at the type the PET checks use, which
    does; the latter reads the same two fields. *)
Class DocumentJson := {
  json_secret : bytes -> option Secret;
  json_proof : bytes -> option EncryptionProof;
  json_pet_tag : bytes -> option IdPetTag;
  json_pet_tag_proof : bytes -> option IdPetTagProof;
  PetTag_try_from : bytes -> option PetTag;
  PetTag_lenient s t :
    json_pet_tag s = Some t -> PetTag_try_from s = Some (MkPetTag (id_ephemeral_point t) (id_masked_fingerprint t));
}.

Inductive BlockchainError := BlockchainSerialization (msg : string).

Section Documents.
Context `{DocumentJson} `{Sha2} `{Hex}.

(** The hasher [h] has absorbed [h]. *)
Definition write_optional_pet_tag (h : bytes) (tag proof : option bytes) : res BlockchainError bytes :=
  match tag, proof with
  | None, None => Ok h
  | Some tag, Some proof =>
      let? tag := ok_or (json_pet_tag tag) (BlockchainSerialization "{serde_json}") in
      let? proof := ok_or (json_pet_tag_proof proof) (BlockchainSerialization "{serde_json}") in
      let h := write_bytes h (id_ephemeral_point tag) in
      let h := write_bytes h (id_masked_fingerprint tag) in
      let h := write_bytes h (id_tag_challenge proof) in
      let h := write_bytes h (id_tag_response proof) in
      Ok h
  | _, _ => Err (BlockchainSerialization "pet_tag and pet_tag_proof must be present or absent together")
  end.

(** Everything [generate_document_id] hashes. *)
Definition document_message (d : DocumentPayload) : res BlockchainError bytes :=
  let? secret := ok_or (json_secret (document d)) (BlockchainSerialization "{serde_json}") in
  let? proof := ok_or (json_proof (proof d)) (BlockchainSerialization "{serde_json}") in
  let h := write_string [] (bstr "orbis/document/v1") in
  let h := write_string h (ring_id d) in
  let h := write_bytes h (enc_cmt secret) in
  let h := write_bytes h (encrypted_data secret) in
  let h := write_bytes h (nonce secret) in
  let h := write_bytes h (ep_challenge proof) in
  let h := write_bytes h (ep_response proof) in
  let h := write_string h (policy_id d) in
  let h := write_string h (resource d) in
  let h := write_string h (permission d) in
  let h := write_optional_string h (tier d) in
  let h := write_optional_u64 h (timestamp d) in
  write_optional_pet_tag h (pet_tag d) (pet_tag_proof d).

Definition generate_document_id (d : DocumentPayload) : res BlockchainError bytes :=
  let? message := document_message d in Ok (hex_encode (sha256 message)).

Definition key_derivation_message (ring_id derivation policy_id resource permission : bytes) : bytes :=
  let h := write_string [] (bstr "orbis/key_derivation/v1") in
  let h := write_string h ring_id in
  let h := write_string h derivation in
  let h := write_string h policy_id in
  let h := write_string h resource in
  let h := write_string h permission in
  h.

Definition generate_key_derivation_id (ring_id derivation policy_id resource permission : bytes) : bytes :=
  hex_encode (sha256 (key_derivation_message ring_id derivation policy_id resource permission)).

Inductive PreError :=
  | PreUnauthorized (msg : string)
  | PreSerialization (msg : string)
  | PreDeserialization (msg : string)
  | PreNetworkConnection (msg : string)
  | PreNetworkCommunication (msg : string)
  | PreCrypto (msg : string)
  | PreVerificationFailed (msg : string)
  | PreRecoveryFailed (msg : string)
  | PreStorage (msg : string)
  | PreSessionNotFound (msg : string)
  | PreInsufficientShares (got need : Z)
  | PreTimeout (msg : string)
  | PreInvalidInput (msg : string)
  | PreInvalidState (msg : string)
  | PreProtocolError (msg : string)
  | PreReshareInProgress
  | PreGeneric (msg : string)
  | PreSystemTime (msg : string)
  | PreRingState (msg : string)
  | PreAuthZ (msg : string).

Definition check_document_id_binding (object_id : bytes) (d : DocumentPayload) : res PreError unit :=
  let? expected := map_err (generate_document_id d) (PreInvalidInput "malformed document: {e}") in
  reject (negb (bool_decide (expected = object_id)))
    (PreUnauthorized "supplied document does not match object_id '{}'").

(** *** The bindings a document is encrypted and authorized under *)

Definition build_pet_tag_binding (d : DocumentPayload) (pet_pk_hex : option bytes) :
    res PreError (option PetTagBinding) :=
  match pet_tag d with
  | None => Ok None
  | Some tag_json =>
      let? pet_pk_hex := ok_or pet_pk_hex
        (PreInvalidState "document has a PET tag but the ring has no PET checking key") in
      let? tag := ok_or (PetTag_try_from tag_json) (PreDeserialization "Failed to deserialize PET tag: {}") in
      let? pet_pk := ok_or (hex_decode pet_pk_hex) (PreInvalidInput "Invalid pet_pk hex encoding: {}") in
      Ok (Some (MkPetTagBinding (ring_id d) pet_pk (ephemeral_point tag) (masked_fingerprint tag)))
  end.

Definition build_ciphertext_context (ring_pk_hex : bytes) (d : DocumentPayload) (salt pet_pk_hex : option bytes) :
    res PreError CiphertextContext :=
  let? ring_pk := ok_or (hex_decode ring_pk_hex) (PreInvalidInput "Invalid ring_pk hex encoding: {}") in
  let? pet_tag := build_pet_tag_binding d pet_pk_hex in
  Ok (MkCiphertextContext ring_pk (policy_id d) (resource d) (permission d) (tier d) (timestamp d) salt pet_tag).

(** *** What an identifier binds *)

(** Two payloads with the same meaning: the same ciphertext, encryption proof,
    policy and PET attachment, however they spell their JSON. *)
Definition same_document (d1 d2 : DocumentPayload) : Prop :=
  ring_id d1 = ring_id d2 /\ policy_id d1 = policy_id d2 /\ resource d1 = resource d2 /\
  permission d1 = permission d2 /\ tier d1 = tier d2 /\ timestamp d1 = timestamp d2 /\
  json_secret (document d1) = json_secret (document d2) /\ json_proof (proof d1) = json_proof (proof d2) /\
  pet_tag d1 ≫= json_pet_tag = pet_tag d2 ≫= json_pet_tag /\
  pet_tag_proof d1 ≫= json_pet_tag_proof = pet_tag_proof d2 ≫= json_pet_tag_proof.

(** Lengths and integers fit their widths, as they do in memory. *)
Definition document_wf (d : DocumentPayload) : Prop :=
  short (ring_id d) /\ short (policy_id d) /\ short (resource d) /\ short (permission d) /\
  on_some short (tier d) /\ on_some is_u64 (timestamp d) /\
  on_some (fun s => short (enc_cmt s) /\ short (encrypted_data s) /\ short (nonce s)) (json_secret (document d)) /\
  on_some (fun p => short (ep_challenge p) /\ short (ep_response p)) (json_proof (proof d)) /\
  on_some (fun t => short (id_ephemeral_point t) /\ short (id_masked_fingerprint t)) (pet_tag d ≫= json_pet_tag) /\
  on_some (fun p => short (id_tag_challenge p) /\ short (id_tag_response p))
    (pet_tag_proof d ≫= json_pet_tag_proof).

(** The attachment at the end of the message: nothing, or the four fields. *)
Definition pet_tail (a : option (IdPetTag * IdPetTagProof)) : bytes :=
  match a with
  | None => []
  | Some (t, p) => enc_bytes (id_ephemeral_point t) ++ enc_bytes (id_masked_fingerprint t) ++
      enc_bytes (id_tag_challenge p) ++ enc_bytes (id_tag_response p)
  end.

Lemma write_optional_pet_tag_Ok h tag proof m :
  write_optional_pet_tag h tag proof = Ok m <->
  exists a, m = h ++ pet_tail a /\
    match a with
    | None => tag = None /\ proof = None
    | Some (t, p) => exists st sp, tag = Some st /\ proof = Some sp /\
        json_pet_tag st = Some t /\ json_pet_tag_proof sp = Some p
    end.
Proof.
  unfold write_optional_pet_tag. split.
  - destruct tag as [tag|], proof as [proof|]; intros E; inv_ok; [|exists None; by rewrite app_nil_r].
    eexists (Some (_, _)). split; [cbn [pet_tail]; wire_norm; reflexivity|eauto 10].
  - intros ([[t p]|] & -> & E); [destruct E as (st & sp & -> & -> & E1 & E2)|destruct E as [-> ->]].
    + rewrite E1, E2. cbn [res_bind ok_or pet_tail]. f_equal. by wire_norm.
    + by rewrite app_nil_r.
Qed.

Definition document_head (s : Secret) (p : EncryptionProof) (d : DocumentPayload) (rest : bytes) : bytes :=
  enc_bytes (bstr "orbis/document/v1") ++ enc_bytes (ring_id d) ++ enc_bytes (enc_cmt s) ++
  enc_bytes (encrypted_data s) ++ enc_bytes (nonce s) ++ enc_bytes (ep_challenge p) ++ enc_bytes (ep_response p) ++
  enc_bytes (policy_id d) ++ enc_bytes (resource d) ++ enc_bytes (permission d) ++ enc_opt enc_bytes (tier d) ++
  enc_opt (to_be_bytes 8) (timestamp d) ++ rest.

Lemma document_message_Ok d m :
  document_message d = Ok m -> exists s p a, json_secret (document d) = Some s /\ json_proof (proof d) = Some p /\
    m = document_head s p d (pet_tail a) /\
    pet_tag d ≫= json_pet_tag = fst <$> a /\ pet_tag_proof d ≫= json_pet_tag_proof = snd <$> a.
Proof.
  unfold document_message. intros E. bind_ok E as s Es%ok_or_Ok. bind_ok E as p Ep%ok_or_Ok. cbv zeta in E.
  apply write_optional_pet_tag_Ok in E as (a & -> & Ea). exists s, p, a. split_and!; [done..| | |].
  - unfold document_head. by wire_norm.
  - destruct a as [[t q]|]; [destruct Ea as (st & sp & -> & _ & E & _)|by destruct Ea as [-> _]]. exact E.
  - destruct a as [[t q]|]; [destruct Ea as (st & sp & _ & -> & _ & E)|by destruct Ea as [_ ->]]. exact E.
Qed.

Lemma pet_tail_inj a b :
  on_some (fun t => short (id_ephemeral_point t) /\ short (id_masked_fingerprint t)) (fst <$> a) ->
  on_some (fun p => short (id_tag_challenge p) /\ short (id_tag_response p)) (snd <$> a) ->
  on_some (fun t => short (id_ephemeral_point t) /\ short (id_masked_fingerprint t)) (fst <$> b) ->
  on_some (fun p => short (id_tag_challenge p) /\ short (id_tag_response p)) (snd <$> b) ->
  pet_tail a = pet_tail b -> a = b.
Proof.
  assert (forall x y, enc_bytes x ++ y <> []) as Hne.
  { intros x y E. apply (f_equal length) in E. rewrite length_app, length_enc_bytes in E. cbn in E. lia. }
  destruct a as [[[t1 t2] [p1 p2]]|], b as [[[u1 u2] [q1 q2]]|]; cbn;
    [|by intros _ _ _ _ ?%Hne|by intros _ _ _ _ ?%eq_sym%Hne|done].
  intros [] [] [] [] E%(f_equal (fun b => b ++ [])). rewrite <- !app_assoc in E. repeat wire_inj E. by subst.
Qed.

Lemma document_message_inj d1 d2 m :
  document_wf d1 -> document_wf d2 -> document_message d1 = Ok m -> document_message d2 = Ok m -> same_document d1 d2.
Proof.
  intros W1 W2 (s1 & p1 & a1 & Es1 & Ep1 & -> & Et1 & Eq1)%document_message_Ok
    (s2 & p2 & a2 & Es2 & Ep2 & E & Et2 & Eq2)%document_message_Ok.
  unfold document_wf in W1, W2. rewrite Es1, Ep1, Et1, Eq1 in W1. rewrite Es2, Ep2, Et2, Eq2 in W2.
  cbn -[short is_u64] in W1, W2. wire_split. unfold document_head in E.
  assert (short (bstr "orbis/document/v1")) as Hd by by vm_compute.
  do 12 wire_inj E. apply pet_tail_inj in E as ->; [|done..].
  unfold same_document. rewrite Es1, Es2, Ep1, Ep2, Et1, Et2, Eq1, Eq2. split_and!; try done; f_equal.
  - destruct s1, s2; cbn in *; by subst.
  - destruct p1, p2; cbn in *; by subst.
Qed.
End Documents.

(** ** The properties *)

Lemma effective_version_monotone u t1 t2 v1 v2 :
  t1 <= t2 -> effective_version u t1 = Ok v1 -> effective_version u t2 = Ok v2 ->
  v1 <= v2 /\ (v1 = v2 \/ exists a, activation_time u = Some a /\ t1 < a <= t2).
Proof.
  intros L. unfold effective_version. destruct (next_version u), (activation_time u) as [a|]; intros E1 E2; inv_ok; try lia.
  destruct (Z.leb_spec a t1), (Z.leb_spec a t2); split; try lia; eauto with lia.
Qed.

Section Bindings.
Context `{DocumentJson} `{Sha2} `{Hex}.

Lemma same_id_same_document id d1 d2 :
  document_wf d1 -> document_wf d2 -> generate_document_id d1 = Ok id -> generate_document_id d2 = Ok id ->
  same_document d1 d2 \/
  exists m1 m2, document_message d1 = Ok m1 /\ document_message d2 = Ok m2 /\ collision sha256 m1 m2.
Proof.
  intros W1 W2 E1 E2. unfold generate_document_id in E1, E2.
  bind_ok E1 as m1 M1. bind_ok E2 as m2 M2. apply Ok_inj in E1, E2. rewrite <- E1 in E2.
  apply hex_encode_inj, (same_or_collision sha256) in E2 as [->|E2].
  - left. by eapply document_message_inj.
  - right. exists m1, m2. split_and!; [done..|]. unfold collision in *. naive_solver.
Qed.

(** C35: an object id stands for one document.  Two payloads that a node accepts
    under the same object id have the same ring, policy, resource, permission,
    tier and timestamp, and decode to the same ciphertext, encryption proof and
    PET attachment (one without an attachment never passes for one with it); or
    they exhibit a collision of SHA-256. *)
Theorem document_id_binds object_id d1 d2 :
  document_wf d1 -> document_wf d2 ->
  check_document_id_binding object_id d1 = Ok tt -> check_document_id_binding object_id d2 = Ok tt ->
  same_document d1 d2 \/
  exists m1 m2, document_message d1 = Ok m1 /\ document_message d2 = Ok m2 /\ collision sha256 m1 m2.
Proof.
  intros W1 W2 E1 E2. unfold check_document_id_binding in E1, E2.
  bind_ok E1 as i1 G1%map_err_Ok. bind_ok E2 as i2 G2%map_err_Ok.
  apply reject_Ok, negb_false_iff, bool_decide_eq_true in E1, E2. subst. by apply (same_id_same_document object_id).
Qed.

(** The ring-state digest a report or a PET context names pins the ring's
    key, committee, threshold, pending reshare, schedule, nonce, policy, relays,
    upgrade and reporting configuration: two ring payloads with the same digest
    agree on all of them (and may differ only in the PET fields), or they
    exhibit a collision of SHA-256. *)
Lemma ring_state_binds p q :
  ring_wf p -> ring_wf q -> ring_state_sha256 p = ring_state_sha256 q ->
  ring_state p = ring_state q \/ collision sha256 (canonical_ring_state_bytes p) (canonical_ring_state_bytes q).
Proof.
  intros Wp Wq E%hex_encode_inj. apply (same_or_collision sha256) in E as [E|E]; [left|by right].
  by apply canonical_ring_state_inj.
Qed.
End Bindings.

(** ** Examples *)

Definition example_json : DocumentJson := {|
  json_secret s := Some (MkSecret s [Byte.x02] [Byte.x03]);
  json_proof s := Some (MkEncryptionProof s [Byte.x05]);
  json_pet_tag _ := None;
  json_pet_tag_proof _ := None;
  PetTag_try_from _ := None;
  PetTag_lenient _ _ E := match E in _ = o return match o with Some _ => _ | None => True end with eq_refl => I end;
|}.

Definition example_document : DocumentPayload :=
  MkDocumentPayload (bstr "ring") [Byte.x01] [Byte.x04] (bstr "p") (bstr "r") (bstr "read") None (Some 7) None None.

Definition example_ring : RingPayload :=
  MkRingPayload (bstr "aa") None None [bstr "n1"; bstr "n2"] 2 60 5 None (Some []) (MkUpgradeInfo 0 (Some 1) (Some 100))
    (MkReportingConfig (MkDemeritConfig 1 86400 1 1) [] 3) true (Some (bstr "bb")).

Lemma document_id_binds_witness :
  let J := example_json in let Sh := toy_sha2 in let Hx := plain_hex in
  same_document example_document example_document \/
  exists m1 m2, document_message example_document = Ok m1 /\ document_message example_document = Ok m2 /\
    collision sha256 m1 m2.
Proof.
  intros J Sh Hx.
  assert (document_wf example_document) as W by (by repeat split).
  refine (document_id_binds (hex_encode (sha256 (match document_message example_document with Ok m => m | _ => [] end))) _ _ W W _ _);
    vm_compute; reflexivity.
Defined.

