(* ===== verification/RingState.v ===== *)
(** * The share bundles a node keeps

    [bin/orbis-node/src/ring_state.rs]: the binary form of a ring's share and
    public polynomial, its storage, and the history of retired polynomials;
    [crates/local-storage/src/trait.rs] as an interface. *)
From S2P Require Import Prelude Primitives Context ReportCodec NodeState.

(** ** [LocalStorage] *)

Inductive LocalStorageKeys :=
  | RingKey (key : bytes)
  | PetRingKey (ring_id : bytes)
  | RingIndex
  | NodeSecretKey
  | NodeSigningKey
  | RingPolyHistoryKey (key : bytes)
  | PendingReshareBundleKey (key : bytes)
  | PendingResharePetBundleKey (ring_id : bytes)
  | NamespacedSecret (namespace name : bytes).

#[global] Instance LocalStorageKeys_eq_dec : EqDecision LocalStorageKeys.
Proof. solve_decision. Defined.

(** What the trait promises: a write that succeeds is what the next read of the
    same slot returns, and no write touches another slot. *)
Class LocalStorage (S : Type) := {
  get : S -> LocalStorageKeys -> res string (option bytes);
  get_encrypted : S -> LocalStorageKeys -> res string (option bytes);
  set : LocalStorageKeys -> bytes -> method S string unit;
  set_encrypted : LocalStorageKeys -> bytes -> method S string unit;
  storage_delete : LocalStorageKeys -> method S string unit;
  get_set s k v s' : set k v s = (Ok tt, s') -> get s' k = Ok (Some v);
  get_set_encrypted s k v s' : set_encrypted k v s = (Ok tt, s') -> get_encrypted s' k = Ok (Some v);
  set_other s k v r s' j : set k v s = (r, s') -> j <> k -> get s' j = get s j /\ get_encrypted s' j = get_encrypted s j;
  set_encrypted_other s k v r s' j :
    set_encrypted k v s = (r, s') -> j <> k -> get s' j = get s j /\ get_encrypted s' j = get_encrypted s j;
  get_deleted s k s' : storage_delete k s = (Ok tt, s') -> get s' k = Ok None /\ get_encrypted s' k = Ok None;
  delete_other s k r s' j : storage_delete k s = (r, s') -> j <> k ->
    get s' j = get s j /\ get_encrypted s' j = get_encrypted s j;
}.

(** ** [RingShareBundle] *)

Record RingShareBundle := MkRingShareBundle {
  share_bytes : bytes;
  public_polynomial : bytes;
  last_pss : Z;
}.

Definition BUNDLE_VERSION : Byte.byte := Byte.x01.

Definition RingShareBundle_to_bytes (b : RingShareBundle) : bytes :=
  [BUNDLE_VERSION] ++
  to_le_bytes 4 (as_u32 (Z.of_nat (length (share_bytes b)))) ++ share_bytes b ++
  to_le_bytes 4 (as_u32 (Z.of_nat (length (public_polynomial b)))) ++ public_polynomial b ++
  to_le_bytes 8 (last_pss b).

(** [bytes[cursor..cursor + n]] behind the length check, as the bytes read and
    those that follow. *)
Definition slice (n : Z) (rest : bytes) (e : string) : res string (bytes * bytes) :=
  reject (Z.of_nat (length rest) <? n) e ;?
  Ok (take (Z.to_nat n) rest, drop (Z.to_nat n) rest).

Definition slice_u32 (rest : bytes) (e : string) : res string (Z * bytes) :=
  let? '(encoded, rest) := slice 4 rest e in Ok (from_le_bytes encoded, rest).

Definition check_version (version : Byte.byte) (b : bytes) (name : string) : res string bytes :=
  match b with
  | [] => Err (name +:+ ": empty buffer")
  | v :: rest => reject (negb (bool_decide (v = version))) (name +:+ ": unsupported version 0x{:02X}") ;? Ok rest
  end.

Definition RingShareBundle_from_bytes (b : bytes) : res string RingShareBundle :=
  let? rest := check_version BUNDLE_VERSION b "RingShareBundle" in
  let? '(share_len, rest) := slice_u32 rest "RingShareBundle: buffer too short (u32)" in
  let? '(share, rest) := slice share_len rest "RingShareBundle: buffer too short (share_bytes)" in
  let? '(poly_len, rest) := slice_u32 rest "RingShareBundle: buffer too short (u32)" in
  let? '(poly, rest) := slice poly_len rest "RingShareBundle: buffer too short (public_polynomial)" in
  ensure (utf8_valid poly) "RingShareBundle: invalid utf-8 in polynomial: {}" ;?
  let? '(encoded, _) := slice 8 rest "RingShareBundle: buffer too short (last_pss)" in
  Ok (MkRingShareBundle share poly (from_le_bytes encoded)).

(** ** [PendingReshareBundle] *)

Record PendingReshareBundle := MkPendingReshareBundle {
  bundle : RingShareBundle;
  bulletin_post_id : bytes;
  expected_new_committee : list bytes;
  expected_new_threshold : Z;
}.

Definition PENDING_RESHARE_BUNDLE_VERSION : Byte.byte := Byte.x01.

(** One entry of the polynomial history. *)
Record RetiredPolynomial := MkRetiredPolynomial {
  retired_polynomial : bytes;
  retired_at : Z;
}.

(** [serde_json] at the two types the bundles use. *)
Class StateJson := {
  committee_to_vec : list bytes -> bytes;
  committee_from_slice : bytes -> option (list bytes);
  committee_json c : committee_from_slice (committee_to_vec c) = Some c;
  history_to_vec : list RetiredPolynomial -> option bytes;
  history_from_slice : bytes -> option (list RetiredPolynomial);
  history_json h b : history_to_vec h = Some b -> history_from_slice b = Some h;
}.

Section Pending.
Context `{StateJson}.

Definition PendingReshareBundle_to_bytes (p : PendingReshareBundle) : bytes :=
  let bundle_bytes := RingShareBundle_to_bytes (bundle p) in
  let committee_json := committee_to_vec (expected_new_committee p) in
  [PENDING_RESHARE_BUNDLE_VERSION] ++
  to_le_bytes 4 (as_u32 (Z.of_nat (length bundle_bytes))) ++ bundle_bytes ++
  to_le_bytes 4 (as_u32 (Z.of_nat (length (bulletin_post_id p)))) ++ bulletin_post_id p ++
  to_le_bytes 4 (as_u32 (Z.of_nat (length committee_json))) ++ committee_json ++
  to_le_bytes 4 (expected_new_threshold p).

Definition PendingReshareBundle_from_bytes (b : bytes) : res string PendingReshareBundle :=
  let? rest := check_version PENDING_RESHARE_BUNDLE_VERSION b "PendingReshareBundle" in
  let? '(bundle_len, rest) := slice_u32 rest "PendingReshareBundle: buffer too short (u32)" in
  let? '(bundle_bytes, rest) := slice bundle_len rest "PendingReshareBundle: buffer too short (bundle)" in
  let? bundle := RingShareBundle_from_bytes bundle_bytes in
  let? '(post_len, rest) := slice_u32 rest "PendingReshareBundle: buffer too short (u32)" in
  let? '(post_id, rest) := slice post_len rest "PendingReshareBundle: buffer too short (bulletin_post_id)" in
  ensure (utf8_valid post_id) "PendingReshareBundle: invalid utf-8 in bulletin_post_id: {}" ;?
  let? '(committee_len, rest) := slice_u32 rest "PendingReshareBundle: buffer too short (u32)" in
  let? '(committee, rest) := slice committee_len rest
    "PendingReshareBundle: buffer too short (expected_new_committee)" in
  let? committee := ok_or (committee_from_slice committee)
    "PendingReshareBundle: invalid expected_new_committee json: {}" in
  let? '(threshold, _) := slice 4 rest "PendingReshareBundle: buffer too short (expected_new_threshold)" in
  Ok (MkPendingReshareBundle bundle post_id committee (from_le_bytes threshold)).
End Pending.

(** ** Storage of bundles and of retired polynomials *)

Definition RING_POLY_HISTORY_RETENTION_SECS : Z := 180.
Definition RING_POLY_HISTORY_MAX_ENTRIES : nat := 4.

Definition u64_saturating_sub (a b : Z) : Z := Z.max 0 (a - b).

Definition in_retention (now : Z) (e : RetiredPolynomial) : bool :=
  u64_saturating_sub now (retired_at e) <=? RING_POLY_HISTORY_RETENTION_SECS.

Section Storage.
Context {S : Type} `{!LocalStorage S} `{!StateJson}.

Definition load_bundle (s : S) (slot : LocalStorageKeys) : res string RingShareBundle :=
  let? stored := map_err (get_encrypted s slot) "Failed to read RingShareBundle: {}" in
  let? b := ok_or stored "RingShareBundle not found for ring_key {}" in
  RingShareBundle_from_bytes b.

Definition load_by_ring_key (s : S) (ring_key : bytes) : res string RingShareBundle :=
  load_bundle s (RingKey ring_key).

Definition load_by_pet_ring_key (s : S) (ring_id : bytes) : res string RingShareBundle :=
  load_bundle s (PetRingKey ring_id).

(** [RingPolyHistory::load]: anything unreadable counts as empty. *)
Definition history_load (s : S) (key : LocalStorageKeys) : list RetiredPolynomial :=
  match get s key with
  | Ok (Some b) => default [] (history_from_slice b)
  | _ => []
  end.

Definition history_save (h : list RetiredPolynomial) (key : LocalStorageKeys) : method S string unit :=
  let! b := m_lift (ok_or (history_to_vec h) "Failed to serialize RingPolyHistory: {}") in
  set key b.

Definition record_retired (key : LocalStorageKeys) (poly : bytes) (retired : Z) : method S string unit :=
  let! s := m_get in
  let entries := filter (fun e => in_retention retired e = true) (history_load s key) in
  history_save (take RING_POLY_HISTORY_MAX_ENTRIES (MkRetiredPolynomial poly retired :: entries)) key.

Definition recent (s : S) (key : LocalStorageKeys) (now : Z) : list bytes :=
  retired_polynomial <$> filter (fun e => in_retention now e = true) (history_load s key).

(** Best effort: a failure is logged and dropped. *)
Definition stash_previous_polynomial (b : RingShareBundle) (ring_key : bytes) : method S string unit := fun s =>
  match load_by_ring_key s ring_key with
  | Ok previous =>
      if bool_decide (public_polynomial previous = public_polynomial b) then (Ok tt, s)
      else (Ok tt, (record_retired (RingPolyHistoryKey ring_key) (public_polynomial previous) (last_pss b) s).2)
  | _ => (Ok tt, s)
  end.

Definition save_by_ring_key (b : RingShareBundle) (ring_key : bytes) : method S string unit :=
  stash_previous_polynomial b ring_key ;!
  set_encrypted (RingKey ring_key) (RingShareBundle_to_bytes b).

Definition save_by_pet_ring_key (b : RingShareBundle) (ring_id : bytes) : method S string unit :=
  set_encrypted (PetRingKey ring_id) (RingShareBundle_to_bytes b).

(** ** Deletion and the pending bundles of a reshare *)

Definition DEPARTED_KEY_DELETE_RETRY_ATTEMPTS : nat := 3.

(** [more] attempts are left; the result is the one of the last attempt. *)
Fixpoint delete_loop (more : nat) (key : LocalStorageKeys) (last : res string unit) : method S string unit := fun s =>
  match more with
  | O => (last, s)
  | Datatypes.S more =>
      match storage_delete key s with
      | (Ok _, s') => (Ok tt, s')
      | (error, s') => delete_loop more key error s'
      end
  end.

Definition delete_with_retries (key : LocalStorageKeys) : method S string unit :=
  delete_loop DEPARTED_KEY_DELETE_RETRY_ATTEMPTS key Panic.

Definition save_pending (p : PendingReshareBundle) (ring_key : bytes) : method S string unit :=
  set_encrypted (PendingReshareBundleKey ring_key) (PendingReshareBundle_to_bytes p).

Definition load_pending_at (s : S) (key : LocalStorageKeys) (message : string) : res string (option PendingReshareBundle) :=
  let? stored := map_err (get_encrypted s key) message in
  match stored with
  | None => Ok None
  | Some b => let? p := PendingReshareBundle_from_bytes b in Ok (Some p)
  end.

Definition load_pending (s : S) (ring_key : bytes) : res string (option PendingReshareBundle) :=
  load_pending_at s (PendingReshareBundleKey ring_key) "Failed to read PendingReshareBundle: {}".

Definition clear_pending (ring_key : bytes) : method S string unit := delete_with_retries (PendingReshareBundleKey ring_key).

Definition save_pet (p : PendingReshareBundle) (ring_id : bytes) : method S string unit :=
  set_encrypted (PendingResharePetBundleKey ring_id) (PendingReshareBundle_to_bytes p).

Definition load_pet (s : S) (ring_id : bytes) : res string (option PendingReshareBundle) :=
  load_pending_at s (PendingResharePetBundleKey ring_id) "Failed to read PET PendingReshareBundle: {}".

Definition clear_pet (ring_id : bytes) : method S string unit := delete_with_retries (PendingResharePetBundleKey ring_id).
End Storage.

(** ** Round trips *)

Definition bundle_wf (b : RingShareBundle) : Prop :=
  short (share_bytes b) /\ is_string (public_polynomial b) /\ is_u64 (last_pss b).

Lemma bundle_slice_app n a rest e : n = Z.of_nat (length a) -> slice n (a ++ rest) e = Ok (a, rest).
Proof.
  intros ->. unfold slice. rewrite length_app. rewrite (proj2 (Z.ltb_ge _ _)) by lia. cbn.
  by rewrite Nat2Z.id, take_app_length, drop_app_length.
Qed.

Lemma slice_u32_app z rest e : is_u32 z -> slice_u32 (to_le_bytes 4 z ++ rest) e = Ok (z, rest).
Proof.
  intros Hz. unfold slice_u32. rewrite bundle_slice_app by (by rewrite length_to_le_bytes). cbn.
  by rewrite from_to_le_bytes.
Qed.

Lemma RingShareBundle_round_trip b rest :
  bundle_wf b -> RingShareBundle_from_bytes (RingShareBundle_to_bytes b ++ rest) = Ok b.
Proof.
  intros (S1 & [S2 U] & S3). unfold RingShareBundle_from_bytes, RingShareBundle_to_bytes, as_u32.
  rewrite !Z.mod_small by done. cbn [app check_version]. rewrite bool_decide_true by done. cbn [negb reject res_bind].
  rewrite <- !app_assoc, slice_u32_app by done. cbn [res_bind]. rewrite bundle_slice_app by done. cbn [res_bind].
  rewrite slice_u32_app by done. cbn [res_bind]. rewrite bundle_slice_app by done. cbn [res_bind]. rewrite U.
  cbn [ensure res_bind]. rewrite bundle_slice_app by (by rewrite length_to_le_bytes). cbn [res_bind].
  rewrite from_to_le_bytes by done. by destruct b.
Qed.

Lemma PendingReshareBundle_round_trip `{StateJson} p rest :
  bundle_wf (bundle p) -> short (RingShareBundle_to_bytes (bundle p)) -> is_string (bulletin_post_id p) ->
  short (committee_to_vec (expected_new_committee p)) -> is_u32 (expected_new_threshold p) ->
  PendingReshareBundle_from_bytes (PendingReshareBundle_to_bytes p ++ rest) = Ok p.
Proof.
  intros W Sb [S2 U] S3 S4. unfold PendingReshareBundle_from_bytes, PendingReshareBundle_to_bytes, as_u32.
  rewrite !Z.mod_small by done. cbn [app check_version]. rewrite bool_decide_true by done. cbn [negb reject res_bind].
  rewrite <- !app_assoc, slice_u32_app by done. cbn [res_bind]. rewrite bundle_slice_app by done. cbn [res_bind].
  rewrite <- (app_nil_r (RingShareBundle_to_bytes (bundle p))) at 1.
  rewrite RingShareBundle_round_trip by done. cbn [res_bind].
  rewrite slice_u32_app by done. cbn [res_bind]. rewrite bundle_slice_app by done. cbn [res_bind]. rewrite U.
  cbn [ensure res_bind]. rewrite slice_u32_app by done. cbn [res_bind]. rewrite bundle_slice_app by done. cbn [res_bind].
  rewrite committee_json. cbn [ok_or res_bind]. rewrite bundle_slice_app by (by rewrite length_to_le_bytes). cbn [res_bind].
  rewrite from_to_le_bytes by done. by destruct p.
Qed.

(** Decoding never panics, whatever the bytes. *)
Lemma RingShareBundle_no_panic b : no_panic (RingShareBundle_from_bytes b).
Proof.
  unfold RingShareBundle_from_bytes, slice_u32, slice, check_version. destruct b; cbn; [done|].
  repeat (unfold reject, ensure; case_match; cbn; try done).
Qed.

(** ** Saving and loading *)
Section Saved.
Context {S : Type} `{!LocalStorage S} `{!StateJson}.

Lemma record_retired_other key poly retired s j :
  j <> key -> get_encrypted (record_retired key poly retired s).2 j = get_encrypted s j.
Proof.
  intros Hj. unfold record_retired, history_save, m_bind, m_get, m_lift.
  destruct (history_to_vec _) as [b|]; cbn; [|done]. destruct (set key b s) as [r s'] eqn:E. cbn.
  by apply (set_other _ _ _ _ _ j E).
Qed.

Lemma record_retired_history key poly retired s s' :
  record_retired key poly retired s = (Ok tt, s') ->
  history_load s' key = take RING_POLY_HISTORY_MAX_ENTRIES (MkRetiredPolynomial poly retired ::
    filter (fun e => in_retention retired e = true) (history_load s key)).
Proof.
  intros E. unfold record_retired, history_save, m_bind, m_get, m_lift in E.
  destruct (history_to_vec _) as [b|] eqn:J; cbn in E; [|done].
  unfold history_load at 1. rewrite (get_set _ _ _ _ E). by rewrite (history_json _ _ J).
Qed.

Lemma record_retired_recent key poly retired s s' now :
  record_retired key poly retired s = (Ok tt, s') -> retired <= now <= retired + RING_POLY_HISTORY_RETENTION_SECS ->
  poly ∈ recent s' key now /\ (length (history_load s' key) <= RING_POLY_HISTORY_MAX_ENTRIES)%nat.
Proof.
  intros Hl%record_retired_history Hn.
  split; [|rewrite Hl; apply firstn_le_length].
  unfold recent. rewrite Hl. apply list_elem_of_fmap. exists (MkRetiredPolynomial poly retired). split; [done|].
  apply list_elem_of_filter. split; [|by left].
  unfold in_retention, u64_saturating_sub, RING_POLY_HISTORY_RETENTION_SECS in *. cbn. lia.
Qed.

Lemma stash_encrypted b key s j :
  j <> RingPolyHistoryKey key -> get_encrypted (stash_previous_polynomial b key s).2 j = get_encrypted s j.
Proof.
  intros Hj. unfold stash_previous_polynomial. destruct (load_by_ring_key s key); try done.
  case_bool_decide; [done|]. by apply record_retired_other.
Qed.

Lemma stash_Ok b key s : (stash_previous_polynomial b key s).1 = Ok tt.
Proof. unfold stash_previous_polynomial. destruct (load_by_ring_key s key); try done. by case_bool_decide. Qed.

Lemma save_eq b key s :
  save_by_ring_key b key s =
  set_encrypted (RingKey key) (RingShareBundle_to_bytes b) (stash_previous_polynomial b key s).2.
Proof.
  unfold save_by_ring_key, m_bind. pose proof (stash_Ok b key s) as E.
  destruct (stash_previous_polynomial b key s) as [r s1]. cbn in E. by subst r.
Qed.

Lemma save_load b key s s' : bundle_wf b -> save_by_ring_key b key s = (Ok tt, s') -> load_by_ring_key s' key = Ok b.
Proof.
  intros W E. rewrite save_eq in E. unfold load_by_ring_key, load_bundle. rewrite (get_set_encrypted _ _ _ _ E).
  cbn [map_err ok_or res_bind]. rewrite <- (app_nil_r (RingShareBundle_to_bytes b)). by apply RingShareBundle_round_trip.
Qed.

Lemma save_history b key s r s' :
  save_by_ring_key b key s = (r, s') ->
  history_load s' (RingPolyHistoryKey key) = history_load (stash_previous_polynomial b key s).2 (RingPolyHistoryKey key).
Proof.
  rewrite save_eq. intros E. unfold history_load.
  by destruct (set_encrypted_other _ _ _ _ _ (RingPolyHistoryKey key) E ltac:(done)) as [-> _].
Qed.

(** A share bundle that was saved is the bundle that is loaded; no other
    ring's bundle and no PET bundle changes, whatever their keys; and the
    polynomial it replaces stays available to report verification for the whole
    retention window, unless recording it failed. *)
Lemma bundle_saved b key s s' :
  bundle_wf b -> save_by_ring_key b key s = (Ok tt, s') ->
  load_by_ring_key s' key = Ok b /\
  (forall k, k <> key -> load_by_ring_key s' k = load_by_ring_key s k) /\
  (forall id, load_by_pet_ring_key s' id = load_by_pet_ring_key s id) /\
  (forall previous s1 now, load_by_ring_key s key = Ok previous ->
     public_polynomial previous <> public_polynomial b ->
     record_retired (RingPolyHistoryKey key) (public_polynomial previous) (last_pss b) s = (Ok tt, s1) ->
     last_pss b <= now <= last_pss b + RING_POLY_HISTORY_RETENTION_SECS ->
     public_polynomial previous ∈ recent s' (RingPolyHistoryKey key) now).
Proof.
  intros W Es. pose proof Es as E. rewrite save_eq in E.
  assert (forall j, j <> RingKey key -> j <> RingPolyHistoryKey key -> load_bundle s' j = load_bundle s j) as Ho.
  { intros j Hj Hh. unfold load_bundle. destruct (set_encrypted_other _ _ _ _ _ j E Hj) as [_ ->].
    by rewrite stash_encrypted. }
  split_and!.
  - by eapply save_load.
  - intros k Hk. apply Ho; congruence.
  - intros id. by apply Ho.
  - intros previous s1 now Hp Hne R Hn. unfold recent. rewrite (save_history _ _ _ _ _ Es). unfold stash_previous_polynomial. rewrite Hp, bool_decide_false by done. rewrite R. cbn.
    by apply (record_retired_recent _ _ _ _ _ _ R).
Qed.

(** *** Across refreshes *)

(** The write to the history that a save makes is lost: there is a polynomial to
    retire, and recording it fails. *)
Definition history_write_lost (b : RingShareBundle) (key : bytes) (s : S) : Prop :=
  exists previous, load_by_ring_key s key = Ok previous /\ public_polynomial previous <> public_polynomial b /\
    (record_retired (RingPolyHistoryKey key) (public_polynomial previous) (last_pss b) s).1 <> Ok tt.

(** The saves of a sequence of refreshes. *)
Fixpoint save_all (key : bytes) (bs : list RingShareBundle) : method S string unit :=
  match bs with
  | [] => m_ret tt
  | b :: bs => save_by_ring_key b key ;! save_all key bs
  end.

(** One of them loses its write to the history. *)
Fixpoint some_write_lost (key : bytes) (bs : list RingShareBundle) (s : S) : Prop :=
  match bs with
  | [] => False
  | b :: bs => history_write_lost b key s \/ some_write_lost key bs (save_by_ring_key b key s).2
  end.

(** A polynomial is the current one, or one of the first [k] of the history,
    retired at [since] or later. *)
Definition kept (key poly : bytes) (since : Z) (k : nat) (s : S) : Prop :=
  (exists b, load_by_ring_key s key = Ok b /\ public_polynomial b = poly) \/
  exists j e, (j < k)%nat /\ history_load s (RingPolyHistoryKey key) !! j = Some e /\ retired_polynomial e = poly /\
    since <= retired_at e.

Lemma lookup_filter_le {A} (Q : A -> Prop) `{!forall x, Decision (Q x)} (l : list A) j x :
  l !! j = Some x -> Q x -> exists i, (i <= j)%nat /\ filter Q l !! i = Some x.
Proof.
  revert j. induction l as [|y l IH]; intros j Hj Hx; [done|]. destruct j as [|j]; cbn in Hj.
  - injection Hj as ->. exists 0%nat. split; [lia|]. by rewrite filter_cons_True.
  - destruct (IH j Hj Hx) as (i & Hi & Hl). destruct (decide (Q y)).
    + exists (Datatypes.S i). split; [lia|]. by rewrite filter_cons_True.
    + exists i. split; [lia|]. by rewrite filter_cons_False.
Qed.

Lemma kept_save b key poly since k s s' :
  bundle_wf b -> save_by_ring_key b key s = (Ok tt, s') -> (k < RING_POLY_HISTORY_MAX_ENTRIES)%nat ->
  since <= last_pss b <= since + RING_POLY_HISTORY_RETENTION_SECS ->
  kept key poly since k s -> kept key poly since (Datatypes.S k) s' \/ history_write_lost b key s.
Proof.
  intros W E Hk Ht K. pose proof (save_load _ _ _ _ W E) as Hload. pose proof (save_history _ _ _ _ _ E) as Hh.
  unfold stash_previous_polynomial in Hh. unfold history_write_lost, kept in *. rewrite Hh. clear Hh. revert K.
  destruct (load_by_ring_key s key) as [previous|err| |] eqn:Ep; intros K.
  2-4: left; destruct K as [(? & [=] & _)|(j & e & Hj & He & Hp & Hs)]; right; exists j, e; split_and!; (done || lia).
  case_bool_decide as Hb.
  { left. destruct K as [(b' & [= <-] & Hb')|(j & e & Hj & He & Hp & Hs)]; [left; exists b; split; [done|congruence]|].
    right; exists j, e; split_and!; (done || lia). }
  destruct (record_retired _ (public_polynomial previous) (last_pss b) s) as [[[]| | |] s1] eqn:Er.
  2-4: right; exists previous; by rewrite Er.
  left. cbn [snd]. rewrite (record_retired_history _ _ _ _ _ Er). right. unfold RING_POLY_HISTORY_MAX_ENTRIES in *.
  destruct K as [(b' & [= <-] & <-)|(j & e & Hj & He & Hp & Hs)].
  - exists 0%nat, (MkRetiredPolynomial (public_polynomial previous) (last_pss b)). split_and!; [lia|done|done|cbn; lia].
  - destruct (lookup_filter_le (fun e => in_retention (last_pss b) e = true) _ _ _ He) as (i & Hi & Hl).
    { unfold in_retention, u64_saturating_sub, RING_POLY_HISTORY_RETENTION_SECS in *. lia. }
    exists (Datatypes.S i), e. split_and!; [lia| |done..]. rewrite lookup_take_lt by lia. exact Hl.
Qed.

Lemma kept_saves key poly since k bs s s' :
  save_all key bs s = (Ok tt, s') -> Forall bundle_wf bs -> (k + length bs <= RING_POLY_HISTORY_MAX_ENTRIES)%nat ->
  Forall (fun b => since <= last_pss b <= since + RING_POLY_HISTORY_RETENTION_SECS) bs ->
  kept key poly since k s -> kept key poly since (k + length bs) s' \/ some_write_lost key bs s.
Proof.
  revert k s. induction bs as [|b bs IH]; intros k s E W Hk Hf K.
  { injection E as <-. rewrite Nat.add_0_r. by left. }
  apply Forall_cons in Hf as [Hb Hf]. apply Forall_cons in W as [Wb W]. cbn [save_all some_write_lost length] in *.
  apply m_bind_inv in E as ([] & s1 & E1 & E). rewrite E1. cbn [snd]. rewrite <- Nat.add_succ_comm.
  destruct (kept_save b key poly since k s s1) as [K1|?]; [done..|lia|done|done| |by right; left].
  destruct (IH (Datatypes.S k) s1 E W ltac:(lia) Hf K1); [by left|by right; right].
Qed.

(** What is kept is a candidate for the whole retention window. *)
Lemma kept_recent key poly since k s now :
  kept key poly since k s -> now <= since + RING_POLY_HISTORY_RETENTION_SECS ->
  (exists b, load_by_ring_key s key = Ok b /\ public_polynomial b = poly) \/ poly ∈ recent s (RingPolyHistoryKey key) now.
Proof.
  intros [K|(j & e & _ & He & <- & Hs)] Hn; [by left|]. right. unfold recent. apply list_elem_of_fmap_2.
  apply list_elem_of_filter. split; [|by eapply list_elem_of_lookup_2].
  unfold in_retention, u64_saturating_sub, RING_POLY_HISTORY_RETENTION_SECS in *. lia.
Qed.
End Saved.

(** ** An instance *)

Definition map_storage : Type := (LocalStorageKeys -> option bytes) * (LocalStorageKeys -> option bytes).

Definition update (m : LocalStorageKeys -> option bytes) k v : LocalStorageKeys -> option bytes :=
  fun j => if decide (j = k) then Some v else m j.

Definition erase (f : LocalStorageKeys -> option bytes) (k : LocalStorageKeys) : LocalStorageKeys -> option bytes :=
  fun j => if decide (j = k) then None else f j.

#[global] Instance map_local_storage : LocalStorage map_storage.
Proof.
  refine {| get s k := Ok (s.1 k); get_encrypted s k := Ok (s.2 k);
            set k v s := (Ok tt, (update s.1 k v, s.2)); set_encrypted k v s := (Ok tt, (s.1, update s.2 k v));
            storage_delete k s := (Ok tt, (erase s.1 k, erase s.2 k)) |}.
  - intros s k v s' [= <-]. cbn. unfold update. by rewrite decide_True.
  - intros s k v s' [= <-]. cbn. unfold update. by rewrite decide_True.
  - intros s k v r s' j [= _ <-] Hj. cbn. unfold update. by rewrite decide_False.
  - intros s k v r s' j [= _ <-] Hj. cbn. unfold update. by rewrite decide_False.
  - intros s k s' [= <-]. cbn. unfold erase. by rewrite !decide_True.
  - intros s k r s' j [= _ <-] Hj. cbn. unfold erase. by rewrite !decide_False.
Defined.

(** Two bytes per byte and a zero after every string. *)
Definition example_to_vec (c : list bytes) : bytes := c ≫= (fun s => (s ≫= (fun b => [Byte.x01; b])) ++ [Byte.x00]).

Fixpoint example_from (cur s : bytes) : option (list bytes) :=
  match s with
  | [] => if bool_decide (cur = []) then Some [] else None
  | Byte.x00 :: rest => cons (reverse cur) <$> example_from [] rest
  | Byte.x01 :: b :: rest => example_from (b :: cur) rest
  | _ => None
  end.

Lemma example_from_one s cur rest :
  example_from cur (((s ≫= (fun b => [Byte.x01; b])) ++ [Byte.x00]) ++ rest) =
  cons (reverse cur ++ s) <$> example_from [] rest.
Proof.
  revert cur. induction s as [|b s IH]; intros cur; cbn; [by rewrite app_nil_r|].
  fold (s ≫= (fun b => [Byte.x01; b])). rewrite IH. by rewrite reverse_cons, <- app_assoc.
Qed.

Lemma example_round_trip c : example_from [] (example_to_vec c) = Some c.
Proof.
  induction c as [|s c IH]; [done|]. unfold example_to_vec in *. rewrite bind_cons, example_from_one, IH. done.
Qed.

Definition history_strings (h : list RetiredPolynomial) : list bytes :=
  h ≫= (fun e => [retired_polynomial e; to_le_bytes 8 (retired_at e)]).

Fixpoint strings_history (l : list bytes) : option (list RetiredPolynomial) :=
  match l with
  | [] => Some []
  | p :: t :: rest => cons (MkRetiredPolynomial p (from_le_bytes t)) <$> strings_history rest
  | _ => None
  end.

Definition example_state_json : StateJson.
Proof.
  refine {| committee_to_vec := example_to_vec; committee_from_slice := example_from [];
            committee_json := example_round_trip;
            history_to_vec h := if forallb (fun e => (0 <=? retired_at e) && (retired_at e <? 2 ^ 64)) h
                                then Some (example_to_vec (history_strings h)) else None;
            history_from_slice b := example_from [] b ≫= strings_history |}.
  intros h b E. destruct (forallb _ h) eqn:F; [|done]. injection E as <-. rewrite example_round_trip. cbn.
  induction h as [|[p t] h IH]; [done|]. cbn in F |- *. apply andb_true_iff in F as [Ft F].
  fold (history_strings h). rewrite (IH F). cbn. rewrite from_to_le_bytes; [done|]. lia.
Defined.

