(* ===== verification/PetNode.v ===== *)
(** * The blind equality test between nodes

    [bin/orbis-node/src/pet/v0]: the generation checks ([generation.rs]), the
    context an attempt is bound to ([attestation.rs]), and the verification of
    contributions, certificates and PRE admission
    ([coordinator/verification.rs]).  ECDSA node signatures, JSON and the access
    control service are parameters. *)
From S2P Require Import Prelude Algebra Interpolation Primitives Codec Common Dkg Context Sigma Shares Pet.
From S2P Require Import ReportCodec ReportPet Evidence Identity NodeState Auth Bulletin RingState.

(** ** Errors ([error.rs]) *)

Inductive PetError :=
  | PetAcp (msg : string)
  | PetMismatch
  | PetGenerationMismatch
  | PetSerialization (msg : string)
  | PetDeserialization (msg : string)
  | PetNetworkConnection (msg : string)
  | PetNetworkCommunication (msg : string)
  | PetCrypto (msg : string)
  | PetInsufficientShares (got need : Z)
  | PetTimeout (msg : string)
  | PetInvalidInput (msg : string)
  | PetInvalidState (msg : string)
  | PetStorage (msg : string)
  | PetProtocolError (msg : string).

Abbreviation pet_result := (res PetError).

(** ** Node signatures ([crates/common/src/blockchain/node_signing.rs]) *)

(** secp256k1 ECDSA: what was signed with a key verifies under its public key. *)
Class Ecdsa := {
  ecdsa_sign : bytes -> bytes -> option bytes;
  ecdsa_verify : bytes -> bytes -> bytes -> bool;
  ecdsa_public : bytes -> bytes;
  ecdsa_correct key m sig : ecdsa_sign key m = Some sig -> ecdsa_verify (ecdsa_public key) m sig = true;
}.

Section NodeSigning.
Context `{Hex} `{Ecdsa}.

Definition sign_node_message_with_hex_key (hex_key message : bytes) : res string bytes :=
  let? key_bytes := ok_or (hex_decode hex_key) "Invalid hex key: {}" in
  ok_or (ecdsa_sign key_bytes message) "Failed to sign node message: {}".

Definition verify_node_message (public_key_hex message signature : bytes) : res string unit :=
  let? public_key_bytes := ok_or (hex_decode public_key_hex) "Invalid public key hex: {}" in
  ensure (ecdsa_verify public_key_bytes message signature) "Node message signature failed: {}".
End NodeSigning.

(** ** Requests *)

Record ValidWindow := MkValidWindow { window_start : Z; window_end : Z }.

Record PetCheckContext := MkPetCheckContext {
  ctx_ring_state_sha256 : bytes;
  ctx_public_polynomial : bytes;
  ctx_document : DocumentPayload;
  ctx_salt : option bytes;
  ctx_object_id : bytes;
  ctx_document_inline : bool;
  ctx_token_string : bytes;
  ctx_audit_target_object_id : bytes;
  ctx_valid_window : option ValidWindow;
}.

Record PreClaims := MkPreClaims {
  claim_rdr_pk : bytes;
  claim_object_id : bytes;
  claim_derivation : option bytes;
  claim_salt : option bytes;
}.

Record AccessCheckRequest := MkAccessCheckRequest {
  ac_policy_id : bytes;
  ac_resource : bytes;
  ac_object_id : bytes;
  ac_permission : bytes;
  ac_tier : option bytes;
  ac_timestamp : option Z;
  ac_valid_window : option ValidWindow;
}.

(** [AccessCheckRequest::to_bytes] and [Authz::check]. *)
Class Authz := {
  request_to_bytes : AccessCheckRequest -> option bytes;
  authz_check : bytes -> bytes -> res string bool;
}.

(** [serde_json] at the types the PET check reads from a document. *)
Class PetJson := {
  TagKnowledgeProof_try_from : bytes -> option TagKnowledgeProof;
  Secret_from_str : bytes -> option Secret;
  EncryptionProof_try_from : bytes -> option EncryptionProof;
}.

Record PetBlindEvidence := MkPetBlindEvidence {
  ev_certificate : PetBlindCertificate;
  ev_decrypt_responses : list PetBlindSignedDecrypt;
  ev_coordinator_node_key : bytes;
}.

(** [P::name()] of the BLS12-381 backend. *)
Definition PET_NAME : bytes := bstr "pet/bls12_381".

Definition MAX_POLYNOMIAL_BYTES : Z := 64 * 1024.

(** The outcome of checking one member's contribution. *)
Inductive ContributionCheckOutcome (T : Type) :=
  | Verified (value : T)
  | NotAttributable (error : PetError)
  | Invalid (error : PetError).
Arguments Verified {T} value.
Arguments NotAttributable {T} error.
Arguments Invalid {T} error.

Definition into_result {T} (o : ContributionCheckOutcome T) : pet_result T :=
  match o with
  | Verified value => Ok value
  | NotAttributable error | Invalid error => Err error
  end.

Section PetNode.
Context {F G S P : Type} {SF : ScalarField F} {CG : CurveGroup F G} {BL : Blst F G S P} {SHA : Sha2}.
Context {HX : Hex} {EC : Ecdsa} {DJ : DocumentJson} {PJ : PetJson} {AZ : Authz}.

(** ** Generations ([generation.rs]) *)

Definition coefficient_count (b : bytes) : pet_result Z :=
  reject (length b <? 4)%nat (PetInvalidInput "truncated PET polynomial") ;?
  let count := from_le_bytes (take 4 b) in
  let expected := count * Z.of_nat (g_size (G:=G)) + 4 in
  reject ((count =? 0) || (MAX_POLYNOMIAL_BYTES <? Z.of_nat (length b))
          || negb (expected =? Z.of_nat (length b)))
    (PetInvalidInput "invalid PET polynomial encoded length") ;?
  Ok count.

Definition decode_polynomial (b : bytes) (threshold : Z) (pet_pk_hex : bytes) : pet_result (PubPoly G) :=
  let? count := coefficient_count b in
  reject (negb (count =? threshold))
    (PetInvalidInput "PET polynomial degree does not match the ring threshold") ;?
  let? polynomial := map_err (PubPoly_from_bytes b) (PetDeserialization "{e}") in
  let? canonical := map_err (PubPoly_to_bytes polynomial) (PetSerialization "{e}") in
  reject (negb (bool_decide (canonical = b))) (PetInvalidInput "noncanonical PET polynomial") ;?
  let? key_bytes := ok_or (hex_decode pet_pk_hex) (PetDeserialization "{e}") in
  let? key := map_err (G1Affine_from_bytes key_bytes) (PetDeserialization "{e}") in
  let? key_canonical := map_err (G1Affine_to_bytes key) (PetSerialization "{e}") in
  reject (g_is_zero key || negb (bool_decide (key_canonical = key_bytes))
          || negb (bool_decide (PubPoly_eval polynomial 0 = key)))
    (PetInvalidInput "PET polynomial has a different checking key") ;?
  Ok polynomial.

(** An error of the validation of stored state counts as a storage error. *)
Definition match_bundle (bundle : RingShareBundle) (expected : bytes) (threshold : Z) (pet_pk : bytes) :
    pet_result (PubPoly G) :=
  reject (threshold =? 0) (PetInvalidInput "zero PET threshold") ;?
  let? expected_count := coefficient_count expected in
  let? polynomial := decode_polynomial expected expected_count pet_pk in
  let? local := ok_or (hex_decode (public_polynomial bundle)) (PetStorage "{e}") in
  let? local_count := map_err (coefficient_count local) (PetStorage "{e}") in
  map_err (decode_polynomial local local_count pet_pk) (PetStorage "{e}") ;?
  reject (negb (expected_count =? threshold) || negb (bool_decide (local = expected))) PetGenerationMismatch ;?
  Ok polynomial.

Definition member_share (bundle : RingShareBundle) (node_key : bytes) (ring : RingPayload) :
    pet_result (PriShare F) :=
  let? share := map_err (PriShare_from_bytes (share_bytes bundle)) (PetStorage "invalid PET share: {e}") in
  reject (negb (bool_decide (determine_session_node_id node_key (peer_node_keys ring) = Some (pri_i share))))
    PetGenerationMismatch ;?
  let? b := ok_or (hex_decode (public_polynomial bundle)) (PetStorage "{e}") in
  map_err (coefficient_count b) (PetStorage "{e}") ;?
  let? commitment := map_err (PolynomialCommitment_from_bytes b) (PetStorage "{e}") in
  reject (negb (verify_share commitment (pri_i share) (pri_v share)))
    (PetStorage "PET share does not match its stored polynomial") ;?
  Ok share.

(** ** The context of an attempt ([attestation.rs]) *)

Definition build_pet_blind_context (chain_id : bytes) (ring_payload : RingPayload) (pet_pk_hex : bytes)
    (protocol_version : Z) (crypto_backend : bytes) (ctx : PetCheckContext)
    (actor_id coordinator_node_key attempt_id : bytes) : PetBlindContext :=
  MkPetBlindContext chain_id protocol_version crypto_backend (ring_id (ctx_document ctx)) (ring_pk ring_payload)
    (ring_state_sha256 ring_payload) pet_pk_hex (pet_public_polynomial_digest (ctx_public_polynomial ctx))
    (ctx_object_id ctx) (ctx_salt ctx) (timestamp (ctx_document ctx)) (ctx_document_inline ctx)
    (ctx_audit_target_object_id ctx) actor_id (window_start <$> ctx_valid_window ctx)
    (window_end <$> ctx_valid_window ctx) coordinator_node_key attempt_id.

(** ** Authorization *)

Definition check_pet_permission (document : DocumentPayload) (audit_target_object_id actor_id : bytes)
    (valid_window : option ValidWindow) : pet_result unit :=
  let? permission := ok_or (request_to_bytes (MkAccessCheckRequest (policy_id document) (resource document)
      audit_target_object_id (permission document) (tier document) (timestamp document) valid_window))
    (PetAcp "Error formatting PET access request: {}") in
  let? is_authorized := map_err (authz_check permission actor_id) (PetAcp "Error in PET Authz request: {}") in
  reject (negb is_authorized) PetMismatch.

Definition verify_pet_audit_authorization {JW : JwtLib PreClaims} (ctx : PetCheckContext)
    (trusted_auth_relay_dids : option (list bytes)) (current_time : Z) : pet_result bytes :=
  let? token := map_err (resolve_jwt_did (ctx_token_string ctx) current_time MAX_TOKEN_LIFETIME_SECS
      MAX_JWT_BYTES JWT_CLOCK_SKEW_LEEWAY_SECS) (PetInvalidInput "JWT validation failed: {}") in
  reject (negb (bool_decide (claim_object_id (claims token) = ctx_object_id ctx)))
    (PetInvalidInput "Token object_id '{}' does not match request object_id '{}'") ;?
  reject (negb (bool_decide (claim_salt (claims token) = ctx_salt ctx)))
    (PetInvalidInput "Token salt does not match request salt") ;?
  let? actor_id := map_err (resolve_actor_id token (default [] trusted_auth_relay_dids))
    (PetInvalidInput "{e}") in
  check_pet_permission (ctx_document ctx) (ctx_audit_target_object_id ctx) actor_id (ctx_valid_window ctx) ;?
  Ok actor_id.

(** ** Contributions ([coordinator/verification.rs]) *)

(** A chain of checks whose failure ends the function. *)
Notation "'fail?' b 'as' o ';' k" := (if b then o else k) (at level 199, b at level 100, o at level 100, k at level 199, right associativity).

Definition verify_one_reveal (statement : PetBlindRevealStatement) (response_signature : bytes)
    (ring_payload : RingPayload) (tag : PetTag) (target_fingerprint : G)
    (expected_commitment selection_digest : bytes) : ContributionCheckOutcome (G * G) :=
  match node_key_for_id (rv_from_node_id statement) (peer_node_keys ring_payload) with
  | None => NotAttributable (PetCrypto "reveal from_node_id {} is not in the ring committee")
  | Some node_key =>
      fail? negb (bool_decide (node_key = rv_responder_node_key statement)) as NotAttributable (PetCrypto
        "reveal responder_node_key does not match the resolved committee identity for node {}");
      match verify_node_message node_key (PetBlindRevealStatement_canonical_bytes statement) response_signature with
      | Ok _ =>
          fail? negb (bool_decide (rv_commitment statement = expected_commitment)) as NotAttributable
            (PetCrypto "reveal commitment for node {} does not match the selected list");
          fail? negb (bool_decide (rv_selection_digest statement = selection_digest)) as NotAttributable
            (PetCrypto "reveal selection_digest for node {} does not match the selected list");
          let recomputed_commitment := pet_blind_commit_hash (rv_attempt_id statement) (rv_context_digest statement)
            (rv_from_node_id statement) (rv_commit_salt statement) (rv_blinded_r statement)
            (rv_blinded_diff statement) in
          fail? negb (bool_decide (recomputed_commitment = expected_commitment)) as Invalid
            (PetCrypto "reveal from node {} does not open its own commitment");
          match G1Affine_from_bytes (rv_blinded_r statement), G1Affine_from_bytes (rv_blinded_diff statement),
                Fr_from_bytes (rv_challenge statement), Fr_from_bytes (rv_proof statement) with
          | Ok blinded_r, Ok blinded_diff, Ok challenge, Ok proof =>
              let reply := MkBlindingReply (V := F) blinded_r blinded_diff challenge proof in
              let blind_transcript_digest := pet_blind_proof_transcript_digest (rv_attempt_id statement)
                (rv_context_digest statement) selection_digest (rv_from_node_id statement) expected_commitment in
              match verify_blinding_correctness tag target_fingerprint reply blind_transcript_digest with
              | Ok _ => Verified (blinded_r, blinded_diff)
              | _ => Invalid (PetCrypto "blinding-correctness proof failed for node {}: {e}")
              end
          | _, _, _, _ => Invalid (PetDeserialization "failed to decode reveal fields from node {}")
          end
      | _ => NotAttributable (PetCrypto "invalid reveal signature from node {}: {e}")
      end
  end.

Record SignedContext := MkSignedContext {
  sx_domain : bytes;
  sx_chain_id : bytes;
  sx_ring_id : bytes;
  sx_ring_pk : bytes;
  sx_ring_state_sha256 : bytes;
  sx_protocol_version : Z;
}.

Definition SignedContext_of_reveal (s : PetBlindRevealStatement) : SignedContext :=
  MkSignedContext (rv_domain s) (rv_chain_id s) (rv_ring_id s) (rv_ring_pk s) (rv_ring_state_sha256 s)
    (rv_protocol_version s).

Definition SignedContext_of_decrypt (s : PetBlindDecryptStatement) : SignedContext :=
  MkSignedContext (dy_domain s) (dy_chain_id s) (dy_ring_id s) (dy_ring_pk s) (dy_ring_state_sha256 s)
    (dy_protocol_version s).

Definition SignedContext_matches (s : SignedContext) (domain : bytes) (context : PetBlindContext) : bool :=
  bool_decide (sx_domain s = domain) && bool_decide (sx_chain_id s = pc_chain_id context)
  && bool_decide (sx_ring_id s = pc_ring_id context) && bool_decide (sx_ring_pk s = pc_ring_pk context)
  && bool_decide (sx_ring_state_sha256 s = pc_ring_state_sha256 context)
  && (sx_protocol_version s =? pc_protocol_version context).

(** The loop over the selected list: distinct ids, 32-byte commitments. *)
Fixpoint selected_list (duplicate malformed : PetError) (seen : list Z) (l : list (Z * bytes)) :
    pet_result (list (Z * bytes)) :=
  match l with
  | [] => Ok []
  | (node_id, b) :: l =>
      reject (bool_decide (node_id ∈ seen)) duplicate ;?
      reject (negb (length b =? 32)%nat) malformed ;?
      let? rest := selected_list duplicate malformed (node_id :: seen) l in
      Ok ((node_id, b) :: rest)
  end.

(** [aggregate = Some(match aggregate { Some(acc) => acc + p, None => p })]. *)
Definition accumulate (acc : option G) (p : G) : pet_result G :=
  match acc with
  | Some a => map_err (add_points a p) (PetCrypto "{e}")
  | None => Ok p
  end.

(** The loop over the reveals, with the aggregates so far. *)
Fixpoint verify_reveals (certificate : PetBlindCertificate) (ring_payload : RingPayload) (tag : PetTag)
    (target_fingerprint : G) (blind_context : PetBlindContext) (expected_commitments : list (Z * bytes))
    (selection_digest : bytes) (seen : list Z) (acc : option (G * G)) (reveals : list PetBlindSignedReveal) :
    pet_result (option (G * G)) :=
  match reveals with
  | [] => Ok acc
  | signed_reveal :: reveals =>
      let statement := srv_statement signed_reveal in
      reject (negb (SignedContext_matches (SignedContext_of_reveal statement) PET_BLIND_REVEAL_RESPONSE_DOMAIN
          blind_context)) (PetProtocolError "PET reveal certificate binding mismatch") ;?
      reject (negb (bool_decide (rv_attempt_id statement = ce_attempt_id certificate)))
        (PetCrypto "reveal attempt_id does not match the certificate") ;?
      reject (negb (bool_decide (rv_context_digest statement = ce_context_digest certificate)))
        (PetCrypto "reveal context_digest does not match the certificate") ;?
      reject (bool_decide (rv_from_node_id statement ∈ seen)) (PetCrypto "duplicate reveal for node {}") ;?
      let? expected_commitment := ok_or (snd <$> (snd <$> list_find (fun e => e.1 = rv_from_node_id statement)
          expected_commitments)) (PetCrypto "reveal from node {} is not present in the selected list") in
      let? '(blinded_r, blinded_diff) := into_result (verify_one_reveal statement
        (srv_response_signature signed_reveal) ring_payload tag target_fingerprint expected_commitment
        selection_digest) in
      let? aggregate_r := accumulate (fst <$> acc) blinded_r in
      let? aggregate_diff := accumulate (snd <$> acc) blinded_diff in
      verify_reveals certificate ring_payload tag target_fingerprint blind_context expected_commitments
        selection_digest (rv_from_node_id statement :: seen) (Some (aggregate_r, aggregate_diff)) reveals
  end.

Definition build_and_verify_pet_blind_certificate (certificate : PetBlindCertificate)
    (ring_payload : RingPayload) (tag : PetTag) (target_fingerprint : G) (blind_context : PetBlindContext) :
    pet_result (G * G) :=
  decode_polynomial (ce_public_polynomial certificate) (rp_threshold ring_payload) (pc_pet_pk blind_context) ;?
  reject (negb (bool_decide (pc_public_polynomial_digest blind_context =
                  pet_public_polynomial_digest (ce_public_polynomial certificate)))
          || negb (bool_decide (ce_context_digest certificate = PetBlindContext_context_digest blind_context))
          || negb (bool_decide (ce_attempt_id certificate = pc_attempt_id blind_context))
          || negb (bool_decide (pc_ring_pk blind_context = ring_pk ring_payload))
          || negb (bool_decide (pc_ring_state_sha256 blind_context = ring_state_sha256 ring_payload))
          || negb (bool_decide (pet_pk ring_payload = Some (pc_pet_pk blind_context)))
          || negb (requires_pet ring_payload)
          || negb (bool_decide (pc_crypto_backend blind_context = PET_NAME)))
    (PetProtocolError "PET certificate generation or context mismatch") ;?
  let threshold := rp_threshold ring_payload in
  reject (negb (Z.of_nat (length (ce_all_commitments certificate)) =? threshold))
    (PetCrypto "certificate selected list has {} entries, ring threshold is {}") ;?
  reject (negb (Z.of_nat (length (ce_reveals certificate)) =? threshold))
    (PetCrypto "certificate has {} reveals, ring threshold is {}") ;?
  let? expected_commitments := selected_list
    (PetCrypto "duplicate node id {node_id} in certificate selected list")
    (PetDeserialization "certificate commitment is not 32 bytes") [] (ce_all_commitments certificate) in
  let selection_digest := pet_blind_selection_digest (ce_attempt_id certificate) (ce_context_digest certificate)
    expected_commitments in
  let? acc := verify_reveals certificate ring_payload tag target_fingerprint blind_context expected_commitments
    selection_digest [] None (ce_reveals certificate) in
  let? '(aggregate_r, aggregate_diff) := ok_or acc (PetCrypto "certificate has no reveals") in
  reject (public_key_is_identity aggregate_r) (PetCrypto
    "certificate's aggregate ephemeral point is the identity") ;?
  Ok (aggregate_r, aggregate_diff).

Definition verify_one_decrypt (statement : PetBlindDecryptStatement) (response_signature : bytes)
    (ring_payload : RingPayload) (pub_poly : PubPoly G) (expected_context_digest expected_certificate_digest
    expected_attempt_id expected_aggregate_r expected_aggregate_diff : bytes) (blind_context : PetBlindContext) :
    ContributionCheckOutcome (PubShare G) :=
  fail? negb (SignedContext_matches (SignedContext_of_decrypt statement) PET_BLIND_DECRYPT_RESPONSE_DOMAIN
      blind_context) as NotAttributable (PetProtocolError "PET decrypt statement binding mismatch");
  fail? negb (bool_decide (dy_attempt_id statement = expected_attempt_id)) as NotAttributable
    (PetCrypto "decrypt statement attempt_id does not match the certificate");
  fail? negb (bool_decide (dy_context_digest statement = expected_context_digest)) as NotAttributable
    (PetCrypto "decrypt statement context_digest does not match this attempt");
  fail? negb (bool_decide (dy_certificate_digest statement = expected_certificate_digest)) as NotAttributable
    (PetCrypto "decrypt statement certificate_digest does not match the certificate");
  fail? (negb (bool_decide (dy_aggregate_r statement = expected_aggregate_r))
         || negb (bool_decide (dy_aggregate_diff statement = expected_aggregate_diff))) as NotAttributable
    (PetCrypto "decrypt statement aggregate points do not match the certificate's own reconstruction");
  match node_key_for_id (dy_from_node_id statement) (peer_node_keys ring_payload) with
  | None => NotAttributable (PetCrypto "decrypt from_node_id {} is not in the ring committee")
  | Some node_key =>
      fail? negb (bool_decide (node_key = dy_responder_node_key statement)) as NotAttributable (PetCrypto
        "decrypt responder_node_key does not match the resolved committee identity for node {}");
      match verify_node_message node_key (PetBlindDecryptStatement_canonical_bytes statement) response_signature with
      | Ok _ =>
          fail? negb (bool_decide (pet_public_polynomial_digest (dy_public_polynomial statement) =
                        pc_public_polynomial_digest blind_context)) as Invalid
            (PetCrypto "signed PET reply substitutes the certified polynomial");
          match G1Affine_from_bytes (dy_partial statement), Fr_from_bytes (dy_challenge statement),
                Fr_from_bytes (dy_proof statement) with
          | Ok partial, Ok challenge, Ok proof =>
              let reply := MkPetCheckReply (V := F) (MkPubShare (dy_from_node_id statement) partial) challenge proof in
              let synthetic_tag := MkPetTag expected_aggregate_r [] in
              match verify_partial_pet_check pub_poly synthetic_tag reply with
              | Ok _ => Verified (MkPubShare (dy_from_node_id statement) partial)
              | _ => Invalid (PetCrypto
                  "decrypt share from node {} failed its per-share proof verification: {e}")
              end
          | _, _, _ => Invalid (PetDeserialization "failed to decode decrypt fields from node {}")
          end
      | _ => NotAttributable (PetCrypto "invalid decrypt signature from node {}: {e}")
      end
  end.
End PetNode.
