(* ===== verification/Reporting.v ===== *)
(** * Fault reports in flight

    [bin/orbis-node/src/reporting/v0]: the observations a protocol hands over
    ([observation.rs]), the key an incident is reported under, and the table of
    reports in flight ([state.rs], [queue_report] of [pipeline.rs]). *)
From S2P Require Import Prelude Primitives Context ReportCodec ReportStatements ReportDkg ReportPet Evidence Identity NodeState Envelope Bulletin RingState PetNode.

(** ** Observations *)

Record OfflineObservation := MkOfflineObservation {
  of_ring_id : bytes;
  of_accused_node_key : bytes;
  of_accused_peer_id : bytes;
  of_origin_protocol : bytes;
  of_origin_protocol_version : Z;
  of_accused_committee_scope : CommitteeScope;
  of_signing_committee_scope : CommitteeScope;
  of_observed_at : Z;
  of_session_id : bytes;
}.

Record InvalidCryptoResponseObservation := MkInvalidCryptoResponseObservation {
  ob_ring_id : bytes;
  ob_accused_node_key : bytes;
  ob_accused_peer_id : bytes;
  ob_observed_at : Z;
  ob_evidence : InvalidCryptoResponse;
  ob_inline_document : option ReportedDocumentEvidence;
  ob_pet_blind_context : option PetBlindContext;
  ob_pet_blind_certificate : option PetBlindCertificate;
}.

Record UnauthorizedRequestObservation := MkUnauthorizedRequestObservation {
  uo_ring_id : bytes;
  uo_accused_node_key : bytes;
  uo_accused_peer_id : bytes;
  uo_observed_at : Z;
  uo_payload : UnauthorizedRequestPayload;
  uo_inline_document : option ReportedDocumentEvidence;
}.

Inductive ReportObservation :=
  | ObsNodeOffline (o : OfflineObservation)
  | ObsInvalidCryptoResponse (o : InvalidCryptoResponseObservation)
  | ObsUnauthorizedRequest (o : UnauthorizedRequestObservation).

Definition NODE_OFFLINE_REPORT_TYPE : bytes := bstr "node_offline".
Definition INVALID_CRYPTO_RESPONSE_REPORT_TYPE : bytes := bstr "invalid_crypto_response".
Definition UNAUTHORIZED_REQUEST_REPORT_TYPE : bytes := bstr "unauthorized_request".

Definition ReportObservation_report_type (o : ReportObservation) : bytes :=
  match o with
  | ObsNodeOffline _ => NODE_OFFLINE_REPORT_TYPE
  | ObsInvalidCryptoResponse _ => INVALID_CRYPTO_RESPONSE_REPORT_TYPE
  | ObsUnauthorizedRequest _ => UNAUTHORIZED_REQUEST_REPORT_TYPE
  end.

(** *** Who is reported as offline *)

(** What the node's modules know of a ring ([helpers/ring.rs]). *)
Record RingConfig := MkRingConfig {
  rc_ring_id : bytes;
  rc_ring_pk_bytes : bytes;
  rc_peer_ids : list bytes;
  rc_peer_node_keys : list bytes;
  rc_threshold : Z;
  rc_total_participants : Z;
  rc_public_polynomial_hex : bytes;
}.

Definition is_reportable_pre_offline_error (error : PreError) : bool :=
  match error with
  | PreNetworkConnection _ => true
  | PreNetworkCommunication message => String.prefix "Failed to send" message || String.prefix "Failed to receive" message
  | PreTimeout _ => true
  | _ => false
  end.

Definition is_reportable_pet_offline_error (error : PetError) : bool :=
  match error with
  | PetNetworkConnection _ => true
  | PetNetworkCommunication message => String.prefix "Failed to send" message || String.prefix "Failed to receive" message
  | PetTimeout _ => true
  | _ => false
  end.

(** [now] is the reading of the system clock. *)
Definition offline_observation_from_peer_routes (now : option Z) (ring_id : bytes) (peer_ids peer_node_keys : list bytes)
    (peer_id origin_protocol : bytes) (protocol_version : Z) (accused_committee_scope signing_committee_scope : CommitteeScope)
    (session_id : bytes) : option OfflineObservation :=
  let peer_part := extract_node_part peer_id in
  '(_, (accused_node_key, _)) ← list_find (fun kr => extract_node_part kr.2 = peer_part) (zip peer_node_keys peer_ids);
  now ← now;
  Some (MkOfflineObservation ring_id accused_node_key peer_id origin_protocol protocol_version accused_committee_scope
    signing_committee_scope (u64_saturating_sub now CHAIN_BLOCK_GRACE_SECS) session_id).

Definition offline_observation_from_ring_config (now : option Z) (ring : RingConfig) (peer_id origin_protocol : bytes)
    (protocol_version : Z) (accused_committee_scope signing_committee_scope : CommitteeScope) (session_id : bytes) :
    option OfflineObservation :=
  offline_observation_from_peer_routes now (rc_ring_id ring) (rc_peer_ids ring) (rc_peer_node_keys ring) peer_id
    origin_protocol protocol_version accused_committee_scope signing_committee_scope session_id.

Definition offline_observation_from_pre_error (now : option Z) (ring : RingConfig) (peer_id : bytes) (error : PreError)
    (protocol_version : Z) (session_id : bytes) : option OfflineObservation :=
  if negb (is_reportable_pre_offline_error error) then None
  else offline_observation_from_ring_config now ring peer_id (bstr "pre") protocol_version Current Current session_id.

Definition offline_observation_from_pet_error (now : option Z) (ring_id : bytes) (peer_ids peer_node_keys : list bytes)
    (peer_id : bytes) (error : PetError) (protocol_version : Z) (session_id : bytes) : option OfflineObservation :=
  if negb (is_reportable_pet_offline_error error) then None
  else offline_observation_from_peer_routes now ring_id peer_ids peer_node_keys peer_id (bstr "pet") protocol_version
    Current Current session_id.

(** ** Reports in flight *)

Record InFlightReportKey := MkInFlightReportKey {
  ik_report_type : bytes;
  ik_ring_id : bytes;
  ik_subject_key : bytes;
}.

#[global] Instance InFlightReportKey_eq_dec : EqDecision InFlightReportKey.
Proof. solve_decision. Defined.
#[global] Instance InFlightReportKey_countable : Countable InFlightReportKey.
Proof.
  refine (inj_countable' (fun k => (ik_report_type k, ik_ring_id k, ik_subject_key k))
    (fun '(t, r, s) => MkInFlightReportKey t r s) _).
  by intros [].
Defined.

Definition colon : bytes := bstr ":".

Definition offline_in_flight_key (o : OfflineObservation) : InFlightReportKey :=
  MkInFlightReportKey NODE_OFFLINE_REPORT_TYPE (of_ring_id o) (of_accused_node_key o).

Definition invalid_crypto_in_flight_key `{Hex} (o : InvalidCryptoResponseObservation) : InFlightReportKey :=
  let subject_key :=
    match attempt_id (ob_evidence o) with
    | Some attempt_id => ob_accused_node_key o ++ colon ++ request_id (ob_evidence o) ++ colon ++ hex_encode attempt_id
    | None => ob_accused_node_key o ++ colon ++ request_id (ob_evidence o)
    end in
  MkInFlightReportKey INVALID_CRYPTO_RESPONSE_REPORT_TYPE (ob_ring_id o) subject_key.

Definition unauthorized_request_in_flight_key (o : UnauthorizedRequestObservation) : InFlightReportKey :=
  MkInFlightReportKey UNAUTHORIZED_REQUEST_REPORT_TYPE (uo_ring_id o)
    (uo_accused_node_key o ++ colon ++ rr_request_id (ur_statement (uo_payload o))).

(** The handler registered for the type of the observation gives its key. *)
Definition in_flight_key `{Hex} (o : ReportObservation) : InFlightReportKey :=
  match o with
  | ObsNodeOffline o => offline_in_flight_key o
  | ObsInvalidCryptoResponse o => invalid_crypto_in_flight_key o
  | ObsUnauthorizedRequest o => unauthorized_request_in_flight_key o
  end.

Definition MAX_IN_FLIGHT_REPORTS : nat := 128.

(** The keys in flight, and the reporting tasks running for them: the body of a
    task is [create_report] on the observation it was spawned with. *)
Record ReportingState := MkReportingState {
  in_flight : gset InFlightReportKey;
  tasks : list (InFlightReportKey * ReportObservation);
}.

Definition spawn (key : InFlightReportKey) (future : ReportObservation) : method ReportingState ReportingError bool := fun s =>
  if bool_decide (key ∈ in_flight s) then (Ok false, s)
  else if bool_decide (MAX_IN_FLIGHT_REPORTS <= size (in_flight s))%nat then (Err CapacityReached, s)
  else (Ok true, MkReportingState ({[key]} ∪ in_flight s) (tasks s ++ [(key, future)])).

(** The guard of a task is dropped when the task ends, in whatever way. *)
Definition drop_guard (i : nat) (s : ReportingState) : ReportingState :=
  match tasks s !! i with
  | Some (key, _) => MkReportingState (in_flight s ∖ {[key]}) (delete i (tasks s))
  | None => s
  end.

Definition queue_report `{Hex} (observation : ReportObservation) : method ReportingState ReportingError bool :=
  spawn (in_flight_key observation) observation.

(** ** Executions *)

(** A protocol hands over an observation, or a running task ends. *)
Inductive report_event := Queue (observation : ReportObservation) | TaskEnds (i : nat).

Definition report_step `{Hex} (s : ReportingState) (e : report_event) : ReportingState :=
  match e with
  | Queue observation => (queue_report observation s).2
  | TaskEnds i => drop_guard i s
  end.

Definition report_run `{Hex} (events : list report_event) : ReportingState :=
  fold_left report_step events (MkReportingState ∅ []).

Record in_flight_inv `{Hex} (s : ReportingState) : Prop := {
  inv_distinct : NoDup (tasks s).*1;
  inv_tasks : in_flight s = list_to_set (tasks s).*1;
  inv_bound : (length (tasks s) <= MAX_IN_FLIGHT_REPORTS)%nat;
  inv_key : Forall (fun t => t.1 = in_flight_key t.2) (tasks s);
}.

Section Executions.
Context `{Hex}.

Lemma in_flight_size s : in_flight_inv s -> size (in_flight s) = length (tasks s).
Proof. intros []. by rewrite inv_tasks0, size_list_to_set, length_fmap. Qed.

Lemma queue_report_inv o s : in_flight_inv s -> in_flight_inv (queue_report o s).2.
Proof.
  intros I. pose proof (in_flight_size s I) as Hs. destruct I as [D T B K]. unfold queue_report, spawn.
  case_bool_decide as Hin; [by constructor|]. case_bool_decide as Hcap; [by constructor|].
  rewrite T in Hin. rewrite not_elem_of_list_to_set in Hin.
  constructor; cbn [snd in_flight tasks]; rewrite ?fmap_app; cbn [fmap list_fmap fst].
  - apply NoDup_app. split_and!; [done| |apply NoDup_singleton]. by intros k Hk ->%list_elem_of_singleton.
  - rewrite T, list_to_set_app_L. set_solver.
  - rewrite length_app. cbn. lia.
  - by apply Forall_app_2, Forall_singleton.
Qed.

Lemma drop_guard_inv i s : in_flight_inv s -> in_flight_inv (drop_guard i s).
Proof.
  intros [D T B K]. unfold drop_guard. destruct (tasks s !! i) as [[k o]|] eqn:E; [|by constructor].
  pose proof (delete_take_drop (tasks s) i) as Hd. pose proof (take_drop_middle (tasks s) i (k, o) E) as Hm.
  rewrite <- Hm in D, K. rewrite fmap_app, fmap_cons in D. cbn [fst] in D.
  apply NoDup_app in D as (D1 & D2 & D3). apply NoDup_cons in D3 as [D3 D4].
  apply Forall_app in K as [K1 [_ K2]%Forall_cons].
  constructor; cbn [in_flight tasks]; rewrite ?Hd, ?fmap_app.
  - apply NoDup_app. split_and!; [done| |done]. intros x Hx Hy. apply (D2 x Hx). by right.
  - rewrite T, list_to_set_app_L. rewrite <- Hm at 1. rewrite fmap_app, fmap_cons, list_to_set_app_L. cbn [fst list_to_set].
    assert (k ∉ (take i (tasks s)).*1) by (intros Hk; apply (D2 k Hk); by left). set_solver.
  - rewrite length_app, length_take, length_drop. apply lookup_lt_Some in E. lia.
  - by apply Forall_app_2.
Qed.

(** C25: every incident is reported by one task at a time.  After any sequence
    of observations handed over and tasks ending, the keys in flight are exactly
    the keys of the running tasks, no two running tasks report the same
    incident, each runs under the key of its own observation, and there are at
    most [MAX_IN_FLIGHT_REPORTS] of them. *)
Theorem in_flight_exact (events : list report_event) : in_flight_inv (report_run events).
Proof.
  unfold report_run. assert (in_flight_inv (MkReportingState ∅ [])) as I.
  { constructor; cbn; [constructor|done|unfold MAX_IN_FLIGHT_REPORTS; lia|constructor]. }
  revert I. generalize (MkReportingState ∅ []). induction events as [|[o|i] events IH]; intros s I; cbn; [done|..];
    apply IH; [by apply queue_report_inv|by apply drop_guard_inv].
Qed.
End Executions.
