(* ===== verification/Relay.v ===== *)
(** * Relayed requests

    [bin/orbis-node/src/reporting/v0/relay_binding.rs]: the statement a node
    signs for a request it relays, the check that a statement is about the
    request a responder refused, and the report a refused relay is answered
    with. *)
From S2P Require Import Prelude Primitives Context ReportCodec ReportStatements Evidence Identity NodeState Envelope Routes Bulletin RingState PetNode Reporting.

Definition RELAY_REQUEST_DOMAIN : bytes := bstr "orbis-relay-request-v1".
Definition RELAY_CHECK_MAX_DRIFT_SECS : Z := 30.

(** [u64::abs_diff]. *)
Definition abs_diff (a b : Z) : Z := Z.abs (a - b).

Inductive RelayRequestTimestampBinding := ExactTimestamp (timestamp : option Z) | SignPolicy.

Record RelayRequestBinding := MkRelayRequestBinding {
  rb_ring : RingPayload;
  rb_ring_id : bytes;
  rb_protocol_version : Z;
  rb_chain_id : bytes;
  rb_request_id : bytes;
  rb_origin_protocol : bytes;
  rb_actor_id : bytes;
  rb_object_id : bytes;
  rb_user_signed_at : Z;
  rb_valid_window : option ValidWindow;
  rb_timestamp : RelayRequestTimestampBinding;
  rb_from_node_id : Z;
  rb_document_inline : bool;
}.

Definition relay_binding_mismatch (field : string) : ReportingError :=
  InvalidReport ("relay request statement does not bind to failed request: " +:+ field +:+ " expected {}, got {}").

Definition window_pair (w : ValidWindow) : Z * Z := (window_start w, window_end w).

(** The bounds a statement carries: both or neither. *)
Definition statement_window (statement : RelayRequestStatement) (e : ReportingError) : report_result (option (Z * Z)) :=
  match rr_valid_window_start statement, rr_valid_window_end statement with
  | Some s, Some e => Ok (Some (s, e))
  | None, None => Ok None
  | _, _ => Err e
  end.

Definition check_timestamp_binding (statement : RelayRequestStatement) (expected : RelayRequestTimestampBinding)
    (expected_valid_window : option (Z * Z)) : report_result unit :=
  match expected with
  | ExactTimestamp expected_timestamp =>
      reject (negb (bool_decide (rr_timestamp statement = expected_timestamp))) (relay_binding_mismatch "timestamp")
  | SignPolicy =>
      match expected_valid_window with
      | None => reject (bool_decide (is_Some (rr_timestamp statement))) (relay_binding_mismatch "timestamp")
      | Some _ =>
          let? timestamp := ok_or (rr_timestamp statement)
            (InvalidReport "relay request statement timestamp is required for windowed sign requests") in
          reject (RELAY_CHECK_MAX_DRIFT_SECS <? abs_diff timestamp (rr_signed_at statement))
            (InvalidReport "relay request statement timestamp {} drifts from signed_at {} by more than {}s")
      end
  end.

(** What a report of a relay sees: [relay_accepted] is the answer of the chain to
    [accepted_report_session], [relay_anchor] the current anchor of the
    authorization backend, [relay_read_node] and [relay_node_info] the bulletin. *)
Record RelayView {Post : Type} := MkRelayView {
  relay_now : Z;
  relay_accepted : option bool;
  relay_anchor : option bytes;
  relay_read_node : bytes -> option Post;
  relay_node_info : Post -> option NodeInfo;
}.
#[global] Arguments RelayView : clear implicits.
#[global] Arguments MkRelayView {Post}.

Section Relay.
Context {SHA : Sha2} {HX : Hex} {EC : Ecdsa}.

Definition validate_relay_request_binding (statement : RelayRequestStatement) (expected : RelayRequestBinding) :
    report_result unit :=
  let ring := rb_ring expected in
  reject (negb (bool_decide (rr_chain_id statement = rb_chain_id expected))) (relay_binding_mismatch "chain_id") ;?
  reject (negb (bool_decide (rr_ring_id statement = rb_ring_id expected))) (relay_binding_mismatch "ring_id") ;?
  reject (negb (bool_decide (rr_ring_pk statement = ring_pk ring))) (relay_binding_mismatch "ring_pk") ;?
  reject (negb (bool_decide (rr_ring_state_sha256 statement = ring_state_sha256 ring)))
    (relay_binding_mismatch "ring_state_sha256") ;?
  reject (negb (rr_protocol_version statement =? rb_protocol_version expected)) (relay_binding_mismatch "protocol_version") ;?
  reject (negb (bool_decide (rr_request_id statement = rb_request_id expected))) (relay_binding_mismatch "request_id") ;?
  reject (negb (bool_decide (rr_origin_protocol statement = rb_origin_protocol expected)))
    (relay_binding_mismatch "origin_protocol") ;?
  reject (negb (bool_decide (rr_actor_id statement = rb_actor_id expected))) (relay_binding_mismatch "actor_id") ;?
  reject (negb (bool_decide (rr_object_id statement = rb_object_id expected))) (relay_binding_mismatch "object_id") ;?
  reject (negb (rr_user_signed_at statement =? rb_user_signed_at expected)) (relay_binding_mismatch "user_signed_at") ;?
  let expected_valid_window : option (Z * Z) := window_pair <$> rb_valid_window expected in
  let? actual_valid_window := statement_window statement
    (InvalidReport "relay request statement valid_window is only partially set") in
  reject (negb (bool_decide (actual_valid_window = expected_valid_window))) (relay_binding_mismatch "valid_window") ;?
  reject (negb (rr_from_node_id statement =? rb_from_node_id expected)) (relay_binding_mismatch "from_node_id") ;?
  let? relayer_node_id := ok_or (determine_session_node_id (rr_relayer_node_key statement) (peer_node_keys ring))
    (InvalidReport "relay request statement relayer_node_key is not in the ring") in
  reject (negb (rr_from_node_id statement =? relayer_node_id)) (relay_binding_mismatch "relayer_node_id") ;?
  reject (negb (Bool.eqb (rr_document_inline statement) (rb_document_inline expected)))
    (InvalidReport "relay request statement does not bind to failed request: document_inline mismatch") ;?
  check_timestamp_binding statement (rb_timestamp expected) expected_valid_window.

(** ** Reporting a relay *)

Definition queue_unauthorized_request_report {Post} (view : RelayView Post) (statement : RelayRequestStatement)
    (relay_signature checked_at_anchor : bytes) (inline_document : option ReportedDocumentEvidence) :
    method ReportingState ReportingError unit :=
  let accused_node_key := rr_relayer_node_key statement in
  let! post := m_lift (ok_or (relay_read_node view accused_node_key) (BulletinError "{}")) in
  let! node_info := m_lift (ok_or (relay_node_info view post) (InvalidReport "{}")) in
  let observed_at := u64_saturating_sub (rr_signed_at statement) CHAIN_BLOCK_GRACE_SECS in
  let observation := MkUnauthorizedRequestObservation (rr_ring_id statement) accused_node_key (ni_peer_id node_info)
    observed_at (MkUnauthorizedRequestPayload statement relay_signature checked_at_anchor) inline_document in
  let! _ := queue_report (ObsUnauthorizedRequest observation) in
  m_ret tt.

(** Best effort: whatever goes wrong is logged and dropped. *)
Definition report_unauthorized_relay {Post} (view : RelayView Post) (statement : RelayRequestStatement)
    (relay_signature : bytes) (inline_document : option ReportedDocumentEvidence) (s : ReportingState) : ReportingState :=
  if RELAY_CHECK_MAX_DRIFT_SECS <? abs_diff (relay_now view) (rr_signed_at statement) then s
  else match verify_node_message (rr_relayer_node_key statement) (RelayRequestStatement_canonical_bytes statement)
               relay_signature with
  | Ok _ =>
      if default false (relay_accepted view) then s
      else match relay_anchor view with
      | Some checked_at_anchor =>
          (queue_unauthorized_request_report view statement relay_signature checked_at_anchor inline_document s).2
      | None => s
      end
  | _ => s
  end.

(** ** Signing a relay *)

Record RelayStatementInputs := MkRelayStatementInputs {
  ri_ring : RingPayload;
  ri_ring_id : bytes;
  ri_protocol_version : Z;
  ri_chain_id : bytes;
  ri_request_id : bytes;
  ri_origin_protocol : bytes;
  ri_relayer_node_key : bytes;
  ri_actor_id : bytes;
  ri_object_id : bytes;
  ri_user_signed_at : Z;
  ri_acp_timestamp : option Z;
  ri_valid_window : option ValidWindow;
  ri_document_inline : bool;
}.

Definition build_signed_relay_statement {St} `{!LocalStorage St} (now : option Z) (inputs : RelayStatementInputs)
    (storage : St) : report_result (RelayRequestStatement * bytes) :=
  let? stored := map_err (get_encrypted storage NodeSigningKey) (InvalidReport "failed to read node signing key: {error}") in
  let? signing_key := ok_or stored (InvalidReport "node signing key is not configured") in
  ensure (utf8_valid signing_key) (InvalidReport "stored node signing key is not utf-8: {error}") ;?
  let? signed_at := ok_or now (InvalidReport "{error}") in
  let? from_node_id := ok_or (determine_session_node_id (ri_relayer_node_key inputs) (peer_node_keys (ri_ring inputs)))
    (InvalidReport "relayer node key {} is not in ring {}; cannot build relay request evidence") in
  let statement := MkRelayRequestStatement RELAY_REQUEST_DOMAIN (ri_chain_id inputs) (ri_ring_id inputs)
    (ring_pk (ri_ring inputs)) (ring_state_sha256 (ri_ring inputs)) (ri_protocol_version inputs) (ri_request_id inputs)
    signed_at (ri_user_signed_at inputs) (ri_relayer_node_key inputs) (ri_origin_protocol inputs) Current Current
    from_node_id (ri_actor_id inputs) (ri_object_id inputs) (window_start <$> ri_valid_window inputs)
    (window_end <$> ri_valid_window inputs) (ri_acp_timestamp inputs) (ri_document_inline inputs) in
  let? signature := map_err (sign_node_message_with_hex_key signing_key (RelayRequestStatement_canonical_bytes statement))
    (InvalidReport "{error}") in
  Ok (statement, signature).
End Relay.
