(* ===== verification/PetProtocol.v ===== *)
(** * The PET responder and the admission gate

    [bin/orbis-node/src/pet/v0]: the messages of the blind equality test
    ([messages.rs]), the three request handlers ([coordinator/handlers.rs]), the
    verification of requests, of collected responses and of the evidence a PRE
    release depends on ([coordinator/verification.rs]), and the observations a
    faulty contribution is reported with ([attestation.rs]).  The bulletin, the
    clocks and the storage a call sees are the fields of [PetApp]. *)
From S2P Require Import Prelude Algebra Interpolation Primitives Codec Common Dkg Context Sigma Shares Pet.
From S2P Require Import ReportCodec ReportPet Evidence Identity NodeState Envelope Auth Routes Bulletin RingState PetNode Reporting.

(** ** Messages *)

Record CommitRequest := MkCommitRequest {
  cq_request_id : bytes;
  cq_attempt_id : bytes;
  cq_from_node_id : Z;
  cq_context : PetCheckContext;
}.

Record RevealRequest := MkRevealRequest {
  rq_request_id : bytes;
  rq_attempt_id : bytes;
  rq_from_node_id : Z;
  rq_all_commitments : list (Z * bytes);
  rq_context : PetCheckContext;
}.

Record DecryptRequest := MkDecryptRequest {
  dq_request_id : bytes;
  dq_attempt_id : bytes;
  dq_from_node_id : Z;
  dq_certificate : PetBlindCertificate;
  dq_context : PetCheckContext;
}.

Inductive PetMessage :=
  | PetCommitRequest (req : CommitRequest)
  | PetCommitResponse (request_id attempt_id context_digest : bytes) (from_node_id : Z) (commitment : bytes)
  | PetRevealRequest (req : RevealRequest)
  | PetRevealResponse (request_id attempt_id context_digest selection_digest : bytes) (from_node_id : Z)
      (commitment blinded_r blinded_diff commit_salt challenge proof : bytes) (signed_at : Z)
      (response_signature : bytes)
  | PetDecryptRequest (req : DecryptRequest)
  | PetDecryptResponse (request_id attempt_id context_digest certificate_digest : bytes) (from_node_id : Z)
      (aggregate_r aggregate_diff partial challenge proof : bytes) (signed_at : Z)
      (public_polynomial response_signature : bytes)
  | PetGenerationMismatchReply (request_id : bytes)
  | PetErrorReply (request_id error : bytes).

Definition PetMessage_request_id (m : PetMessage) : bytes :=
  match m with
  | PetCommitRequest req => cq_request_id req
  | PetCommitResponse request_id _ _ _ _ => request_id
  | PetRevealRequest req => rq_request_id req
  | PetRevealResponse request_id _ _ _ _ _ _ _ _ _ _ _ _ => request_id
  | PetDecryptRequest req => dq_request_id req
  | PetDecryptResponse request_id _ _ _ _ _ _ _ _ _ _ _ _ => request_id
  | PetGenerationMismatchReply request_id => request_id
  | PetErrorReply request_id _ => request_id
  end.

(** ** Observations *)

Definition invalid_pet_blind_reveal_observation (ring_id accused_node_key accused_peer_id : bytes)
    (context : PetBlindContext) (statement : PetBlindRevealStatement) (response_signature : bytes)
    (inline_document : option ReportedDocumentEvidence) : InvalidCryptoResponseObservation :=
  let observed_at := u64_saturating_sub (rv_signed_at statement) CHAIN_BLOCK_GRACE_SECS in
  MkInvalidCryptoResponseObservation ring_id accused_node_key accused_peer_id observed_at
    (EvPetBlindReveal statement response_signature) inline_document (Some context) None.

Definition invalid_pet_blind_decrypt_observation (ring_id accused_node_key accused_peer_id : bytes)
    (context : PetBlindContext) (statement : PetBlindDecryptStatement) (response_signature : bytes)
    (inline_document : option ReportedDocumentEvidence) (certificate : PetBlindCertificate) :
    InvalidCryptoResponseObservation :=
  let observed_at := u64_saturating_sub (dy_signed_at statement) CHAIN_BLOCK_GRACE_SECS in
  MkInvalidCryptoResponseObservation ring_id accused_node_key accused_peer_id observed_at
    (EvPetBlindDecrypt statement response_signature) inline_document (Some context) (Some certificate).

(** ** What a call sees of the node *)

Record PetApp {St Post : Type} := MkPetApp {
  app_chain_id : bytes;
  app_version : Z;
  app_node_key : bytes;
  app_storage : St;
  app_read_ring : bytes -> nat -> option Post;
  app_read_node : bytes -> option Post;
  app_ring_time : Z;
  app_auth_time : option Z;
  app_sign_time : option Z;
}.
#[global] Arguments PetApp : clear implicits.

(** The parsers of bulletin posts and of socket addresses. *)
Class BulletinPosts (Post : Type) := {
  RingPayload_try_from : Post -> option RingPayload;
  NodeInfo_try_from : Post -> option NodeInfo;
  is_socket_addr : bytes -> bool;
}.

Section PetProtocol.
Context {F G S P : Type} {SF : ScalarField F} {CG : CurveGroup F G} {BL : Blst F G S P} {SHA : Sha2}.
Context {HX : Hex} {EC : Ecdsa} {DJ : DocumentJson} {PJ : PetJson} {AZ : Authz} {JW : JwtLib PreClaims}.
Context {St Post : Type} {LS : LocalStorage St} {BP : BulletinPosts Post} (app : PetApp St Post).

Definition current_unix_time (now : option Z) : pet_result Z :=
  ok_or now (PetInvalidState "Failed to get timestamp: {}").

(** ** Verification of a request *)

Definition resolve_coordinator_node_key (peer_id : bytes) (ring_payload : RingPayload) : pet_result bytes :=
  let? routes := map_err (resolve_node_routes is_socket_addr (app_read_node app) NodeInfo_try_from
      (peer_node_keys ring_payload)) (PetProtocolError "{}") in
  let peer_hex := hex_encode peer_id in
  let? route := ok_or (list_find (fun route =>
      eq_ignore_ascii_case (extract_node_part (nr_peer_id route)) peer_hex = true) routes)
    (PetInvalidInput "requesting peer is not a member of the ring committee") in
  Ok (nr_node_key route.2).

Definition deserialize_secret (document_json : bytes) : pet_result Secret :=
  ok_or (Secret_from_str document_json) (PetDeserialization "Failed to deserialize secret: {}").

Definition pet_build_ciphertext_context (ring_pk_hex : bytes) (d : DocumentPayload) (salt pet_pk_hex : option bytes) :
    pet_result CiphertextContext :=
  let? ring_pk := ok_or (hex_decode ring_pk_hex) (PetInvalidInput "Invalid ring_pk hex encoding: {}") in
  let? pet_tag := map_err (build_pet_tag_binding d pet_pk_hex) (PetInvalidInput "PET tag binding: {e}") in
  Ok (MkCiphertextContext ring_pk (policy_id d) (resource d) (permission d) (tier d) (timestamp d) salt pet_tag).

Definition lower_hex (b : Byte.byte) : bool :=
  is_ascii_digit (byte.unsigned b) || between 0x61 0x66 (byte.unsigned b).

Definition verify_pet_check_request (ctx : PetCheckContext) : pet_result (PetTag * bytes * bytes * RingPayload) :=
  let d := ctx_document ctx in
  let? ring_payload := map_err (read_ring_for_route (app_read_ring app (ring_id d)) RingPayload_try_from
      (app_ring_time app) (app_version app)) (PetProtocolError "{}") in
  reject ((rp_threshold ring_payload =? 0)
          || (Z.of_nat (length (peer_node_keys ring_payload)) <? rp_threshold ring_payload))
    (PetInvalidState "invalid PET ring threshold") ;?
  reject (negb (length (ctx_ring_state_sha256 ctx) =? 64)%nat || negb (forallb lower_hex (ctx_ring_state_sha256 ctx)))
    (PetInvalidInput "invalid PET ring-state digest") ;?
  reject (negb (bool_decide (ctx_ring_state_sha256 ctx = ring_state_sha256 ring_payload))) PetGenerationMismatch ;?
  reject (negb (requires_pet ring_payload)) (PetProtocolError "ring {} does not require a PET check") ;?
  map_err (check_document_id_binding (ctx_object_id ctx) d)
    (PetInvalidInput "document does not match object_id: {e}") ;?
  let? pet_pk_hex := ok_or (pet_pk ring_payload)
    (PetInvalidState "ring {} requires PET but its checking key has not finalized") in
  let? pet_pk_bytes := ok_or (hex_decode pet_pk_hex) (PetInvalidInput "Invalid pet_pk hex encoding: {}") in
  let? tag_json := ok_or (pet_tag d) (PetInvalidInput "document has no pet_tag but ring requires PET") in
  let? tag_proof_json := ok_or (pet_tag_proof d)
    (PetInvalidInput "document has no pet_tag_proof but ring requires PET") in
  let? tag := ok_or (PetTag_try_from tag_json) (PetDeserialization "Failed to deserialize tag: {}") in
  let? tag_proof := ok_or (TagKnowledgeProof_try_from tag_proof_json)
    (PetDeserialization "Failed to deserialize tag proof: {}") in
  let? secret := deserialize_secret (document d) in
  let? payload_proof := ok_or (EncryptionProof_try_from (proof d))
    (PetDeserialization "Failed to deserialize proof: {}") in
  let? ciphertext_context := pet_build_ciphertext_context (ring_pk ring_payload) d (ctx_salt ctx) (Some pet_pk_hex) in
  let digest := tag_proof_digest (ephemeral_point tag) (masked_fingerprint tag) pet_pk_bytes (ring_id d)
    ciphertext_context secret payload_proof in
  map_err (verify_tag_knowledge (F := F) (G := G) tag tag_proof digest)
    (PetCrypto "Tag-knowledge proof verification failed: {}") ;?
  Ok (tag, pet_pk_hex, digest, ring_payload).

(** What every handler establishes first: the tag, the checking key, the ring
    and the context of the attempt. *)
Definition authorize_request (ctx : PetCheckContext) (attempt_id peer_id : bytes) :
    pet_result (PetTag * bytes * RingPayload * PetBlindContext) :=
  let? '(tag, pet_pk_hex, _, ring_payload) := verify_pet_check_request ctx in
  let? current_time := current_unix_time (app_auth_time app) in
  let? actor_id := verify_pet_audit_authorization ctx (trusted_auth_relay_dids ring_payload) current_time in
  let? coordinator_node_key := resolve_coordinator_node_key peer_id ring_payload in
  Ok (tag, pet_pk_hex, ring_payload, build_pet_blind_context (app_chain_id app) ring_payload pet_pk_hex
    (app_version app) PET_NAME ctx actor_id coordinator_node_key attempt_id).

Definition load_member (ctx : PetCheckContext) (ring_payload : RingPayload) (pet_pk_hex : bytes) (error : string) :
    pet_result (RingShareBundle * PriShare F) :=
  let? bundle := map_err (load_by_pet_ring_key (app_storage app) (ring_id (ctx_document ctx))) (PetStorage error) in
  match_bundle (F := F) (G := G) bundle (ctx_public_polynomial ctx) (rp_threshold ring_payload) pet_pk_hex ;?
  let? share := member_share bundle (app_node_key app) ring_payload in
  Ok (bundle, share).

Definition signing_key_hex : pet_result bytes :=
  let? stored := map_err (get_encrypted (app_storage app) NodeSigningKey)
    (PetStorage "failed to read node signing key: {e}") in
  let? signing_key := ok_or stored (PetStorage "node signing key is not configured") in
  ensure (utf8_valid signing_key) (PetStorage "stored node signing key is not utf-8: {e}") ;?
  Ok signing_key.

Definition pet_owner_fingerprint (ctx : PetCheckContext) : pet_result G :=
  map_err (owner_fingerprint (F := F) (ctx_audit_target_object_id ctx))
    (PetCrypto "Failed to compute owner fingerprint: {}").

Definition point_bytes (p : G) (error : string) : pet_result bytes :=
  map_err (G1Affine_to_bytes p) (PetSerialization error).
Definition scalar_bytes (x : F) (error : string) : pet_result bytes :=
  map_err (Fr_to_bytes x) (PetSerialization error).

(** ** The handlers

    The state is the store of pending blindings; [now] and [created] are the
    readings of the monotonic clock it takes, [commit_salt] is the salt drawn
    with [rand::random]. *)
Abbreviation pending := (gmap bytes (PendingBlind.PendingBlinding F)).
Abbreviation handler := (method pending PetError (option PetMessage * Rng F)).

Definition handle_commit_request (fuel : nat) (now created : Instant) (commit_salt : bytes) (req : CommitRequest)
    (peer_id : bytes) (rng : Rng F) : handler :=
  let attempt_id := cq_attempt_id req in
  let ctx := cq_context req in
  let! '(tag, pet_pk_hex, ring_payload, blind_context) := m_lift (authorize_request ctx attempt_id peer_id) in
  let context_digest := PetBlindContext_context_digest blind_context in
  let! '(_, pri_share) := m_lift (load_member ctx ring_payload pet_pk_hex "Failed to load share bundle: {}") in
  let node_id := pri_i pri_share in
  let! target_fingerprint := m_lift (pet_owner_fingerprint ctx) in
  let! '(z_i, rng1) := m_lift (sample_nonzero fuel rng) in
  let! '(preliminary, rng2) := m_lift (map_err (prove_blinding_correctness fuel z_i tag target_fingerprint
      (replicate 32 Byte.x00) rng1) (PetCrypto "Failed to compute blinding points: {}")) in
  let! blinded_r_bytes := m_lift (point_bytes (blinded_r preliminary) "Failed to serialize blinded_r: {}") in
  let! blinded_diff_bytes := m_lift (point_bytes (blinded_diff preliminary) "Failed to serialize blinded_diff: {}") in
  let commitment := pet_blind_commit_hash attempt_id context_digest node_id commit_salt blinded_r_bytes
    blinded_diff_bytes in
  let! map := m_get in
  let '(store_outcome, map) := PendingBlind.store now created (app_version app) attempt_id z_i commit_salt node_id
    context_digest commitment peer_id map in
  m_modify (fun _ => map) ;!
  match store_outcome with
  | Stored => m_ret (Some (PetCommitResponse (cq_request_id req) attempt_id context_digest node_id commitment), rng2)
  | AlreadyExists => m_lift (Err (PetProtocolError "duplicate commit for attempt {attempt_id}"))
  | LimitReached => m_lift (Err (PetProtocolError "PET blinding pending-state limit reached"))
  end.

Definition own_commitment (node_id : Z) (commitment : bytes) (commitments : list (Z * bytes)) : bool :=
  match filter (fun e => e.1 = node_id) commitments with
  | [(_, c)] => bool_decide (c = commitment)
  | _ => false
  end.

Definition reveal_statement (blind_context : PetBlindContext) (attempt_id context_digest selection_digest
    responder_node_key : bytes) (from_node_id : Z) (commitment blinded_r blinded_diff commit_salt challenge
    proof : bytes) (signed_at : Z) : PetBlindRevealStatement :=
  MkPetBlindRevealStatement PET_BLIND_REVEAL_RESPONSE_DOMAIN (pc_chain_id blind_context) (pc_ring_id blind_context)
    (pc_ring_pk blind_context) (pc_ring_state_sha256 blind_context) (pc_protocol_version blind_context) attempt_id
    context_digest selection_digest responder_node_key from_node_id commitment blinded_r blinded_diff commit_salt
    challenge proof signed_at.

(** The opening, once the pending blinding was taken. *)
Definition open_blinding (fuel : nat) (req : RevealRequest) (tag : PetTag) (blind_context : PetBlindContext)
    (member : PriShare F) (commitments : list (Z * bytes)) (pending : PendingBlind.PendingBlinding F) (rng : Rng F) :
    pet_result (option PetMessage * Rng F) :=
  let attempt_id := rq_attempt_id req in
  let context_digest := PetBlindContext_context_digest blind_context in
  let node_id := PendingBlind.node_id pending in
  let commitment := PendingBlind.commitment pending in
  reject (negb (node_id =? pri_i member)) PetGenerationMismatch ;?
  reject (negb (bool_decide (PendingBlind.context_digest pending = context_digest)))
    (PetProtocolError "reveal-phase context does not match the commit-phase context") ;?
  reject (negb (own_commitment node_id commitment commitments)) (PetProtocolError
    "selected list does not contain this node's original commitment exactly once") ;?
  let selection_digest := pet_blind_selection_digest attempt_id context_digest commitments in
  let blind_transcript_digest := pet_blind_proof_transcript_digest attempt_id context_digest selection_digest
    node_id commitment in
  let? target_fingerprint := pet_owner_fingerprint (rq_context req) in
  let? '(reply, rng1) := map_err (prove_blinding_correctness fuel (PendingBlind.z_i pending) tag target_fingerprint
      blind_transcript_digest rng) (PetCrypto "Failed to compute blinding-correctness proof: {}") in
  let? blinded_r_bytes := point_bytes (blinded_r reply) "Failed to serialize blinded_r: {}" in
  let? blinded_diff_bytes := point_bytes (blinded_diff reply) "Failed to serialize blinded_diff: {}" in
  let? challenge_bytes := scalar_bytes (br_challenge reply) "Failed to serialize challenge: {}" in
  let? proof_bytes := scalar_bytes (br_proof reply) "Failed to serialize proof: {}" in
  let? signed_at := current_unix_time (app_sign_time app) in
  let statement := reveal_statement blind_context attempt_id context_digest selection_digest (app_node_key app) node_id
    commitment blinded_r_bytes blinded_diff_bytes (PendingBlind.commit_salt pending) challenge_bytes proof_bytes
    signed_at in
  let? key := signing_key_hex in
  let? response_signature := map_err (sign_node_message_with_hex_key key
      (PetBlindRevealStatement_canonical_bytes statement)) (PetCrypto "failed to sign PET reveal: {e}") in
  Ok (Some (PetRevealResponse (rq_request_id req) attempt_id context_digest selection_digest node_id commitment
    blinded_r_bytes blinded_diff_bytes (PendingBlind.commit_salt pending) challenge_bytes proof_bytes signed_at
    response_signature), rng1).

Definition handle_reveal_request (fuel : nat) (req : RevealRequest) (peer_id : bytes) (rng : Rng F) : handler :=
  let attempt_id := rq_attempt_id req in
  let ctx := rq_context req in
  let! '(tag, pet_pk_hex, ring_payload, blind_context) := m_lift (authorize_request ctx attempt_id peer_id) in
  let! '(_, member) := m_lift (load_member ctx ring_payload pet_pk_hex "{}") in
  m_lift (reject (negb (Z.of_nat (length (rq_all_commitments req)) =? rp_threshold ring_payload))
    (PetProtocolError "reveal selected list has {} entries, ring threshold is {}")) ;!
  let! commitments := m_lift (selected_list (PetProtocolError "duplicate node id {id} in selected list")
    (PetDeserialization "selected-list commitment is not 32 bytes") [] (rq_all_commitments req)) in
  let! map := m_get in
  let '(taken, map) := PendingBlind.take (app_version app) attempt_id peer_id map in
  m_modify (fun _ => map) ;!
  let! pending := m_lift (ok_or taken (PetProtocolError "no pending blinding state for attempt {attempt_id}")) in
  m_lift (open_blinding fuel req tag blind_context member commitments pending rng).

Definition decrypt_statement (blind_context : PetBlindContext) (attempt_id context_digest certificate_digest
    responder_node_key : bytes) (from_node_id : Z) (aggregate_r aggregate_diff partial challenge proof : bytes)
    (signed_at : Z) (public_polynomial : bytes) : PetBlindDecryptStatement :=
  MkPetBlindDecryptStatement PET_BLIND_DECRYPT_RESPONSE_DOMAIN (pc_chain_id blind_context) (pc_ring_id blind_context)
    (pc_ring_pk blind_context) (pc_ring_state_sha256 blind_context) (pc_protocol_version blind_context) attempt_id
    context_digest certificate_digest responder_node_key from_node_id aggregate_r aggregate_diff partial challenge
    proof signed_at public_polynomial.

Definition handle_decrypt_request (fuel : nat) (req : DecryptRequest) (peer_id : bytes) (rng : Rng F) :
    pet_result (option PetMessage * Rng F) :=
  let attempt_id := dq_attempt_id req in
  let certificate := dq_certificate req in
  let ctx := dq_context req in
  let? '(tag, pet_pk_hex, ring_payload, blind_context) := authorize_request ctx attempt_id peer_id in
  let context_digest := PetBlindContext_context_digest blind_context in
  reject (negb (bool_decide (ce_attempt_id certificate = attempt_id))
          || negb (bool_decide (ce_context_digest certificate = context_digest)))
    (PetProtocolError "certificate does not match this decrypt request's attempt/context") ;?
  let? target_fingerprint := pet_owner_fingerprint ctx in
  let? '(aggregate_r, aggregate_diff) := build_and_verify_pet_blind_certificate (F := F) certificate ring_payload tag
    target_fingerprint blind_context in
  let certificate_digest := certificate_digest certificate in
  let? '(bundle, pri_share) := load_member ctx ring_payload pet_pk_hex "Failed to load share bundle: {}" in
  let node_id := pri_i pri_share in
  let? public_polynomial_bytes := ok_or (hex_decode (public_polynomial bundle))
    (PetDeserialization "Failed to decode stored PET public polynomial: {}") in
  let? aggregate_r_bytes := point_bytes aggregate_r "Failed to serialize aggregate_r: {}" in
  let? aggregate_diff_bytes := point_bytes aggregate_diff "Failed to serialize aggregate_diff: {}" in
  let synthetic_tag := MkPetTag aggregate_r_bytes [] in
  let? '(reply, rng1) := map_err (partial_pet_check fuel (pri_v pri_share) node_id synthetic_tag rng)
    (PetCrypto "Failed to compute PET decrypt share: {}") in
  let? partial_bytes := point_bytes (pub_v (pcr_partial reply)) "Failed to serialize partial: {}" in
  let? challenge_bytes := scalar_bytes (pcr_challenge reply) "Failed to serialize challenge: {}" in
  let? proof_bytes := scalar_bytes (pcr_proof reply) "Failed to serialize proof: {}" in
  let? signed_at := current_unix_time (app_sign_time app) in
  let statement := decrypt_statement blind_context attempt_id context_digest certificate_digest (app_node_key app)
    node_id aggregate_r_bytes aggregate_diff_bytes partial_bytes challenge_bytes proof_bytes signed_at
    public_polynomial_bytes in
  let? key := signing_key_hex in
  let? response_signature := map_err (sign_node_message_with_hex_key key
      (PetBlindDecryptStatement_canonical_bytes statement)) (PetCrypto "failed to sign PET decrypt share: {e}") in
  Ok (Some (PetDecryptResponse (dq_request_id req) attempt_id context_digest certificate_digest node_id
    aggregate_r_bytes aggregate_diff_bytes partial_bytes challenge_bytes proof_bytes signed_at public_polynomial_bytes
    response_signature), rng1).

(** The router: a generation mismatch is answered, every other error is not. *)
Definition handle_message (fuel : nat) (now created : Instant) (commit_salt : bytes) (message : PetMessage)
    (peer_id : bytes) (rng : Rng F) : handler := fun map =>
  let '(result, map) :=
    match message with
    | PetCommitRequest req => handle_commit_request fuel now created commit_salt req peer_id rng map
    | PetRevealRequest req => handle_reveal_request fuel req peer_id rng map
    | PetDecryptRequest req => (handle_decrypt_request fuel req peer_id rng, map)
    | _ => (Ok (None, rng), map)
    end in
  (match result with
   | Err PetGenerationMismatch => Ok (Some (PetGenerationMismatchReply (PetMessage_request_id message)), rng)
   | other => other
   end, map).

(** ** The admission gate *)

(** The loop over the decrypt responses. *)
Fixpoint verify_decrypts (ring_payload : RingPayload) (pub_poly : PubPoly G) (context_digest certificate_digest
    attempt_id aggregate_r_bytes aggregate_diff_bytes : bytes) (blind_context : PetBlindContext) (seen : list Z)
    (l : list PetBlindSignedDecrypt) : pet_result (list (PubShare G)) :=
  match l with
  | [] => Ok []
  | signed_decrypt :: l =>
      let? share := map_err (into_result (verify_one_decrypt (F := F) (sdy_statement signed_decrypt)
        (sdy_response_signature signed_decrypt) ring_payload pub_poly context_digest certificate_digest attempt_id
        aggregate_r_bytes aggregate_diff_bytes blind_context)) PetMismatch in
      reject (bool_decide (pub_i share ∈ seen)) PetMismatch ;?
      let? shares := verify_decrypts ring_payload pub_poly context_digest certificate_digest attempt_id
        aggregate_r_bytes aggregate_diff_bytes blind_context (pub_i share :: seen) l in
      Ok (share :: shares)
  end.

(** The comparison, once the request is verified. *)
Definition admission_check (tag : PetTag) (pet_pk_hex audit_target_object_id : bytes) (ring_payload : RingPayload)
    (ring_id : bytes) (blind_context : PetBlindContext) (evidence : PetBlindEvidence) : pet_result unit :=
  let certificate := ev_certificate evidence in
  let context_digest := PetBlindContext_context_digest blind_context in
  reject (negb (bool_decide (context_digest = ce_context_digest certificate))) PetMismatch ;?
  let? target_fingerprint := map_err (owner_fingerprint (F := F) (G := G) audit_target_object_id)
    (PetCrypto "Failed to compute owner fingerprint: {}") in
  let? '(aggregate_r, aggregate_diff) := map_err (build_and_verify_pet_blind_certificate (F := F) certificate
    ring_payload tag target_fingerprint blind_context) PetMismatch in
  let threshold := rp_threshold ring_payload in
  let n := Z.of_nat (length (peer_node_keys ring_payload)) in
  let got := Z.of_nat (length (ev_decrypt_responses evidence)) in
  reject (got <? threshold) (PetInsufficientShares got threshold) ;?
  let? bundle := map_err (load_by_pet_ring_key (app_storage app) ring_id)
    (PetStorage "Failed to load PET share bundle: {}") in
  let? pub_poly := match_bundle (F := F) (G := G) bundle (ce_public_polynomial certificate) threshold pet_pk_hex in
  let? aggregate_r_bytes := point_bytes aggregate_r "{}" in
  let? aggregate_diff_bytes := point_bytes aggregate_diff "{}" in
  let? shares := verify_decrypts ring_payload pub_poly context_digest (certificate_digest certificate)
    (ce_attempt_id certificate) aggregate_r_bytes aggregate_diff_bytes blind_context []
    (take (Z.to_nat threshold) (ev_decrypt_responses evidence)) in
  let? combined := map_err (combine_pet_check_shares (F := F) shares threshold n)
    (PetCrypto "Failed to combine PET decrypt shares: {}") in
  let? combined_bytes := point_bytes combined "{}" in
  reject (negb (bool_decide (combined_bytes = aggregate_diff_bytes))) PetMismatch.

Definition verify_pet_admission (document : DocumentPayload) (salt : option bytes) (object_id : bytes)
    (document_evidence : option ReportedDocumentEvidence) (audit_target_object_id actor_id : bytes)
    (valid_window : option ValidWindow) (ring_payload : RingPayload) (evidence : PetBlindEvidence) : pet_result unit :=
  let document_inline := bool_decide (is_Some document_evidence) in
  check_pet_permission document audit_target_object_id actor_id valid_window ;?
  let? first := ok_or (head (ce_reveals (ev_certificate evidence))) (PetInvalidInput "PET certificate has no reveals") in
  let expected_ring_state := rv_ring_state_sha256 (srv_statement first) in
  reject (negb (bool_decide (expected_ring_state = ring_state_sha256 ring_payload))) PetGenerationMismatch ;?
  let ctx := MkPetCheckContext expected_ring_state (ce_public_polynomial (ev_certificate evidence)) document salt
    object_id document_inline [] audit_target_object_id valid_window in
  let? '(tag, pet_pk_hex, _, _) := verify_pet_check_request ctx in
  let blind_context := build_pet_blind_context (app_chain_id app) ring_payload pet_pk_hex (app_version app) PET_NAME
    ctx actor_id (ev_coordinator_node_key evidence) (ce_attempt_id (ev_certificate evidence)) in
  admission_check tag pet_pk_hex audit_target_object_id ring_payload (ring_id document) blind_context evidence.
End PetProtocol.

(** ** Collected responses

    The set of participants already accepted is threaded through. *)

Inductive PetCommitResponseVerification := CommitVerified (node_id : Z) (commitment : bytes) | CommitRejected.

Inductive PetRevealResponseVerification :=
  | RevealVerified (reveal : PetBlindSignedReveal)
  | RevealInvalidProof (observation : InvalidCryptoResponseObservation)
  | RevealRejected.

Inductive PetDecryptResponseVerification {G : Type} :=
  | DecryptVerified (decrypt : PetBlindSignedDecrypt) (share : PubShare G)
  | DecryptInvalidProof (observation : InvalidCryptoResponseObservation)
  | DecryptRejected.
#[global] Arguments PetDecryptResponseVerification : clear implicits.

Definition verify_commit_response (response : PetMessage) (ring_payload : RingPayload)
    (expected_context_digest : bytes) (expected_node_id : Z) (seen : gset Z) :
    PetCommitResponseVerification * gset Z :=
  match response with
  | PetCommitResponse _ _ context_digest from_node_id commitment =>
      if negb (from_node_id =? expected_node_id) then (CommitRejected, seen)
      else if bool_decide (from_node_id ∈ seen) then (CommitRejected, seen)
      else if bool_decide (node_key_for_id from_node_id (peer_node_keys ring_payload) = None) then (CommitRejected, seen)
      else if negb (bool_decide (context_digest = expected_context_digest)) then (CommitRejected, seen)
      else if negb (length commitment =? 32)%nat then (CommitRejected, seen)
      else (CommitVerified from_node_id commitment, {[from_node_id]} ∪ seen)
  | _ => (CommitRejected, seen)
  end.

Section Responses.
Context {F G S P : Type} {SF : ScalarField F} {CG : CurveGroup F G} {BL : Blst F G S P} {SHA : Sha2}.
Context {HX : Hex} {EC : Ecdsa}.

Definition verify_reveal_response (response : PetMessage) (ring_id : bytes) (ring_payload : RingPayload)
    (accused_peer_id : bytes) (tag : PetTag) (target_fingerprint : G) (all_commitments : list (Z * bytes))
    (selection_digest : bytes) (blind_context : PetBlindContext) (document_evidence : option ReportedDocumentEvidence)
    (seen : gset Z) : PetRevealResponseVerification * gset Z :=
  match response with
  | PetRevealResponse _ attempt_id context_digest response_selection_digest from_node_id commitment blinded_r
      blinded_diff commit_salt challenge proof signed_at response_signature =>
      if bool_decide (from_node_id ∈ seen) then (RevealRejected, seen)
      else match node_key_for_id from_node_id (peer_node_keys ring_payload) with
      | None => (RevealRejected, seen)
      | Some node_key =>
          if negb (bool_decide (response_selection_digest = selection_digest)) then (RevealRejected, seen)
          else match list_find (fun e => e.1 = from_node_id) all_commitments with
          | None => (RevealRejected, seen)
          | Some (_, (_, expected_commitment)) =>
              let statement := reveal_statement blind_context attempt_id context_digest selection_digest node_key
                from_node_id commitment blinded_r blinded_diff commit_salt challenge proof signed_at in
              match verify_one_reveal (F := F) statement response_signature ring_payload tag target_fingerprint
                      expected_commitment selection_digest with
              | Verified _ => (RevealVerified (MkPetBlindSignedReveal statement response_signature),
                               {[from_node_id]} ∪ seen)
              | Invalid _ => (RevealInvalidProof (invalid_pet_blind_reveal_observation ring_id node_key accused_peer_id
                  blind_context statement response_signature document_evidence), seen)
              | NotAttributable _ => (RevealRejected, seen)
              end
          end
      end
  | _ => (RevealRejected, seen)
  end.

Definition verify_decrypt_response (response : PetMessage) (ring_id : bytes) (ring_payload : RingPayload)
    (accused_peer_id : bytes) (pub_poly : PubPoly G) (expected_context_digest expected_certificate_digest
    expected_attempt_id expected_aggregate_r expected_aggregate_diff : bytes) (blind_context : PetBlindContext)
    (certificate : PetBlindCertificate) (document_evidence : option ReportedDocumentEvidence) (seen : gset Z) :
    PetDecryptResponseVerification G * gset Z :=
  match response with
  | PetDecryptResponse _ attempt_id context_digest certificate_digest from_node_id aggregate_r aggregate_diff partial
      challenge proof signed_at public_polynomial response_signature =>
      if bool_decide (from_node_id ∈ seen) then (DecryptRejected, seen)
      else match node_key_for_id from_node_id (peer_node_keys ring_payload) with
      | None => (DecryptRejected, seen)
      | Some node_key =>
          let statement := decrypt_statement blind_context attempt_id context_digest certificate_digest node_key
            from_node_id aggregate_r aggregate_diff partial challenge proof signed_at public_polynomial in
          match verify_node_message node_key (PetBlindDecryptStatement_canonical_bytes statement) response_signature with
          | Ok _ =>
              match verify_one_decrypt (F := F) statement response_signature ring_payload pub_poly
                      expected_context_digest expected_certificate_digest expected_attempt_id expected_aggregate_r
                      expected_aggregate_diff blind_context with
              | Verified share => (DecryptVerified (MkPetBlindSignedDecrypt statement response_signature) share,
                                   {[from_node_id]} ∪ seen)
              | Invalid _ => (DecryptInvalidProof (invalid_pet_blind_decrypt_observation ring_id node_key
                  accused_peer_id blind_context statement response_signature document_evidence certificate), seen)
              | NotAttributable _ => (DecryptRejected, seen)
              end
          | _ => (DecryptRejected, seen)
          end
      end
  | _ => (DecryptRejected, seen)
  end.
End Responses.
