(* ===== verification/SignHelpers.v ===== *)
(** * Helpers of the signing protocol

    [bin/orbis-node/src/sign/v0]: the errors ([error.rs]) and the buffer the
    nonce commitments of a signing round travel in ([helpers.rs]). *)
From S2P Require Import Prelude Primitives Codec.

Inductive SignError :=
  | SignUnauthorized (msg : string)
  | SignSerialization (msg : string)
  | SignDeserialization (msg : string)
  | SignNetworkConnection (msg : string)
  | SignNetworkCommunication (msg : string)
  | SignCrypto (msg : string)
  | SignVerificationFailed (msg : string)
  | SignRecoveryFailed (msg : string)
  | SignStorage (msg : string)
  | SignRingNotFound (msg : string)
  | SignInsufficientShares (got need : Z)
  | SignTimeout (msg : string)
  | SignInvalidInput (msg : string)
  | SignInvalidState (msg : string)
  | SignNonceState (msg : string)
  | SignProtocolError (msg : string)
  | SignReshareInProgress
  | SignGeneric (msg : string)
  | SignSystemTime (msg : string)
  | SignRequestTimestamp (msg : string)
  | SignRingState (msg : string)
  | SignAuthZ (msg : string).

Abbreviation sign_result := (res SignError).

Definition MAX_COMMITMENTS : Z := 256.
Definition MAX_COMMITMENT_SIZE : Z := 1024.
Definition MIN_ITEM_SIZE : Z := 9.

Section Commitments.
Context {T : Type} {TS : CryptoSerialize T} {TD : CryptoDeserialize T}.

Fixpoint write_commitments (commitments : list (Z * T)) : sign_result bytes :=
  match commitments with
  | [] => Ok []
  | (id, commitment) :: rest =>
      let? commitment_bytes := map_err (to_bytes commitment) (SignSerialization "Failed to serialize commitment: {}") in
      let? rest := write_commitments rest in
      Ok (to_le_bytes 4 id ++ to_le_bytes 4 (as_u32 (Z.of_nat (length commitment_bytes))) ++ commitment_bytes ++ rest)
  end.

Definition serialize_commitments (commitments : list (Z * T)) : sign_result bytes :=
  match commitments with
  | [] => Ok []
  | _ =>
      let? items := write_commitments commitments in
      Ok (to_le_bytes 4 (as_u32 (Z.of_nat (length commitments))) ++ items)
  end.

(** The loop; [rest] is what follows the offset. *)
Fixpoint read_commitments (count : nat) (rest : bytes) : sign_result (list (Z * T) * bytes) :=
  match count with
  | O => Ok ([], rest)
  | Datatypes.S count =>
      reject (Z.of_nat (length rest) <? 8) (SignDeserialization "Commitment bytes truncated") ;?
      let id := from_le_bytes (take 4 rest) in
      let commitment_len := from_le_bytes (take 4 (drop 4 rest)) in
      let rest := drop 8 rest in
      reject (MAX_COMMITMENT_SIZE <? commitment_len) (SignDeserialization "Commitment length {} exceeds maximum {}") ;?
      reject (Z.of_nat (length rest) <? commitment_len) (SignDeserialization "Commitment data truncated") ;?
      let? commitment := map_err (from_bytes (take (Z.to_nat commitment_len) rest))
        (SignDeserialization "Failed to deserialize commitment: {}") in
      let? '(commitments, rest) := read_commitments count (drop (Z.to_nat commitment_len) rest) in
      Ok ((id, commitment) :: commitments, rest)
  end.

Definition deserialize_commitments (b : bytes) : sign_result (list (Z * T)) :=
  match b with
  | [] => Ok []
  | _ =>
      reject (Z.of_nat (length b) <? 4) (SignDeserialization "Commitment bytes too short") ;?
      let count := from_le_bytes (take 4 b) in
      reject (MAX_COMMITMENTS <? count) (SignDeserialization "Commitment count {} exceeds maximum {}") ;?
      let remaining := Z.of_nat (length b) - 4 in
      reject (remaining / MIN_ITEM_SIZE <? count)
        (SignDeserialization "Commitment count {} exceeds what fits in {} remaining bytes") ;?
      let? '(commitments, rest) := read_commitments (Z.to_nat count) (drop 4 b) in
      reject (negb (bool_decide (rest = []))) (SignDeserialization "Trailing bytes: consumed {} of {} bytes") ;?
      Ok commitments
  end.

(** ** Round trip *)

Context (wf : T -> Prop) (round_trip : forall x, wf x -> exists b, to_bytes x = Ok b /\ from_bytes b = Ok x).

(** What the buffer can carry: 32-bit identifiers and commitments of one byte to
    [MAX_COMMITMENT_SIZE]. *)
Definition commitment_wf (c : Z * T) : Prop :=
  is_u32 c.1 /\ wf c.2 /\ forall b, to_bytes c.2 = Ok b -> 1 <= Z.of_nat (length b) <= MAX_COMMITMENT_SIZE.

Lemma take_drop_prefix {A} n (a b : list A) : length a = n -> take n (a ++ b) = a /\ drop n (a ++ b) = b.
Proof. intros <-. by rewrite take_app_length, drop_app_length. Qed.

Lemma read_write_commitments commitments rest :
  Forall commitment_wf commitments ->
  exists b, write_commitments commitments = Ok b /\ MIN_ITEM_SIZE * Z.of_nat (length commitments) <= Z.of_nat (length b) /\
    read_commitments (length commitments) (b ++ rest) = Ok (commitments, rest).
Proof.
  induction 1 as [|[id c] l (Hid & Hc & Hlen) _ IH]; [by exists []|]. cbn in Hid, Hc, Hlen.
  destruct IH as (items & Hw & Hl & Hr). destruct (round_trip c Hc) as (cb & Hto & Hfrom). specialize (Hlen cb Hto).
  cbn [write_commitments]. rewrite Hto, Hw. cbn [map_err res_bind]. eexists. split; [done|].
  assert (as_u32 (Z.of_nat (length cb)) = Z.of_nat (length cb)) as Eu.
  { unfold as_u32, MAX_COMMITMENT_SIZE in *. apply Z.mod_small. lia. }
  rewrite Eu. unfold MIN_ITEM_SIZE, MAX_COMMITMENT_SIZE in *.
  split; [rewrite !length_app, !length_to_le_bytes; cbn [length]; lia|].
  cbn [length read_commitments]. rewrite <- !app_assoc.
  rewrite (proj2 (Z.ltb_ge _ 8)) by (rewrite !length_app, !length_to_le_bytes; lia). cbn [reject res_bind].
  destruct (take_drop_prefix 4 (to_le_bytes 4 id) (to_le_bytes 4 (Z.of_nat (length cb)) ++ cb ++ items ++ rest)) as [-> ->];
    [by rewrite length_to_le_bytes|].
  destruct (take_drop_prefix 4 (to_le_bytes 4 (Z.of_nat (length cb))) (cb ++ items ++ rest)) as [-> _];
    [by rewrite length_to_le_bytes|].
  destruct (take_drop_prefix 8 (to_le_bytes 4 id ++ to_le_bytes 4 (Z.of_nat (length cb))) (cb ++ items ++ rest)) as [_ E];
    [by rewrite length_app, !length_to_le_bytes|]. rewrite <- app_assoc in E. rewrite E.
  rewrite !from_to_le_bytes by (cbn; unfold is_u32 in *; lia). unfold MAX_COMMITMENT_SIZE.
  rewrite (proj2 (Z.ltb_ge 1024 _)) by lia. cbn [reject res_bind].
  rewrite (proj2 (Z.ltb_ge _ (Z.of_nat (length cb)))) by (rewrite !length_app; lia). cbn [reject res_bind].
  rewrite Nat2Z.id, take_app_length, drop_app_length, Hfrom. cbn [map_err res_bind]. by rewrite Hr.
Qed.

Lemma commitments_round_trip commitments :
  Forall commitment_wf commitments -> Z.of_nat (length commitments) <= MAX_COMMITMENTS ->
  exists b, serialize_commitments commitments = Ok b /\ deserialize_commitments b = Ok commitments.
Proof.
  intros Hwf Hn. destruct commitments as [|c l]; [by exists []|].
  destruct (read_write_commitments (c :: l) [] Hwf) as (items & Hw & Hl & Hr). rewrite app_nil_r in Hr.
  unfold serialize_commitments. rewrite Hw. cbn [res_bind]. eexists. split; [done|]. set (n := length (c :: l)) in *.
  assert (as_u32 (Z.of_nat n) = Z.of_nat n) as -> by (unfold as_u32, MAX_COMMITMENTS in *; apply Z.mod_small; lia).
  unfold deserialize_commitments.
  destruct (take_drop_prefix 4 (to_le_bytes 4 (Z.of_nat n)) items) as [Ht Hd]; [by rewrite length_to_le_bytes|].
  destruct (to_le_bytes 4 (Z.of_nat n) ++ items) as [|x b] eqn:Eb.
  { apply (f_equal length) in Eb. rewrite length_app, length_to_le_bytes in Eb. done. }
  clearbody n. rewrite Ht, Hd, <- Eb, length_app, length_to_le_bytes. unfold MAX_COMMITMENTS, MIN_ITEM_SIZE in *.
  rewrite from_to_le_bytes by (cbn; lia). rewrite (proj2 (Z.ltb_ge _ 4)) by lia. rewrite (proj2 (Z.ltb_ge 256 _)) by lia.
  cbn [reject res_bind]. rewrite (proj2 (Z.ltb_ge _ _)) by (apply Z.div_le_lower_bound; lia). cbn [reject res_bind].
  by rewrite Nat2Z.id, Hr.
Qed.
End Commitments.
