(* ===== verification/PreNode.v ===== *)
(** * The PRE responder and the coordinator's checks

    [bin/orbis-node/src/pre/v0]: the messages ([messages.rs]), the resolution of
    a document and the bindings of a request ([helpers.rs]), the handler that
    releases a re-encryption share ([coordinator/handlers.rs]) and the check of
    the responses a coordinator collects ([coordinator/verification.rs]). *)
From S2P Require Import Prelude Algebra Interpolation Primitives Codec Common Dkg Context Sigma Shares Pre Pet.
From S2P Require Import ReportCodec ReportStatements ReportPet Evidence Identity NodeState Envelope Auth Routes Bulletin RingState PetNode Reporting Relay PetProtocol.

Abbreviation pre_result := (res PreError).

(** [T::name()] of the BLS12-381 backend. *)
Definition PRE_NAME : bytes := bstr "elgamal/bls12_381".
Definition PRE_REENCRYPT_RESPONSE_DOMAIN : bytes := bstr "orbis-pre-reencrypt-response-v1".

(** ** Messages *)

Record PreRequestContext := MkPreRequestContext {
  px_rdr_pk_bytes : bytes;
  px_rdr_pk_signature : ReaderAuthorizationSignature;
  px_object_id : bytes;
  px_token_string : bytes;
  px_derivation : option bytes;
  px_salt : option bytes;
  px_valid_window : option ValidWindow;
  px_relay_statement : option RelayRequestStatement;
  px_relay_signature : bytes;
  px_document : option DocumentPayload;
  px_audit_target_object_id : option bytes;
  px_pet_evidence : option PetBlindEvidence;
}.

Record ReencryptRequest := MkReencryptRequest {
  eq_request_id : bytes;
  eq_from_node_id : Z;
  eq_context : PreRequestContext;
}.

Inductive PreMessage :=
  | PreReencryptRequest (req : ReencryptRequest)
  | PreReencryptResponse (request_id : bytes) (from_node_id : Z) (share challenge proof : bytes) (signed_at : Z)
      (response_signature : bytes)
  | PreErrorMessage (request_id error : bytes).

Definition PreMessage_request_id (m : PreMessage) : bytes :=
  match m with
  | PreReencryptRequest req => eq_request_id req
  | PreReencryptResponse request_id _ _ _ _ _ _ => request_id
  | PreErrorMessage request_id _ => request_id
  end.

Definition PreMessage_sender_node_id (m : PreMessage) : option Z :=
  match m with PreReencryptResponse _ from_node_id _ _ _ _ _ => Some from_node_id | _ => None end.

(** [From<PetError> for PreError]. *)
Definition PreError_from_pet (error : PetError) : PreError :=
  match error with
  | PetAcp msg => PreAuthZ msg
  | PetMismatch => PreUnauthorized "PET check failed: tag does not match the audit target"
  | PetGenerationMismatch => PreReshareInProgress
  | PetSerialization msg => PreSerialization msg
  | PetDeserialization msg => PreDeserialization msg
  | PetNetworkConnection msg => PreNetworkConnection msg
  | PetNetworkCommunication msg => PreNetworkCommunication msg
  | PetCrypto msg => PreCrypto msg
  | PetInsufficientShares got need => PreInsufficientShares got need
  | PetTimeout msg => PreTimeout msg
  | PetInvalidInput msg => PreInvalidInput msg
  | PetInvalidState msg => PreInvalidState msg
  | PetStorage msg => PreStorage msg
  | PetProtocolError msg => PreProtocolError msg
  end.

Definition map_err_with {E E' A} (f : E -> E') (r : res E A) : res E' A :=
  match r with Ok a => Ok a | Err e => Err (f e) | Panic => Panic | OutOfFuel => OutOfFuel end.

(** The display of a point, which storage keys are made of. *)
Class PointDisplay (G : Type) := { point_to_string : G -> bytes }.

(** [serde_json] on a document post. *)
Class DocumentPosts (Post : Type) := { DocumentPayload_try_from : Post -> option DocumentPayload }.

(** What a call sees of the node: [pa_pet] is what the PET coordinator it builds
    sees, with the node's key, storage, chain and protocol version; the other
    fields are the readings the PRE handler takes itself. *)
Record PreApp {St Post : Type} := MkPreApp {
  pa_pet : PetApp St Post;
  pa_read_document : bytes -> option Post;
  pa_read_ring : bytes -> nat -> option Post;
  pa_ring_time : Z;
  pa_auth_time : option Z;
  pa_guard_now : Instant;
  pa_guard_unix : Z;
  pa_sign_time : option Z;
  pa_accepted : option bool;
  pa_anchor : option bytes;
}.
#[global] Arguments PreApp : clear implicits.

(** The state a handler changes: the replay guard and the reports in flight. *)
Record PreState := MkPreState {
  ps_seen : gmap bytes Instant;
  ps_reporting : ReportingState;
}.

Definition evidence_of (doc : DocumentPayload) : ReportedDocumentEvidence :=
  MkReportedDocumentEvidence (document doc) (proof doc) (policy_id doc) (resource doc) (permission doc) (tier doc)
    (pet_tag doc) (pet_tag_proof doc).

(** The data of a response check. *)
Record PreResponseReportContext := MkPreResponseReportContext {
  rx_chain_id : bytes;
  rx_ring_id : bytes;
  rx_ring_pk : bytes;
  rx_ring_state_sha256 : bytes;
  rx_protocol_version : Z;
  rx_request_id : bytes;
  rx_accused_node_key : bytes;
  rx_accused_peer_id : bytes;
  rx_object_id : bytes;
  rx_rdr_pk : bytes;
  rx_derivation : option bytes;
  rx_timestamp : option Z;
  rx_inline_document : option ReportedDocumentEvidence;
}.

Inductive PeerResponseVerification {G : Type} :=
  | PeerVerified (share : PubShare G)
  | PeerInvalidProof (observation : InvalidCryptoResponseObservation)
  | PeerRejected.
#[global] Arguments PeerResponseVerification : clear implicits.

(** ** Helpers *)

Definition validate_pre_claims (token : BearerToken PreClaims) (rdr_pk object_id : bytes)
    (derivation salt : option bytes) : pre_result unit :=
  reject (negb (bool_decide (claim_rdr_pk (claims token) = rdr_pk)))
    (PreUnauthorized "Token rdr_pk '{:?}' does not match request rdr_pk '{:?}'") ;?
  reject (negb (bool_decide (claim_object_id (claims token) = object_id)))
    (PreUnauthorized "Token object_id '{}' does not match request object_id '{}'") ;?
  reject (negb (bool_decide (claim_derivation (claims token) = derivation)))
    (PreUnauthorized "Token derivation '{:?}' does not match request derivation '{:?}'") ;?
  reject (negb (bool_decide (claim_salt (claims token) = salt)))
    (PreUnauthorized "Token salt '{:?}' does not match request salt '{:?}'").

Definition request_actor {C} `{JwtLib C} (token : BearerToken C) (trusted_relay_issuers : option (list bytes)) :
    res string bytes :=
  map_err (resolve_actor_id token (default [] trusted_relay_issuers)) "{}".

Section PreNode.
Context {F G S P : Type} {SF : ScalarField F} {CG : CurveGroup F G} {BL : Blst F G S P} {SHA : Sha2}.
Context {HX : Hex} {EC : Ecdsa} {DJ : DocumentJson} {PJ : PetJson} {AZ : Authz} {JW : JwtLib PreClaims}.
Context {HO : HashOrder} {PD : PointDisplay G}.
Context {St Post : Type} {LS : LocalStorage St} {BP : BulletinPosts Post} {DP : DocumentPosts Post}.

Definition fetch_document_payload (read : bytes -> option Post) (object_id : bytes) : pre_result DocumentPayload :=
  let? object_info := ok_or (read object_id) (PreStorage "Failed to read object '{}': {}") in
  ok_or (DocumentPayload_try_from object_info) (PreDeserialization "Failed to parse document payload: {}").

Definition resolve_document_and_ring_payloads (app : PreApp St Post) (object_id : bytes)
    (inline_document : option DocumentPayload) : pre_result (DocumentPayload * RingPayload) :=
  let? document_payload :=
    match inline_document with
    | Some document => Ok document
    | None => fetch_document_payload (pa_read_document app) object_id
    end in
  let? ring_payload := map_err (read_ring_for_route (pa_read_ring app (ring_id document_payload)) RingPayload_try_from
      (pa_ring_time app) (app_version (pa_pet app))) (PreProtocolError "{}") in
  check_document_id_binding object_id document_payload ;?
  Ok (document_payload, ring_payload).

Definition document_access (d : DocumentPayload) (object_id : bytes) (valid_window : option ValidWindow) :
    AccessCheckRequest :=
  MkAccessCheckRequest (policy_id d) (resource d) object_id (permission d) (tier d) (timestamp d) valid_window.

Definition check_policy_access (document_payload : DocumentPayload) (object_id issuer_id : bytes)
    (valid_window : option ValidWindow) : pre_result unit :=
  let? permission := ok_or (request_to_bytes (document_access document_payload object_id valid_window))
    (PreAuthZ "Error formatting access request: {}") in
  let? is_authorized := map_err (authz_check permission issuer_id) (PreAuthZ "Error in Authz request: {}") in
  reject (negb is_authorized) (PreUnauthorized "Access denied: policy check failed").

Definition decode_ring_pk (ring_pk_hex : bytes) : pre_result (bytes * G) :=
  let? ring_pk_bytes := ok_or (hex_decode ring_pk_hex) (PreInvalidInput "Invalid ring_pk hex encoding: {}") in
  let? ring_pk := map_err (G1Affine_from_bytes (F := F) ring_pk_bytes) (PreDeserialization "Failed to deserialize ring_pk: {}") in
  Ok (ring_pk_bytes, ring_pk).

Definition pre_deserialize_secret (document_json : bytes) : pre_result Secret :=
  ok_or (Secret_from_str document_json) (PreDeserialization "Failed to deserialize secret: {}").

Definition build_reader_authorization_context (chain_id ring_pk_hex : bytes) (token : BearerToken PreClaims)
    (resolved_actor object_id rdr_pk_bytes : bytes) (derivation salt : option bytes) (valid_window : option ValidWindow)
    (audit_target_object_id : option bytes) : pre_result ReaderAuthorizationContext :=
  reject (bool_decide (jwt_id token = []))
    (PreUnauthorized "JWT carries no jti; cannot bind a reader-authorization signature") ;?
  let? ring_pk := ok_or (hex_decode ring_pk_hex) (PreInvalidInput "Invalid ring_pk hex encoding: {}") in
  Ok (MkReaderAuthorizationContext chain_id ring_pk (issuer_id token) (subject_id token) resolved_actor (jwt_id token)
    (issued_time token) (expiration_time token) (not_before token) object_id rdr_pk_bytes derivation salt
    ((fun w => MkValidWindowBinding (window_start w) (window_end w)) <$> valid_window) audit_target_object_id).

Definition verify_encryption_binding (context : CiphertextContext) (secret : Secret) (proof_str : bytes) : pre_result unit :=
  let? proof := ok_or (EncryptionProof_try_from proof_str)
    (PreDeserialization "Failed to deserialize encryption proof: {}") in
  map_err (verify_encryption (F := F) (G := G) proof context secret)
    (PreCrypto "Policy binding verification failed: {}").

Definition load_by_ring_pk (storage : St) (ring_pk : G) : res string RingShareBundle :=
  load_by_ring_key storage (point_to_string ring_pk).

(** ** The responder *)

Section Handler.
Context (app : PreApp St Post).

(** The relay report of a refused request. *)
Definition relay_view (current_time : Z) : RelayView Post :=
  MkRelayView current_time (pa_accepted app) (pa_anchor app) (app_read_node (pa_pet app)) NodeInfo_try_from.

Definition report_relay_if_bound (ctx : PreRequestContext) (binding : RelayRequestBinding) (current_time : Z)
    (document_evidence : option ReportedDocumentEvidence) (s : PreState) : PreState :=
  match px_relay_statement ctx with
  | None => s
  | Some statement =>
      match validate_relay_request_binding statement binding with
      | Ok _ => MkPreState (ps_seen s) (report_unauthorized_relay (relay_view current_time) statement
          (px_relay_signature ctx) document_evidence (ps_reporting s))
      | _ => s
      end
  end.

(** What the handler establishes before any access check: the token and the
    actor it speaks for, the document and its ring, and the two transcripts the
    release is bound to. *)
Record Resolved := MkResolved {
  rs_current_time : Z;
  rs_token : BearerToken PreClaims;
  rs_document : DocumentPayload;
  rs_ring : RingPayload;
  rs_evidence : option ReportedDocumentEvidence;
  rs_actor_id : bytes;
  rs_ciphertext_context : CiphertextContext;
  rs_reader_auth_context : ReaderAuthorizationContext;
}.

Definition resolve_request (ctx : PreRequestContext) : pre_result Resolved :=
  let? current_time := ok_or (pa_auth_time app) (PreGeneric "Failed to get timestamp: {}") in
  let? token := map_err (resolve_jwt_did (px_token_string ctx) current_time MAX_TOKEN_LIFETIME_SECS MAX_JWT_BYTES
      JWT_CLOCK_SKEW_LEEWAY_SECS) (PreUnauthorized "JWT validation failed: {}") in
  validate_pre_claims token (px_rdr_pk_bytes ctx) (px_object_id ctx) (px_derivation ctx) (px_salt ctx) ;?
  let? '(document_payload, ring_payload) := resolve_document_and_ring_payloads app (px_object_id ctx) (px_document ctx) in
  let document_evidence := evidence_of <$> px_document ctx in
  let? actor_id := map_err (request_actor token (trusted_auth_relay_dids ring_payload)) (PreUnauthorized "{}") in
  let? ciphertext_context := build_ciphertext_context (ring_pk ring_payload) document_payload (px_salt ctx)
    (pet_pk ring_payload) in
  let? reader_auth_context := build_reader_authorization_context (app_chain_id (pa_pet app)) (ring_pk ring_payload)
    token actor_id (px_object_id ctx) (px_rdr_pk_bytes ctx) (px_derivation ctx) (px_salt ctx) (px_valid_window ctx)
    (px_audit_target_object_id ctx) in
  Ok (MkResolved current_time token document_payload ring_payload document_evidence actor_id ciphertext_context
    reader_auth_context).

Definition request_binding (req : ReencryptRequest) (r : Resolved) : RelayRequestBinding :=
  let ctx := eq_context req in
  MkRelayRequestBinding (rs_ring r) (ring_id (rs_document r)) (app_version (pa_pet app)) (app_chain_id (pa_pet app))
    (eq_request_id req) (bstr "pre") (rs_actor_id r) (px_object_id ctx) (issued_time (rs_token r)) (px_valid_window ctx)
    (ExactTimestamp (timestamp (rs_document r))) (eq_from_node_id req) (bool_decide (is_Some (rs_evidence r))).

(** A check whose refusal with [Unauthorized] is attributed to the relay. *)
Definition attributed (check : pre_result unit) (report : PreState -> PreState) : method PreState PreError unit := fun s =>
  match check with
  | Err (PreUnauthorized msg) => (Err (PreUnauthorized msg), report s)
  | other => (other, s)
  end.

(** The PET gate. *)
Definition pet_gate (ctx : PreRequestContext) (r : Resolved) (report : PreState -> PreState) :
    method PreState PreError unit :=
  if requires_pet (rs_ring r) then
    let! audit_target_object_id := m_lift (ok_or (px_audit_target_object_id ctx)
      (PreUnauthorized "ring requires PET but the request carried no audit_target_object_id")) in
    let! pet_evidence := m_lift (ok_or (px_pet_evidence ctx)
      (PreUnauthorized "ring requires PET but the request carried no pet_evidence")) in
    attributed (map_err_with PreError_from_pet (verify_pet_admission (F := F) (G := G) (pa_pet app) (rs_document r)
      (px_salt ctx) (px_object_id ctx) (rs_evidence r) audit_target_object_id (rs_actor_id r) (px_valid_window ctx)
      (rs_ring r) pet_evidence)) report
  else m_ret tt.

(** The replay guard. *)
Definition record_token (token : BearerToken PreClaims) : method PreState PreError unit := fun s =>
  let '(outcome, seen) := check_and_record (jwt_id token) (expiration_time token) (pa_guard_now app) (pa_guard_unix app)
    (ps_seen s) in
  (match outcome with Ok _ => Ok tt | _ => Err (PreUnauthorized "{}") end, MkPreState seen (ps_reporting s)).

Definition response_statement (chain_id ring_id ring_pk ring_state_sha256 : bytes) (protocol_version : Z)
    (request_id : bytes) (signed_at : Z) (responder_node_key object_id rdr_pk : bytes) (derivation : option bytes)
    (from_node_id : Z) (share challenge proof : bytes) (timestamp : option Z) (document_inline : bool) :
    PreReencryptResponseStatement :=
  MkPreReencryptResponseStatement PRE_REENCRYPT_RESPONSE_DOMAIN chain_id ring_id ring_pk ring_state_sha256
    protocol_version request_id signed_at responder_node_key (bstr "pre") object_id rdr_pk derivation from_node_id share
    challenge proof PRE_NAME timestamp document_inline.

(** The release itself. *)
Definition release_share (fuel : nat) (req : ReencryptRequest) (r : Resolved) (rdr_pk : G) (rng : Rng F) :
    pre_result (option PreMessage * Rng F) :=
  let ctx := eq_context req in
  let? secret := pre_deserialize_secret (document (rs_document r)) in
  let? '(_, ring_key) := decode_ring_pk (ring_pk (rs_ring r)) in
  let? bundle := map_err (load_by_ring_pk (app_storage (pa_pet app)) ring_key)
    (PreStorage "Failed to load share bundle: {}") in
  let? pri_share := map_err (PriShare_from_bytes (share_bytes bundle))
    (PreDeserialization "Failed to deserialize final share: {}") in
  let node_id := pri_i pri_share in
  verify_encryption_binding (rs_ciphertext_context r) secret (proof (rs_document r)) ;?
  let? '(reply, rng1) := map_err (reencrypt fuel (MkDistKeyShare pri_share) secret rdr_pk (rs_reader_auth_context r)
      (px_rdr_pk_signature ctx) rng) (PreCrypto "Reencryption failed: {}") in
  let? share := map_err (G1Affine_to_bytes (pub_v (rr_share reply))) (PreSerialization "Failed to serialize share: {}") in
  let? challenge := map_err (Fr_to_bytes (rr_challenge reply)) (PreSerialization "Failed to serialize challenge: {}") in
  let? proof := map_err (Fr_to_bytes (rr_proof reply)) (PreSerialization "Failed to serialize proof: {}") in
  let? signed_at := ok_or (pa_sign_time app) (PreSystemTime "Failed to get timestamp: {}") in
  let statement := response_statement (app_chain_id (pa_pet app)) (ring_id (rs_document r)) (ring_pk (rs_ring r))
    (ring_state_sha256 (rs_ring r)) (app_version (pa_pet app)) (eq_request_id req) signed_at (app_node_key (pa_pet app))
    (px_object_id ctx) (px_rdr_pk_bytes ctx) (px_derivation ctx) node_id share challenge proof (timestamp (rs_document r))
    (bool_decide (is_Some (rs_evidence r))) in
  let? stored := map_err (get_encrypted (app_storage (pa_pet app)) NodeSigningKey)
    (PreStorage "Failed to read node signing key: {}") in
  let? signing_key := ok_or stored (PreStorage "Node signing key is not configured") in
  ensure (utf8_valid signing_key) (PreStorage "Stored node signing key is not UTF-8: {}") ;?
  let? response_signature := map_err (sign_node_message_with_hex_key signing_key
      (PreReencryptResponseStatement_canonical_bytes statement)) (PreCrypto "Failed to sign PRE response: {}") in
  Ok (Some (PreReencryptResponse (eq_request_id req) node_id share challenge proof signed_at response_signature), rng1).

Definition handle_reencrypt_request (fuel : nat) (req : ReencryptRequest) (rng : Rng F) :
    method PreState PreError (option PreMessage * Rng F) :=
  let ctx := eq_context req in
  let! r := m_lift (resolve_request ctx) in
  let report := report_relay_if_bound ctx (request_binding req r) (rs_current_time r) (rs_evidence r) in
  attributed (check_policy_access (rs_document r) (px_object_id ctx) (rs_actor_id r) (px_valid_window ctx)) report ;!
  pet_gate ctx r report ;!
  let! rdr_pk := m_lift (map_err (G1Affine_from_bytes (F := F) (px_rdr_pk_bytes ctx))
    (PreDeserialization "Failed to deserialize reader public key: {}")) in
  m_lift (map_err (verify_reader_authorization (F := F) (G := G) rdr_pk (rs_reader_auth_context r) (px_rdr_pk_signature ctx))
    (PreUnauthorized "Invalid reader authorization: {}")) ;!
  record_token (rs_token r) ;!
  m_lift (release_share fuel req r rdr_pk rng).

Definition pre_handle_message (fuel : nat) (message : PreMessage) (rng : Rng F) :
    method PreState PreError (option PreMessage * Rng F) :=
  match message with
  | PreReencryptRequest req => handle_reencrypt_request fuel req rng
  | _ => m_ret (None, rng)
  end.
End Handler.

(** ** Collected responses *)

Definition response_in_window (now signed_at : Z) : bool :=
  negb ((saturating_add now CHAIN_BLOCK_GRACE_SECS <? signed_at) || (REPORT_TTL_SECS <? saturating_sub now signed_at)).

Definition context_statement (c : PreResponseReportContext) (from_node_id : Z) (share challenge proof : bytes)
    (signed_at : Z) : PreReencryptResponseStatement :=
  response_statement (rx_chain_id c) (rx_ring_id c) (rx_ring_pk c) (rx_ring_state_sha256 c) (rx_protocol_version c)
    (rx_request_id c) signed_at (rx_accused_node_key c) (rx_object_id c) (rx_rdr_pk c) (rx_derivation c) from_node_id
    share challenge proof (rx_timestamp c) (bool_decide (is_Some (rx_inline_document c))).

Definition report_invalid_pre_response (c : PreResponseReportContext) (statement : PreReencryptResponseStatement)
    (response_signature : bytes) (signed_at from_node_id : Z) (seen : gset Z) : PeerResponseVerification G * gset Z :=
  (PeerInvalidProof (MkInvalidCryptoResponseObservation (rx_ring_id c) (rx_accused_node_key c) (rx_accused_peer_id c)
     (u64_saturating_sub signed_at CHAIN_BLOCK_GRACE_SECS) (EvPre statement response_signature) (rx_inline_document c)
     None None), {[from_node_id]} ∪ seen).

(** [now] is the system clock, [0] when it cannot be read. *)
Definition verify_peer_response (now : Z) (response : PreMessage) (rdr_pk : G) (pub_poly : PubPoly G) (enc_cmt : G)
    (derivation : option bytes) (expected_node_id : Z) (c : PreResponseReportContext) (seen : gset Z) :
    PeerResponseVerification G * gset Z :=
  match response with
  | PreReencryptResponse _ from_node_id share_bytes challenge_bytes proof_bytes signed_at response_signature =>
      if bool_decide (from_node_id ∈ seen) then (PeerRejected, seen)
      else if negb (from_node_id =? expected_node_id) then (PeerRejected, seen)
      else if negb (response_in_window now signed_at) then (PeerRejected, seen)
      else
        let statement := context_statement c from_node_id share_bytes challenge_bytes proof_bytes signed_at in
        match verify_node_message (rx_accused_node_key c) (PreReencryptResponseStatement_canonical_bytes statement)
                response_signature with
        | Ok _ =>
            match G1Affine_from_bytes (F := F) share_bytes, Fr_from_bytes (F := F) challenge_bytes,
                  Fr_from_bytes (F := F) proof_bytes with
            | Ok share_v, Ok challenge, Ok proof =>
                let reply := MkReencryptReply (MkPubShare from_node_id share_v) challenge proof in
                match verify rdr_pk pub_poly enc_cmt reply derivation with
                | Ok _ => (PeerVerified (rr_share reply), {[from_node_id]} ∪ seen)
                | _ => report_invalid_pre_response c statement response_signature signed_at from_node_id seen
                end
            | _, _, _ => report_invalid_pre_response c statement response_signature signed_at from_node_id seen
            end
        | _ => (PeerRejected, seen)
        end
  | _ => (PeerRejected, seen)
  end.
End PreNode.
