(* ===== verification/Registry.v ===== *)
(** * Validation of fault reports

    [bin/orbis-node/src/reporting/v0/registry]: what a node checks before it
    signs a report about another node, its own reports included.  The checks the
    handlers share ([common.rs]), the offline report ([node_offline.rs]), the
    evidence of an invalid PRE, signing or PET answer and of a dealer's invalid
    share, invalid refresh or conflicting commitments ([invalid_crypto]), the
    report of an unauthorized relay ([unauthorized_request.rs]), the registry
    ([mod.rs]) and the pipeline that prepares a report and validates it
    ([pipeline.rs]).  The validators of the evidence about the public channel of
    a DKG are a parameter. *)
From S2P Require Import Prelude Algebra Interpolation Primitives Pairing Codec Common WireCommitment Dkg Context Sigma Shares Pre Pet Signer.
From S2P Require Import ReportCodec ReportStatements ReportDkg ReportPet Evidence Identity NodeState Envelope Auth Routes Bulletin RingState PetNode Reporting Relay PetProtocol PreNode SignHelpers.

Definition DKG_NAME : bytes := bstr "dkg/bls12_381".
Definition DKG_COMMITMENT_DOMAIN : bytes := bstr "orbis-dkg-commitment-v1".
Definition DKG_SHARE_DOMAIN : bytes := bstr "orbis-dkg-share-v1".
Definition SIGN_RESPONSE_DOMAIN : bytes := bstr "orbis-sign-response-v1".

#[global] Instance CommitteeScope_eq_dec : EqDecision CommitteeScope.
Proof. solve_decision. Defined.

(** ** Contexts *)

Inductive ReportValidationMode := ReporterObservation | IndependentSigner (perform_health_probe : bool).

(** A key derivation on the bulletin, and its parser. *)
Record KeyDerivation := MkKeyDerivation {
  kd_ring_id : bytes;
  kd_derivation : bytes;
  kd_policy_id : bytes;
  kd_resource : bytes;
  kd_permission : bytes;
}.

Class DerivationPosts (Post : Type) := { KeyDerivation_try_from : Post -> option KeyDerivation }.

(** [Authz::anchor_time] and [Authz::check_at]. *)
Class AuthzHistory := {
  authz_anchor_time : bytes -> res string Z;
  authz_check_at : bytes -> bytes -> bytes -> res string bool;
}.

(** What a validator sees: [vc_probe] are the answers to the health probes, or
    [None] when they do not finish in time. *)
Record ReportValidationContext {St Post : Type} := MkReportValidationContext {
  vc_local_node_key : bytes;
  vc_requester_peer_id : option bytes;
  vc_local_peer_id : bytes;
  vc_probe : option (nat -> bool);
  vc_chain_id : bytes;
  vc_read_ring : bytes -> option Post;
  vc_read_node : bytes -> option Post;
  vc_read_document : bytes -> option Post;
  vc_read_derivation : bytes -> option Post;
  vc_storage : St;
  vc_version : Z;
  vc_now : Z;
  vc_mode : ReportValidationMode;
  vc_inline_document : option ReportedDocumentEvidence;
  vc_pet_blind_context : option PetBlindContext;
  vc_pet_blind_certificate : option PetBlindCertificate;
}.
#[global] Arguments ReportValidationContext : clear implicits.

Record CommitteeView := MkCommitteeView { cv_peer_node_keys : list bytes; cv_threshold : Z }.

Record PreparedReport := MkPreparedReport {
  prep_envelope : ReportEnvelope;
  prep_ring_config : RingConfig;
  prep_excluded_node_keys : gset bytes;
  prep_inline_document : option ReportedDocumentEvidence;
  prep_pet_blind_context : option PetBlindContext;
  prep_pet_blind_certificate : option PetBlindCertificate;
}.

Definition committee_for_scope (ring : RingPayload) (scope : CommitteeScope) : report_result CommitteeView :=
  match scope with
  | Current => Ok (MkCommitteeView (peer_node_keys ring) (rp_threshold ring))
  | PendingNew =>
      reject (bool_decide (new_peer_node_keys ring = None) && bool_decide (new_threshold ring = None))
        (Unauthorized "pending-new committee scope requires a pending reshare") ;?
      Ok (MkCommitteeView (default (peer_node_keys ring) (new_peer_node_keys ring))
        (default (rp_threshold ring) (new_threshold ring)))
  end.

Definition validate_report_route_version_at_observed_at (envelope : ReportEnvelope) (ring : RingPayload)
    (route_version : Z) : report_result Z :=
  let? effective := map_err (effective_version (upgrade_info ring) (re_observed_at envelope)) (InvalidReport "{error}") in
  reject (negb (effective =? route_version)) (Unauthorized "report protocol version {} is not effective for ring {}") ;?
  Ok effective.

(** Every kind of evidence carries its own copy of the version. *)
Definition require_version (claimed effective : Z) (message : string) : report_result unit :=
  reject (negb (claimed =? effective)) (Unauthorized message).

Definition validate_evidence_anchor (signed_at observed_at : Z) : report_result unit :=
  reject ((signed_at <? CHAIN_BLOCK_GRACE_SECS) || negb (observed_at =? signed_at - CHAIN_BLOCK_GRACE_SECS))
    (Unauthorized "report envelope is not anchored to the evidence timestamp").

Record InvalidCryptoStatementPrologue := MkPrologue {
  pl_label : string;
  pl_domain : bytes;
  pl_expected_domain : bytes;
  pl_chain_id : bytes;
  pl_ring_id : bytes;
  pl_ring_pk : bytes;
  pl_ring_state_sha256 : bytes;
  pl_request_id : bytes;
  pl_signed_at : Z;
  pl_responder_node_key : bytes;
  pl_check_anchor : bool;
}.

Definition is_valid_invalid_crypto_pre_origin (origin_protocol : bytes) : bool := bool_decide (origin_protocol = bstr "pre").

Definition is_valid_invalid_crypto_sign_origin (origin_protocol : bytes) : bool :=
  bool_decide (origin_protocol ∈ [bstr "sign"; bstr "pss_refresh"; bstr "pss_reshare"; bstr "report"]).

(** ** Health probes *)

Definition HEALTH_PROBE_ATTEMPTS : nat := 3.

Fixpoint probe_loop (probe : nat -> bool) (attempt more : nat) : report_result unit :=
  match more with
  | O => Ok tt
  | Datatypes.S more => if probe attempt then Err TargetReachable else probe_loop probe (Datatypes.S attempt) more
  end.

Definition require_peer_offline (probe : option (nat -> bool)) : report_result unit :=
  match probe with
  | Some probe => probe_loop probe 0 HEALTH_PROBE_ATTEMPTS
  | None => Err HealthProbeInconclusive
  end.

Section Registry.
Context {F G S P Signature Share NonceCommitment SigningState : Type} {SF : ScalarField F} {CG : CurveGroup F G}.
Context {BL : Blst F G S P} {TS : ThresholdSigner F G Signature Share NonceCommitment SigningState} {SHA : Sha2}.
Context {HX : Hex} {EC : Ecdsa} {DJ : DocumentJson} {PJ : PetJson} {SJ : StateJson} {AZ : Authz} {AH : AuthzHistory}.
Context {PD : PointDisplay G} {St Post : Type} {LS : LocalStorage St} {BP : BulletinPosts Post}.
Context {DP : DocumentPosts Post} {KP : DerivationPosts Post}.
Abbreviation context_t := (ReportValidationContext St Post).

(** ** Checks the handlers share *)

Definition validate_ring_and_membership_for_scopes (envelope : ReportEnvelope) (ring : RingPayload)
    (accused_committee_scope signing_committee_scope : CommitteeScope) (report_label : string) :
    report_result CommitteeView :=
  reject (bool_decide (ring_pk ring = [])) (Unauthorized (report_label +:+ " reports require a finalized ring")) ;?
  reject (negb (bool_decide (ring_pk ring = re_ring_pk envelope))) (Unauthorized "report ring public key is stale") ;?
  reject (negb (bool_decide (ring_state_sha256 ring = re_ring_state_sha256 envelope)))
    (Unauthorized "report ring-state digest is stale") ;?
  let? accused_committee := committee_for_scope ring accused_committee_scope in
  let? signing_committee := committee_for_scope ring signing_committee_scope in
  let members := cv_peer_node_keys signing_committee in
  let size := Z.of_nat (length members) in
  reject (cv_threshold signing_committee <? 2) (Unauthorized (report_label +:+ " reporting requires ring threshold >= 2")) ;?
  reject (size <? cv_threshold signing_committee)
    (Unauthorized (report_label +:+ " reporting threshold exceeds signing committee size")) ;?
  reject (bool_decide (re_accused_node_key envelope ∈ members)
          && (u64_saturating_sub size 1 <? cv_threshold signing_committee))
    (Unauthorized "ring threshold cannot be met while excluding the accused node") ;?
  reject (negb (bool_decide (re_reporter_node_key envelope ∈ members)))
    (Unauthorized "reporter node {} is not in the signing committee") ;?
  reject (negb (bool_decide (re_accused_node_key envelope ∈ cv_peer_node_keys accused_committee)))
    (Unauthorized "accused node {} is not in the accused committee") ;?
  Ok signing_committee.

Definition read_node_info (read : bytes -> option Post) (node_key : bytes) : report_result NodeInfo :=
  let? post := ok_or (read node_key) (BulletinError "{}") in
  ok_or (NodeInfo_try_from post) (InvalidReport "{}").

Definition read_ring (read : bytes -> option Post) (ring_id : bytes) : report_result RingPayload :=
  let? post := ok_or (read ring_id) (BulletinError "{}") in
  ok_or (RingPayload_try_from post) (InvalidReport "{}").

Definition read_document (context : context_t) (object_id : bytes) : report_result DocumentPayload :=
  let? post := ok_or (vc_read_document context object_id) (BulletinError "{}") in
  ok_or (DocumentPayload_try_from post) (InvalidReport "{}").

Definition validate_node_routes (envelope : ReportEnvelope) (context : context_t) : report_result unit :=
  let? accused_info := read_node_info (vc_read_node context) (re_accused_node_key envelope) in
  reject (negb (bool_decide (ni_peer_id accused_info = re_accused_peer_id envelope)))
    (Unauthorized "accused peer ID no longer matches NodeInfo") ;?
  let? reporter_info := read_node_info (vc_read_node context) (re_reporter_node_key envelope) in
  let reporter_peer_hex := hex_encode (default (vc_local_peer_id context) (vc_requester_peer_id context)) in
  reject (negb (bool_decide (extract_node_part (ni_peer_id reporter_info) = reporter_peer_hex)))
    (Unauthorized "report coordinator peer does not match reporter NodeInfo").

Definition validate_local_signer (envelope : ReportEnvelope) (context : context_t) (signing_committee : CommitteeView)
    (report_label : string) : report_result unit :=
  reject (bool_decide (vc_local_node_key context = re_accused_node_key envelope))
    (Unauthorized ("the accused node cannot sign its own " +:+ report_label +:+ " report")) ;?
  reject (negb (bool_decide (vc_local_node_key context ∈ cv_peer_node_keys signing_committee)))
    (Unauthorized ("local signer is not in the " +:+ report_label +:+ " report ring")).

Definition validate_invalid_crypto_statement_prologue (envelope : ReportEnvelope) (context : context_t)
    (statement : InvalidCryptoStatementPrologue) : report_result unit :=
  let label := pl_label statement in
  reject (negb (bool_decide (pl_domain statement = pl_expected_domain statement)))
    (InvalidReport ("unexpected " +:+ label +:+ " domain {}")) ;?
  reject (negb (bool_decide (pl_chain_id statement = re_chain_id envelope))
          || negb (bool_decide (re_chain_id envelope = vc_chain_id context)))
    (Unauthorized (label +:+ " chain ID does not match report chain ID")) ;?
  reject (negb (bool_decide (pl_ring_id statement = re_ring_id envelope))
          || negb (bool_decide (pl_ring_pk statement = re_ring_pk envelope))
          || negb (bool_decide (pl_ring_state_sha256 statement = re_ring_state_sha256 envelope)))
    (Unauthorized (label +:+ " ring binding does not match report envelope")) ;?
  reject (negb (bool_decide (pl_request_id statement = re_session_id envelope)))
    (Unauthorized (label +:+ " request_id does not match report session_id")) ;?
  (if pl_check_anchor statement then validate_evidence_anchor (pl_signed_at statement) (re_observed_at envelope) else Ok tt) ;?
  reject (negb (bool_decide (pl_responder_node_key statement = re_accused_node_key envelope)))
    (Unauthorized (label +:+ " responder does not match accused node")).

(** Evidence of an inline document is supplied by the reporter, and bound by the
    identifier the accused signed. *)
Definition evidence_document (ring_id : bytes) (timestamp : option Z) (e : ReportedDocumentEvidence) : DocumentPayload :=
  MkDocumentPayload ring_id (rde_document e) (rde_proof e) (rde_policy_id e) (rde_resource e) (rde_permission e)
    (rde_tier e) timestamp (rde_pet_tag e) (rde_pet_tag_proof e).

Definition require_inline_document_evidence (context : context_t) (ring_id object_id : bytes) (timestamp : option Z) :
    report_result ReportedDocumentEvidence :=
  let? evidence := ok_or (vc_inline_document context)
    (InvalidReport "statement marks the request inline but no inline document evidence was provided") in
  let? expected_object_id := map_err (generate_document_id (evidence_document ring_id timestamp evidence))
    (InvalidReport "inline document evidence is malformed: {e}") in
  reject (negb (bool_decide (expected_object_id = object_id)))
    (InvalidReport "inline document evidence does not match object_id") ;?
  Ok evidence.

Definition reject_unexpected_inline_document_evidence (context : context_t) : report_result unit :=
  reject (bool_decide (is_Some (vc_inline_document context)))
    (InvalidReport "statement does not mark the request inline but inline document evidence was provided").

Definition require_pet_blind_context (context : context_t) : report_result PetBlindContext :=
  ok_or (vc_pet_blind_context context)
    (InvalidReport "PET blind-equality-test report is missing its out-of-band PetBlindContext").

(** The accused's position in a committee is the one the statement claims. *)
Definition require_node_id (keys : list bytes) (accused : bytes) (claimed : Z) (missing mismatch : string) : report_result unit :=
  let? expected := ok_or (determine_session_node_id accused keys) (Unauthorized missing) in
  reject (negb (claimed =? expected)) (Unauthorized mismatch).

(** ** Polynomials of the ring *)

Definition load_from_ring_pk_hex (storage : St) (ring_pk_hex : bytes) : res string RingShareBundle :=
  let? b := ok_or (hex_decode ring_pk_hex) "Invalid ring_pk_hex: {}" in
  let? ring_pk := map_err (G1Affine_from_bytes (F := F) b) "Failed to deserialize ring_pk: {}" in
  load_by_ring_pk storage ring_pk.

Definition recent_from_ring_pk_hex (storage : St) (ring_pk_hex : bytes) (now : Z) : list bytes :=
  match hex_decode ring_pk_hex with
  | None => []
  | Some b =>
      match G1Affine_from_bytes (F := F) (G := G) b with
      | Ok ring_pk => recent storage (RingPolyHistoryKey (point_to_string ring_pk)) now
      | _ => []
      end
  end.

Definition decode_history_entry (hex_poly : bytes) : option (PubPoly G) :=
  b ← hex_decode hex_poly;
  match PubPoly_from_bytes (F := F) b with Ok p => Some p | _ => None end.

Definition candidate_public_polynomials (context : context_t) (ring_pk_hex : bytes) : report_result (list (PubPoly G)) :=
  let? bundle := map_err (load_from_ring_pk_hex (vc_storage context) ring_pk_hex) (InvalidReport "{}") in
  let? current_bytes := ok_or (hex_decode (public_polynomial bundle)) (InvalidReport "{}") in
  let? current := map_err (PubPoly_from_bytes (F := F) current_bytes)
    (InvalidReport "failed to deserialize public polynomial: {error}") in
  Ok (current :: omap decode_history_entry (recent_from_ring_pk_hex (vc_storage context) ring_pk_hex (vc_now context))).

(** [Result::is_ok]. *)
Definition is_ok {E A} (r : res E A) : bool := match r with Ok _ => true | _ => false end.

(** ** PRE answers *)

Definition validate_pre_reencrypt_response_statement_shape (envelope : ReportEnvelope)
    (statement : PreReencryptResponseStatement) (response_signature : bytes) (context : context_t) : report_result unit :=
  validate_invalid_crypto_statement_prologue envelope context (MkPrologue "PRE response" (pr_domain statement)
    PRE_REENCRYPT_RESPONSE_DOMAIN (pr_chain_id statement) (pr_ring_id statement) (pr_ring_pk statement)
    (pr_ring_state_sha256 statement) (pr_request_id statement) (pr_signed_at statement) (pr_responder_node_key statement)
    true) ;?
  reject (negb (is_valid_invalid_crypto_pre_origin (pr_origin_protocol statement)))
    (InvalidReport "unsupported PRE response origin protocol {}") ;?
  reject (bool_decide (trim (pr_object_id statement) = [])) (InvalidReport "PRE response object_id cannot be empty") ;?
  reject (negb (bool_decide (pr_crypto_backend statement = PRE_NAME)))
    (Unauthorized "PRE response crypto backend {} does not match local backend {}") ;?
  reject (bool_decide (response_signature = [])) (InvalidReport "PRE response signature cannot be empty").

(** The secret the answer was given for. *)
Definition reported_secret (statement : PreReencryptResponseStatement) (context : context_t) : report_result Secret :=
  if pr_document_inline statement then
    let? evidence := require_inline_document_evidence context (pr_ring_id statement) (pr_object_id statement)
      (pr_timestamp statement) in
    map_err (pre_deserialize_secret (rde_document evidence)) (InvalidReport "{}")
  else
    reject_unexpected_inline_document_evidence context ;?
    let? document := read_document context (pr_object_id statement) in
    reject (negb (bool_decide (ring_id document = pr_ring_id statement)))
      (Unauthorized "PRE response object is not bound to the report ring") ;?
    map_err (pre_deserialize_secret (Bulletin.document document)) (InvalidReport "{}").

Definition require_pre_proof_verification_failure (statement : PreReencryptResponseStatement) (context : context_t) :
    report_result unit :=
  let? secret := reported_secret statement context in
  let? rdr_pk := map_err (G1Affine_from_bytes (F := F) (pr_rdr_pk statement))
    (InvalidReport "failed to deserialize reader public key: {error}") in
  let? enc_cmt := map_err (G1Affine_from_bytes (F := F) (enc_cmt secret))
    (InvalidReport "failed to deserialize encrypted commitment: {error}") in
  match G1Affine_from_bytes (F := F) (pr_share statement), Fr_from_bytes (F := F) (pr_challenge statement),
        Fr_from_bytes (F := F) (pr_proof statement) with
  | Ok share, Ok challenge, Ok proof =>
      let? candidates := candidate_public_polynomials context (pr_ring_pk statement) in
      let reply := MkReencryptReply (MkPubShare (pr_from_node_id statement) share) challenge proof in
      reject (existsb (fun pub_poly => is_ok (Pre.verify rdr_pk pub_poly enc_cmt reply (pr_derivation statement))) candidates)
        (Unauthorized "reported PRE proof verifies successfully under the current or a recently retired ring polynomial")
  | _, _, _ => Ok tt
  end.

Definition validate_pre_evidence (envelope : ReportEnvelope) (context : context_t) (ring : RingPayload)
    (statement : PreReencryptResponseStatement) (response_signature : bytes) : report_result unit :=
  validate_pre_reencrypt_response_statement_shape envelope statement response_signature context ;?
  let? effective := validate_report_route_version_at_observed_at envelope ring (vc_version context) in
  require_version (pr_protocol_version statement) effective
    "PRE response protocol version {} does not match effective ring version {}" ;?
  let? signing_committee := validate_ring_and_membership_for_scopes envelope ring Current Current "PRE invalid-proof" in
  validate_node_routes envelope context ;?
  validate_local_signer envelope context signing_committee "PRE invalid-proof" ;?
  require_node_id (peer_node_keys ring) (re_accused_node_key envelope) (pr_from_node_id statement)
    "accused node is not in the current ring node-id map" "PRE response from_node_id {} does not match accused node_id {}" ;?
  map_err (verify_node_message (re_accused_node_key envelope) (PreReencryptResponseStatement_canonical_bytes statement)
    response_signature) (Unauthorized "invalid PRE response signature: {}") ;?
  require_pre_proof_verification_failure statement context.

(** ** Signing answers *)

Definition validate_sign_response_statement_shape (envelope : ReportEnvelope) (statement : SignResponseStatement)
    (response_signature : bytes) (context : context_t) : report_result unit :=
  validate_invalid_crypto_statement_prologue envelope context (MkPrologue "Sign response" (sr_domain statement)
    SIGN_RESPONSE_DOMAIN (sr_chain_id statement) (sr_ring_id statement) (sr_ring_pk statement)
    (sr_ring_state_sha256 statement) (sr_request_id statement) (sr_signed_at statement) (sr_responder_node_key statement)
    true) ;?
  reject (negb (is_valid_invalid_crypto_sign_origin (sr_origin_protocol statement)))
    (InvalidReport "unsupported Sign response origin protocol {}") ;?
  reject (negb (bool_decide (sr_crypto_backend statement = signer_name (ThresholdSigner := TS))))
    (Unauthorized "Sign response crypto backend {} does not match local backend {}") ;?
  reject (bool_decide (sr_message statement = [])) (InvalidReport "Sign response message cannot be empty") ;?
  reject (bool_decide (sr_sig_share statement = [])) (InvalidReport "Sign response sig_share cannot be empty") ;?
  reject (bool_decide (response_signature = [])) (InvalidReport "Sign response signature cannot be empty").

Definition require_sign_share_verification_failure (statement : SignResponseStatement) (context : context_t) :
    report_result unit :=
  let? candidates := candidate_public_polynomials context (sr_ring_pk statement) in
  match @from_bytes _ share_deserialize (sr_sig_share statement) with
  | Ok sig_share_v =>
      let sig_share := MkPubShare (sr_from_node_id statement) sig_share_v in
      let? all_commitments := map_err (deserialize_commitments (TD := nonce_deserialize) (sr_signing_commitments statement))
        (InvalidReport "failed to deserialize Sign commitments: {error}") in
      reject (existsb (fun pub_poly => is_ok (signer_verify_share (sr_message statement) pub_poly sig_share all_commitments
          (sr_derivation statement) (sr_metadata statement))) candidates)
        (Unauthorized "reported Sign share verifies successfully under the current or a recently retired ring polynomial")
  | _ => Ok tt
  end.

Definition validate_sign_evidence (envelope : ReportEnvelope) (context : context_t) (ring : RingPayload)
    (statement : SignResponseStatement) (response_signature : bytes) : report_result unit :=
  validate_sign_response_statement_shape envelope statement response_signature context ;?
  let? effective := validate_report_route_version_at_observed_at envelope ring (vc_version context) in
  require_version (sr_protocol_version statement) effective
    "Sign response protocol version {} does not match effective ring version {}" ;?
  let? signing_committee := validate_ring_and_membership_for_scopes envelope ring (sr_accused_committee_scope statement)
    (sr_signing_committee_scope statement) "Sign invalid-response" in
  validate_node_routes envelope context ;?
  validate_local_signer envelope context signing_committee "Sign invalid-response" ;?
  let? accused_committee := committee_for_scope ring (sr_accused_committee_scope statement) in
  require_node_id (cv_peer_node_keys accused_committee) (re_accused_node_key envelope) (sr_from_node_id statement)
    "accused node is not in the Sign response node-id map" "Sign response from_node_id {} does not match accused node_id {}" ;?
  map_err (verify_node_message (re_accused_node_key envelope) (SignResponseStatement_canonical_bytes statement)
    response_signature) (Unauthorized "invalid Sign response signature: {}") ;?
  require_sign_share_verification_failure statement context.

(** ** PET answers *)

Definition validate_pet_blind_prologue (envelope : ReportEnvelope) (context : context_t) (ring : RingPayload)
    (blind_context : PetBlindContext) (claimed_context_digest : bytes) (signed_at : Z) : report_result unit :=
  reject (negb (bool_decide (PetBlindContext_context_digest blind_context = claimed_context_digest)))
    (InvalidReport "PET blind evidence context does not hash to its own claimed context_digest") ;?
  reject (negb (bool_decide (pc_chain_id blind_context = re_chain_id envelope))
          || negb (bool_decide (re_chain_id envelope = vc_chain_id context)))
    (Unauthorized "PET blind evidence chain ID does not match report chain ID") ;?
  reject (negb (bool_decide (pc_ring_id blind_context = re_ring_id envelope))
          || negb (bool_decide (pc_ring_pk blind_context = re_ring_pk envelope))
          || negb (bool_decide (pc_ring_state_sha256 blind_context = re_ring_state_sha256 envelope)))
    (Unauthorized "PET blind evidence ring binding does not match report envelope") ;?
  reject (negb (bool_decide (pc_attempt_id blind_context = re_session_id envelope)))
    (Unauthorized "PET blind evidence attempt_id does not match report session_id") ;?
  reject (negb (requires_pet ring))
    (Unauthorized "PET blind evidence reported against a ring that does not require PET") ;?
  let? current_pet_pk := ok_or (pet_pk ring)
    (Unauthorized "ring requires PET but its checking key has not finalized") in
  reject (negb (bool_decide (pc_pet_pk blind_context = current_pet_pk)))
    (Unauthorized "PET blind evidence does not bind the ring's current checking key") ;?
  reject (negb (bool_decide (pc_crypto_backend blind_context = PET_NAME)))
    (Unauthorized "PET blind evidence crypto backend {} does not match local backend {}") ;?
  validate_evidence_anchor signed_at (re_observed_at envelope).

Definition resolve_pet_blind_tag_and_target (blind_context : PetBlindContext) (context : context_t) :
    report_result (PetTag * G) :=
  let? tag_json :=
    if pc_document_inline blind_context then
      let? evidence := require_inline_document_evidence context (pc_ring_id blind_context) (pc_object_id blind_context)
        (pc_timestamp blind_context) in
      Ok (rde_pet_tag evidence)
    else
      reject_unexpected_inline_document_evidence context ;?
      let? document := read_document context (pc_object_id blind_context) in
      reject (negb (bool_decide (ring_id document = pc_ring_id blind_context)))
        (Unauthorized "PET blind evidence object is not bound to the report ring") ;?
      Ok (pet_tag document) in
  let? pet_tag := ok_or tag_json (InvalidReport "document has no pet_tag but ring requires PET") in
  let? tag := ok_or (PetTag_try_from pet_tag) (InvalidReport "malformed PET tag: {error}") in
  let? target_fingerprint := map_err (owner_fingerprint (F := F) (G := G) (pc_audit_target_object_id blind_context))
    (InvalidReport "{}") in
  Ok (tag, target_fingerprint).

Definition require_pet_blind_reveal_verification_failure (blind_context : PetBlindContext)
    (statement : PetBlindRevealStatement) (context : context_t) : report_result unit :=
  let? '(tag, target_fingerprint) := resolve_pet_blind_tag_and_target blind_context context in
  let recomputed_commitment := pet_blind_commit_hash (rv_attempt_id statement) (rv_context_digest statement)
    (rv_from_node_id statement) (rv_commit_salt statement) (rv_blinded_r statement) (rv_blinded_diff statement) in
  if negb (bool_decide (recomputed_commitment = rv_commitment statement)) then Ok tt
  else
    match G1Affine_from_bytes (F := F) (rv_blinded_r statement), G1Affine_from_bytes (F := F) (rv_blinded_diff statement),
          Fr_from_bytes (F := F) (rv_challenge statement), Fr_from_bytes (F := F) (rv_proof statement) with
    | Ok blinded_r, Ok blinded_diff, Ok challenge, Ok proof =>
        reject (negb (length (rv_commitment statement) =? 32)%nat)
          (InvalidReport "PET blind-reveal commitment is not 32 bytes") ;?
        let blind_transcript_digest := pet_blind_proof_transcript_digest (rv_attempt_id statement)
          (rv_context_digest statement) (rv_selection_digest statement) (rv_from_node_id statement) (rv_commitment statement) in
        reject (is_ok (verify_blinding_correctness tag target_fingerprint
            (MkBlindingReply blinded_r blinded_diff challenge proof) blind_transcript_digest))
          (Unauthorized "reported PET blind-reveal proof verifies successfully")
    | _, _, _, _ => Ok tt
    end.

Definition require_pet_blind_decrypt_verification_failure (blind_context : PetBlindContext)
    (statement : PetBlindDecryptStatement) (response_signature : bytes) (ring : RingPayload) (context : context_t) :
    report_result unit :=
  let? certificate := ok_or (vc_pet_blind_certificate context) (InvalidReport "missing PET generation certificate") in
  reject (negb (bool_decide (certificate_digest certificate = dy_certificate_digest statement)))
    (InvalidReport "PET certificate does not match the signed response") ;?
  let? '(tag, target) := resolve_pet_blind_tag_and_target blind_context context in
  let? '(aggregate_r, aggregate_diff) := map_err (build_and_verify_pet_blind_certificate (F := F) certificate ring tag target
    blind_context) (InvalidReport "{}") in
  let? polynomial := map_err (decode_polynomial (F := F) (ce_public_polynomial certificate) (rp_threshold ring)
    (pc_pet_pk blind_context)) (InvalidReport "{}") in
  let? aggregate_r := map_err (G1Affine_to_bytes aggregate_r) (InvalidReport "{}") in
  let? aggregate_diff := map_err (G1Affine_to_bytes aggregate_diff) (InvalidReport "{}") in
  match verify_one_decrypt (F := F) statement response_signature ring polynomial (PetBlindContext_context_digest blind_context)
          (certificate_digest certificate) (ce_attempt_id certificate) aggregate_r aggregate_diff blind_context with
  | Invalid _ => Ok tt
  | NotAttributable _ => Err (InvalidReport "{}")
  | Verified _ => Err (Unauthorized "reported PET decrypt share verifies under its certified request generation")
  end.

(** The steps both kinds of PET evidence take after their prologue. *)
Definition validate_pet_blind_member (envelope : ReportEnvelope) (context : context_t) (ring : RingPayload) (label : string)
    (protocol_version from_node_id : Z) (statement_bytes response_signature : bytes) : report_result unit :=
  let? effective := validate_report_route_version_at_observed_at envelope ring (vc_version context) in
  require_version protocol_version effective
    (label +:+ " response protocol version {} does not match effective ring version {}") ;?
  let? signing_committee := validate_ring_and_membership_for_scopes envelope ring Current Current label in
  validate_node_routes envelope context ;?
  validate_local_signer envelope context signing_committee label ;?
  require_node_id (peer_node_keys ring) (re_accused_node_key envelope) from_node_id
    "accused node is not in the current ring node-id map"
    (label +:+ " response from_node_id {} does not match accused node_id {}") ;?
  map_err (verify_node_message (re_accused_node_key envelope) statement_bytes response_signature)
    (Unauthorized ("invalid " +:+ label +:+ " response signature: {}")).

Definition validate_pet_blind_reveal_evidence (envelope : ReportEnvelope) (context : context_t) (ring : RingPayload)
    (blind_context : PetBlindContext) (statement : PetBlindRevealStatement) (response_signature : bytes) : report_result unit :=
  reject (negb (bool_decide (rv_domain statement = PET_BLIND_REVEAL_RESPONSE_DOMAIN)))
    (InvalidReport "unexpected PET blind-reveal domain {}") ;?
  validate_pet_blind_prologue envelope context ring blind_context (rv_context_digest statement) (rv_signed_at statement) ;?
  validate_pet_blind_member envelope context ring "PET blind-reveal" (rv_protocol_version statement)
    (rv_from_node_id statement) (PetBlindRevealStatement_canonical_bytes statement) response_signature ;?
  require_pet_blind_reveal_verification_failure blind_context statement context.

Definition validate_pet_blind_decrypt_evidence (envelope : ReportEnvelope) (context : context_t) (ring : RingPayload)
    (blind_context : PetBlindContext) (statement : PetBlindDecryptStatement) (response_signature : bytes) : report_result unit :=
  reject (negb (bool_decide (dy_domain statement = PET_BLIND_DECRYPT_RESPONSE_DOMAIN)))
    (InvalidReport "unexpected PET blind-decrypt domain {}") ;?
  validate_pet_blind_prologue envelope context ring blind_context (dy_context_digest statement) (dy_signed_at statement) ;?
  validate_pet_blind_member envelope context ring "PET blind-decrypt" (dy_protocol_version statement)
    (dy_from_node_id statement) (PetBlindDecryptStatement_canonical_bytes statement) response_signature ;?
  require_pet_blind_decrypt_verification_failure blind_context statement response_signature ring context.

(** ** DKG shares and commitments *)

Definition is_valid_invalid_crypto_dkg_origin (origin_protocol : bytes) : bool :=
  bool_decide (origin_protocol = bstr "pss_refresh") || bool_decide (origin_protocol = bstr "pss_reshare").

(** The shape of a commitment's bytes. *)
Definition require_commitment_bytes (commitment : bytes) (empty length_mismatch : string) : report_result unit :=
  reject (bool_decide (commitment = [])) (InvalidReport empty) ;?
  reject (negb (length commitment mod g_size (G:=G) =? 0)%nat) (InvalidReport length_mismatch).

Definition require_current_scopes (accused signing : CommitteeScope) (message : string) : report_result unit :=
  reject (negb (bool_decide (accused = Current)) || negb (bool_decide (signing = Current))) (Unauthorized message).

Definition require_dkg_backend (crypto_backend : bytes) (message : string) : report_result unit :=
  reject (negb (bool_decide (crypto_backend = DKG_NAME))) (Unauthorized message).

Definition commitment_prologue (label : string) (c : DkgCommitmentStatement) (check_anchor : bool) :
    InvalidCryptoStatementPrologue :=
  MkPrologue label (dc_domain c) DKG_COMMITMENT_DOMAIN (dc_chain_id c) (dc_ring_id c) (dc_ring_pk c)
    (dc_ring_state_sha256 c) (dc_request_id c) (dc_signed_at c) (dc_responder_node_key c) check_anchor.

Definition validate_dkg_commitment_statement_shape (statement : DkgShareStatement) : report_result unit :=
  let commitment := ds_commitment_statement statement in
  reject (negb (bool_decide (dc_domain commitment = DKG_COMMITMENT_DOMAIN)))
    (InvalidReport "unexpected DKG commitment domain {}") ;?
  reject (negb (bool_decide (dc_chain_id commitment = ds_chain_id statement))
          || negb (bool_decide (dc_ring_id commitment = ds_ring_id statement))
          || negb (bool_decide (dc_ring_pk commitment = ds_ring_pk statement))
          || negb (bool_decide (dc_ring_state_sha256 commitment = ds_ring_state_sha256 statement))
          || negb (dc_protocol_version commitment =? ds_protocol_version statement)
          || negb (bool_decide (dc_request_id commitment = ds_request_id statement))
          || negb (bool_decide (dc_responder_node_key commitment = ds_responder_node_key statement))
          || negb (bool_decide (dc_origin_protocol commitment = ds_origin_protocol statement))
          || negb (bool_decide (dc_accused_committee_scope commitment = ds_accused_committee_scope statement))
          || negb (bool_decide (dc_signing_committee_scope commitment = ds_signing_committee_scope statement))
          || negb (dc_from_node_id commitment =? ds_from_node_id statement)
          || negb (bool_decide (dc_crypto_backend commitment = ds_crypto_backend statement)))
    (Unauthorized "DKG commitment binding does not match DKG share statement") ;?
  reject (ds_signed_at statement <? dc_signed_at commitment) (Unauthorized "DKG commitment was signed after the DKG share") ;?
  require_commitment_bytes (dc_commitment commitment) "DKG commitment cannot be empty"
    "DKG commitment length {} is not a multiple of {}".

Definition validate_dkg_share_statement_shape (envelope : ReportEnvelope) (statement : DkgShareStatement)
    (response_signature : bytes) (context : context_t) : report_result unit :=
  validate_invalid_crypto_statement_prologue envelope context (MkPrologue "DKG share" (ds_domain statement)
    DKG_SHARE_DOMAIN (ds_chain_id statement) (ds_ring_id statement) (ds_ring_pk statement)
    (ds_ring_state_sha256 statement) (ds_request_id statement) (ds_signed_at statement) (ds_responder_node_key statement)
    true) ;?
  reject (negb (is_valid_invalid_crypto_dkg_origin (ds_origin_protocol statement)))
    (InvalidReport "unsupported DKG share origin protocol {}") ;?
  require_current_scopes (ds_accused_committee_scope statement) (ds_signing_committee_scope statement)
    "DKG share reports must use current accused and signing scopes" ;?
  reject ((ds_from_node_id statement =? 0) || (ds_to_node_id statement =? 0))
    (InvalidReport "DKG share node IDs must be non-zero") ;?
  reject (bool_decide (trim (ds_receiver_node_key statement) = []))
    (InvalidReport "DKG share receiver_node_key cannot be empty") ;?
  require_dkg_backend (ds_crypto_backend statement) "DKG share crypto backend {} does not match local backend {}" ;?
  reject (bool_decide (ds_share_value statement = [])) (InvalidReport "DKG share value cannot be empty") ;?
  reject (bool_decide (ds_commitment_signature statement = [])) (InvalidReport "DKG commitment signature cannot be empty") ;?
  reject (bool_decide (response_signature = [])) (InvalidReport "DKG share signature cannot be empty") ;?
  validate_dkg_commitment_statement_shape statement.

Definition require_dkg_share_verification_failure (statement : DkgShareStatement) : report_result unit :=
  match deserialize_wire_commitment (F:=F) (G:=G) (dc_commitment (ds_commitment_statement statement)),
        Fr_from_bytes (F:=F) (ds_share_value statement) with
  | Ok commitment, Ok share_value =>
      reject (Common.verify_share commitment (ds_to_node_id statement) share_value)
        (Unauthorized "reported DKG share verifies successfully")
  | _, _ => Ok tt
  end.

(** The member the share was dealt to, by its place in the receiving committee. *)
Definition receiver_key (receiver_committee : list bytes) (to_node_id : Z) : option bytes :=
  receiver_committee !! Z.to_nat (Auth.saturating_sub to_node_id 1).

Definition validate_dkg_share_evidence (envelope : ReportEnvelope) (context : context_t) (ring : RingPayload)
    (statement : DkgShareStatement) (response_signature : bytes) : report_result unit :=
  validate_dkg_share_statement_shape envelope statement response_signature context ;?
  let? effective := validate_report_route_version_at_observed_at envelope ring (vc_version context) in
  require_version (ds_protocol_version statement) effective
    "DKG share protocol version {} does not match effective ring version {}" ;?
  let? signing_committee := validate_ring_and_membership_for_scopes envelope ring (ds_accused_committee_scope statement)
    (ds_signing_committee_scope statement) "DKG invalid-share" in
  validate_node_routes envelope context ;?
  validate_local_signer envelope context signing_committee "DKG invalid-share" ;?
  let? accused_committee := committee_for_scope ring (ds_accused_committee_scope statement) in
  require_node_id (cv_peer_node_keys accused_committee) (re_accused_node_key envelope) (ds_from_node_id statement)
    "accused node is not in the DKG share node-id map" "DKG share from_node_id {} does not match accused node_id {}" ;?
  let? receiver_committee :=
    committee_for_scope ring (if bool_decide (ds_origin_protocol statement = bstr "pss_reshare") then PendingNew else Current) in
  let? expected_receiver_node_key := ok_or (receiver_key (cv_peer_node_keys receiver_committee) (ds_to_node_id statement))
    (Unauthorized "DKG share to_node_id {} is outside the receiver committee") in
  reject (negb (bool_decide (ds_receiver_node_key statement = expected_receiver_node_key)))
    (Unauthorized "DKG share receiver node key does not match to_node_id") ;?
  map_err (verify_node_message (re_accused_node_key envelope)
    (DkgCommitmentStatement_canonical_bytes (ds_commitment_statement statement)) (ds_commitment_signature statement))
    (Unauthorized "invalid DKG commitment signature: {}") ;?
  map_err (verify_node_message (re_accused_node_key envelope) (DkgShareStatement_canonical_bytes statement)
    response_signature) (Unauthorized "invalid DKG share signature: {}") ;?
  require_dkg_share_verification_failure statement.

Definition validate_equivocation_commitment_shape (envelope : ReportEnvelope) (context : context_t)
    (commitment : DkgCommitmentStatement) (signature : bytes) (check_anchor : bool) : report_result unit :=
  validate_invalid_crypto_statement_prologue envelope context
    (commitment_prologue "DKG equivocation commitment" commitment check_anchor) ;?
  reject (negb (is_valid_invalid_crypto_dkg_origin (dc_origin_protocol commitment)))
    (InvalidReport "unsupported DKG equivocation origin protocol {}") ;?
  require_current_scopes (dc_accused_committee_scope commitment) (dc_signing_committee_scope commitment)
    "DKG equivocation reports must use current accused and signing scopes" ;?
  reject (dc_from_node_id commitment =? 0) (InvalidReport "DKG equivocation from_node_id must be non-zero") ;?
  require_dkg_backend (dc_crypto_backend commitment) "DKG equivocation crypto backend {} does not match local backend {}" ;?
  require_commitment_bytes (dc_commitment commitment) "DKG equivocation commitment cannot be empty"
    "DKG equivocation commitment length {} is not a multiple of {}" ;?
  reject (bool_decide (signature = [])) (InvalidReport "DKG equivocation commitment signature cannot be empty").

Definition validate_dkg_equivocation_evidence (envelope : ReportEnvelope) (context : context_t) (ring : RingPayload)
    (commitment_a commitment_b : SignedDkgCommitment) : report_result unit :=
  let a := sc_statement commitment_a in let b := sc_statement commitment_b in
  validate_equivocation_commitment_shape envelope context a (sc_signature commitment_a) false ;?
  validate_equivocation_commitment_shape envelope context b (sc_signature commitment_b) false ;?
  validate_evidence_anchor (Z.max (dc_signed_at a) (dc_signed_at b)) (re_observed_at envelope) ;?
  let? effective := validate_report_route_version_at_observed_at envelope ring (vc_version context) in
  reject (negb (dc_protocol_version a =? effective) || negb (dc_protocol_version b =? effective))
    (Unauthorized "DKG equivocation protocol version does not match effective ring version {}") ;?
  let? signing_committee := validate_ring_and_membership_for_scopes envelope ring Current Current "DKG equivocation" in
  validate_node_routes envelope context ;?
  validate_local_signer envelope context signing_committee "DKG equivocation" ;?
  let? accused_committee := committee_for_scope ring Current in
  let? expected_from_node_id := ok_or (determine_session_node_id (re_accused_node_key envelope)
    (cv_peer_node_keys accused_committee)) (Unauthorized "accused node is not in the DKG equivocation node-id map") in
  reject (negb (dc_from_node_id a =? expected_from_node_id) || negb (dc_from_node_id b =? expected_from_node_id))
    (Unauthorized "DKG equivocation from_node_id does not match accused node_id {}") ;?
  map_err (verify_node_message (re_accused_node_key envelope) (DkgCommitmentStatement_canonical_bytes a)
    (sc_signature commitment_a)) (Unauthorized "invalid DKG equivocation commitment_a signature: {}") ;?
  map_err (verify_node_message (re_accused_node_key envelope) (DkgCommitmentStatement_canonical_bytes b)
    (sc_signature commitment_b)) (Unauthorized "invalid DKG equivocation commitment_b signature: {}") ;?
  reject (negb (proves_equivocation_with a b)) (Unauthorized "reported commitments are not equivocation").

Definition validate_refresh_commitment_statement_shape (envelope : ReportEnvelope) (statement : DkgCommitmentStatement)
    (response_signature : bytes) (context : context_t) : report_result unit :=
  validate_invalid_crypto_statement_prologue envelope context (commitment_prologue "DKG refresh commitment" statement true) ;?
  reject (negb (bool_decide (dc_origin_protocol statement = bstr "pss_refresh")))
    (InvalidReport "DKG invalid-refresh-commitment report requires pss_refresh origin, got {}") ;?
  require_current_scopes (dc_accused_committee_scope statement) (dc_signing_committee_scope statement)
    "DKG refresh commitment reports must use current accused and signing scopes" ;?
  reject (dc_from_node_id statement =? 0) (InvalidReport "DKG refresh commitment from_node_id must be non-zero") ;?
  require_dkg_backend (dc_crypto_backend statement) "DKG refresh commitment crypto backend {} does not match local backend {}" ;?
  require_commitment_bytes (dc_commitment statement) "DKG refresh commitment cannot be empty"
    "DKG refresh commitment length {} is not a multiple of {}" ;?
  reject (bool_decide (response_signature = [])) (InvalidReport "DKG refresh commitment signature cannot be empty").

Definition require_refresh_commitment_is_invalid (statement : DkgCommitmentStatement) : report_result unit :=
  match deserialize_wire_commitment (F:=F) (G:=G) (dc_commitment statement) with
  | Ok commitment =>
      reject (constant_term_is_identity commitment)
        (Unauthorized "reported refresh commitment has a valid identity constant term")
  | _ => Ok tt
  end.

Definition validate_dkg_invalid_refresh_commitment_evidence (envelope : ReportEnvelope) (context : context_t)
    (ring : RingPayload) (statement : DkgCommitmentStatement) (response_signature : bytes) : report_result unit :=
  validate_refresh_commitment_statement_shape envelope statement response_signature context ;?
  let? effective := validate_report_route_version_at_observed_at envelope ring (vc_version context) in
  require_version (dc_protocol_version statement) effective
    "DKG refresh commitment protocol version {} does not match effective ring version {}" ;?
  let? signing_committee := validate_ring_and_membership_for_scopes envelope ring (dc_accused_committee_scope statement)
    (dc_signing_committee_scope statement) "DKG invalid-refresh-commitment" in
  validate_node_routes envelope context ;?
  validate_local_signer envelope context signing_committee "DKG invalid-refresh-commitment" ;?
  let? accused_committee := committee_for_scope ring (dc_accused_committee_scope statement) in
  require_node_id (cv_peer_node_keys accused_committee) (re_accused_node_key envelope) (dc_from_node_id statement)
    "accused node is not in the DKG refresh commitment node-id map"
    "DKG refresh commitment from_node_id {} does not match accused node_id {}" ;?
  map_err (verify_node_message (re_accused_node_key envelope) (DkgCommitmentStatement_canonical_bytes statement)
    response_signature) (Unauthorized "invalid DKG refresh commitment signature: {}") ;?
  require_refresh_commitment_is_invalid statement.

(** ** The handlers *)

Section Handlers.
(** The validators of the evidence about the public channel of a DKG: public
    origins, the leader's deliveries and control messages. *)
Context (validate_dkg_evidence : ReportEnvelope -> context_t -> RingPayload -> InvalidCryptoResponse -> report_result unit).

Definition invalid_crypto_validate (envelope : ReportEnvelope) (context : context_t) : report_result unit :=
  let? evidence := InvalidCryptoResponse_from_canonical_bytes (re_payload envelope) in
  let? ring := read_ring (vc_read_ring context) (re_ring_id envelope) in
  match evidence with
  | EvPre statement response_signature => validate_pre_evidence envelope context ring statement response_signature
  | EvSign statement response_signature => validate_sign_evidence envelope context ring statement response_signature
  | EvPetBlindReveal statement response_signature =>
      let? blind_context := require_pet_blind_context context in
      validate_pet_blind_reveal_evidence envelope context ring blind_context statement response_signature
  | EvPetBlindDecrypt statement response_signature =>
      let? blind_context := require_pet_blind_context context in
      validate_pet_blind_decrypt_evidence envelope context ring blind_context statement response_signature
  | EvDkgShare statement response_signature => validate_dkg_share_evidence envelope context ring statement response_signature
  | EvDkgInvalidRefreshCommitment statement response_signature =>
      validate_dkg_invalid_refresh_commitment_evidence envelope context ring statement response_signature
  | EvDkgEquivocation commitment_a commitment_b =>
      validate_dkg_equivocation_evidence envelope context ring commitment_a commitment_b
  | _ => validate_dkg_evidence envelope context ring evidence
  end.

Definition node_offline_validate (envelope : ReportEnvelope) (context : context_t) : report_result unit :=
  let? payload := NodeOffline_from_canonical_bytes (re_payload envelope) in
  reject (bool_decide (trim (no_origin_protocol payload) = [])) (InvalidReport "offline report origin protocol cannot be empty") ;?
  let? ring := read_ring (vc_read_ring context) (re_ring_id envelope) in
  reject (negb (bool_decide (re_chain_id envelope = vc_chain_id context)))
    (Unauthorized "report chain ID does not match the configured bulletin") ;?
  let? effective := validate_report_route_version_at_observed_at envelope ring (vc_version context) in
  require_version (no_origin_protocol_version payload) effective
    "report origin protocol version {} does not match effective ring version {}" ;?
  let? signing_committee := validate_ring_and_membership_for_scopes envelope ring (no_accused_committee_scope payload)
    (no_signing_committee_scope payload) "offline" in
  validate_node_routes envelope context ;?
  validate_local_signer envelope context signing_committee "offline" ;?
  match vc_mode context with
  | IndependentSigner true => require_peer_offline (vc_probe context)
  | _ => Ok tt
  end.

Definition validate_relay_request_statement_shape (envelope : ReportEnvelope) (context : context_t)
    (statement : RelayRequestStatement) : report_result unit :=
  validate_invalid_crypto_statement_prologue envelope context (MkPrologue "relay request" (rr_domain statement)
    RELAY_REQUEST_DOMAIN (rr_chain_id statement) (rr_ring_id statement) (rr_ring_pk statement)
    (rr_ring_state_sha256 statement) (rr_request_id statement) (rr_signed_at statement) (rr_relayer_node_key statement)
    true) ;?
  reject (negb (bool_decide (rr_origin_protocol statement = bstr "pre"))
          && negb (bool_decide (rr_origin_protocol statement = bstr "sign")))
    (InvalidReport "unsupported relay request origin protocol {}") ;?
  reject (negb (bool_decide (rr_accused_committee_scope statement = Current))
          || negb (bool_decide (rr_signing_committee_scope statement = Current)))
    (Unauthorized "relay request reports must use current accused and signing scopes") ;?
  reject (rr_from_node_id statement =? 0) (InvalidReport "relay request from_node_id must be non-zero") ;?
  reject (bool_decide (trim (rr_actor_id statement) = [])) (InvalidReport "relay request actor_id cannot be empty") ;?
  reject (bool_decide (trim (rr_object_id statement) = [])) (InvalidReport "relay request object_id cannot be empty") ;?
  reject (negb (Bool.eqb (bool_decide (is_Some (rr_valid_window_start statement)))
                         (bool_decide (is_Some (rr_valid_window_end statement)))))
    (InvalidReport "relay request valid_window bounds must both be present or both absent") ;?
  reject (RELAY_CHECK_MAX_DRIFT_SECS <? abs_diff (rr_signed_at statement) (rr_user_signed_at statement))
    (InvalidReport "relay request signed_at {} drifts from caller signed_at {} by more than {}s").

(** The access the relayed request needed. *)
Definition relayed_access (context : context_t) (statement : RelayRequestStatement) (valid_window : option ValidWindow) :
    report_result AccessCheckRequest :=
  let object_id := rr_object_id statement in
  if bool_decide (rr_origin_protocol statement = bstr "pre") then
    if rr_document_inline statement then
      let? e := require_inline_document_evidence context (rr_ring_id statement) object_id (rr_timestamp statement) in
      Ok (MkAccessCheckRequest (rde_policy_id e) (rde_resource e) object_id (rde_permission e) (rde_tier e)
        (rr_timestamp statement) valid_window)
    else
      reject_unexpected_inline_document_evidence context ;?
      let? d := read_document context object_id in
      Ok (document_access d object_id valid_window)
  else if bool_decide (rr_origin_protocol statement = bstr "sign") then
    let? post := ok_or (vc_read_derivation context object_id) (BulletinError "{}") in
    let? d := ok_or (KeyDerivation_try_from post) (InvalidReport "failed to parse key derivation: {}") in
    Ok (MkAccessCheckRequest (kd_policy_id d) (kd_resource d) object_id (kd_permission d) None (rr_timestamp statement)
      valid_window)
  else Err (InvalidReport "unsupported relay request origin protocol {}").

Definition require_relayed_request_unauthorized (context : context_t) (statement : RelayRequestStatement)
    (checked_at_anchor : bytes) : report_result unit :=
  let? anchor_time := map_err (authz_anchor_time checked_at_anchor) (BulletinError "{}") in
  reject (RELAY_CHECK_MAX_DRIFT_SECS <? abs_diff anchor_time (rr_signed_at statement))
    (InvalidReport "relay request anchor time {} drifts from signed_at {} by more than {}s") ;?
  let? window := statement_window statement
    (InvalidReport "relay request valid_window bounds must both be present or both absent") in
  let valid_window := (fun w : Z * Z => MkValidWindow w.1 w.2) <$> window in
  let? access_request := relayed_access context statement valid_window in
  let? request_bytes := ok_or (request_to_bytes access_request) (InvalidReport "{}") in
  let? authorized := map_err (authz_check_at request_bytes (rr_actor_id statement) checked_at_anchor) (BulletinError "{}") in
  reject authorized (Unauthorized "relayed request was authorized at the captured anchor").

Definition unauthorized_request_validate (envelope : ReportEnvelope) (context : context_t) : report_result unit :=
  let? payload := UnauthorizedRequestPayload_from_canonical_bytes (re_payload envelope) in
  let statement := ur_statement payload in
  validate_relay_request_statement_shape envelope context statement ;?
  let? ring := read_ring (vc_read_ring context) (re_ring_id envelope) in
  let? effective := validate_report_route_version_at_observed_at envelope ring (vc_version context) in
  require_version (rr_protocol_version statement) effective
    "relay request protocol version {} does not match effective ring version {}" ;?
  let? signing_committee := validate_ring_and_membership_for_scopes envelope ring (rr_accused_committee_scope statement)
    (rr_signing_committee_scope statement) "unauthorized-request" in
  validate_node_routes envelope context ;?
  validate_local_signer envelope context signing_committee "unauthorized-request" ;?
  let? accused_committee := committee_for_scope ring (rr_accused_committee_scope statement) in
  require_node_id (cv_peer_node_keys accused_committee) (re_accused_node_key envelope) (rr_from_node_id statement)
    "relayer is not in the accused committee node-id map" "relay request from_node_id {} does not match relayer node_id {}" ;?
  map_err (verify_node_message (re_accused_node_key envelope) (RelayRequestStatement_canonical_bytes statement)
    (ur_relay_signature payload)) (Unauthorized "invalid relay request signature: {}") ;?
  require_relayed_request_unauthorized context statement (ur_checked_at_anchor payload).

(** ** The registry *)

Definition registry_validate (envelope : ReportEnvelope) (context : context_t) : report_result unit :=
  validate_shape envelope (vc_now context) ;?
  let report_type := re_report_type envelope in
  if bool_decide (report_type = NODE_OFFLINE_REPORT_TYPE) then node_offline_validate envelope context
  else if bool_decide (report_type = INVALID_CRYPTO_RESPONSE_REPORT_TYPE) then invalid_crypto_validate envelope context
  else if bool_decide (report_type = UNAUTHORIZED_REQUEST_REPORT_TYPE) then unauthorized_request_validate envelope context
  else Err (UnsupportedReportType (show report_type)).

(** ** Preparing a report *)

Definition build_signing_ring_config (read_ring_post read_node_post : bytes -> option Post) (storage : St) (ring_id : bytes)
    (scope : CommitteeScope) : report_result (RingPayload * RingConfig) :=
  let? ring := read_ring read_ring_post ring_id in
  let? signing_committee := committee_for_scope ring scope in
  let? node_routes := map_err (resolve_node_routes is_socket_addr read_node_post NodeInfo_try_from
    (cv_peer_node_keys signing_committee)) (InvalidReport "{}") in
  let? ring_pk_bytes := ok_or (hex_decode (ring_pk ring)) (ReportSerializationError "{}") in
  let? poly_state := map_err (load_from_ring_pk_hex storage (ring_pk ring)) (InvalidReport "{}") in
  Ok (ring, MkRingConfig ring_id ring_pk_bytes (peer_ids_from_routes node_routes) (cv_peer_node_keys signing_committee)
    (cv_threshold signing_committee) (Z.of_nat (length node_routes)) (public_polynomial poly_state)).

(** [build_envelope] of the three handlers. *)
Definition offline_envelope (o : OfflineObservation) (ring : RingPayload) (reporter_node_key chain_id : bytes) : ReportEnvelope :=
  let payload := MkNodeOffline (of_origin_protocol o) (of_origin_protocol_version o) (of_accused_committee_scope o)
    (of_signing_committee_scope o) in
  MkReportEnvelope REPORT_DOMAIN NODE_OFFLINE_REPORT_TYPE chain_id (of_ring_id o) (ring_pk ring) (ring_state_sha256 ring)
    reporter_node_key (of_accused_node_key o) (of_accused_peer_id o) (of_observed_at o)
    (saturating_add (of_observed_at o) REPORT_TTL_SECS) (NodeOffline_canonical_bytes payload) (of_session_id o).

Definition invalid_crypto_envelope (o : InvalidCryptoResponseObservation) (ring : RingPayload)
    (reporter_node_key chain_id : bytes) : ReportEnvelope :=
  MkReportEnvelope REPORT_DOMAIN INVALID_CRYPTO_RESPONSE_REPORT_TYPE chain_id (ob_ring_id o) (ring_pk ring)
    (ring_state_sha256 ring) reporter_node_key (ob_accused_node_key o) (ob_accused_peer_id o) (ob_observed_at o)
    (saturating_add (ob_observed_at o) REPORT_TTL_SECS) (InvalidCryptoResponse_canonical_bytes (ob_evidence o))
    (request_id (ob_evidence o)).

Definition unauthorized_request_envelope (o : UnauthorizedRequestObservation) (ring : RingPayload)
    (reporter_node_key chain_id : bytes) : ReportEnvelope :=
  MkReportEnvelope REPORT_DOMAIN UNAUTHORIZED_REQUEST_REPORT_TYPE chain_id (uo_ring_id o) (ring_pk ring)
    (ring_state_sha256 ring) reporter_node_key (uo_accused_node_key o) (uo_accused_peer_id o) (uo_observed_at o)
    (saturating_add (uo_observed_at o) REPORT_TTL_SECS) (UnauthorizedRequestPayload_canonical_bytes (uo_payload o))
    (rr_request_id (ur_statement (uo_payload o))).

(** The accused is excluded from the signers. *)
Definition signing_options (envelope : ReportEnvelope) : gset bytes := {[re_accused_node_key envelope]}.

Section Prepare.
Context (reporter_node_key chain_id : bytes) (read_ring_post read_node_post : bytes -> option Post) (storage : St).

Definition offline_prepare (o : OfflineObservation) : report_result PreparedReport :=
  let? '(ring, ring_config) := build_signing_ring_config read_ring_post read_node_post storage (of_ring_id o)
    (of_signing_committee_scope o) in
  let envelope := offline_envelope o ring reporter_node_key chain_id in
  Ok (MkPreparedReport envelope ring_config (signing_options envelope) None None None).

Definition invalid_crypto_prepare (o : InvalidCryptoResponseObservation) : report_result PreparedReport :=
  let? '(ring, ring_config) := build_signing_ring_config read_ring_post read_node_post storage (ob_ring_id o)
    (signing_committee_scope (ob_evidence o)) in
  let envelope := invalid_crypto_envelope o ring reporter_node_key chain_id in
  Ok (MkPreparedReport envelope ring_config (signing_options envelope) (ob_inline_document o) (ob_pet_blind_context o)
    (ob_pet_blind_certificate o)).

Definition unauthorized_request_prepare (o : UnauthorizedRequestObservation) : report_result PreparedReport :=
  let? '(ring, ring_config) := build_signing_ring_config read_ring_post read_node_post storage (uo_ring_id o) Current in
  let envelope := unauthorized_request_envelope o ring reporter_node_key chain_id in
  Ok (MkPreparedReport envelope ring_config (signing_options envelope) (uo_inline_document o) None None).

(** The handler registered for the observation. *)
Definition prepare (observation : ReportObservation) : report_result PreparedReport :=
  match observation with
  | ObsNodeOffline o => offline_prepare o
  | ObsInvalidCryptoResponse o => invalid_crypto_prepare o
  | ObsUnauthorizedRequest o => unauthorized_request_prepare o
  end.
End Prepare.

(** What the reporting task of a node sees, and the validation context it builds
    from a prepared report. *)
Record ReportingView := MkReportingView {
  view_node_key : bytes;
  view_local_peer_id : bytes;
  view_chain_id : bytes;
  view_version : Z;
  view_storage : St;
  view_read_ring : bytes -> option Post;
  view_read_node : bytes -> option Post;
  view_read_document : bytes -> option Post;
  view_read_derivation : bytes -> option Post;
}.

Definition validation_context (view : ReportingView) (requester_peer_id : option bytes) (probe : option (nat -> bool)) (now : Z)
    (mode : ReportValidationMode) (inline_document : option ReportedDocumentEvidence)
    (pet_blind_context : option PetBlindContext) (pet_blind_certificate : option PetBlindCertificate) : context_t :=
  MkReportValidationContext _ _ (view_node_key view) requester_peer_id (view_local_peer_id view) probe (view_chain_id view)
    (view_read_ring view) (view_read_node view) (view_read_document view) (view_read_derivation view) (view_storage view)
    (view_version view) now mode inline_document pet_blind_context pet_blind_certificate.

(** [create_report] up to the signature: the report handed to the signing
    coordinator. *)
Definition create_report (view : ReportingView) (now : option Z) (observation : ReportObservation) : report_result PreparedReport :=
  let? prepared := prepare (view_node_key view) (view_chain_id view) (view_read_ring view) (view_read_node view)
    (view_storage view) observation in
  let? now := ok_or now (InvalidReport "{}") in
  registry_validate (prep_envelope prepared) (validation_context view None None now ReporterObservation
    (prep_inline_document prepared) (prep_pet_blind_context prepared) (prep_pet_blind_certificate prepared)) ;?
  Ok prepared.

(** What another member is sent with a report, and its check before it signs. *)
Record ReportSigningContext := MkReportSigningContext {
  rsc_envelope : ReportEnvelope;
  rsc_inline_document : option ReportedDocumentEvidence;
  rsc_pet_blind_context : option PetBlindContext;
  rsc_pet_blind_certificate : option PetBlindCertificate;
}.

Definition validate_signing_report (view : ReportingView) (now : option Z) (probe : option (nat -> bool))
    (signing : ReportSigningContext) (requester_peer_id : bytes) (perform_health_probe : bool) : report_result bytes :=
  let? now := ok_or now (InvalidReport "{}") in
  registry_validate (rsc_envelope signing) (validation_context view (Some requester_peer_id) probe now
    (IndependentSigner perform_health_probe) (rsc_inline_document signing) (rsc_pet_blind_context signing)
    (rsc_pet_blind_certificate signing)) ;?
  Ok (re_ring_pk (rsc_envelope signing)).
End Handlers.
End Registry.
#[global] Arguments ReportingView : clear implicits.
#[global] Arguments MkReportingView {St Post}.
