(* ===== verification/SignNode.v ===== *)
(** * Signing requests

    [bin/orbis-node/src/sign/v0]: the messages ([messages.rs]) and the checks of
    [helpers.rs] a request passes before a node signs: the claims of a token, the
    policy behind a key derivation, a post of the bulletin, the finalization of a
    reshare and the health check of a refresh.  Here are also the hash of a
    ring's state a reshare is finalized with
    ([crates/common/src/blockchain/orbis/ids.rs]) and the readiness markers of
    [dkg/v0/session_state/ring_pss.rs]. *)
From S2P Require Import Prelude Algebra Interpolation Primitives Codec Common Dkg Context Sigma Shares Pre Pet Signer.
From S2P Require Import ReportCodec ReportStatements ReportDkg ReportPet Evidence Identity NodeState Envelope Auth Routes Bulletin RingState PetNode Reporting Relay PetProtocol PreNode SignHelpers Registry.

(** ** Messages *)

Definition RING_RESHARE_FINALIZE_SIGN_DOC_DOMAIN : bytes := bstr "orbis-ring-reshare-finalize".
Definition RING_RESHARE_UPDATE_DOMAIN : bytes := RING_RESHARE_FINALIZE_SIGN_DOC_DOMAIN.
Definition REFRESH_HEALTH_CHECK_DOMAIN : bytes := bstr "orbis-pss-refresh-healthcheck-v1".

Record PolicyContext := MkPolicyContext {
  pc_token_string : bytes;
  pc_derivation_id : bytes;
  pc_valid_window : option ValidWindow;
  pc_key_derivation : KeyDerivation;
  pc_relay_statement : option RelayRequestStatement;
  pc_relay_signature : bytes;
}.

Record RingReshareUpdateStatement := MkRingReshareUpdateStatement {
  ru_domain : bytes;
  ru_session_id : Z;
  ru_chain_id : bytes;
  ru_ring_pk : bytes;
  ru_ring_id : bytes;
  ru_current_ring_sha256 : bytes;
  ru_finalized_ring_sha256 : bytes;
  ru_block_number_nonce : Z;
}.

Record RefreshHealthCheckStatement := MkRefreshHealthCheckStatement {
  rh_domain : bytes;
  rh_session_id : Z;
  rh_ring_pk : bytes;
  rh_public_polynomial_sha256 : bytes;
  rh_peer_node_keys_sha256 : bytes;
  rh_threshold : Z;
  rh_total_participants : Z;
}.

(** The contexts of a reshare update and of a health check hold their statement
    and nothing else. *)
Inductive SignContext :=
  | CtxBulletin (object_id : bytes)
  | CtxPolicy (context : PolicyContext)
  | CtxRingReshareUpdate (statement : RingReshareUpdateStatement)
  | CtxRefreshHealthCheck (statement : RefreshHealthCheckStatement)
  | CtxReport (context : ReportSigningContext).

Record NonceRequest := MkNonceRequest {
  nq_request_id : bytes;
  nq_from_node_id : Z;
  nq_ring_pk : bytes;
  nq_context : SignContext;
}.

Record SignRequest := MkSignRequest {
  sq_request_id : bytes;
  sq_from_node_id : Z;
  sq_message : bytes;
  sq_all_commitments : bytes;
  sq_context : SignContext;
}.

Inductive SignMessage :=
  | MsgNonceRequest (req : NonceRequest)
  | MsgNonceResponse (request_id : bytes) (from_node_id : Z) (nonce_commitment : bytes)
  | MsgSignRequest (req : SignRequest)
  | MsgSignResponse (request_id : bytes) (from_node_id : Z) (sig_share : bytes) (signed_at : Z) (response_signature : bytes)
  | MsgSignError (request_id error : bytes).

Definition SignMessage_request_id (m : SignMessage) : bytes :=
  match m with
  | MsgNonceRequest req => nq_request_id req
  | MsgNonceResponse request_id _ _ => request_id
  | MsgSignRequest req => sq_request_id req
  | MsgSignResponse request_id _ _ _ _ => request_id
  | MsgSignError request_id _ => request_id
  end.

Definition SignMessage_sender_node_id (m : SignMessage) : option Z :=
  match m with
  | MsgNonceResponse _ from_node_id _ => Some from_node_id
  | MsgSignResponse _ from_node_id _ _ _ => Some from_node_id
  | _ => None
  end.

Record SignClaims := MkSignClaims { claim_derivation_id : bytes; claim_message_sha256 : bytes }.

(** ** The state a reshare is finalized with *)

Record RingReshareFinalizeSignDoc := MkRingReshareFinalizeSignDoc {
  doc_domain : bytes;
  doc_chain_id : bytes;
  doc_ring_id : bytes;
  doc_ring_pk : bytes;
  doc_current_ring_sha256 : bytes;
  doc_finalized_ring_sha256 : bytes;
  doc_block_number_nonce : Z;
}.

Record RingReshareSignState := MkRingReshareSignState {
  rss_ring_pk : bytes;
  rss_peer_node_keys : list bytes;
  rss_threshold : Z;
  rss_new_peer_node_keys : list bytes;
  rss_new_threshold : option Z;
  rss_block_number_nonce : Z;
  rss_policy_id : bytes;
  rss_trusted_auth_relay_dids : list bytes;
  rss_allow_trusted_auth_relays : bool;
}.

(** [prost]: a message that was encoded is decoded to itself. *)
Class Prost := {
  SignDoc_encode : RingReshareFinalizeSignDoc -> bytes;
  SignState_encode : RingReshareSignState -> bytes;
  SignDoc_encode_inj d1 d2 : SignDoc_encode d1 = SignDoc_encode d2 -> d1 = d2;
  SignState_encode_inj s1 s2 : SignState_encode s1 = SignState_encode s2 -> s1 = s2;
}.

Definition ring_reshare_finalize_sign_bytes `{Prost} (chain_id ring_id ring_pk current_ring_sha256 finalized_ring_sha256 : bytes)
    (block_number_nonce : Z) : res string bytes :=
  reject (negb (length current_ring_sha256 =? 32)%nat) "current_ring_sha256 must be 32 bytes, got {}" ;?
  reject (negb (length finalized_ring_sha256 =? 32)%nat) "finalized_ring_sha256 must be 32 bytes, got {}" ;?
  Ok (SignDoc_encode (MkRingReshareFinalizeSignDoc RING_RESHARE_FINALIZE_SIGN_DOC_DOMAIN chain_id ring_id ring_pk
    current_ring_sha256 finalized_ring_sha256 block_number_nonce)).

Definition ring_reshare_sign_state_hash `{Prost} `{Sha2} (state : RingReshareSignState) : bytes :=
  sha256 (SignState_encode (MkRingReshareSignState (rss_ring_pk state) (sort_strings (rss_peer_node_keys state))
    (rss_threshold state) (sort_strings (rss_new_peer_node_keys state)) (rss_new_threshold state)
    (rss_block_number_nonce state) (rss_policy_id state) (sort_strings (rss_trusted_auth_relay_dids state))
    (rss_allow_trusted_auth_relays state))).

Definition ring_reshare_sign_state_from_payload (payload : RingPayload) : RingReshareSignState :=
  MkRingReshareSignState (ring_pk payload) (peer_node_keys payload) (rp_threshold payload)
    (default [] (new_peer_node_keys payload)) (new_threshold payload) (block_number_nonce payload)
    (default [] (rp_policy_id payload)) (default [] (trusted_auth_relay_dids payload))
    (bool_decide (is_Some (trusted_auth_relay_dids payload))).

(** The payload after the reshare: the new committee and threshold take the place
    of the old ones. *)
Definition finalized_payload (p : RingPayload) : RingPayload :=
  MkRingPayload (ring_pk p) None None (default (peer_node_keys p) (new_peer_node_keys p))
    (default (rp_threshold p) (new_threshold p)) (pss_interval p) (block_number_nonce p) (rp_policy_id p)
    (trusted_auth_relay_dids p) (upgrade_info p) (reporting p) (requires_pet p) (pet_pk p).

(** ** Readiness for a reshare and for a health check *)

Record ReshareSignatureReadyKey := MkReadyKey {
  rk_ring_key : bytes;
  rk_session_id : Z;
  rk_attempt_id : bytes;
  rk_ring_id : bytes;
  rk_current_ring_sha256 : bytes;
  rk_finalized_ring_sha256 : bytes;
}.

Inductive ReshareSignatureReadyMaterial :=
  | Staged (bundle : RingShareBundle) (marked_at : Instant)
  | Promoted (marked_at : Instant).

(** The markers, in the order the table is traversed in. *)
Abbreviation ready_table := (list (ReshareSignatureReadyKey * ReshareSignatureReadyMaterial)).

Definition reshare_signature_ready_material (ready : ready_table) (ring_key : bytes) (session_id : Z)
    (ring_id current_ring_sha256 finalized_ring_sha256 : bytes) : option (option RingShareBundle) :=
  (fun e : nat * (ReshareSignatureReadyKey * ReshareSignatureReadyMaterial) =>
     match e.2.2 with Staged bundle _ => Some bundle | Promoted _ => None end) <$>
  list_find (fun e => rk_ring_key e.1 = ring_key /\ rk_session_id e.1 = session_id /\ rk_ring_id e.1 = ring_id /\
    rk_current_ring_sha256 e.1 = current_ring_sha256 /\ rk_finalized_ring_sha256 e.1 = finalized_ring_sha256) ready.

Record RefreshHealthCheckCandidate := MkRefreshHealthCheckCandidate {
  cd_ring_key : bytes;
  cd_ring_pk_hex : bytes;
  cd_bundle : RingShareBundle;
  cd_peer_node_keys : list bytes;
  cd_peer_ids : list bytes;
  cd_threshold : Z;
}.

(** [dkg/v0/helpers/committee.rs]. *)
Definition effective_new_peer_node_keys (ring_payload : RingPayload) : list bytes :=
  default (peer_node_keys ring_payload) (new_peer_node_keys ring_payload).

Definition peer_node_keys_match (a b : list bytes) : bool :=
  if negb (length a =? length b)%nat then false else bool_decide (sort_strings a = sort_strings b).

(** ** What a call sees of the node

    [sa_view] is what the reporting module sees: the node's key and peer, its
    storage, its chain and version, and the bulletin.  [sa_read_ring] are the
    answers of the bulletin to the repeated reads of a ring; the times are the
    readings of the clocks, in the order the handlers take them; [sa_probe] are
    the health probes of a report. *)
Record SignApp {St Post : Type} := MkSignApp {
  sa_view : ReportingView St Post;
  sa_read_ring : bytes -> nat -> option Post;
  sa_ring_time : Z;
  sa_auth_time : option Z;
  sa_policy_time : option Z;
  sa_guard_now : Instant;
  sa_guard_unix : Z;
  sa_report_time : option Z;
  sa_probe : option (nat -> bool);
  sa_nonce_now : Instant;
  sa_nonce_created : Instant;
  sa_sign_time : option Z;
  sa_accepted : option bool;
  sa_anchor : option bytes;
  sa_ready : ready_table;
  sa_candidate : Z -> option RefreshHealthCheckCandidate;
}.
#[global] Arguments SignApp : clear implicits.
#[global] Arguments MkSignApp {St Post}.

(** [serde_json] on a post inside a message, and the payload of a post. *)
Class PostJson (Post : Type) := {
  BulletinPost_try_from : bytes -> option (bytes * Post);
  post_payload : Post -> bytes;
}.

Definition MAX_SIGN_MESSAGE_BYTES : Z := 1024 * 1024.

Section Helpers.
Context {F G S P Signature Share NonceCommitment SigningState : Type} {SF : ScalarField F} {CG : CurveGroup F G}.
Context {BL : Blst F G S P} {TS : ThresholdSigner F G Signature Share NonceCommitment SigningState} {SHA : Sha2}.
Context {HX : Hex} {EC : Ecdsa} {SJ : StateJson} {AZ : Authz} {PR : Prost} {PD : PointDisplay G}.
Context {St Post : Type} {LS : LocalStorage St} {BP : BulletinPosts Post} {DP : DocumentPosts Post}.
Context {KP : DerivationPosts Post} {BJ : PostJson Post}.

Definition decode_ring_pk_bytes (ring_pk_bytes : bytes) : sign_result G :=
  map_err (G1Affine_from_bytes (F := F) ring_pk_bytes) (SignDeserialization "Failed to deserialize ring public key: {}").

Definition bundle_key_share (bundle : RingShareBundle) (message : string) : sign_result (DistKeyShare F) :=
  let? pri_share := map_err (PriShare_from_bytes (share_bytes bundle)) (SignDeserialization message) in
  Ok (MkDistKeyShare pri_share).

Definition load_dist_key_share (storage : St) (ring_pk : G) : sign_result (DistKeyShare F) :=
  let? bundle := map_err (load_by_ring_pk storage ring_pk) (SignStorage "Failed to load share bundle: {}") in
  bundle_key_share bundle "Failed to deserialize final share: {}".

Definition sha256_hex (b : bytes) : bytes := hex_encode (sha256 b).

Definition ring_payload_reshare_sign_state_sha256_hex (payload : RingPayload) : bytes :=
  hex_encode (ring_reshare_sign_state_hash (ring_reshare_sign_state_from_payload payload)).

Definition finalized_ring_payload_reshare_sign_state_sha256_hex (current_payload : RingPayload) : bytes :=
  ring_payload_reshare_sign_state_sha256_hex (finalized_payload current_payload).

Definition decode_sha256_hex (value : bytes) : sign_result bytes :=
  let? b := ok_or (hex_decode value) (SignDeserialization "Failed to decode {label} hex: {e}") in
  reject (negb (length b =? 32)%nat) (SignInvalidInput "{label} must decode to 32 bytes, got {}") ;?
  Ok b.

Definition storage_key_from_ring_pk_hex (ring_pk_hex : bytes) : sign_result bytes :=
  let? b := ok_or (hex_decode ring_pk_hex) (SignDeserialization "Failed to decode ring_pk hex: {}") in
  let? ring_pk := decode_ring_pk_bytes b in
  Ok (point_to_string ring_pk).

Definition payload_ring_pk_matches (payload_ring_pk statement_ring_pk_hex storage_key : bytes) : bool :=
  if bool_decide (payload_ring_pk = statement_ring_pk_hex) || bool_decide (payload_ring_pk = storage_key) then true
  else match hex_decode payload_ring_pk with
       | Some b => match G1Affine_from_bytes (F := F) (G := G) b with
                   | Ok ring_pk => bool_decide (point_to_string ring_pk = storage_key)
                   | _ => false
                   end
       | None => false
       end.

(** The Vera bulletin builds the sign document with the function above. *)
Definition ring_reshare_update_message (statement : RingReshareUpdateStatement) : sign_result bytes :=
  let? current_ring_sha256 := decode_sha256_hex (ru_current_ring_sha256 statement) in
  let? finalized_ring_sha256 := decode_sha256_hex (ru_finalized_ring_sha256 statement) in
  map_err (ring_reshare_finalize_sign_bytes (ru_chain_id statement) (ru_ring_id statement) (ru_ring_pk statement)
      current_ring_sha256 finalized_ring_sha256 (ru_block_number_nonce statement))
    (SignSerialization "Failed to serialize ring reshare finalize sign document: {e}").

Definition ring_reshare_update_context_key (statement : RingReshareUpdateStatement) : sign_result bytes :=
  let? b := ring_reshare_update_message statement in
  Ok (bstr "ring-reshare-update:" ++ sha256_hex b).

(** [write_len_prefixed_str] and [write_len_prefixed_bytes]. *)
Definition len_prefixed (value : bytes) : bytes := to_le_bytes 4 (as_u32 (Z.of_nat (length value))) ++ value.

Definition refresh_health_check_peer_node_keys_sha256 (peer_node_keys : list bytes) : bytes :=
  let sorted := sort_strings peer_node_keys in
  sha256_hex (to_le_bytes 4 (as_u32 (Z.of_nat (length sorted))) ++ mjoin (len_prefixed <$> sorted)).

Definition refresh_health_check_message (statement : RefreshHealthCheckStatement) : sign_result bytes :=
  let? public_polynomial_sha256 := decode_sha256_hex (rh_public_polynomial_sha256 statement) in
  let? peer_node_keys_sha256 := decode_sha256_hex (rh_peer_node_keys_sha256 statement) in
  Ok (len_prefixed (rh_domain statement) ++ to_le_bytes 16 (rh_session_id statement) ++ len_prefixed (rh_ring_pk statement)
    ++ len_prefixed public_polynomial_sha256 ++ len_prefixed peer_node_keys_sha256
    ++ to_le_bytes 4 (rh_threshold statement) ++ to_le_bytes 4 (rh_total_participants statement)).

Definition refresh_health_check_context_key (statement : RefreshHealthCheckStatement) : sign_result bytes :=
  let? b := refresh_health_check_message statement in
  Ok (bstr "refresh-health-check:" ++ sha256_hex b).

(** The message a request carries must be the one of its statement. *)
Definition expect_message (expected_message : option bytes) (canonical_message : bytes) (message : string) : sign_result unit :=
  match expected_message with
  | Some expected => reject (negb (bool_decide (expected = canonical_message))) (SignUnauthorized message)
  | None => Ok tt
  end.

(** The node's own PET readiness for the transition of a ring. *)
Definition pet_ready (storage : St) (ring_id : bytes) (current_payload : RingPayload) : bool :=
  match load_pet storage ring_id with
  | Ok (Some pending) =>
      peer_node_keys_match (expected_new_committee pending) (effective_new_peer_node_keys current_payload)
      && (expected_new_threshold pending =? default (rp_threshold current_payload) (new_threshold current_payload))
  | _ => false
  end.

Definition validate_ring_reshare_update_statement (app : SignApp St Post) (statement : RingReshareUpdateStatement)
    (expected_message : option bytes) (enforce_protocol : bool) : sign_result (bytes * option RingShareBundle) :=
  reject (negb (bool_decide (ru_domain statement = RING_RESHARE_UPDATE_DOMAIN)))
    (SignUnauthorized "Invalid ring reshare update domain '{}'") ;?
  reject (negb (bool_decide (ru_chain_id statement = view_chain_id (sa_view app))))
    (SignUnauthorized "Ring reshare update chain_id '{}' does not match bulletin chain_id '{}'") ;?
  let? canonical_message := ring_reshare_update_message statement in
  expect_message expected_message canonical_message "Ring reshare update message does not match context statement" ;?
  reject (bool_decide (ru_ring_id statement = [])) (SignInvalidInput "Ring reshare update ring_id cannot be empty") ;?
  let? statement_storage_key := storage_key_from_ring_pk_hex (ru_ring_pk statement) in
  let? current_post := ok_or (view_read_ring (sa_view app) (ru_ring_id statement))
    (SignVerificationFailed "Failed to read ring bulletin post '{}': {}") in
  let? current_payload := ok_or (RingPayload_try_from current_post)
    (SignDeserialization "Failed to parse current ring payload: {}") in
  (if enforce_protocol then
     map_err (resolve_ring_protocol_decision (sa_ring_time app) current_payload) (SignProtocolError "{}") ;? Ok tt
   else Ok tt) ;?
  reject (negb (bool_decide (ring_payload_reshare_sign_state_sha256_hex current_payload = ru_current_ring_sha256 statement)))
    (SignVerificationFailed "Ring reshare update current ring hash mismatch: expected {}, got {}") ;?
  reject (negb (block_number_nonce current_payload =? ru_block_number_nonce statement))
    (SignUnauthorized "Ring reshare update block_number_nonce {} does not match current payload nonce {}") ;?
  reject (negb (bool_decide (finalized_ring_payload_reshare_sign_state_sha256_hex current_payload
      = ru_finalized_ring_sha256 statement)))
    (SignVerificationFailed "Ring reshare update finalized ring hash mismatch: expected {}, got {}") ;?
  reject (negb (payload_ring_pk_matches (ring_pk current_payload) (ru_ring_pk statement) statement_storage_key))
    (SignUnauthorized "Ring reshare update statement ring_pk does not match current payload") ;?
  reject (requires_pet current_payload && negb (pet_ready (view_storage (sa_view app)) (ru_ring_id statement) current_payload))
    SignReshareInProgress ;?
  let? staged_bundle := ok_or (reshare_signature_ready_material (sa_ready app) statement_storage_key
      (ru_session_id statement) (ru_ring_id statement) (ru_current_ring_sha256 statement)
      (ru_finalized_ring_sha256 statement)) SignReshareInProgress in
  Ok (ru_ring_pk statement, staged_bundle).

Definition validate_refresh_health_check_statement (app : SignApp St Post) (statement : RefreshHealthCheckStatement)
    (expected_message : option bytes) : sign_result (bytes * RingShareBundle) :=
  reject (negb (bool_decide (rh_domain statement = REFRESH_HEALTH_CHECK_DOMAIN)))
    (SignUnauthorized "Invalid refresh health-check domain '{}'") ;?
  reject (rh_threshold statement =? 0) (SignInvalidInput "Refresh health-check threshold cannot be zero") ;?
  reject ((rh_total_participants statement =? 0) || (rh_total_participants statement <? rh_threshold statement))
    (SignInvalidInput "Refresh health-check threshold {} is invalid for committee size {}") ;?
  let? canonical_message := refresh_health_check_message statement in
  expect_message expected_message canonical_message "Refresh health-check message does not match context statement" ;?
  let? candidate := ok_or (sa_candidate app (rh_session_id statement)) SignReshareInProgress in
  let? statement_storage_key := storage_key_from_ring_pk_hex (rh_ring_pk statement) in
  reject (negb (bool_decide (cd_ring_key candidate = statement_storage_key))
      || negb (bool_decide (cd_ring_pk_hex candidate = rh_ring_pk statement)))
    (SignUnauthorized "Refresh health-check statement ring_pk does not match staged candidate") ;?
  reject (negb (cd_threshold candidate =? rh_threshold statement))
    (SignUnauthorized "Refresh health-check threshold {} does not match staged threshold {}") ;?
  reject (negb (Z.of_nat (length (cd_peer_node_keys candidate)) =? rh_total_participants statement))
    (SignUnauthorized "Refresh health-check committee size {} does not match staged committee size {}") ;?
  reject (negb (bool_decide (refresh_health_check_peer_node_keys_sha256 (cd_peer_node_keys candidate)
      = rh_peer_node_keys_sha256 statement)))
    (SignUnauthorized "Refresh health-check peer set hash does not match staged candidate") ;?
  let bundle := cd_bundle candidate in
  let? pub_poly_bytes := ok_or (hex_decode (public_polynomial bundle))
    (SignDeserialization "Failed to decode public polynomial hex: {}") in
  reject (negb (bool_decide (sha256_hex pub_poly_bytes = rh_public_polynomial_sha256 statement))) SignReshareInProgress ;?
  Ok (rh_ring_pk statement, bundle).

Definition validate_sign_claims (token : BearerToken SignClaims) (derivation_id : bytes) (message : option bytes) :
    sign_result unit :=
  reject (negb (bool_decide (claim_derivation_id (claims token) = derivation_id)))
    (SignUnauthorized "Token derivation_id '{}' does not match request derivation_id '{}'") ;?
  match message with
  | Some message => reject (negb (bool_decide (claim_message_sha256 (claims token) = sha256 message)))
      (SignUnauthorized "Token message_sha256 does not match request message")
  | None => Ok tt
  end.

Definition policy_access_timestamp (now : option Z) (valid_window : option ValidWindow) : sign_result (option Z) :=
  match valid_window with
  | Some _ => let? t := ok_or now (SignSystemTime "{}") in Ok (Some t)
  | None => Ok None
  end.

Definition derivation_access (d : KeyDerivation) (derivation_id : bytes) (valid_window : option ValidWindow)
    (timestamp : option Z) : AccessCheckRequest :=
  MkAccessCheckRequest (kd_policy_id d) (kd_resource d) derivation_id (kd_permission d) None timestamp valid_window.

Definition sign_check_policy_access_at (derivation_payload : KeyDerivation) (derivation_id issuer_id : bytes)
    (valid_window : option ValidWindow) (timestamp : option Z) : sign_result unit :=
  let? permission := ok_or (request_to_bytes (derivation_access derivation_payload derivation_id valid_window timestamp))
    (SignAuthZ "Error formatting access request: {}") in
  let? is_authorized := map_err (authz_check permission issuer_id) (SignAuthZ "Error in Authz request: {}") in
  reject (negb is_authorized) (SignUnauthorized "Access denied: policy check failed").

Definition sign_check_policy_access (now : option Z) (derivation_payload : KeyDerivation) (derivation_id issuer_id : bytes)
    (valid_window : option ValidWindow) : sign_result unit :=
  let? timestamp := policy_access_timestamp now valid_window in
  sign_check_policy_access_at derivation_payload derivation_id issuer_id valid_window timestamp.

Definition enforce_route (app : SignApp St Post) (enforce_protocol : bool) (ring_payload : RingPayload) : sign_result unit :=
  if enforce_protocol then
    map_err (ensure_ring_protocol_route (sa_ring_time app) ring_payload (view_version (sa_view app))) (SignProtocolError "{}") ;?
    Ok tt
  else Ok tt.

Definition fetch_bulletin_payloads_for_version (app : SignApp St Post) (derivation_id : bytes) (enforce_protocol : bool) :
    sign_result (KeyDerivation * RingPayload) :=
  let? object_info := ok_or (view_read_derivation (sa_view app) derivation_id) (SignStorage "Failed to read object '{}': {}") in
  let? derivation_payload := ok_or (KeyDerivation_try_from object_info)
    (SignDeserialization "Failed to parse document payload: {}") in
  let? ring_info := ok_or (view_read_ring (sa_view app) (kd_ring_id derivation_payload))
    (SignStorage "Failed to read ring '{}': {}") in
  let? ring_payload := ok_or (RingPayload_try_from ring_info) (SignDeserialization "Failed to parse ring payload: {}") in
  enforce_route app enforce_protocol ring_payload ;?
  Ok (derivation_payload, ring_payload).

Definition verify_message_and_get_info_for_version (app : SignApp St Post) (message expected_object_id : bytes)
    (enforce_protocol : bool) : sign_result (bytes * PubPoly G) :=
  let? '(post_id, post) := ok_or (BulletinPost_try_from message)
    (SignDeserialization "Failed to deserialize BulletinPost: {}") in
  reject (negb (bool_decide (post_id = expected_object_id)))
    (SignUnauthorized "Bulletin signing object_id '{}' does not match message post id '{}'") ;?
  let? actual_post := ok_or (view_read_document (sa_view app) post_id)
    (SignVerificationFailed "Failed to read from bulletin (id={}): {}") in
  reject (negb (bool_decide (post_payload actual_post = post_payload post)))
    (SignVerificationFailed "Payload mismatch: message payload does not match bulletin") ;?
  let? doc_payload := ok_or (DocumentPayload_try_from post) (SignDeserialization "Failed to parse DocumentPayload: {}") in
  let? ring_info := ok_or (view_read_ring (sa_view app) (ring_id doc_payload))
    (SignVerificationFailed "Failed to read ring info for ring_id={}: {}") in
  let? ring_payload := ok_or (RingPayload_try_from ring_info) (SignDeserialization "Failed to parse RingPayload: {}") in
  enforce_route app enforce_protocol ring_payload ;?
  let? poly_state := map_err (load_from_ring_pk_hex (view_storage (sa_view app)) (ring_pk ring_payload))
    (SignStorage "Failed to load ring polynomial state: {}") in
  let? pub_poly_bytes := ok_or (hex_decode (public_polynomial poly_state))
    (SignDeserialization "Failed to decode public polynomial hex: {}") in
  let? pub_poly := map_err (PubPoly_from_bytes (F := F) pub_poly_bytes)
    (SignDeserialization "Failed to deserialize public polynomial: {}") in
  Ok (ring_pk ring_payload, pub_poly).
End Helpers.
