(* ===== verification/SignResponder.v ===== *)
(** * The signing responder

    [bin/orbis-node/src/sign/v0/coordinator/handlers.rs]: the two requests a ring
    member answers.  A nonce request is authorized, and its nonce is stored under
    the coordinator and the context it was authorized for; a signing request
    takes that nonce before anything else, is authorized again, and is answered
    with a share of the signature and, where the answer can be reported, a
    statement about it under the node's key. *)
From S2P Require Import Prelude Algebra Interpolation Primitives Codec Common Dkg Context Sigma Shares Pre Pet Signer.
From S2P Require Import ReportCodec ReportStatements ReportDkg ReportPet Evidence Identity NodeState Envelope Auth Routes Bulletin RingState PetNode Reporting Relay PetProtocol PreNode SignHelpers Registry SignNode.
Import NonceStates.

(** [ring_state.rs: RingIndexEntry] and its JSON. *)
Record RingIndexEntry := MkRingIndexEntry {
  ri_ring_pk_str : bytes;
  ri_bulletin_post_id : bytes;
  ri_indexed_at_secs : Z;
}.

Class RingIndexJson := { RingIndex_from_slice : bytes -> option (list RingIndexEntry) }.

(** The state the handlers change. *)
Record SignState := MkSignState {
  sn_nonces : gmap bytes NonceEntry;
  sn_seen : gmap bytes Instant;
  sn_reporting : ReportingState;
}.

Record SignResponseReportBinding := MkSignResponseReportBinding {
  bi_ring_id : bytes;
  bi_ring_pk : bytes;
  bi_ring_state_sha256 : bytes;
  bi_origin_protocol : bytes;
  bi_accused_committee_scope : CommitteeScope;
  bi_signing_committee_scope : CommitteeScope;
}.

Record SignRequestAuthorization := MkSignRequestAuthorization {
  au_ring_pk_hex : bytes;
  au_derivation : option bytes;
  au_metadata : option bytes;
  au_report_binding : option SignResponseReportBinding;
}.

Section Responder.
Context {F G S P Signature Share NonceCommitment SigningState : Type} {SF : ScalarField F} {CG : CurveGroup F G}.
Context {BL : Blst F G S P} {TS : ThresholdSigner F G Signature Share NonceCommitment SigningState} {SHA : Sha2}.
Context {HX : Hex} {EC : Ecdsa} {DJ : DocumentJson} {PJ : PetJson} {SJ : StateJson} {AZ : Authz} {AH : AuthzHistory}.
Context {JW : JwtLib SignClaims} {HO : HashOrder} {PR : Prost} {IJ : RingIndexJson} {PD : PointDisplay G}.
Context {St Post : Type} {LS : LocalStorage St} {BP : BulletinPosts Post} {DP : DocumentPosts Post}.
Context {KP : DerivationPosts Post} {BJ : PostJson Post}.
Context (validate_dkg_evidence : ReportEnvelope -> ReportValidationContext St Post -> RingPayload ->
  InvalidCryptoResponse -> report_result unit).
Context (app : SignApp St Post).
Abbreviation view := (sa_view app).

Definition SignResponseReportBinding_from_ring (ring_id : bytes) (ring : RingPayload) (origin_protocol : bytes)
    (accused_committee_scope signing_committee_scope : CommitteeScope) : SignResponseReportBinding :=
  MkSignResponseReportBinding ring_id (ring_pk ring) (ring_state_sha256 ring) origin_protocol accused_committee_scope
    signing_committee_scope.

(** ** Reads *)

Definition read_ring_payload_unchecked (ring_id : bytes) : sign_result RingPayload :=
  let? post := ok_or (view_read_ring view ring_id) (SignVerificationFailed "Failed to read ring bulletin post '{}': {}") in
  ok_or (RingPayload_try_from post) (SignDeserialization "Failed to parse RingPayload: {}").

Definition read_document_payload (object_id : bytes) : sign_result DocumentPayload :=
  let? post := ok_or (view_read_document view object_id) (SignVerificationFailed "Failed to read signing object '{}': {}") in
  ok_or (DocumentPayload_try_from post) (SignDeserialization "Failed to parse signing document '{}': {}").

Definition read_ring_payload_for_ring_pk_hex (ring_pk_hex : bytes) : sign_result (bytes * RingPayload) :=
  let? ring_pk_bytes := ok_or (hex_decode ring_pk_hex) (SignDeserialization "Failed to decode ring_pk hex: {}") in
  let? ring_pk := decode_ring_pk_bytes (F := F) (G := G) ring_pk_bytes in
  let ring_key := point_to_string ring_pk in
  let? stored := map_err (get (view_storage view) RingIndex) (SignStorage "Failed to read RingIndex: {}") in
  let? index_bytes := ok_or stored (SignStorage "RingIndex is not configured") in
  let? ring_index := ok_or (RingIndex_from_slice index_bytes) (SignStorage "Failed to parse RingIndex: {}") in
  let? entry := ok_or (snd <$> list_find (fun e => ri_ring_pk_str e = ring_key \/ ri_ring_pk_str e = ring_pk_hex) ring_index)
    (SignStorage "RingIndex has no entry for ring_pk {}") in
  let? ring := read_ring_payload_unchecked (ri_bulletin_post_id entry) in
  Ok (ri_bulletin_post_id entry, ring).

Definition report_signing_scope_from_envelope (envelope : ReportEnvelope) : sign_result CommitteeScope :=
  if bool_decide (re_report_type envelope = NODE_OFFLINE_REPORT_TYPE) then
    let? payload := map_err (NodeOffline_from_canonical_bytes (re_payload envelope)) (SignUnauthorized "{}") in
    Ok (no_signing_committee_scope payload)
  else if bool_decide (re_report_type envelope = INVALID_CRYPTO_RESPONSE_REPORT_TYPE) then
    let? evidence := map_err (InvalidCryptoResponse_from_canonical_bytes (re_payload envelope)) (SignUnauthorized "{}") in
    Ok (signing_committee_scope evidence)
  else Ok Current.

Definition sign_node_response_statement (statement : SignResponseStatement) : sign_result bytes :=
  let? stored := map_err (get_encrypted (view_storage view) NodeSigningKey)
    (SignStorage "Failed to read node signing key: {}") in
  let? signing_key := ok_or stored (SignStorage "Node signing key is not configured") in
  ensure (utf8_valid signing_key) (SignStorage "Stored node signing key is not UTF-8: {}") ;?
  map_err (sign_node_message_with_hex_key signing_key (SignResponseStatement_canonical_bytes statement))
    (SignCrypto "Failed to sign Sign response: {}").

(** ** Refused relays *)

Definition sign_relay_binding (request_id : bytes) (from_node_id : Z) (ctx : PolicyContext) (key_derivation : KeyDerivation)
    (ring_payload : RingPayload) (actor_id : bytes) (token : BearerToken SignClaims) : RelayRequestBinding :=
  MkRelayRequestBinding ring_payload (kd_ring_id key_derivation) (view_version view) (view_chain_id view) request_id
    (bstr "sign") actor_id (pc_derivation_id ctx) (issued_time token) (pc_valid_window ctx) SignPolicy from_node_id false.

Definition sign_relay_view (current_time : Z) : RelayView Post :=
  MkRelayView current_time (sa_accepted app) (sa_anchor app) (view_read_node view) NodeInfo_try_from.

Definition sign_report_relay_if_bound (ctx : PolicyContext) (binding : RelayRequestBinding) (current_time : Z)
    (s : SignState) : SignState :=
  match pc_relay_statement ctx with
  | None => s
  | Some statement =>
      match validate_relay_request_binding statement binding with
      | Ok _ => MkSignState (sn_nonces s) (sn_seen s) (report_unauthorized_relay (sign_relay_view current_time) statement
          (pc_relay_signature ctx) None (sn_reporting s))
      | _ => s
      end
  end.

(** A check whose refusal with [Unauthorized] is attributed to the relay. *)
Definition sign_attributed (check : sign_result unit) (report : SignState -> SignState) : method SignState SignError unit :=
  fun s =>
  match check with
  | Err (SignUnauthorized msg) => (Err (SignUnauthorized msg), report s)
  | other => (other, s)
  end.

Definition sign_record_token (token : BearerToken SignClaims) : method SignState SignError unit := fun s =>
  let '(outcome, seen) := check_and_record (jwt_id token) (expiration_time token) (sa_guard_now app) (sa_guard_unix app)
    (sn_seen s) in
  (match outcome with Ok _ => Ok tt | _ => Err (SignUnauthorized "{}") end, MkSignState (sn_nonces s) seen (sn_reporting s)).

(** ** Policy requests

    Both rounds resolve the token, the derivation and its ring in the same way;
    in the first round the token does not bind a message yet, and the route is
    always enforced. *)
Record ResolvedPolicy := MkResolvedPolicy {
  rp_current_time : Z;
  rp_token : BearerToken SignClaims;
  rp_key_derivation : KeyDerivation;
  rp_ring_payload : RingPayload;
  rp_actor_id : bytes;
}.

Definition resolve_policy (ctx : PolicyContext) (message : option bytes) (enforce_protocol : bool) : sign_result ResolvedPolicy :=
  let? current_time := ok_or (sa_auth_time app) (SignGeneric "Failed to get timestamp: {}") in
  let? token := map_err (resolve_jwt_did (pc_token_string ctx) current_time MAX_TOKEN_LIFETIME_SECS MAX_JWT_BYTES
      JWT_CLOCK_SKEW_LEEWAY_SECS) (SignUnauthorized "JWT validation failed: {}") in
  validate_sign_claims token (pc_derivation_id ctx) message ;?
  let? '(key_derivation, ring_payload) := fetch_bulletin_payloads_for_version app (pc_derivation_id ctx) enforce_protocol in
  let? actor_id := map_err (request_actor token (trusted_auth_relay_dids ring_payload)) (SignUnauthorized "{}") in
  Ok (MkResolvedPolicy current_time token key_derivation ring_payload actor_id).

Definition check_resolved_policy (request_id : bytes) (from_node_id : Z) (ctx : PolicyContext) (r : ResolvedPolicy) :
    method SignState SignError unit :=
  sign_attributed (sign_check_policy_access (sa_policy_time app) (rp_key_derivation r) (pc_derivation_id ctx)
      (rp_actor_id r) (pc_valid_window ctx))
    (sign_report_relay_if_bound ctx (sign_relay_binding request_id from_node_id ctx (rp_key_derivation r) (rp_ring_payload r)
      (rp_actor_id r) (rp_token r)) (rp_current_time r)).

(** ** Nonces *)

(** What a nonce is bound to, in both rounds. *)
Definition nonce_context_key (context : SignContext) : sign_result bytes :=
  match context with
  | CtxBulletin object_id => Ok (bstr "bulletin:" ++ object_id)
  | CtxPolicy ctx => Ok (pc_derivation_id ctx)
  | CtxRingReshareUpdate statement => ring_reshare_update_context_key statement
  | CtxRefreshHealthCheck statement => refresh_health_check_context_key statement
  | CtxReport ctx => Ok (bstr "report:" ++ report_id (rsc_envelope ctx))
  end.

(** The ring a nonce request is authorized for, and the staged bundle to answer
    it with. *)
Definition authorize_nonce_request (req : NonceRequest) (sender_peer_id : bytes) :
    method SignState SignError (bytes * option RingShareBundle) :=
  match nq_context req with
  | CtxPolicy ctx =>
      let! r := m_lift (resolve_policy ctx None true) in
      let relay_request_id := default (nq_request_id req) (strip_prefix (bstr "nonce-") (nq_request_id req)) in
      check_resolved_policy relay_request_id (nq_from_node_id req) ctx r ;!
      sign_record_token (rp_token r) ;!
      m_ret (ring_pk (rp_ring_payload r), None)
  | CtxRingReshareUpdate statement => m_lift (validate_ring_reshare_update_statement (F := F) (G := G) app statement None false)
  | CtxRefreshHealthCheck statement =>
      let! '(ring_pk_hex, bundle) := m_lift (validate_refresh_health_check_statement (F := F) (G := G) app statement None) in
      m_ret (ring_pk_hex, Some bundle)
  | CtxBulletin object_id =>
      let! document_post := m_lift (ok_or (view_read_document view object_id)
        (SignVerificationFailed "Failed to read bulletin signing object '{}': {}")) in
      let! document_payload := m_lift (ok_or (DocumentPayload_try_from document_post)
        (SignDeserialization "Failed to parse bulletin signing document '{}': {}")) in
      let! ring_payload := m_lift (map_err (read_ring_for_route (sa_read_ring app (ring_id document_payload)) RingPayload_try_from
        (sa_ring_time app) (view_version view)) (SignProtocolError "{}")) in
      m_ret (ring_pk ring_payload, None)
  | CtxReport ctx =>
      let! ring_pk_hex := m_lift (map_err (validate_signing_report validate_dkg_evidence view (sa_report_time app)
        (sa_probe app) ctx sender_peer_id true) (SignUnauthorized "{}")) in
      m_ret (ring_pk_hex, None)
  end.

Definition store_nonce (request_id state_bytes context_key sender_peer_id : bytes) : method SignState SignError unit := fun s =>
  let '(outcome, nonces) := store_nonce_for_version (sa_nonce_now app) (sa_nonce_created app) (view_version view) request_id
    state_bytes context_key sender_peer_id (sn_nonces s) in
  (match outcome with
   | Stored => Ok tt
   | AlreadyExists => Err (SignNonceState "Nonce state already exists for request {request_id}")
   | LimitReached => Err (SignNonceState "Nonce state limit exceeded")
   end, MkSignState nonces (sn_seen s) (sn_reporting s)).

(** The nonce itself: the key share it is made with, the commitment and the
    state that is kept. *)
Definition make_nonce (fuel : nat) (req : NonceRequest) (authoritative_ring_pk_hex : bytes)
    (staged_sign_bundle : option RingShareBundle) (rng : Rng F) : sign_result (Z * bytes * bytes * Rng F) :=
  let? client_ring_pk := decode_ring_pk_bytes (F := F) (G := G) (nq_ring_pk req) in
  let? authoritative_ring_pk_bytes := ok_or (hex_decode authoritative_ring_pk_hex)
    (SignDeserialization "Failed to decode authoritative ring_pk: {}") in
  let? authoritative_ring_pk := decode_ring_pk_bytes authoritative_ring_pk_bytes in
  reject (negb (bool_decide (client_ring_pk = authoritative_ring_pk)))
    (SignUnauthorized "Nonce request ring_pk does not match authorized context") ;?
  let? dist_key_share :=
    match staged_sign_bundle with
    | Some bundle => bundle_key_share bundle "Failed to deserialize staged share: {}"
    | None => load_dist_key_share (view_storage view) authoritative_ring_pk
    end in
  let? '((commitment, signing_state), rng1) := map_err (signer_generate_nonces fuel dist_key_share rng)
    (SignCrypto "Nonce generation failed: {}") in
  let? commitment_bytes := map_err (@to_bytes _ nonce_serialize commitment)
    (SignSerialization "Failed to serialize nonce commitment: {}") in
  let? state_bytes := map_err (@to_bytes _ state_serialize signing_state)
    (SignSerialization "Failed to serialize signing state: {}") in
  Ok (pri_i (pri_share dist_key_share), commitment_bytes, state_bytes, rng1).

Definition handle_nonce_request (fuel : nat) (req : NonceRequest) (sender_peer_id : bytes) (rng : Rng F) :
    method SignState SignError (option SignMessage * Rng F) :=
  let! '(authoritative_ring_pk_hex, staged_sign_bundle) := authorize_nonce_request req sender_peer_id in
  let! '(node_id, commitment_bytes, state_bytes, rng1) :=
    m_lift (make_nonce fuel req authoritative_ring_pk_hex staged_sign_bundle rng) in
  let! context_key := m_lift (nonce_context_key (nq_context req)) in
  store_nonce (nq_request_id req) state_bytes context_key sender_peer_id ;!
  m_ret (Some (MsgNonceResponse (nq_request_id req) node_id commitment_bytes), rng1).

(** ** Authorization of a signing request *)

Definition authorize_bulletin_sign_request (message object_id : bytes) : sign_result SignRequestAuthorization :=
  let? '(ring_pk_hex, _) := verify_message_and_get_info_for_version (F := F) (G := G) app message object_id (negb INTERACTIVE) in
  let? document_payload := read_document_payload object_id in
  let? ring_payload := read_ring_payload_unchecked (ring_id document_payload) in
  Ok (MkSignRequestAuthorization ring_pk_hex None None (Some (SignResponseReportBinding_from_ring (ring_id document_payload)
    ring_payload (bstr "sign") Current Current))).

Definition authorize_policy_sign_request (request_id : bytes) (from_node_id : Z) (message : bytes) (ctx : PolicyContext) :
    method SignState SignError SignRequestAuthorization :=
  let! r := m_lift (resolve_policy ctx (Some message) (negb INTERACTIVE)) in
  check_resolved_policy request_id from_node_id ctx r ;!
  let d := rp_key_derivation r in
  m_ret (MkSignRequestAuthorization (ring_pk (rp_ring_payload r)) (Some (kd_derivation d))
    (Some (signer_encode_metadata (kd_policy_id d) (kd_resource d) (kd_permission d))) None).

Definition authorize_ring_reshare_update_sign_request (message : bytes) (statement : RingReshareUpdateStatement) :
    sign_result SignRequestAuthorization :=
  let? '(ring_pk_hex, _) := validate_ring_reshare_update_statement (F := F) (G := G) app statement (Some message) false in
  let? ring_payload := read_ring_payload_unchecked (ru_ring_id statement) in
  Ok (MkSignRequestAuthorization ring_pk_hex None None (Some (SignResponseReportBinding_from_ring (ru_ring_id statement)
    ring_payload (bstr "pss_reshare") PendingNew PendingNew))).

Definition authorize_refresh_health_check_sign_request (message : bytes) (statement : RefreshHealthCheckStatement) :
    sign_result SignRequestAuthorization :=
  let? '(ring_pk_hex, _) := validate_refresh_health_check_statement (F := F) (G := G) app statement (Some message) in
  let? '(ring_id, ring_payload) := read_ring_payload_for_ring_pk_hex ring_pk_hex in
  Ok (MkSignRequestAuthorization ring_pk_hex None None (Some (SignResponseReportBinding_from_ring ring_id ring_payload
    (bstr "pss_refresh") Current Current))).

Definition authorize_report_sign_request (message : bytes) (ctx : ReportSigningContext) (sender_peer_id : bytes) :
    sign_result SignRequestAuthorization :=
  let envelope := rsc_envelope ctx in
  reject (negb (bool_decide (ReportEnvelope_canonical_bytes envelope = message)))
    (SignUnauthorized "fault report message does not match its canonical envelope") ;?
  let? ring_pk_hex := map_err (validate_signing_report validate_dkg_evidence view (sa_report_time app) (sa_probe app) ctx
    sender_peer_id (negb INTERACTIVE)) (SignUnauthorized "{}") in
  let? signing_scope := report_signing_scope_from_envelope envelope in
  Ok (MkSignRequestAuthorization ring_pk_hex None None (Some (MkSignResponseReportBinding (re_ring_id envelope)
    (re_ring_pk envelope) (re_ring_state_sha256 envelope) (bstr "report") signing_scope signing_scope))).

Definition authorize_sign_request (req : SignRequest) (sender_peer_id : bytes) : method SignState SignError SignRequestAuthorization :=
  let message := sq_message req in
  match sq_context req with
  | CtxBulletin object_id => m_lift (authorize_bulletin_sign_request message object_id)
  | CtxPolicy ctx => authorize_policy_sign_request (sq_request_id req) (sq_from_node_id req) message ctx
  | CtxRingReshareUpdate statement => m_lift (authorize_ring_reshare_update_sign_request message statement)
  | CtxRefreshHealthCheck statement => m_lift (authorize_refresh_health_check_sign_request message statement)
  | CtxReport ctx => m_lift (authorize_report_sign_request message ctx sender_peer_id)
  end.

(** ** Signing *)

(** Round 2 takes the nonce of Round 1 before any other work, so that every
    request of the coordinator that made it frees it. *)
Definition take_nonce (request_id sender_peer_id : bytes) : method SignState SignError (option ConsumedNonce) := fun s =>
  if INTERACTIVE then
    let '(consumed, nonces) := consume_nonce_for_sign_request_for_version (view_version view) (bstr "nonce-" ++ request_id)
      sender_peer_id (sn_nonces s) in
    (match consumed with
     | Some c => Ok (Some c)
     | None => Err (SignNonceState "No nonce state found for request_id {} or coordinator mismatch")
     end, MkSignState nonces (sn_seen s) (sn_reporting s))
  else (Ok None, s).

(** The share and the polynomial come from one bundle: the staged one of a
    refresh or a reshare, otherwise the stored one. *)
Definition signing_bundle (req : SignRequest) (ring_pk : G) : sign_result RingShareBundle :=
  let stored := map_err (load_by_ring_pk (view_storage view) ring_pk) (SignStorage "Failed to load share bundle: {}") in
  match sq_context req with
  | CtxRefreshHealthCheck statement =>
      let? '(_, bundle) := validate_refresh_health_check_statement (F := F) (G := G) app statement (Some (sq_message req)) in
      Ok bundle
  | CtxRingReshareUpdate statement =>
      let? '(_, staged_bundle) := validate_ring_reshare_update_statement (F := F) (G := G) app statement
        (Some (sq_message req)) false in
      match staged_bundle with Some bundle => Ok bundle | None => stored end
  | _ => stored
  end.

Definition open_signing_state (req : SignRequest) (consumed_nonce : option ConsumedNonce) : sign_result (option SigningState) :=
  if INTERACTIVE then
    let? expected_context_key := nonce_context_key (sq_context req) in
    let? consumed_nonce := ok_or consumed_nonce (SignNonceState "Missing nonce state") in
    let? state_bytes := ok_or (into_bytes_for_context consumed_nonce expected_context_key)
      (SignNonceState "Nonce context key mismatch for request_id {}") in
    let? state := map_err (@from_bytes _ state_deserialize state_bytes)
      (SignDeserialization "Failed to deserialize signing state: {}") in
    Ok (Some state)
  else Ok None.

Definition sign_response_statement (chain_id ring_id ring_pk ring_state_sha256 : bytes) (protocol_version : Z)
    (request_id : bytes) (signed_at : Z) (responder_node_key origin_protocol : bytes)
    (accused_committee_scope signing_committee_scope : CommitteeScope) (from_node_id : Z) (message signing_commitments : bytes)
    (derivation metadata : option bytes) (sig_share : bytes) : SignResponseStatement :=
  MkSignResponseStatement SIGN_RESPONSE_DOMAIN chain_id ring_id ring_pk ring_state_sha256 protocol_version request_id
    signed_at responder_node_key origin_protocol accused_committee_scope signing_committee_scope from_node_id message
    signing_commitments derivation metadata sig_share signer_name.

(** The answer a reportable request gets is signed with the node's key. *)
Definition attest_share (req : SignRequest) (a : SignRequestAuthorization) (node_id : Z) (sig_share_bytes : bytes) :
    sign_result (Z * bytes) :=
  match au_report_binding a with
  | Some binding =>
      let? signed_at := ok_or (sa_sign_time app) (SignGeneric "Failed to get timestamp: {}") in
      let statement := sign_response_statement (view_chain_id view) (bi_ring_id binding) (bi_ring_pk binding)
        (bi_ring_state_sha256 binding) (view_version view) (sq_request_id req) signed_at (view_node_key view)
        (bi_origin_protocol binding) (bi_accused_committee_scope binding) (bi_signing_committee_scope binding) node_id
        (sq_message req) (sq_all_commitments req) (au_derivation a) (au_metadata a) sig_share_bytes in
      let? response_signature := sign_node_response_statement statement in
      Ok (signed_at, response_signature)
  | None => Ok (0, [])
  end.

Definition make_share (req : SignRequest) (a : SignRequestAuthorization) (consumed_nonce : option ConsumedNonce) :
    sign_result SignMessage :=
  let? ring_pk_bytes := ok_or (hex_decode (au_ring_pk_hex a)) (SignDeserialization "Failed to decode ring_pk hex: {}") in
  let? ring_pk := decode_ring_pk_bytes ring_pk_bytes in
  let? bundle := signing_bundle req ring_pk in
  let? pub_poly_bytes := ok_or (hex_decode (public_polynomial bundle))
    (SignDeserialization "Failed to decode public polynomial hex: {}") in
  let? pub_poly := map_err (PubPoly_from_bytes (F := F) pub_poly_bytes)
    (SignDeserialization "Failed to deserialize public polynomial: {}") in
  let? dist_key_share := bundle_key_share bundle "Failed to deserialize final share: {}" in
  let node_id := pri_i (pri_share dist_key_share) in
  let? all_commitments := deserialize_commitments (TD := nonce_deserialize) (sq_all_commitments req) in
  let? signing_state := open_signing_state req consumed_nonce in
  let? sig_share := map_err (signer_sign dist_key_share (sq_message req) pub_poly signing_state all_commitments
      (au_derivation a) (au_metadata a)) (SignCrypto "Signing failed: {}") in
  let? sig_share_bytes := map_err (@to_bytes _ share_serialize (pub_v sig_share))
    (SignSerialization "Failed to serialize signature share: {}") in
  let? '(signed_at, response_signature) := attest_share req a node_id sig_share_bytes in
  Ok (MsgSignResponse (sq_request_id req) node_id sig_share_bytes signed_at response_signature).

Definition handle_sign_request (req : SignRequest) (sender_peer_id : bytes) : method SignState SignError (option SignMessage) :=
  let! consumed_nonce := take_nonce (sq_request_id req) sender_peer_id in
  m_lift (reject (MAX_SIGN_MESSAGE_BYTES <? Z.of_nat (length (sq_message req)))
    (SignInvalidInput "Message too large: {} bytes exceeds maximum {}")) ;!
  let! a := authorize_sign_request req sender_peer_id in
  let! response := m_lift (make_share req a consumed_nonce) in
  m_ret (Some response).

Definition sign_handle_message (fuel : nat) (message : SignMessage) (sender_peer_id : bytes) (rng : Rng F) :
    method SignState SignError (option SignMessage * Rng F) :=
  match message with
  | MsgNonceRequest req => handle_nonce_request fuel req sender_peer_id rng
  | MsgSignRequest req => let! r := handle_sign_request req sender_peer_id in m_ret (r, rng)
  | _ => m_ret (None, rng)
  end.
End Responder.
