(* ===== verification/PreInitiator.v ===== *)
(** * The PRE initiator

    [bin/orbis-node/src/pre/v0/coordinator/initiator.rs] and
    [helpers/ring.rs]: the key material of a request, the node's own share, the
    collection of the peers' shares, the drain of what arrives after it, and
    the recovery of the re-encrypted commitment.  The results of the peer tasks
    are given in the order they are joined before the collection times out, each
    with the reading of the clock its check takes. *)
From S2P Require Import Prelude Algebra Interpolation Primitives Codec Common Dkg Context Sigma Shares Pre Pet.
From S2P Require Import ReportCodec ReportStatements ReportPet Evidence Identity NodeState Envelope Responses Auth Routes Bulletin RingState PetNode Reporting Relay PetProtocol PreNode.

(** [str::to_lowercase]: Unicode tables, of which the ASCII part is fixed. *)
Class UnicodeCase := {
  to_lowercase : bytes -> bytes;
  to_lowercase_ascii s : Forall (fun b => byte.unsigned b < 128) s -> to_lowercase s = to_ascii_lowercase s;
}.

(** [serde_json] on the output. *)
Class PreJson := { PreResponse_to_vec : bytes -> Secret -> option bytes }.

(** ** Identities of a ring *)
Section RingIdentity.
Context {UC : UnicodeCase} {HX : Hex}.

Definition route_for_peer (ring : RingConfig) (peer_id : bytes) : option bytes :=
  let peer_node_part := to_lowercase (extract_node_part peer_id) in
  (fun e : nat * (bytes * bytes) => e.2.1) <$>
    list_find (fun kr => to_lowercase (extract_node_part kr.2) = peer_node_part) (zip (rc_peer_node_keys ring) (rc_peer_ids ring)).

Definition determine_ring_node_id_from_peer_id (peer_id : bytes) (ring : RingConfig) : option Z :=
  if negb (length (rc_peer_node_keys ring) =? length (rc_peer_ids ring))%nat then None
  else node_key ← route_for_peer ring peer_id; determine_session_node_id node_key (rc_peer_node_keys ring).

Definition pre_node_key_for_peer (ring : RingConfig) (peer_id : bytes) : option bytes := route_for_peer ring peer_id.

Definition is_self_peer_id (local_peer_id peer_id_str : bytes) : bool :=
  bool_decide (hex_encode local_peer_id = to_lowercase (extract_node_part peer_id_str)).
End RingIdentity.

(** ** The binding of a report *)

Record PreReportBinding := MkPreReportBinding {
  bn_chain_id : bytes;
  bn_ring_id : bytes;
  bn_ring_pk : bytes;
  bn_ring_state_sha256 : bytes;
  bn_timestamp : option Z;
  bn_inline_document : option ReportedDocumentEvidence;
}.

Definition PreReportBinding_from_ring `{Sha2} `{Hex} (chain_id ring_id : bytes) (ring_payload : RingPayload)
    (timestamp : option Z) (inline_document : option ReportedDocumentEvidence) : PreReportBinding :=
  MkPreReportBinding chain_id ring_id (ring_pk ring_payload) (ring_state_sha256 ring_payload) timestamp inline_document.

Definition response_report_context (b : PreReportBinding) (protocol_version : Z) (request_id accused_node_key
    accused_peer_id object_id rdr_pk : bytes) (derivation : option bytes) : PreResponseReportContext :=
  MkPreResponseReportContext (bn_chain_id b) (bn_ring_id b) (bn_ring_pk b) (bn_ring_state_sha256 b) protocol_version
    request_id accused_node_key accused_peer_id object_id rdr_pk derivation (bn_timestamp b) (bn_inline_document b).

(** ** Collection *)

(** The outcome of a peer task: [None] when the task panicked. *)
Record Arrival := MkArrival {
  ar_now : option Z;
  ar_result : option (bytes * pre_result (option PreMessage));
}.

Record CollectState {G : Type} := MkCollectState {
  cl_seen : gset Z;
  cl_shares : list (PubShare G);
  cl_successful : Z;
  cl_reporting : ReportingState;
}.
#[global] Arguments CollectState : clear implicits.
#[global] Arguments MkCollectState {G}.

Record ReencryptionMaterial {G : Type} := MkReencryptionMaterial {
  mt_pub_poly : PubPoly G;
  mt_local_share_bundle : option RingShareBundle;
}.
#[global] Arguments ReencryptionMaterial : clear implicits.
#[global] Arguments MkReencryptionMaterial {G}.

Record ReencryptionRequestMaterial {G : Type} := MkReencryptionRequestMaterial {
  qm_rdr_pk : G;
  qm_secret : Secret;
  qm_enc_cmt : G;
}.
#[global] Arguments ReencryptionRequestMaterial : clear implicits.
#[global] Arguments MkReencryptionRequestMaterial {G}.

(** ** The response table *)

Abbreviation response_table := (gmap bytes (ResponseEntry PreMessage)).

Record InitiatorState := MkInitiatorState {
  is_responses : response_table;
  is_reporting : ReportingState;
}.

(** What the network does in an exchange: [io_stream] is the identity the
    transport authenticated, [io_received] the answer's bytes. *)
Record ExchangeIO := MkExchangeIO {
  io_timed_out : bool;
  io_stream : option bytes;
  io_encoded : bool;
  io_sent : bool;
  io_received : option bytes;
}.

Section Exchange.
Context {HX : Hex}.

(** [store_response] of [helpers.rs]. *)
Definition pre_store_response (protocol_version : Z) (message : PreMessage) (sender_peer_id : bytes)
    (map : response_table) : bool * response_table :=
  let '(outcome, map) := store_response_for_version protocol_version (PreMessage_request_id message) message sender_peer_id map in
  (match outcome with ResponseStored => true | _ => false end, map).

(** Responses that arrive on a stream of their own are stored, other messages are
    routed to the handler. *)
Definition pre_try_store_response (version : Z) (msg : PreMessage) (peer_id : bytes) (map : response_table) :
    option PreMessage * response_table :=
  match msg with
  | PreReencryptResponse _ _ _ _ _ _ _ => (None, (pre_store_response version msg peer_id map).2)
  | _ => (Some msg, map)
  end.

(** The exchange with one peer, where [decode] is the wire format. *)
Definition exchange (decode : bytes -> option PreMessage) (version : Z) (io : ExchangeIO) (message : PreMessage)
    (request_id : bytes) : method response_table PreError (option PreMessage) :=
  match message with
  | PreReencryptRequest _ =>
      let! peer_id := m_lift (ok_or (io_stream io) (PreNetworkConnection "Failed to open stream to peer {}: {}")) in
      m_lift (ensure (io_encoded io) (PreSerialization "Failed to serialize message: {}")) ;!
      m_lift (ensure (io_sent io) (PreNetworkCommunication "Failed to send message to peer {}: {}")) ;!
      let! data := m_lift (ok_or (io_received io) (PreNetworkCommunication "Failed to receive response from peer {}: {}")) in
      let! response := m_lift (ok_or (decode data) (PreDeserialization "Failed to deserialize response: {}")) in
      m_lift (reject (negb (bool_decide (PreMessage_request_id response = request_id)))
        (PreProtocolError "Peer {} responded with mismatched request_id: expected {}, got {}")) ;!
      match response with
      | PreReencryptResponse _ _ _ _ _ _ _ => fun map =>
          let '(outcome, map) := store_response_for_version version (PreMessage_request_id response) response peer_id map in
          (match outcome with
           | ResponseStored | MissingRequest => Ok (Some response)
           | UnexpectedOrDuplicatePeer => Ok None
           end, map)
      | _ => m_ret None
      end
  | _ => m_lift (Err (PreProtocolError "send_request_and_receive_response requires a ReencryptRequest"))
  end.

(** A timeout drops the exchange before its last step, the store. *)
Definition send_request_and_receive_response (decode : bytes -> option PreMessage) (version : Z) (io : ExchangeIO)
    (message : PreMessage) (request_id : bytes) : method response_table PreError (option PreMessage) :=
  if io_timed_out io then m_lift (Err (PreTimeout "Peer exchange timed out for {peer_id_str}"))
  else exchange decode version io message request_id.
End Exchange.

Section Initiator.
Context {F G S P : Type} {SF : ScalarField F} {CG : CurveGroup F G} {BL : Blst F G S P} {SHA : Sha2}.
Context {HX : Hex} {EC : Ecdsa} {PJ : PetJson} {PD : PointDisplay G} {UC : UnicodeCase} {RJ : PreJson}.
Context {St : Type} {LS : LocalStorage St}.

Definition decode_pub_poly_hex (hex_str : bytes) : res string (PubPoly G) :=
  let? bytes := ok_or (hex_decode hex_str) "Failed to decode polynomial hex: {error}" in
  map_err (PubPoly_from_bytes (F := F) bytes) "Failed to deserialize public polynomial: {error}".

Definition load_ring_pub_poly_and_bundle (storage : St) (ring : RingConfig) (self_in_list : bool) :
    res string (PubPoly G * option RingShareBundle) :=
  let from_config := let? p := decode_pub_poly_hex (rc_public_polynomial_hex ring) in Ok (p, None) in
  if negb self_in_list then from_config
  else
    let? ring_pk := map_err (G1Affine_from_bytes (F := F) (rc_ring_pk_bytes ring))
      "Failed to deserialize ring public key: {error}" in
    match load_by_ring_pk storage ring_pk with
    | Ok bundle =>
        let? polynomial := map_err (decode_pub_poly_hex (public_polynomial bundle)) "bundle polynomial: {error}" in
        Ok (polynomial, Some bundle)
    | _ => from_config
    end.

Definition resolve_reencryption_material (storage : St) (ring : RingConfig) (self_in_list : bool)
    (actual_peer_count : Z) : pre_result (ReencryptionMaterial G) :=
  let? '(pub_poly, local_share_bundle) := map_err (load_ring_pub_poly_and_bundle storage ring self_in_list)
    (PreDeserialization "{}") in
  let potential_shares := if self_in_list then actual_peer_count + 1 else actual_peer_count in
  reject (potential_shares <? rc_threshold ring) (PreInsufficientShares potential_shares (rc_threshold ring)) ;?
  Ok (MkReencryptionMaterial pub_poly local_share_bundle).

Definition resolve_reencryption_request (ctx : PreRequestContext) (secret_bytes : bytes) :
    pre_result (ReencryptionRequestMaterial G) :=
  let? rdr_pk := map_err (G1Affine_from_bytes (F := F) (px_rdr_pk_bytes ctx))
    (PreDeserialization "Failed to deserialize reader public key: {}") in
  let? secret := ok_or (Secret_from_str secret_bytes) (PreDeserialization "Failed to deserialize secret: {}") in
  let? enc_cmt := map_err (G1Affine_from_bytes (F := F) (enc_cmt secret))
    (PreDeserialization "Failed to deserialize enc_cmt: {}") in
  Ok (MkReencryptionRequestMaterial rdr_pk secret enc_cmt).

Definition compute_local_reencryption_share (fuel : nat) (self_in_list : bool) (material : ReencryptionMaterial G)
    (request : ReencryptionRequestMaterial G) (ctx : PreRequestContext) (context : ReaderAuthorizationContext)
    (rng : Rng F) : pre_result (option (PubShare G) * Rng F) :=
  if negb self_in_list then Ok (None, rng)
  else
    let? bundle := ok_or (mt_local_share_bundle material) (PreStorage "Local share bundle missing for ring member") in
    let? pri_share := map_err (PriShare_from_bytes (share_bytes bundle))
      (PreDeserialization "Failed to deserialize local share: {}") in
    let? '(reply, rng1) := map_err (reencrypt fuel (MkDistKeyShare pri_share) (qm_secret request) (qm_rdr_pk request)
        context (px_rdr_pk_signature ctx) rng) (PreCrypto "Local reencryption failed: {}") in
    match verify (qm_rdr_pk request) (mt_pub_poly material) (qm_enc_cmt request) reply (px_derivation ctx) with
    | Ok _ => Ok (Some (rr_share reply), rng1)
    | _ => Ok (None, rng1)
    end.

Section Collection.
Context (version : Z) (request_id : bytes) (ring : RingConfig) (ctx : PreRequestContext) (binding : PreReportBinding)
  (material : ReencryptionMaterial G) (request : ReencryptionRequestMaterial G).

(** One response of an authenticated peer. *)
Definition check_response (now : option Z) (peer_id : bytes) (response : PreMessage) (seen : gset Z) :
    option (PeerResponseVerification G * gset Z) :=
  expected_node_id ← determine_ring_node_id_from_peer_id peer_id ring;
  accused_node_key ← pre_node_key_for_peer ring peer_id;
  let c := response_report_context binding version request_id accused_node_key peer_id (px_object_id ctx)
    (px_rdr_pk_bytes ctx) (px_derivation ctx) in
  Some (verify_peer_response (F := F) (default 0 now) response (qm_rdr_pk request) (mt_pub_poly material)
    (qm_enc_cmt request) (px_derivation ctx) expected_node_id c seen).

(** A report that cannot be queued is logged and dropped. *)
Definition try_report (observation : ReportObservation) (s : ReportingState) : ReportingState := (queue_report observation s).2.

Definition report_offline (now : option Z) (peer_id : bytes) (error : PreError) (s : ReportingState) : ReportingState :=
  match offline_observation_from_pre_error now ring peer_id error version request_id with
  | Some observation => try_report (ObsNodeOffline observation) s
  | None => s
  end.

(** The body of the collection loop. *)
Definition handle_arrival (a : Arrival) (st : CollectState G) : CollectState G :=
  match ar_result a with
  | Some (peer_id, Ok (Some response)) =>
      match check_response (ar_now a) peer_id response (cl_seen st) with
      | Some (PeerVerified share, seen) =>
          MkCollectState seen (cl_shares st ++ [share]) (cl_successful st + 1) (cl_reporting st)
      | Some (PeerInvalidProof observation, seen) =>
          MkCollectState seen (cl_shares st) (cl_successful st) (try_report (ObsInvalidCryptoResponse observation) (cl_reporting st))
      | Some (PeerRejected, seen) => MkCollectState seen (cl_shares st) (cl_successful st) (cl_reporting st)
      | None => st
      end
  | Some (peer_id, Err e) =>
      MkCollectState (cl_seen st) (cl_shares st) (cl_successful st) (report_offline (ar_now a) peer_id e (cl_reporting st))
  | _ => st
  end.

(** The loop ends when enough shares are verified, or with the arrivals. *)
Fixpoint collect_loop (min_needed : Z) (arrivals : list Arrival) (st : CollectState G) : CollectState G :=
  match arrivals with
  | [] => st
  | a :: arrivals =>
      let st := handle_arrival a st in
      if min_needed <=? cl_successful st then st else collect_loop min_needed arrivals st
  end.

(** A response stored before the loop ended. *)
Definition handle_stored (now : option Z) (response : AuthenticatedResponse PreMessage) (st : CollectState G) : CollectState G :=
  match check_response now (sender_peer_hex response) (message response) (cl_seen st) with
  | Some (PeerVerified share, seen) => MkCollectState seen (cl_shares st ++ [share]) (cl_successful st) (cl_reporting st)
  | Some (PeerInvalidProof observation, seen) =>
      MkCollectState seen (cl_shares st) (cl_successful st) (try_report (ObsInvalidCryptoResponse observation) (cl_reporting st))
  | Some (PeerRejected, seen) => MkCollectState seen (cl_shares st) (cl_successful st) (cl_reporting st)
  | None => st
  end.

(** [stored] is what the response table held for the request. *)
Definition collect_network_reencryption_shares (already_verified_count : Z) (arrivals : list Arrival)
    (stored : option (list (option Z * AuthenticatedResponse PreMessage))) : method (CollectState G) PreError unit := fun st =>
  let min_needed := u64_saturating_sub (rc_threshold ring) already_verified_count in
  let st := if 0 <? min_needed then collect_loop min_needed arrivals st else st in
  match stored with
  | None => (Err (PreTimeout "No responses found for request {}"), st)
  | Some collected => (Ok tt, fold_left (fun st r => handle_stored r.1 r.2 st) collected st)
  end.

(** ** Late responses *)

(** One step of the background drain, over the seen set it inherited. *)
Definition handle_pre_drain_result (a : Arrival) (s : gset Z * ReportingState) : gset Z * ReportingState :=
  match ar_result a with
  | Some (peer_id, Ok (Some response)) =>
      match check_response (ar_now a) peer_id response s.1 with
      | Some (PeerInvalidProof observation, seen) => (seen, try_report (ObsInvalidCryptoResponse observation) s.2)
      | Some (_, seen) => (seen, s.2)
      | None => s
      end
  | Some (peer_id, Err e) => (s.1, report_offline (ar_now a) peer_id e s.2)
  | _ => s
  end.

Definition run_pre_response_drain (arrivals : list Arrival) (s : gset Z * ReportingState) : gset Z * ReportingState :=
  fold_left (fun s a => handle_pre_drain_result a s) arrivals s.
End Collection.

(** ** Recovery *)

(** [pss_active] is the answer of the session manager for the ring. *)
Definition is_ring_reshare_in_progress (pss_active : bytes -> bool) (ring_pk_bytes : bytes) : bool :=
  match G1Affine_from_bytes (F := F) (G := G) ring_pk_bytes with
  | Ok ring_pk => pss_active (point_to_string ring_pk)
  | _ => false
  end.

Definition finalize_reencryption (pss_active : bytes -> bool) (verified_shares : list (PubShare G)) (ring : RingConfig)
    (secret_bytes : bytes) : pre_result bytes :=
  let got := Z.of_nat (length verified_shares) in
  reject ((got <? rc_threshold ring) && is_ring_reshare_in_progress pss_active (rc_ring_pk_bytes ring))
    PreReshareInProgress ;?
  reject (got <? rc_threshold ring) (PreInsufficientShares got (rc_threshold ring)) ;?
  let? xnc_cmt_opt := map_err (recover (F := F) verified_shares (rc_threshold ring) (rc_total_participants ring))
    (PreRecoveryFailed "Failed to recover commitment: {}") in
  let? xnc_cmt := ok_or xnc_cmt_opt (PreRecoveryFailed "Recovery returned None") in
  let? xnc_cmt_bytes := map_err (G1Affine_to_bytes xnc_cmt) (PreSerialization "Failed to serialize xnc_cmt: {}") in
  let? secret := ok_or (Secret_from_str secret_bytes) (PreDeserialization "Failed to deserialize secret: {}") in
  ok_or (PreResponse_to_vec (hex_encode xnc_cmt_bytes) secret) (PreSerialization "Failed to serialize response: {}").

(** The pipeline: what [arrivals] and [stored] stand for is above. *)
Definition initiate_reencryption_inner (fuel : nat) (version : Z) (storage : St) (pss_active : bytes -> bool)
    (request_id : bytes) (ring : RingConfig) (secret_bytes : bytes) (self_in_list : bool) (actual_peer_count : Z)
    (ctx : PreRequestContext) (binding : PreReportBinding) (context : ReaderAuthorizationContext)
    (arrivals : list Arrival) (stored : option (list (option Z * AuthenticatedResponse PreMessage)))
    (rng : Rng F) : method ReportingState PreError (bytes * Rng F) :=
  let! material := m_lift (resolve_reencryption_material storage ring self_in_list actual_peer_count) in
  let! request := m_lift (resolve_reencryption_request ctx secret_bytes) in
  let! '(local, rng1) := m_lift (compute_local_reencryption_share fuel self_in_list material request ctx context rng) in
  let shares := match local with Some share => [share] | None => [] end in
  let! reporting := m_get in
  let '(outcome, st) := collect_network_reencryption_shares version request_id ring ctx binding material request
    (Z.of_nat (length shares)) arrivals stored (MkCollectState (list_to_set (pub_i <$> shares)) shares 0 reporting) in
  m_modify (fun _ => cl_reporting st) ;!
  m_lift outcome ;!
  let! response := m_lift (finalize_reencryption pss_active (cl_shares st) ring secret_bytes) in
  m_ret (response, rng1).

(** The request with its entry of the response table.  [during] is what the
    exchanges and the protocol handler do to the table until the collection
    takes the entry, [clock] the readings of the clock the checks of the stored
    responses take.  When the pipeline fails before it takes the entry, removing
    it is what is left to do, so taking it first changes nothing. *)
Definition initiate_reencryption (fuel : nat) (version : Z) (node_key local_peer_id : bytes) (storage : St)
    (pss_active : bytes -> bool) (max_entries : nat) (now : Instant) (request_id : bytes) (ring : RingConfig)
    (secret_bytes : bytes) (ctx : PreRequestContext) (binding : PreReportBinding) (context : ReaderAuthorizationContext)
    (arrivals : list Arrival) (during : response_table -> response_table) (clock : nat -> option Z) (rng : Rng F) :
    method InitiatorState PreError (bytes * Rng F) := fun s =>
  let self_in_list := bool_decide (is_Some (determine_session_node_id node_key (rc_peer_node_keys ring))) in
  let peers := Z.of_nat (length (rc_peer_ids ring)) in
  match if self_in_list then usize_sub peers 1 else Ok peers with
  | Ok actual_peer_count =>
      let expected_peers := filter (fun pid => is_self_peer_id local_peer_id pid = false) (rc_peer_ids ring) in
      match init_response_for_version max_entries now version request_id expected_peers (is_responses s) with
      | (InitCreated, map) =>
          let '(taken, map) := take_authenticated_responses_for_version version request_id (during map) in
          let stored := imap (fun i r => (clock i, r)) <$> taken in
          let '(result, reporting) := initiate_reencryption_inner fuel version storage pss_active request_id ring
            secret_bytes self_in_list actual_peer_count ctx binding context arrivals stored rng (is_reporting s) in
          (result, MkInitiatorState (remove_response_for_version version request_id map) reporting)
      | (InitAlreadyExists, map) =>
          (Err (PreProtocolError "PRE response state already exists for request {request_id}"),
           MkInitiatorState map (is_reporting s))
      | (InitLimitReached, map) =>
          (Err (PreProtocolError "PRE response limit exceeded, too many pending requests"),
           MkInitiatorState map (is_reporting s))
      end
  | other => (let? _ := other in Panic, s)
  end.
End Initiator.
