(* ===== verification/SignInitiator.v ===== *)
(** * The signing initiator

    [bin/orbis-node/src/sign/v0/coordinator]: the node a signature is asked of
    resolves the key material of the right generation, collects the nonce
    commitments of a signing set when the scheme needs them ([rounds/nonce.rs]),
    collects and checks the shares ([rounds/signing.rs], [verification.rs]), and
    recovers the signature.  The results of the peer tasks are given in the order
    they are joined before the collection times out, each with the reading of the
    clock its check takes.  A report is queued by a task of its own; the model
    queues it where the task is spawned. *)
From S2P Require Import Prelude Algebra Interpolation Primitives Codec Common Dkg Context Sigma Shares Pre Pet Frost Signer.
From S2P Require Import ReportCodec ReportStatements ReportDkg ReportPet Evidence Identity NodeState Envelope Responses Auth Routes Bulletin RingState PetNode Reporting Relay PetProtocol PreNode SignHelpers Registry SignNode SignResponder PreInitiator.

(** [serde_json] on the output. *)
Class SignJson := { SignResponse_to_vec : bytes -> option bytes }.

Record SigningOptions := MkSigningOptions { excluded_node_keys : gset bytes }.

Definition excludes_peer (options : SigningOptions) (peer_id : bytes) (ring : RingConfig) : bool :=
  match list_find (fun kr => extract_node_part kr.2 = extract_node_part peer_id) (zip (rc_peer_node_keys ring) (rc_peer_ids ring)) with
  | Some (_, (node_key, _)) => bool_decide (node_key ∈ excluded_node_keys options)
  | None => false
  end.

(** ** Node ids and routes *)

Definition node_key_for_canonical_node_id (node_id : Z) (peer_node_keys : list bytes) : option bytes :=
  if node_id =? 0 then None
  else
    match canonical_node_id_assignments_from_node_keys peer_node_keys with
    | Ok assignments =>
        (fun e : nat * (bytes * Z) => e.2.1) <$> list_find (fun e => e.2 = node_id) (map_to_list assignments)
    | _ => None
    end.

Definition peer_route_for_session_node_id (node_id : Z) (ring : RingConfig) : option bytes :=
  node_key ← node_key_for_canonical_node_id node_id (rc_peer_node_keys ring);
  (fun e : nat * (bytes * bytes) => e.2.2) <$>
    list_find (fun kr => kr.1 = node_key) (zip (rc_peer_node_keys ring) (rc_peer_ids ring)).

(** ** What a refused share is reported with *)

Record SignResponseReportContext := MkSignResponseReportContext {
  sx_chain_id : bytes;
  sx_ring_id : bytes;
  sx_ring_pk : bytes;
  sx_ring_state_sha256 : bytes;
  sx_protocol_version : Z;
  sx_request_id : bytes;
  sx_accused_node_key : bytes;
  sx_accused_peer_id : bytes;
  sx_origin_protocol : bytes;
  sx_accused_committee_scope : CommitteeScope;
  sx_signing_committee_scope : CommitteeScope;
  sx_message : bytes;
  sx_signing_commitments : bytes;
  sx_derivation : option bytes;
  sx_metadata : option bytes;
}.

Record SignResponseReportContextBase := MkSignResponseReportContextBase {
  sb_chain_id : bytes;
  sb_ring_id : bytes;
  sb_ring_pk : bytes;
  sb_ring_state_sha256 : bytes;
  sb_protocol_version : Z;
  sb_request_id : bytes;
  sb_origin_protocol : bytes;
  sb_accused_committee_scope : CommitteeScope;
  sb_signing_committee_scope : CommitteeScope;
  sb_message : bytes;
  sb_signing_commitments : bytes;
  sb_derivation : option bytes;
  sb_metadata : option bytes;
}.

Definition SignResponseReportContextBase_from_ring `{Sha2} `{Hex} (chain_id ring_id : bytes) (ring : RingPayload)
    (protocol_version : Z) (request_id origin_protocol : bytes) (accused_committee_scope signing_committee_scope : CommitteeScope)
    (message signing_commitments : bytes) (derivation metadata : option bytes) : SignResponseReportContextBase :=
  MkSignResponseReportContextBase chain_id ring_id (ring_pk ring) (ring_state_sha256 ring) protocol_version request_id
    origin_protocol accused_committee_scope signing_committee_scope message signing_commitments derivation metadata.

Definition for_peer (b : SignResponseReportContextBase) (ring : RingConfig) (node_id : Z) : option SignResponseReportContext :=
  accused_node_key ← node_key_for_canonical_node_id node_id (rc_peer_node_keys ring);
  accused_peer_id ← peer_route_for_session_node_id node_id ring;
  Some (MkSignResponseReportContext (sb_chain_id b) (sb_ring_id b) (sb_ring_pk b) (sb_ring_state_sha256 b)
    (sb_protocol_version b) (sb_request_id b) accused_node_key accused_peer_id (sb_origin_protocol b)
    (sb_accused_committee_scope b) (sb_signing_committee_scope b) (sb_message b) (sb_signing_commitments b)
    (sb_derivation b) (sb_metadata b)).

(** The signing of a report does not lead to further reports. *)
Definition sign_reporting_scopes (context : SignContext) : option (bytes * CommitteeScope * CommitteeScope) :=
  match context with
  | CtxReport _ => None
  | CtxRefreshHealthCheck _ => Some (bstr "pss_refresh", Current, Current)
  | CtxRingReshareUpdate _ => Some (bstr "pss_reshare", PendingNew, PendingNew)
  | CtxBulletin _ | CtxPolicy _ => Some (bstr "sign", Current, Current)
  end.

Definition is_reportable_sign_offline_error (error : SignError) : bool :=
  match error with
  | SignNetworkConnection _ => true
  | SignNetworkCommunication message => String.prefix "Failed to send" message || String.prefix "Failed to receive" message
  | SignTimeout _ => true
  | _ => false
  end.

Definition offline_observation_from_sign_error_scoped (now : option Z) (ring : RingConfig) (peer_id : bytes) (error : SignError)
    (origin_protocol : bytes) (protocol_version : Z) (accused_committee_scope signing_committee_scope : CommitteeScope)
    (session_id : bytes) : option OfflineObservation :=
  if negb (is_reportable_sign_offline_error error) then None
  else offline_observation_from_ring_config now ring peer_id origin_protocol protocol_version accused_committee_scope
    signing_committee_scope session_id.

(** ** Peer tasks and the response table *)

Abbreviation sign_response_table := (gmap bytes (ResponseEntry SignMessage)).

(** The outcome of a peer task: [None] when the task panicked. *)
Record SignArrival := MkSignArrival {
  sr_now : option Z;
  sr_result : option (bytes * sign_result (option (AuthenticatedResponse SignMessage)));
}.

Record SignInitState := MkSignInitState {
  si_responses : sign_response_table;
  si_reporting : ReportingState;
}.

Inductive PeerSignatureVerification {Share : Type} :=
  | SigVerified (share : PubShare Share)
  | SigInvalidCrypto (observation : InvalidCryptoResponseObservation)
  | SigRejected.
#[global] Arguments PeerSignatureVerification : clear implicits.

(** The state of the collection of shares. *)
Record ShareCollection {Share : Type} := MkShareCollection {
  sc_seen : gset Z;
  sc_shares : list (PubShare Share);
  sc_successful : Z;
  sc_reporting : ReportingState;
}.
#[global] Arguments ShareCollection : clear implicits.
#[global] Arguments MkShareCollection {Share}.

(** The state of the collection of nonce commitments. *)
Record NonceCollection {NonceCommitment : Type} := MkNonceCollection {
  nc_seen : gset Z;
  nc_commitments : list (Z * NonceCommitment);
  nc_successful : Z;
  nc_reporting : ReportingState;
}.
#[global] Arguments NonceCollection : clear implicits.
#[global] Arguments MkNonceCollection {NonceCommitment}.

Record SigningMaterial {F G : Type} := MkSigningMaterial {
  sm_pub_poly : PubPoly G;
  sm_local_dist_key_share : option (DistKeyShare F);
  sm_derivation : option bytes;
  sm_metadata : option bytes;
}.
#[global] Arguments SigningMaterial : clear implicits.
#[global] Arguments MkSigningMaterial {F G}.

Record CommitmentRound {NonceCommitment SigningState : Type} := MkCommitmentRound {
  cr_signing_commitments : list (Z * NonceCommitment);
  cr_local_signing_state : option SigningState;
  cr_all_commitments_bytes : bytes;
  cr_should_attempt_local_share : bool;
  cr_sign_report_context_base : option SignResponseReportContextBase;
}.
#[global] Arguments CommitmentRound : clear implicits.
#[global] Arguments MkCommitmentRound {NonceCommitment SigningState}.

Section Exchange.
Context {HX : Hex}.

(** [store_response] of [helpers.rs]. *)
Definition sign_store_response (protocol_version : Z) (message : SignMessage) (sender_peer_id : bytes)
    (map : sign_response_table) : bool * sign_response_table :=
  let '(outcome, map) := store_response_for_version protocol_version (SignMessage_request_id message) message sender_peer_id map in
  (match outcome with ResponseStored => true | _ => false end, map).

(** Responses that arrive on a stream of their own are stored, other messages are
    routed to the handler. *)
Definition sign_try_store_response (version : Z) (msg : SignMessage) (peer_id : bytes) (map : sign_response_table) :
    option SignMessage * sign_response_table :=
  match msg with
  | MsgSignResponse _ _ _ _ _ | MsgNonceResponse _ _ _ => (None, (sign_store_response version msg peer_id map).2)
  | _ => (Some msg, map)
  end.

(** [decode] is the wire format; the peer is the one the transport
    authenticated. *)
Definition accept_response (decode : bytes -> option SignMessage) (version : Z) (request_id : bytes)
    (expects_nonce_response : bool) (data authenticated_peer_id : bytes) :
    method sign_response_table SignError (option (AuthenticatedResponse SignMessage)) :=
  let! response := m_lift (ok_or (decode data) (SignDeserialization "Failed to deserialize response: {}")) in
  m_lift (reject (negb (bool_decide (SignMessage_request_id response = request_id)))
    (SignProtocolError "Peer {} responded with mismatched request_id: expected {}, got {}")) ;!
  let expected := match response with
    | MsgNonceResponse _ _ _ => expects_nonce_response
    | MsgSignResponse _ _ _ _ _ => negb expects_nonce_response
    | _ => false
    end in
  if expected then fun map =>
    let '(outcome, map) := store_response_for_version version (SignMessage_request_id response) response
      authenticated_peer_id map in
    (match outcome with
     | ResponseStored | MissingRequest => Ok (Some (MkAuthenticatedResponse _ response (hex_encode authenticated_peer_id)))
     | UnexpectedOrDuplicatePeer => Ok None
     end, map)
  else m_ret None.

(** A failed exchange also retires the connection it used; the pool of
    connections is not part of the model. *)
Definition peer_exchange {A : Type} (io : ExchangeIO) (accept : bytes -> bytes -> method sign_response_table SignError A) :
    method sign_response_table SignError A :=
  if io_timed_out io then m_lift (Err (SignTimeout "Peer exchange timed out while {phase} for {peer}"))
  else
    let! peer_id := m_lift (ok_or (io_stream io) (SignNetworkConnection "Failed to open stream to peer {peer}: {error}")) in
    m_lift (ensure (io_sent io) (SignNetworkCommunication "Failed to send message to peer {peer}: {error}")) ;!
    let! data := m_lift (ok_or (io_received io) (SignNetworkCommunication "Failed to receive response from peer {peer}: {error}")) in
    accept data peer_id.

Definition sign_send_request_and_receive_response (decode : bytes -> option SignMessage) (version : Z) (io : ExchangeIO)
    (message : SignMessage) (request_id : bytes) :
    method sign_response_table SignError (option (AuthenticatedResponse SignMessage)) :=
  let! expects_nonce_response := m_lift
    match message with
    | MsgNonceRequest _ => Ok true
    | MsgSignRequest _ => Ok false
    | _ => Err (SignProtocolError "send_request_and_receive_response requires a NonceRequest or SignRequest")
    end in
  m_lift (ensure (io_encoded io) (SignSerialization "Failed to serialize message: {}")) ;!
  peer_exchange io (accept_response decode version request_id expects_nonce_response).
End Exchange.

Section Initiator.
Context {F G S P Signature Share NonceCommitment SigningState : Type} {SF : ScalarField F} {CG : CurveGroup F G}.
Context {BL : Blst F G S P} {TS : ThresholdSigner F G Signature Share NonceCommitment SigningState} {SHA : Sha2}.
Context {HX : Hex} {EC : Ecdsa} {DJ : DocumentJson} {PJ : PetJson} {SJ : StateJson} {AZ : Authz}.
Context {PR : Prost} {IJ : RingIndexJson} {PD : PointDisplay G} {UC : UnicodeCase} {RJ : SignJson}.
Context {St Post : Type} {LS : LocalStorage St} {BP : BulletinPosts Post} {DP : DocumentPosts Post} {BJ : PostJson Post}.
Context (app : SignApp St Post).
Abbreviation view := (sa_view app).

(** ** Checks of the answers *)

Definition parse_peer_nonce_response (response : SignMessage) (expected_node_id : Z) (seen : gset Z) :
    option (Z * NonceCommitment) * gset Z :=
  match response with
  | MsgNonceResponse _ from_node_id nonce_commitment =>
      if negb (from_node_id =? expected_node_id) then (None, seen)
      else if bool_decide (from_node_id ∈ seen) then (None, seen)
      else
        (match @from_bytes _ nonce_deserialize nonce_commitment with
         | Ok commitment => Some (from_node_id, commitment)
         | _ => None
         end, {[from_node_id]} ∪ seen)
  | _ => (None, seen)
  end.

Definition report_statement (c : SignResponseReportContext) (from_node_id : Z) (sig_share : bytes) (signed_at : Z) :
    SignResponseStatement :=
  sign_response_statement (sx_chain_id c) (sx_ring_id c) (sx_ring_pk c) (sx_ring_state_sha256 c) (sx_protocol_version c)
    (sx_request_id c) signed_at (sx_accused_node_key c) (sx_origin_protocol c) (sx_accused_committee_scope c)
    (sx_signing_committee_scope c) from_node_id (sx_message c) (sx_signing_commitments c) (sx_derivation c) (sx_metadata c)
    sig_share.

(** A bad share is reported when its sender can be held to it. *)
Definition attribute_bad_share (now : option Z) (report_context : option SignResponseReportContext) (from_node_id : Z)
    (sig_share : bytes) (signed_at : Z) (response_signature : bytes) : PeerSignatureVerification Share :=
  match report_context with
  | None => SigRejected
  | Some c =>
      if negb (response_in_window (default 0 now) signed_at) then SigRejected
      else
        let statement := report_statement c from_node_id sig_share signed_at in
        match verify_node_message (sx_accused_node_key c) (SignResponseStatement_canonical_bytes statement)
                response_signature with
        | Ok _ => SigInvalidCrypto (MkInvalidCryptoResponseObservation (sx_ring_id c) (sx_accused_node_key c)
            (sx_accused_peer_id c) (u64_saturating_sub signed_at CHAIN_BLOCK_GRACE_SECS)
            (EvSign statement response_signature) None None None)
        | _ => SigRejected
        end
  end.

Definition verify_peer_signature_response (now : option Z) (response : SignMessage) (message : bytes) (pub_poly : PubPoly G)
    (signing_commitments : list (Z * NonceCommitment)) (derivation metadata : option bytes) (expected_node_id : Z)
    (report_context : option SignResponseReportContext) (seen : gset Z) : PeerSignatureVerification Share * gset Z :=
  match response with
  | MsgSignResponse _ from_node_id sig_share_bytes signed_at response_signature =>
      if negb (from_node_id =? expected_node_id) then (SigRejected, seen)
      else if bool_decide (from_node_id ∈ seen) then (SigRejected, seen)
      else
        (match
           (let? sig_share_v := @from_bytes _ share_deserialize sig_share_bytes in
            let sig_share := MkPubShare from_node_id sig_share_v in
            signer_verify_share message pub_poly sig_share signing_commitments derivation metadata ;?
            Ok sig_share)
         with
         | Ok sig_share => SigVerified sig_share
         | _ => attribute_bad_share now report_context from_node_id sig_share_bytes signed_at response_signature
         end, {[from_node_id]} ∪ seen)
  | _ => (SigRejected, seen)
  end.

(** ** The key material *)

Definition staged_material (bundle : RingShareBundle) (self_in_list : bool) (decode_error parse_error : string) :
    sign_result (PubPoly G * option (DistKeyShare F)) :=
  let? pub_poly_bytes := ok_or (hex_decode (public_polynomial bundle)) (SignDeserialization decode_error) in
  let? pub_poly := map_err (PubPoly_from_bytes (F := F) pub_poly_bytes) (SignDeserialization parse_error) in
  if self_in_list then let? ks := bundle_key_share bundle "{}" in Ok (pub_poly, Some ks)
  else Ok (pub_poly, None).

Definition stored_material (ring : RingConfig) (self_in_list : bool) : sign_result (PubPoly G * option (DistKeyShare F)) :=
  let? '(poly, bundle) := map_err (load_ring_pub_poly_and_bundle (F := F) (view_storage view) ring self_in_list)
    (SignDeserialization "{}") in
  match bundle with
  | Some bundle => let? ks := bundle_key_share bundle "{}" in Ok (poly, Some ks)
  | None => Ok (poly, None)
  end.

Definition resolve_signing_material (ring : RingConfig) (context : SignContext) (message : bytes) (self_in_list : bool)
    (actual_peer_count : Z) : sign_result (SigningMaterial F G) :=
  let? '(pub_poly, local_dist_key_share) :=
    match context with
    | CtxRefreshHealthCheck statement =>
        let? '(_, bundle) := validate_refresh_health_check_statement (F := F) (G := G) app statement (Some message) in
        staged_material bundle self_in_list "Failed to decode staged refresh public polynomial: {}"
          "Failed to deserialize staged refresh public polynomial: {}"
    | CtxRingReshareUpdate statement =>
        let? '(_, staged_bundle) := validate_ring_reshare_update_statement (F := F) (G := G) app statement (Some message) false in
        match staged_bundle with
        | Some bundle => staged_material bundle self_in_list "Failed to decode staged reshare public polynomial: {}"
            "Failed to deserialize staged reshare public polynomial: {}"
        | None => stored_material ring self_in_list
        end
    | _ => stored_material ring self_in_list
    end in
  let potential_shares := if self_in_list then actual_peer_count + 1 else actual_peer_count in
  reject (potential_shares <? rc_threshold ring) (SignInsufficientShares potential_shares (rc_threshold ring)) ;?
  let '(derivation, metadata) :=
    match context with
    | CtxPolicy ctx =>
        let d := pc_key_derivation ctx in
        (Some (kd_derivation d), Some (signer_encode_metadata (kd_policy_id d) (kd_resource d) (kd_permission d)))
    | _ => (None, None)
    end in
  Ok (MkSigningMaterial pub_poly local_dist_key_share derivation metadata).

(** ** The context of a report about a share *)

Definition read_ring_payload_unchecked_for_sign_report (ring_id : bytes) : sign_result RingPayload :=
  read_ring_payload_unchecked app ring_id.

Definition read_document_payload_for_sign_report (object_id : bytes) : sign_result DocumentPayload :=
  read_document_payload app object_id.

Definition read_ring_payload_for_ring_pk_hex_for_sign_report (ring_pk_hex : bytes) : sign_result (bytes * RingPayload) :=
  read_ring_payload_for_ring_pk_hex (F := F) (G := G) app ring_pk_hex.

Definition report_signing_scope_from_envelope_for_sign_report (envelope : ReportEnvelope) : sign_result CommitteeScope :=
  report_signing_scope_from_envelope envelope.

Definition sign_response_report_context_base (context : SignContext) (request_id message signing_commitments : bytes)
    (derivation metadata : option bytes) : sign_result (option SignResponseReportContextBase) :=
  let chain_id := view_chain_id view in
  let version := view_version view in
  let from_ring ring_id ring origin_protocol scope := SignResponseReportContextBase_from_ring chain_id ring_id ring version
    request_id origin_protocol scope scope message signing_commitments derivation metadata in
  match context with
  | CtxPolicy _ => Ok None
  | CtxBulletin object_id =>
      let? document := read_document_payload_for_sign_report object_id in
      let? ring := read_ring_payload_unchecked_for_sign_report (ring_id document) in
      Ok (Some (from_ring (ring_id document) ring (bstr "sign") Current))
  | CtxRingReshareUpdate statement =>
      let? ring := read_ring_payload_unchecked_for_sign_report (ru_ring_id statement) in
      Ok (Some (from_ring (ru_ring_id statement) ring (bstr "pss_reshare") PendingNew))
  | CtxRefreshHealthCheck statement =>
      let? '(ring_id, ring) := read_ring_payload_for_ring_pk_hex_for_sign_report (rh_ring_pk statement) in
      Ok (Some (from_ring ring_id ring (bstr "pss_refresh") Current))
  | CtxReport ctx =>
      let envelope := rsc_envelope ctx in
      let? signing_scope := report_signing_scope_from_envelope_for_sign_report envelope in
      Ok (Some (MkSignResponseReportContextBase chain_id (re_ring_id envelope) (re_ring_pk envelope)
        (re_ring_state_sha256 envelope) version request_id (bstr "report") signing_scope signing_scope message
        signing_commitments derivation metadata))
  end.

(** ** The peers of a round and what they are asked *)

Definition contacted (local_peer_id : bytes) (options : SigningOptions) (ring : RingConfig) : list bytes :=
  filter (fun pid => is_self_peer_id local_peer_id pid = false /\ excludes_peer options pid ring = false) (rc_peer_ids ring).

(** In Round 2 of an interactive scheme only the selected signers are asked. *)
Definition signers_contacted (local_peer_id : bytes) (options : SigningOptions) (ring : RingConfig)
    (signing_commitments : list (Z * NonceCommitment)) : list bytes :=
  filter (fun pid => (if INTERACTIVE then
      match determine_ring_node_id_from_peer_id pid ring with
      | Some id => bool_decide (id ∈ signing_commitments.*1)
      | None => false
      end
    else true) = true) (contacted local_peer_id options ring).

Definition nonce_request_for (request_id : bytes) (node_id : Z) (ring : RingConfig) (context : SignContext) : NonceRequest :=
  MkNonceRequest (bstr "nonce-" ++ request_id) node_id (rc_ring_pk_bytes ring) context.

Definition sign_request_for (request_id : bytes) (node_id : Z) (message all_commitments_bytes : bytes) (context : SignContext) :
    SignRequest := MkSignRequest request_id node_id message all_commitments_bytes context.

(** ** Reports of the rounds *)

Definition make_sign_drain_observation (now : option Z) (ring : RingConfig) (context : SignContext) (session_id : bytes)
    (version : Z) (peer_id : bytes) (e : SignError) : option ReportObservation :=
  '(origin_protocol, accused_scope, signing_scope) ← sign_reporting_scopes context;
  ObsNodeOffline <$> offline_observation_from_sign_error_scoped now ring peer_id e origin_protocol version accused_scope
    signing_scope session_id.

Definition queue_sign_offline_report (now : option Z) (ring : RingConfig) (peer_id : bytes) (error : SignError)
    (session_id : bytes) (context : SignContext) (s : ReportingState) : ReportingState :=
  match sign_reporting_scopes context with
  | None => s
  | Some (origin_protocol, accused_scope, signing_scope) =>
      match offline_observation_from_sign_error_scoped now ring peer_id error origin_protocol (view_version view) accused_scope
              signing_scope session_id with
      | None => s
      | Some observation => try_report (ObsNodeOffline observation) s
      end
  end.

Definition queue_sign_invalid_crypto_report (observation : InvalidCryptoResponseObservation) (s : ReportingState) :
    ReportingState := try_report (ObsInvalidCryptoResponse observation) s.

(** What is left of a round's tasks only matters when it fails. *)
Definition run_error_drain (to_observation : option Z -> bytes -> SignError -> option ReportObservation)
    (arrivals : list SignArrival) (s : ReportingState) : ReportingState :=
  fold_left (fun s a =>
    match sr_result a with
    | Some (peer_id, Err e) =>
        match to_observation (sr_now a) peer_id e with Some obs => try_report obs s | None => s end
    | _ => s
    end) arrivals s.

(** ** Round 1 *)
Section NonceRound.
Context (request_id : bytes) (ring : RingConfig) (context : SignContext).

Definition nonce_of_response (r : AuthenticatedResponse SignMessage) (seen : gset Z) :
    option (Z * NonceCommitment) * gset Z :=
  match determine_ring_node_id_from_peer_id (sender_peer_hex r) ring with
  | Some expected_node_id => parse_peer_nonce_response (message r) expected_node_id seen
  | None => (None, seen)
  end.

Definition handle_nonce_arrival (a : SignArrival) (st : NonceCollection NonceCommitment) : NonceCollection NonceCommitment :=
  match sr_result a with
  | Some (_, Ok (Some response)) =>
      match nonce_of_response response (nc_seen st) with
      | (Some commitment, seen) =>
          MkNonceCollection seen (nc_commitments st ++ [commitment]) (nc_successful st + 1) (nc_reporting st)
      | (None, seen) => MkNonceCollection seen (nc_commitments st) (nc_successful st) (nc_reporting st)
      end
  | Some (peer_id, Err e) =>
      MkNonceCollection (nc_seen st) (nc_commitments st) (nc_successful st)
        (queue_sign_offline_report (sr_now a) ring peer_id e request_id context (nc_reporting st))
  | _ => st
  end.

(** The loop ends when enough commitments are there, or with the arrivals. *)
Fixpoint nonce_loop (min_needed : Z) (arrivals : list SignArrival) (st : NonceCollection NonceCommitment) :
    NonceCollection NonceCommitment :=
  match arrivals with
  | [] => st
  | a :: arrivals =>
      let st := handle_nonce_arrival a st in
      if min_needed <=? nc_successful st then st else nonce_loop min_needed arrivals st
  end.

(** A response stored before the loop ended. *)
Definition handle_stored_nonce (r : AuthenticatedResponse SignMessage) (st : NonceCollection NonceCommitment) :
    NonceCollection NonceCommitment :=
  match nonce_of_response r (nc_seen st) with
  | (Some commitment, seen) => MkNonceCollection seen (nc_commitments st ++ [commitment]) (nc_successful st) (nc_reporting st)
  | (None, seen) => MkNonceCollection seen (nc_commitments st) (nc_successful st) (nc_reporting st)
  end.

(** The node's own commitment. *)
Definition local_nonce (fuel : nat) (node_id : Z) (self_in_list : bool) (local_dist_key_share : option (DistKeyShare F))
    (rng : Rng F) : sign_result (list (Z * NonceCommitment) * option SigningState * Rng F) :=
  match (if self_in_list then local_dist_key_share else None) with
  | Some dist_key_share =>
      let? '((commitment, state), rng1) := map_err (signer_generate_nonces fuel dist_key_share rng)
        (SignCrypto "Local nonce generation failed: {}") in
      Ok ([(node_id, commitment)], Some state, rng1)
  | None => Ok ([], None, rng)
  end.

(** [during] is what the exchanges and the protocol handler do to the response
    table until the collection takes the entry. *)
Definition collect_nonces (fuel : nat) (max_entries : nat) (now : Instant) (local_peer_id : bytes) (node_id : Z)
    (self_in_list : bool) (local_dist_key_share : option (DistKeyShare F)) (options : SigningOptions)
    (arrivals : list SignArrival) (during : sign_response_table -> sign_response_table) (rng : Rng F) :
    method SignInitState SignError (list (Z * NonceCommitment) * option SigningState * Rng F) :=
  let nonce_request_id := bstr "nonce-" ++ request_id in
  let! '(own, local_signing_state, rng1) := m_lift (local_nonce fuel node_id self_in_list local_dist_key_share rng) in
  (fun s =>
    let '(outcome, map) := init_response_for_version max_entries now (view_version view) nonce_request_id
      (contacted local_peer_id options ring) (si_responses s) in
    let s := MkSignInitState map (si_reporting s) in
    (match outcome with
     | InitCreated => Ok tt
     | InitAlreadyExists => Err (SignProtocolError "Nonce response state already exists for request {nonce_request_id}")
     | InitLimitReached => Err (SignProtocolError "Nonce response limit exceeded")
     end, s)) ;!
  fun s =>
    let min_needed := u64_saturating_sub (rc_threshold ring) (Z.of_nat (length own)) in
    let st := MkNonceCollection (list_to_set own.*1) own 0 (si_reporting s) in
    let st := if 0 <? min_needed then nonce_loop min_needed arrivals st else st in
    let '(taken, map) := take_authenticated_responses_for_version (view_version view) nonce_request_id (during (si_responses s)) in
    match taken with
    | None => (Err (SignTimeout "No nonce responses found for request {}"), MkSignInitState map (nc_reporting st))
    | Some nonce_responses =>
        let st := fold_left (fun st r => handle_stored_nonce r st) nonce_responses st in
        (Ok (sort_by_id (nc_commitments st), local_signing_state, rng1), MkSignInitState map (nc_reporting st))
    end.
End NonceRound.

(** The rest of a selection: the commitments in order, until [threshold]. *)
Fixpoint select_rest (threshold : Z) (selected commitments : list (Z * NonceCommitment)) : list (Z * NonceCommitment) :=
  match commitments with
  | [] => selected
  | (id, commitment) :: commitments =>
      if Z.of_nat (length selected) =? threshold then selected
      else if bool_decide (id ∈ selected.*1) then select_rest threshold selected commitments
      else select_rest threshold (selected ++ [(id, commitment)]) commitments
  end.

Definition select_signing_commitments (commitments : list (Z * NonceCommitment)) (threshold : Z)
    (preferred_node_id : option Z) : sign_result (list (Z * NonceCommitment)) :=
  let got := Z.of_nat (length commitments) in
  reject (got <? threshold) (SignInsufficientShares got threshold) ;?
  let selected :=
    match preferred_node_id with
    | Some preferred =>
        match list_find (fun c => c.1 = preferred) commitments with Some (_, c) => [c] | None => [] end
    | None => []
    end in
  Ok (sort_by_id (select_rest threshold selected commitments)).

Definition collect_signing_commitments (fuel : nat) (max_entries : nat) (now : Instant) (local_peer_id request_id : bytes)
    (ring : RingConfig) (node_id : Z) (self_in_list : bool) (context : SignContext)
    (local_dist_key_share : option (DistKeyShare F)) (options : SigningOptions) (message : bytes)
    (derivation metadata : option bytes) (arrivals : list SignArrival) (during : sign_response_table -> sign_response_table)
    (rng : Rng F) : method SignInitState SignError (CommitmentRound NonceCommitment SigningState * Rng F) :=
  let! '(all_commitments, local_signing_state, rng1) :=
    if INTERACTIVE then
      collect_nonces request_id ring context fuel max_entries now local_peer_id node_id self_in_list local_dist_key_share options
        arrivals during rng
    else m_ret ([], None, rng) in
  let! signing_commitments := m_lift
    (if INTERACTIVE then
       select_signing_commitments all_commitments (rc_threshold ring) (if self_in_list then Some node_id else None)
     else Ok all_commitments) in
  let should_attempt_local_share := bool_decide (is_Some local_dist_key_share) &&
    (negb INTERACTIVE || bool_decide (node_id ∈ signing_commitments.*1)) in
  let! all_commitments_bytes := m_lift (serialize_commitments (TS := nonce_serialize) signing_commitments) in
  let! base := m_lift (sign_response_report_context_base context request_id message all_commitments_bytes derivation metadata) in
  m_ret (MkCommitmentRound signing_commitments local_signing_state all_commitments_bytes should_attempt_local_share base, rng1).

(** ** Round 2 *)

(** Any failure is no share. *)
Definition compute_local_signature_share (material : SigningMaterial F G) (round : CommitmentRound NonceCommitment SigningState)
    (message : bytes) : option (PubShare Share) :=
  if negb (cr_should_attempt_local_share round) then None
  else
    dist_key_share ← sm_local_dist_key_share material;
    match signer_sign dist_key_share message (sm_pub_poly material) (cr_local_signing_state round)
            (cr_signing_commitments round) (sm_derivation material) (sm_metadata material) with
    | Ok sig_share =>
        match signer_verify_share message (sm_pub_poly material) sig_share (cr_signing_commitments round)
                (sm_derivation material) (sm_metadata material) with
        | Ok _ => Some sig_share
        | _ => None
        end
    | _ => None
    end.

Section ShareRound.
Context (request_id : bytes) (ring : RingConfig) (context : SignContext) (message : bytes)
  (material : SigningMaterial F G) (round : CommitmentRound NonceCommitment SigningState).

(** One response of an authenticated peer. *)
Definition check_share (now : option Z) (r : AuthenticatedResponse SignMessage) (seen : gset Z) :
    PeerSignatureVerification Share * gset Z :=
  match determine_ring_node_id_from_peer_id (sender_peer_hex r) ring with
  | Some expected_node_id =>
      let report_context := base ← cr_sign_report_context_base round; for_peer base ring expected_node_id in
      verify_peer_signature_response now (Responses.message r) message (sm_pub_poly material) (cr_signing_commitments round)
        (sm_derivation material) (sm_metadata material) expected_node_id report_context seen
  | None => (SigRejected, seen)
  end.

Definition handle_share_arrival (a : SignArrival) (st : ShareCollection Share) : ShareCollection Share :=
  match sr_result a with
  | Some (_, Ok (Some response)) =>
      match check_share (sr_now a) response (sc_seen st) with
      | (SigVerified share, seen) =>
          MkShareCollection seen (sc_shares st ++ [share]) (sc_successful st + 1) (sc_reporting st)
      | (SigInvalidCrypto observation, seen) => MkShareCollection seen (sc_shares st) (sc_successful st)
          (queue_sign_invalid_crypto_report observation (sc_reporting st))
      | (SigRejected, seen) => MkShareCollection seen (sc_shares st) (sc_successful st) (sc_reporting st)
      end
  | Some (peer_id, Err e) =>
      MkShareCollection (sc_seen st) (sc_shares st) (sc_successful st)
        (queue_sign_offline_report (sr_now a) ring peer_id e request_id context (sc_reporting st))
  | _ => st
  end.

(** The loop ends when enough shares are verified, or with the arrivals. *)
Fixpoint share_loop (min_needed : Z) (arrivals : list SignArrival) (st : ShareCollection Share) : ShareCollection Share :=
  match arrivals with
  | [] => st
  | a :: arrivals =>
      let st := handle_share_arrival a st in
      if min_needed <=? sc_successful st then st else share_loop min_needed arrivals st
  end.

(** A response stored before the loop ended. *)
Definition handle_stored_share (now : option Z) (r : AuthenticatedResponse SignMessage) (st : ShareCollection Share) :
    ShareCollection Share :=
  match check_share now r (sc_seen st) with
  | (SigVerified share, seen) => MkShareCollection seen (sc_shares st ++ [share]) (sc_successful st) (sc_reporting st)
  | (SigInvalidCrypto observation, seen) => MkShareCollection seen (sc_shares st) (sc_successful st)
      (queue_sign_invalid_crypto_report observation (sc_reporting st))
  | (SigRejected, seen) => MkShareCollection seen (sc_shares st) (sc_successful st) (sc_reporting st)
  end.

(** [during] is what the exchanges and the protocol handler do to the response
    table until the collection takes the entry, [clock] the readings of the clock
    the checks of the stored responses take.  [own] is the node's own share. *)
Definition collect_network_signature_shares (own : list (PubShare Share)) (arrivals : list SignArrival)
    (during : sign_response_table -> sign_response_table) (clock : nat -> option Z) :
    method SignInitState SignError (list (PubShare Share)) := fun s =>
  let min_needed := u64_saturating_sub (rc_threshold ring) (Z.of_nat (length own)) in
  let st := MkShareCollection (list_to_set (pub_i <$> own)) own 0 (si_reporting s) in
  let st := if 0 <? min_needed then share_loop min_needed arrivals st else st in
  let '(taken, map) := take_authenticated_responses_for_version (view_version view) request_id (during (si_responses s)) in
  match taken with
  | None => (Err (SignTimeout "No responses found for request {}"), MkSignInitState map (sc_reporting st))
  | Some collected =>
      let st := fold_left (fun st r => handle_stored_share r.1 r.2 st) (imap (fun i r => (clock i, r)) collected) st in
      (Ok (sc_shares st), MkSignInitState map (sc_reporting st))
  end.

(** *** Late answers *)

Definition handle_sign_drain_response (now : option Z) (r : AuthenticatedResponse SignMessage) (s : gset Z * ReportingState) :
    gset Z * ReportingState :=
  match check_share now r s.1 with
  | (SigInvalidCrypto observation, seen) => (seen, try_report (ObsInvalidCryptoResponse observation) s.2)
  | (_, seen) => (seen, s.2)
  end.

Definition handle_sign_drain_result (a : SignArrival) (s : gset Z * ReportingState) : gset Z * ReportingState :=
  match sr_result a with
  | Some (_, Ok (Some response)) => handle_sign_drain_response (sr_now a) response s
  | Some (peer_id, Err e) => (s.1, queue_sign_offline_report (sr_now a) ring peer_id e request_id context s.2)
  | _ => s
  end.

Definition run_sign_response_drain (arrivals : list SignArrival) (s : gset Z * ReportingState) : gset Z * ReportingState :=
  fold_left (fun s a => handle_sign_drain_result a s) arrivals s.
End ShareRound.

(** ** Recovery *)

Definition finalize_signature (pss_active : bytes -> bool) (verified_shares : list (PubShare Share)) (ring : RingConfig)
    (message : bytes) (signing_commitments : list (Z * NonceCommitment)) (material : SigningMaterial F G) : sign_result bytes :=
  let got := Z.of_nat (length verified_shares) in
  reject ((got <? rc_threshold ring) && is_ring_reshare_in_progress (F := F) (G := G) pss_active (rc_ring_pk_bytes ring))
    SignReshareInProgress ;?
  reject (got <? rc_threshold ring) (SignInsufficientShares got (rc_threshold ring)) ;?
  let? verify_pk := map_err (verify_key (sm_pub_poly material) (sm_derivation material) (sm_metadata material))
    (SignCrypto "Key derivation for verification failed: {}") in
  let? signature_opt := map_err (signer_recover verified_shares (rc_threshold ring) (rc_total_participants ring) verify_pk
      message signing_commitments) (SignRecoveryFailed "Failed to recover signature: {}") in
  let? signature := ok_or signature_opt (SignRecoveryFailed "Recovery returned None") in
  map_err (signer_verify verify_pk message signature) (SignRecoveryFailed "Final signature verification failed: {}") ;?
  let? signature_bytes := map_err (@to_bytes _ signature_serialize signature)
    (SignSerialization "Failed to serialize signature: {}") in
  ok_or (SignResponse_to_vec (hex_encode signature_bytes)) (SignSerialization "Failed to serialize response: {}").

(** The runs of a round: what its tasks return, what happens to the response
    table meanwhile, and the clock. *)
Record RoundIO := MkRoundIO {
  rd_now : Instant;
  rd_arrivals : list SignArrival;
  rd_during : sign_response_table -> sign_response_table;
  rd_clock : nat -> option Z;
}.

Definition initiate_signing_inner (fuel : nat) (max_entries : nat) (pss_active : bytes -> bool) (local_peer_id request_id : bytes)
    (ring : RingConfig) (message : bytes) (node_id : Z) (self_in_list : bool) (actual_peer_count : Z) (context : SignContext)
    (options : SigningOptions) (nonce_io share_io : RoundIO) (rng : Rng F) : method SignInitState SignError (bytes * Rng F) :=
  let! material := m_lift (resolve_signing_material ring context message self_in_list actual_peer_count) in
  let! '(round, rng1) := collect_signing_commitments fuel max_entries (rd_now nonce_io) local_peer_id request_id ring node_id
    self_in_list context (sm_local_dist_key_share material) options message (sm_derivation material) (sm_metadata material)
    (rd_arrivals nonce_io) (rd_during nonce_io) rng in
  let own := match compute_local_signature_share material round message with Some share => [share] | None => [] end in
  let! verified_shares := collect_network_signature_shares request_id ring context message material round own
    (rd_arrivals share_io) (rd_during share_io) (rd_clock share_io) in
  let! response := m_lift (finalize_signature pss_active verified_shares ring message (cr_signing_commitments round) material) in
  m_ret (response, rng1).

(** The entry of the response table is removed however the pipeline ends. *)
Definition initiate_signing (fuel : nat) (max_entries : nat) (now : Instant) (pss_active : bytes -> bool)
    (local_peer_id request_id : bytes) (ring : RingConfig) (message : bytes) (context : SignContext) (options : SigningOptions)
    (nonce_io share_io : RoundIO) (rng : Rng F) : method SignInitState SignError (bytes * Rng F) := fun s =>
  let node_id_opt := determine_session_node_id (view_node_key view) (rc_peer_node_keys ring) in
  let self_in_list := bool_decide (is_Some node_id_opt) && negb (bool_decide (view_node_key view ∈ excluded_node_keys options)) in
  let node_id := default 0 node_id_opt in
  let expected_peers := contacted local_peer_id options ring in
  match init_response_for_version max_entries now (view_version view) request_id expected_peers (si_responses s) with
  | (InitCreated, map) =>
      let '(result, s) := initiate_signing_inner fuel max_entries pss_active local_peer_id request_id ring message node_id
        self_in_list (Z.of_nat (length expected_peers)) context options nonce_io share_io rng
        (MkSignInitState map (si_reporting s)) in
      (result, MkSignInitState (remove_response_for_version (view_version view) request_id (si_responses s)) (si_reporting s))
  | (InitAlreadyExists, map) =>
      (Err (SignProtocolError "Sign response state already exists for request {request_id}"), MkSignInitState map (si_reporting s))
  | (InitLimitReached, map) =>
      (Err (SignProtocolError "Sign response limit exceeded, too many pending requests"), MkSignInitState map (si_reporting s))
  end.
End Initiator.
