(* ===== verification/SignRelease.v ===== *)
(** * Theorems on the signing responder

    What a share of a signature shows about the request it answers, and that the
    responder uses its nonces as the one-use store promises: whatever requests
    reach it, in whatever order, no nonce goes into two shares. *)
From S2P Require Import Prelude Algebra Interpolation Primitives Codec Common Dkg Context Sigma Shares Pre Pet Signer.
From S2P Require Import ReportCodec ReportStatements ReportDkg ReportPet Evidence Identity NodeState Envelope Auth Routes Bulletin RingState PetNode Reporting Relay PetProtocol PreNode SignHelpers Registry SignNode SignResponder.
Import NonceStates.

Section Release.
Context {F G S P Signature Share NonceCommitment SigningState : Type} {SF : ScalarField F} {CG : CurveGroup F G}.
Context {BL : Blst F G S P} {TS : ThresholdSigner F G Signature Share NonceCommitment SigningState} {SHA : Sha2}.
Context {HX : Hex} {EC : Ecdsa} {DJ : DocumentJson} {PJ : PetJson} {SJ : StateJson} {AZ : Authz} {AH : AuthzHistory}.
Context {JW : JwtLib SignClaims} {HO : HashOrder} {PR : Prost} {IJ : RingIndexJson} {PD : PointDisplay G}.
Context {St Post : Type} {LS : LocalStorage St} {BP : BulletinPosts Post} {DP : DocumentPosts Post}.
Context {KP : DerivationPosts Post} {BJ : PostJson Post}.
Context (validate_dkg_evidence : ReportEnvelope -> ReportValidationContext St Post -> RingPayload ->
  InvalidCryptoResponse -> report_result unit).

Section Node.
Context (app : SignApp St Post).
Abbreviation view := (sa_view app).

(** ** The authorization of a request *)

(** The caller of a policy request: a token signed by the key its issuer names,
    in its window, bound to the derivation and to the message, speaking for the
    actor; the derivation and its ring are those on the chain. *)
Definition signer_vouched (ctx : PolicyContext) (message : bytes) (r : ResolvedPolicy) : Prop :=
  let token := rp_token r in
  (exists key, verified_by (pc_token_string ctx) token key) /\
  in_window token (rp_current_time r) MAX_TOKEN_LIFETIME_SECS JWT_CLOCK_SKEW_LEEWAY_SECS /\
  sa_auth_time app = Some (rp_current_time r) /\
  claims token = MkSignClaims (pc_derivation_id ctx) (sha256 message) /\
  view_read_derivation view (pc_derivation_id ctx) ≫= KeyDerivation_try_from = Some (rp_key_derivation r) /\
  view_read_ring view (kd_ring_id (rp_key_derivation r)) ≫= RingPayload_try_from = Some (rp_ring_payload r) /\
  resolve_actor_id token (default [] (trusted_auth_relay_dids (rp_ring_payload r))) = Ok (rp_actor_id r).

(** Access: the policy engine let the actor use the derivation. *)
Definition derivation_granted (ctx : PolicyContext) (r : ResolvedPolicy) : Prop :=
  exists timestamp permission, policy_access_timestamp (sa_policy_time app) (pc_valid_window ctx) = Ok timestamp /\
    request_to_bytes (derivation_access (rp_key_derivation r) (pc_derivation_id ctx) (pc_valid_window ctx) timestamp)
      = Some permission /\ authz_check permission (rp_actor_id r) = Ok true.

(** A post of the chain: the message is the post the request names, as the chain
    has it, and the key is that of the post's ring. *)
Definition post_published (message object_id : bytes) (a : SignRequestAuthorization) : Prop :=
  exists post published document ring, BulletinPost_try_from message = Some (object_id, post) /\
    view_read_document view object_id = Some published /\ post_payload published = post_payload post /\
    DocumentPayload_try_from post = Some document /\
    view_read_ring view (ring_id document) ≫= RingPayload_try_from = Some ring /\
    au_ring_pk_hex a = ring_pk ring /\ au_derivation a = None /\ au_metadata a = None.

(** A reshare: the message finalizes exactly the transition the chain shows, and
    the node is ready for it. *)
Definition reshare_expected (message : bytes) (st : RingReshareUpdateStatement) (a : SignRequestAuthorization) : Prop :=
  ring_reshare_update_message st = Ok message /\ ru_domain st = RING_RESHARE_UPDATE_DOMAIN /\
  ru_chain_id st = view_chain_id view /\
  exists payload storage_key, view_read_ring view (ru_ring_id st) ≫= RingPayload_try_from = Some payload /\
    ru_current_ring_sha256 st = ring_payload_reshare_sign_state_sha256_hex payload /\
    ru_finalized_ring_sha256 st = finalized_ring_payload_reshare_sign_state_sha256_hex payload /\
    ru_block_number_nonce st = block_number_nonce payload /\
    storage_key_from_ring_pk_hex (F:=F) (G:=G) (ru_ring_pk st) = Ok storage_key /\
    payload_ring_pk_matches (F:=F) (G:=G) (ring_pk payload) (ru_ring_pk st) storage_key = true /\
    (requires_pet payload = true -> pet_ready (view_storage view) (ru_ring_id st) payload = true) /\
    is_Some (reshare_signature_ready_material (sa_ready app) storage_key (ru_session_id st) (ru_ring_id st)
      (ru_current_ring_sha256 st) (ru_finalized_ring_sha256 st)) /\
    au_ring_pk_hex a = ru_ring_pk st /\ au_derivation a = None /\ au_metadata a = None.

(** A health check: the message describes exactly the candidate the node has
    staged for the session. *)
Definition refresh_expected (message : bytes) (st : RefreshHealthCheckStatement) (a : SignRequestAuthorization) : Prop :=
  refresh_health_check_message st = Ok message /\ rh_domain st = REFRESH_HEALTH_CHECK_DOMAIN /\
  rh_threshold st <> 0 /\ rh_threshold st <= rh_total_participants st /\
  exists candidate poly, sa_candidate app (rh_session_id st) = Some candidate /\
    cd_ring_pk_hex candidate = rh_ring_pk st /\ cd_threshold candidate = rh_threshold st /\
    Z.of_nat (length (cd_peer_node_keys candidate)) = rh_total_participants st /\
    refresh_health_check_peer_node_keys_sha256 (cd_peer_node_keys candidate) = rh_peer_node_keys_sha256 st /\
    hex_decode (public_polynomial (cd_bundle candidate)) = Some poly /\ sha256_hex poly = rh_public_polynomial_sha256 st /\
    au_ring_pk_hex a = rh_ring_pk st /\ au_derivation a = None /\ au_metadata a = None.

(** A report: the message is its canonical form, and the registry validates it,
    as an independent signer. *)
Definition report_validated (message sender : bytes) (ctx : ReportSigningContext) (a : SignRequestAuthorization) : Prop :=
  ReportEnvelope_canonical_bytes (rsc_envelope ctx) = message /\
  (exists now, sa_report_time app = Some now /\
    registry_validate validate_dkg_evidence (rsc_envelope ctx) (validation_context view (Some sender) (sa_probe app) now
      (IndependentSigner (negb INTERACTIVE)) (rsc_inline_document ctx) (rsc_pet_blind_context ctx)
      (rsc_pet_blind_certificate ctx)) = Ok tt) /\
  au_ring_pk_hex a = re_ring_pk (rsc_envelope ctx) /\ au_derivation a = None /\ au_metadata a = None.

Definition request_authorized (req : SignRequest) (sender : bytes) (a : SignRequestAuthorization) : Prop :=
  match sq_context req with
  | CtxBulletin object_id => post_published (sq_message req) object_id a
  | CtxPolicy ctx => exists r, signer_vouched ctx (sq_message req) r /\ derivation_granted ctx r /\
      let d := rp_key_derivation r in
      au_ring_pk_hex a = ring_pk (rp_ring_payload r) /\ au_derivation a = Some (kd_derivation d) /\
      au_metadata a = Some (signer_encode_metadata (kd_policy_id d) (kd_resource d) (kd_permission d))
  | CtxRingReshareUpdate st => reshare_expected (sq_message req) st a
  | CtxRefreshHealthCheck st => refresh_expected (sq_message req) st a
  | CtxReport ctx => report_validated (sq_message req) sender ctx a
  end.

Lemma sign_attributed_Ok check report s u s' : sign_attributed check report s = (Ok u, s') -> check = Ok tt /\ s' = s.
Proof. unfold sign_attributed. destruct check as [[]|[]| |]; by intros [= <- <-] || done. Qed.

Lemma bulletin_authorized message object_id a :
  authorize_bulletin_sign_request (F:=F) (G:=G) app message object_id = Ok a -> post_published message object_id a.
Proof.
  unfold authorize_bulletin_sign_request. intros E. bind_ok E as [rk pp] H. bind_ok E as ? _. bind_ok E as ? _.
  apply Ok_inj in E as <-. unfold verify_message_and_get_info_for_version in H. bind_ok H as [id post] Hp%ok_or_Ok.
  bind_ok H as ? Hid%reject_Ok%negb_false_iff%bool_decide_eq_true. subst id. bind_ok H as published Hr%ok_or_Ok.
  bind_ok H as ? Hpay%reject_Ok%negb_false_iff%bool_decide_eq_true. bind_ok H as document Hd%ok_or_Ok.
  bind_ok H as ring_post Hrp%ok_or_Ok. bind_ok H as ring Hring%ok_or_Ok. bind_ok H as ? _. bind_ok H as ? _. bind_ok H as ? _.
  bind_ok H as ? _. apply Ok_inj in H. injection H as <- _. exists post, published, document, ring. rewrite Hrp. done.
Qed.

Lemma resolve_policy_Ok ctx message enforce r :
  resolve_policy app ctx (Some message) enforce = Ok r -> signer_vouched ctx message r.
Proof.
  unfold resolve_policy, request_actor. intros E. bind_ok E as now Hnow%ok_or_Ok. bind_ok E as token Ht%map_err_Ok.
  bind_ok E as [] Hc. bind_ok E as [d ring] Hd. bind_ok E as actor Ha%map_err_Ok%map_err_Ok. apply Ok_inj in E as <-.
  apply resolve_jwt_did_Ok in Ht as (_ & _ & _ & Hk & Hw). unfold validate_sign_claims in Hc.
  bind_ok Hc as ? Hid%reject_Ok%negb_false_iff%bool_decide_eq_true. apply reject_Ok, negb_false_iff, bool_decide_eq_true in Hc.
  unfold fetch_bulletin_payloads_for_version in Hd. bind_ok Hd as post Hp%ok_or_Ok. bind_ok Hd as d' Hd'%ok_or_Ok.
  bind_ok Hd as rpost Hrp%ok_or_Ok. bind_ok Hd as ring' Hr%ok_or_Ok. bind_ok Hd as ? _. apply Ok_inj in Hd. injection Hd as <- <-.
  unfold signer_vouched. cbn. rewrite Hp, Hrp. split_and!; try done. destruct (claims token). cbn in *. by subst.
Qed.

Lemma policy_granted ctx r :
  sign_check_policy_access (sa_policy_time app) (rp_key_derivation r) (pc_derivation_id ctx) (rp_actor_id r)
    (pc_valid_window ctx) = Ok tt -> derivation_granted ctx r.
Proof.
  unfold sign_check_policy_access, sign_check_policy_access_at. intros E. bind_ok E as ts Hts.
  bind_ok E as permission Hp%ok_or_Ok. bind_ok E as b Hb%map_err_Ok. apply reject_Ok, negb_false_iff in E as ->.
  by exists ts, permission.
Qed.

Lemma expect_message_Ok expected canonical text : expect_message (Some expected) canonical text = Ok tt -> canonical = expected.
Proof. by intros E%reject_Ok%negb_false_iff%bool_decide_eq_true. Qed.

Lemma reshare_authorized message st a :
  authorize_ring_reshare_update_sign_request (F:=F) (G:=G) app message st = Ok a -> reshare_expected message st a.
Proof.
  unfold authorize_ring_reshare_update_sign_request. intros E. bind_ok E as [rk staged] H. bind_ok E as ? _.
  apply Ok_inj in E as <-. unfold validate_ring_reshare_update_statement in H.
  do 2 (bind_ok H as ? ?%reject_Ok%negb_false_iff%bool_decide_eq_true). bind_ok H as canonical Hc.
  bind_ok H as [] ->%expect_message_Ok. bind_ok H as ? _. bind_ok H as key Hkey. bind_ok H as post Hp%ok_or_Ok.
  bind_ok H as payload Hpay%ok_or_Ok. bind_ok H as ? _. bind_ok H as ? Hcur%reject_Ok%negb_false_iff%bool_decide_eq_true.
  bind_ok H as ? Hn%reject_Ok%negb_false_iff%Z.eqb_eq. bind_ok H as ? Hfin%reject_Ok%negb_false_iff%bool_decide_eq_true.
  bind_ok H as ? Hpk%reject_Ok%negb_false_iff. bind_ok H as ? Hpet%reject_Ok. bind_ok H as bundle Hb%ok_or_Ok.
  apply Ok_inj in H. injection H as <- _. split_and!; [done..|]. exists payload, key. rewrite Hp.
  split_and!; try done. intros Hreq. by rewrite Hreq, andb_true_l, negb_false_iff in Hpet.
Qed.

Lemma refresh_authorized message st a :
  authorize_refresh_health_check_sign_request (F:=F) (G:=G) app message st = Ok a -> refresh_expected message st a.
Proof.
  unfold authorize_refresh_health_check_sign_request. intros E. bind_ok E as [rk staged] H. bind_ok E as [] _.
  apply Ok_inj in E as <-. unfold validate_refresh_health_check_statement in H.
  bind_ok H as ? ?%reject_Ok%negb_false_iff%bool_decide_eq_true. bind_ok H as ? Ht%reject_Ok%Z.eqb_neq.
  bind_ok H as ? [_ Hle%Z.ltb_ge]%reject_Ok%orb_false_iff. bind_ok H as canonical Hc.
  bind_ok H as [] ->%expect_message_Ok. bind_ok H as candidate Hcand%ok_or_Ok. bind_ok H as key Hkey.
  bind_ok H as ? [_ Hpk%negb_false_iff%bool_decide_eq_true]%reject_Ok%orb_false_iff.
  do 2 (bind_ok H as ? ?%reject_Ok%negb_false_iff%Z.eqb_eq). bind_ok H as ? ?%reject_Ok%negb_false_iff%bool_decide_eq_true.
  bind_ok H as poly Hpoly%ok_or_Ok. bind_ok H as ? ?%reject_Ok%negb_false_iff%bool_decide_eq_true.
  apply Ok_inj in H. injection H as <- _. split_and!; try done. by exists candidate, poly.
Qed.

Lemma report_authorized message ctx sender a :
  authorize_report_sign_request validate_dkg_evidence app message ctx sender = Ok a -> report_validated message sender ctx a.
Proof.
  unfold authorize_report_sign_request. intros E. bind_ok E as ? Hm%reject_Ok%negb_false_iff%bool_decide_eq_true.
  bind_ok E as rk Hr%map_err_Ok. bind_ok E as scope _. apply Ok_inj in E as <-. unfold validate_signing_report in Hr.
  bind_ok Hr as now Hnow%ok_or_Ok. bind_ok Hr as [] Hv. apply Ok_inj in Hr as <-. split_and!; [done| |done..]. by exists now.
Qed.

Lemma authorize_sign_request_Ok req sender s a s' :
  authorize_sign_request (F:=F) (G:=G) validate_dkg_evidence app req sender s = (Ok a, s') ->
  request_authorized req sender a /\ s' = s.
Proof.
  unfold authorize_sign_request, request_authorized. destruct (sq_context req) as [id|ctx|st|st|ctx].
  - intros [= H <-]. split; [by apply bulletin_authorized|done].
  - unfold authorize_policy_sign_request. intros (r & Hr%resolve_policy_Ok & E)%m_lift_inv.
    apply m_bind_inv in E as (u & s1 & [Hp%policy_granted ->]%sign_attributed_Ok & E). injection E as <- <-. by split; [exists r|].
  - intros [= H <-]. split; [by apply reshare_authorized|done].
  - intros [= H <-]. split; [by apply refresh_authorized|done].
  - intros [= H <-]. split; [by apply report_authorized|done].
Qed.

(** ** The share *)

Definition nonce_key (request_id : bytes) : bytes := versioned_key (view_version view) (bstr "nonce-" ++ request_id).

(** The nonce of an interactive scheme: stored for this request, for the peer
    that now sends it and under the same context, and gone afterwards. *)
Definition nonce_taken (req : SignRequest) (sender : bytes) (state : option SigningState) (s s' : SignState) : Prop :=
  if INTERACTIVE then
    exists e st, sn_nonces s !! nonce_key (sq_request_id req) = Some e /\ coordinator_peer_id e = sender /\
    nonce_context_key (sq_context req) = Ok (context_key e) /\ @from_bytes _ state_deserialize (nonce_bytes e) = Ok st /\
    state = Some st /\ sn_nonces s' = delete (nonce_key (sq_request_id req)) (sn_nonces s)
  else state = None /\ sn_nonces s' = sn_nonces s.

(** The share: made with the key share and the polynomial of one bundle, over the
    message and the commitments of the request; when the answer can be reported,
    the node signs what it answers. *)
Definition share_made (req : SignRequest) (a : SignRequestAuthorization) (state : option SigningState) (msg : SignMessage) : Prop :=
  exists ring_pk_bytes (ring_pk : G) bundle poly_bytes pub_poly (share : PriShare F) commitments sig_share sig_share_bytes
    signed_at signature,
    hex_decode (au_ring_pk_hex a) = Some ring_pk_bytes /\ decode_ring_pk_bytes (F:=F) ring_pk_bytes = Ok ring_pk /\
    signing_bundle (F:=F) app req ring_pk = Ok bundle /\ hex_decode (public_polynomial bundle) = Some poly_bytes /\
    PubPoly_from_bytes (F:=F) poly_bytes = Ok pub_poly /\ PriShare_from_bytes (share_bytes bundle) = Ok share /\
    deserialize_commitments (TD:=nonce_deserialize) (sq_all_commitments req) = Ok commitments /\
    signer_sign (MkDistKeyShare share) (sq_message req) pub_poly state commitments (au_derivation a) (au_metadata a)
      = Ok sig_share /\
    @to_bytes _ share_serialize (pub_v sig_share) = Ok sig_share_bytes /\
    attest_share app req a (pri_i share) sig_share_bytes = Ok (signed_at, signature) /\
    msg = MsgSignResponse (sq_request_id req) (pri_i share) sig_share_bytes signed_at signature.

Lemma make_share_Ok req a consumed msg :
  make_share (F:=F) (G:=G) app req a consumed = Ok msg ->
  exists state, open_signing_state req consumed = Ok state /\ share_made req a state msg.
Proof.
  unfold make_share, bundle_key_share. intros E. bind_ok E as rb Hrb%ok_or_Ok. bind_ok E as rk Hrk. bind_ok E as bundle Hb.
  bind_ok E as pb Hpb%ok_or_Ok. bind_ok E as pp Hpp%map_err_Ok. bind_ok E as ks Hks. bind_ok Hks as share Hsh%map_err_Ok.
  apply Ok_inj in Hks as <-. bind_ok E as cms Hcms. bind_ok E as state Hst. bind_ok E as sig Hsig%map_err_Ok.
  bind_ok E as sb Hsb%map_err_Ok. bind_ok E as [t nsig] Ha. apply Ok_inj in E as <-. exists state. split; [done|].
  exists rb, rk, bundle, pb, pp, share, cms, sig, sb, t, nsig. done.
Qed.

Lemma take_nonce_Ok req sender s consumed s1 state :
  take_nonce app (sq_request_id req) sender s = (Ok consumed, s1) -> open_signing_state req consumed = Ok state ->
  nonce_taken req sender state s s1 /\ sn_seen s1 = sn_seen s /\ sn_reporting s1 = sn_reporting s.
Proof.
  unfold take_nonce, open_signing_state, nonce_taken. destruct INTERACTIVE; [|by intros [= <- <-] [= <-]].
  unfold consume_nonce_for_sign_request_for_version, take_entry. fold (nonce_key (sq_request_id req)).
  destruct (sn_nonces s !! nonce_key (sq_request_id req)) as [e|] eqn:He; [|by intros [=]]. case_bool_decide as Hp; [|by intros [=]].
  intros [= <- <-] E. bind_ok E as ck Hck. bind_ok E as c [= <-]. bind_ok E as b Hb%ok_or_Ok. bind_ok E as st Hst%map_err_Ok.
  apply Ok_inj in E as <-. unfold into_bytes_for_context in Hb. cbn in Hb. case_bool_decide as Hc; [|done].
  injection Hb as <-. subst ck. split; [|done]. by exists e, st.
Qed.

(** A run of the handler that answers. *)
Lemma handle_sign_request_Ok req sender s r s' :
  handle_sign_request (F:=F) (G:=G) validate_dkg_evidence app req sender s = (Ok r, s') ->
  exists msg a state, r = Some msg /\ Z.of_nat (length (sq_message req)) <= MAX_SIGN_MESSAGE_BYTES /\ request_authorized req sender a /\
    nonce_taken req sender state s s' /\ sn_seen s' = sn_seen s /\ sn_reporting s' = sn_reporting s /\
    share_made req a state msg.
Proof.
  unfold handle_sign_request. intros (consumed & s1 & Ht & E)%m_bind_inv. apply m_lift_inv in E as (u & Hl%reject_Ok%Z.ltb_ge & E).
  apply m_bind_inv in E as (a & s2 & [Ha ->]%authorize_sign_request_Ok & E).
  apply m_lift_inv in E as (msg & (state & Ho & Hm)%make_share_Ok & E). injection E as <- <-.
  destruct (take_nonce_Ok _ _ _ _ _ _ Ht Ho) as (Hn & Hseen & Hrep). by exists msg, a, state.
Qed.

(** C5: a share of a signature is released for authorized requests only.  When a
    node answers a signing request, the message is no longer than the limit and
    is authorized for its context: a post that is on the chain as the message has
    it; a message named by the hash in a token whose caller the policy engine
    lets use the derivation; the finalization of exactly the reshare the chain
    shows and the node is ready for; the description of exactly the refresh the
    node has staged; or the canonical form of a report the registry validates.
    In an interactive scheme the nonce was stored for this request, by the same
    peer under the same context, and is gone afterwards.  The share is made over
    this message and these commitments with the key share and the polynomial of
    one bundle, and nobody is reported. *)
Theorem share_authorized req sender s msg s' :
  handle_sign_request (F:=F) (G:=G) validate_dkg_evidence app req sender s = (Ok (Some msg), s') ->
  exists a state, Z.of_nat (length (sq_message req)) <= MAX_SIGN_MESSAGE_BYTES /\ request_authorized req sender a /\
    nonce_taken req sender state s s' /\ sn_seen s' = sn_seen s /\ sn_reporting s' = sn_reporting s /\
    share_made req a state msg.
Proof. intros (m & a & state & [= ->] & H)%handle_sign_request_Ok. by exists a, state. Qed.

(** ** The nonce store under the handlers *)

(** A step that leaves the nonces alone. *)
Abbreviation keeps_nonces := (m_preserves (fun s s' : SignState => sn_nonces s' = sn_nonces s)).

Lemma keeps_attributed check ctx binding now :
  keeps_nonces (sign_attributed check (sign_report_relay_if_bound app ctx binding now)).
Proof.
  intros s. unfold sign_attributed, sign_report_relay_if_bound. destruct check as [|[]| |]; try done. cbn.
  destruct (pc_relay_statement ctx); [|done]. by destruct (validate_relay_request_binding _ _).
Qed.

Lemma keeps_record token : keeps_nonces (sign_record_token app token).
Proof. intros s. unfold sign_record_token. by destruct (check_and_record _ _ _ _ _). Qed.

Ltac keeps := repeat first [apply m_preserves_lift, _ | apply keeps_attributed | apply keeps_record
  | apply m_preserves_bind; [apply _| |intros ?] | match goal with |- keeps_nonces (let '(_, _) := ?x in _) => destruct x end].

Lemma keeps_authorize_sign req sender : keeps_nonces (authorize_sign_request (F:=F) (G:=G) validate_dkg_evidence app req sender).
Proof. unfold authorize_sign_request, authorize_policy_sign_request, check_resolved_policy. destruct (sq_context req); keeps. Qed.

Lemma keeps_authorize_nonce req sender : keeps_nonces (authorize_nonce_request (F:=F) (G:=G) validate_dkg_evidence app req sender).
Proof. unfold authorize_nonce_request, check_resolved_policy. destruct (nq_context req); keeps. Qed.

(** The nonce behind the commitment that [m] answers: made with a key share, and
    kept under the request, for the peer and the context it was asked for. *)
Definition commits_to (fuel : nat) (req : NonceRequest) (sender : bytes) (rng : Rng F) (m : SignMessage) (g : grant) : Prop :=
  exists (ks : DistKeyShare F) commitment st commitment_bytes nonce ctx rng1,
    signer_generate_nonces fuel ks rng = Ok ((commitment, st), rng1) /\
    @to_bytes _ nonce_serialize commitment = Ok commitment_bytes /\ @to_bytes _ state_serialize st = Ok nonce /\
    nonce_context_key (nq_context req) = Ok ctx /\
    g = (versioned_key (view_version view) (nq_request_id req), sender, ctx, nonce) /\
    m = MsgNonceResponse (nq_request_id req) (pri_i (pri_share ks)) commitment_bytes.

(** The nonce in the share that [m] answers: the share is the one the signer makes
    with the state these bytes are. *)
Definition signed_with (req : SignRequest) (sender : bytes) (m : SignMessage) (g : grant) : Prop :=
  exists a st nonce ctx, @from_bytes _ state_deserialize nonce = Ok st /\ nonce_context_key (sq_context req) = Ok ctx /\
    g = (nonce_key (sq_request_id req), sender, ctx, nonce) /\ share_made req a (Some st) m.

Lemma make_nonce_Ok fuel req rk staged rng i cb nonce rng1 :
  make_nonce (F:=F) (G:=G) app fuel req rk staged rng = Ok (i, cb, nonce, rng1) ->
  exists (ks : DistKeyShare F) commitment st, signer_generate_nonces fuel ks rng = Ok ((commitment, st), rng1) /\
    @to_bytes _ nonce_serialize commitment = Ok cb /\ @to_bytes _ state_serialize st = Ok nonce /\ i = pri_i (pri_share ks).
Proof.
  unfold make_nonce. intros E. bind_ok E as ck _. bind_ok E as ab _. bind_ok E as ak _. bind_ok E as [] _. bind_ok E as ks _.
  bind_ok E as [[commitment st] r1] Hg%map_err_Ok. bind_ok E as cb' Hc%map_err_Ok. bind_ok E as sb Hs%map_err_Ok.
  apply Ok_inj in E. injection E as <- <- <- <-. by exists ks, commitment, st.
Qed.

(** A nonce request is at most one store, of the nonce it answers with. *)
Lemma nonce_request_steps fuel req sender rng s o s' :
  handle_nonce_request (F:=F) (G:=G) validate_dkg_evidence app fuel req sender rng s = (o, s') ->
  sn_nonces s' = sn_nonces s /\ (forall a, o <> Ok a) \/
  exists nonce ctx s1 stored, sn_nonces s1 = sn_nonces s /\ store_nonce app (nq_request_id req) nonce ctx sender s1 = (stored, s') /\
    match stored with
    | Ok _ => exists m rng1, o = Ok (Some m, rng1) /\
        commits_to fuel req sender rng m (versioned_key (view_version view) (nq_request_id req), sender, ctx, nonce)
    | _ => forall a, o <> Ok a
    end.
Proof.
  unfold handle_nonce_request, m_bind, m_lift. pose proof (keeps_authorize_nonce req sender s) as K.
  destruct (authorize_nonce_request _ _ _ _ s) as [[[rk staged]|e| |] s1]; cbn in K; try (intros [= <- <-]; by left).
  destruct (make_nonce _ _ _ _ _ _) as [[[[i cb] nonce] rng1]|e| |] eqn:En; try (intros [= <- <-]; by left).
  destruct (nonce_context_key _) as [ctx|e| |] eqn:Ec; try (intros [= <- <-]; by left).
  destruct (store_nonce _ _ _ _ _ s1) as [stored s2] eqn:Es. intros E. right. exists nonce, ctx, s1, stored.
  destruct stored; injection E as <- <-; split_and!; try done.
  apply make_nonce_Ok in En as (ks & commitment & st & Hg & Hc & Hs & ->). do 2 eexists. split; [done|].
  exists ks, commitment, st, cb, nonce, ctx, rng1. done.
Qed.

Lemma nonce_request_refines fuel req sender rng s o s' :
  handle_nonce_request (F:=F) (G:=G) validate_dkg_evidence app fuel req sender rng s = (o, s') ->
  sn_nonces s' = sn_nonces s /\ (forall a, o <> Ok a) \/
  exists nonce ctx g,
    match g with
    | Some g => exists m rng1, o = Ok (Some m, rng1) /\ commits_to fuel req sender rng m g
    | None => forall a, o <> Ok a
    end /\
    forall stored released,
    run_nonce_call (MkNonceLog (sn_nonces s) stored released)
      (StoreNonce (sa_nonce_now app) (sa_nonce_created app) (view_version view) (nq_request_id req) nonce ctx sender)
    = MkNonceLog (sn_nonces s') (option_list g ++ stored) released.
Proof.
  intros E. apply nonce_request_steps in E as [?|(nonce & ctx & s1 & out & K & Hs & Ho)]; [by left|].
  right. exists nonce, ctx. cbn. rewrite <- K. unfold store_nonce in Hs.
  destruct (store_nonce_for_version _ _ _ _ _ _ _ (sn_nonces s1)) as [outcome states].
  destruct outcome; injection Hs as <- <-; [|by exists None..].
  destruct Ho as (m & rng1 & -> & Hm). eexists (Some _). split; [|done]. by exists m, rng1.
Qed.

(** A signing request is one spend, whether or not it is answered. *)
Lemma sign_request_refines req sender s o s' :
  handle_sign_request (F:=F) (G:=G) validate_dkg_evidence app req sender s = (o, s') -> INTERACTIVE = true ->
  exists ctx released', (forall r, o = Ok r -> exists m g, r = Some m /\ signed_with req sender m g /\ released' = [g]) /\
    forall stored released,
    run_nonce_call (MkNonceLog (sn_nonces s) stored released)
      (SpendNonce (view_version view) (bstr "nonce-" ++ sq_request_id req) sender ctx)
    = MkNonceLog (sn_nonces s') stored (released' ++ released).
Proof.
  intros E HI. exists (match nonce_context_key (sq_context req) with Ok k => k | _ => [] end).
  pose proof E as Eo. unfold handle_sign_request in E.
  assert (sn_nonces s' = (consume_nonce_for_sign_request_for_version (view_version view) (bstr "nonce-" ++ sq_request_id req)
    sender (sn_nonces s)).2) as K.
  { unfold m_bind at 1, take_nonce in E. rewrite HI in E.
    destruct (consume_nonce_for_sign_request_for_version _ _ _ _) as [[c|] m]; [|by injection E as _ <-].
    match type of E with ?m ?st = _ => assert (keeps_nonces m) as Hk end; [|by specialize (Hk (MkSignState m (sn_seen s) (sn_reporting s))); rewrite E in Hk].
    repeat first [apply keeps_authorize_sign | keeps]. }
  cbn [run_nonce_call nonce_states nonces_stored nonces_released]. rewrite K.
  destruct (consume_nonce_for_sign_request_for_version _ _ _ _) as [consumed m] eqn:Ec. eexists. split; [|done].
  intros r ->. apply handle_sign_request_Ok in Eo as (msg & a & state & -> & _ & _ & Hn & _ & _ & Hm).
  unfold nonce_taken in Hn. rewrite HI in Hn. destruct Hn as (e & st & He & <- & Hctx & Hst & -> & _). rewrite Hctx.
  unfold consume_nonce_for_sign_request_for_version, take_entry in Ec. fold (nonce_key (sq_request_id req)) in Ec.
  rewrite He in Ec. cbn in Ec. rewrite bool_decide_true in Ec by done. injection Ec as <- _. cbn.
  unfold into_bytes_for_context. cbn. rewrite bool_decide_true by done. do 2 eexists. split_and!; [done| |done].
  by exists a, st, (nonce_bytes e), (context_key e).
Qed.
End Node.

(** ** Executions

    The requests a node is sent, in the order their handlers get the nonce store,
    which each of them does once; [seen] and [reporting] are what the handlers
    that run meanwhile have made of the rest of the state, and every request has
    its own view of the chain and of the clocks. *)
Inductive sign_event :=
  | OnNonceRequest (app : SignApp St Post) (fuel : nat) (req : NonceRequest) (sender : bytes) (rng : Rng F)
      (seen : gmap bytes Instant) (reporting : ReportingState)
  | OnSignRequest (app : SignApp St Post) (req : SignRequest) (sender : bytes)
      (seen : gmap bytes Instant) (reporting : ReportingState)
  | OnSweep (now : Instant).

(** The nonces in the store, and the answers given. *)
Record nonce_run := MkNonceRun {
  run_nonces : gmap bytes NonceEntry;
  run_commitments : list (SignApp St Post * nat * NonceRequest * bytes * Rng F * SignMessage);
  run_shares : list (SignApp St Post * SignRequest * bytes * SignMessage);
}.

Definition run_sign_event (r : nonce_run) (e : sign_event) : nonce_run :=
  match e with
  | OnNonceRequest app fuel req sender rng seen reporting =>
      let '(o, s) := handle_nonce_request (F:=F) (G:=G) validate_dkg_evidence app fuel req sender rng
        (MkSignState (run_nonces r) seen reporting) in
      MkNonceRun (sn_nonces s)
        (match o with Ok (Some m, _) => [(app, fuel, req, sender, rng, m)] | _ => [] end ++ run_commitments r) (run_shares r)
  | OnSignRequest app req sender seen reporting =>
      let '(o, s) := handle_sign_request (F:=F) (G:=G) validate_dkg_evidence app req sender
        (MkSignState (run_nonces r) seen reporting) in
      MkNonceRun (sn_nonces s) (run_commitments r)
        (match o with Ok (Some m) => [(app, req, sender, m)] | _ => [] end ++ run_shares r)
  | OnSweep now => MkNonceRun (remove_expired now (run_nonces r)) (run_commitments r) (run_shares r)
  end.

Definition run_sign_events (es : list sign_event) : nonce_run := fold_left run_sign_event es (MkNonceRun ∅ [] []).

(** The run is one of the nonce store: the same entries; the nonces stored are
    those behind the commitments answered, one by one; and [used] are the nonces
    in the shares answered, one by one, which the store released. *)
Record refines_store (r : nonce_run) (l : nonce_log) (used : list grant) : Prop := {
  rf_entries : run_nonces r = nonce_states l;
  rf_made : Forall2 (fun '(app, fuel, req, sender, rng, m) => commits_to app fuel req sender rng m)
    (run_commitments r) (nonces_stored l);
  rf_used : Forall2 (fun '(app, req, sender, m) => signed_with app req sender m) (run_shares r) used;
  rf_released : used ⊆+ nonces_released l;
}.

Lemma run_sign_event_refines r l used e :
  INTERACTIVE = true -> refines_store r l used ->
  exists cs used', refines_store (run_sign_event r e) (fold_left run_nonce_call cs l) used'.
Proof.
  intros HI. destruct r as [nonces made shares], l as [states stored released]. intros [E1 E2 E3 E4]. cbn in *. subst.
  destruct e as [app fuel req sender rng seen rep|app req sender seen rep|now]; cbn.
  - destruct (handle_nonce_request _ _ _ _ _ _ _) as [o s'] eqn:E.
    apply nonce_request_refines in E as [[K No]|(nonce & ctx & g & Hg & E)].
    { exists [], used. destruct o as [a| | |]; [by destruct (No a)|by constructor..]. }
    exists [StoreNonce (sa_nonce_now app) (sa_nonce_created app) (view_version (sa_view app)) (nq_request_id req) nonce ctx sender], used.
    cbn [fold_left sn_nonces] in *. rewrite E. destruct g as [g|].
    + destruct Hg as (m & rng1 & -> & Hm). by constructor; [|constructor|..].
    + destruct o as [a| | |]; [by destruct (Hg a)|by constructor..].
  - destruct (handle_sign_request _ _ _ _ _) as [o s'] eqn:E.
    apply sign_request_refines in E as (ctx & rel & Hr & E); [|done].
    exists [SpendNonce (view_version (sa_view app)) (bstr "nonce-" ++ sq_request_id req) sender ctx].
    cbn [fold_left sn_nonces] in *. rewrite E. destruct o as [r| | |].
    1: destruct (Hr r eq_refl) as (m & g & -> & Hm & ->); exists (g :: used); constructor; try done; [by constructor|by apply submseteq_skip].
    all: exists used; constructor; try done; by apply submseteq_inserts_l.
  - by exists [SweepNonces now], used.
Qed.

Lemma run_sign_events_refine es :
  INTERACTIVE = true -> exists cs used, refines_store (run_sign_events es) (run_nonce_calls cs) used.
Proof.
  intros HI. assert (forall r l used, refines_store r l used ->
    exists cs used', refines_store (fold_left run_sign_event es r) (fold_left run_nonce_call cs l) used') as H; [|by apply (H _ _ [])].
  induction es as [|e es IH]; intros r l used H; [by exists [], used|].
  destruct (run_sign_event_refines r l used e HI H) as (cs1 & used1 & H1). destruct (IH _ _ _ H1) as (cs2 & used2 & H2).
  exists (cs1 ++ cs2), used2. by rewrite fold_left_app.
Qed.

(** C16: the signing responder implements the one-use nonce store.  Whatever
    nonce and signing requests a node of an interactive scheme is sent, by
    whatever peers and in whatever order, interleaved with expiry sweeps, its
    handlers act on the nonces as some sequence of stores, spends and sweeps does:
    the entries are the same; the nonces stored are, answer by answer, the ones
    generated with the commitments the node answered; and every share it answered
    is the one the signer makes with a nonce the store released for it.  The
    nonces in the shares are, counted with repetition, among those behind the
    commitments, each used for the request, the peer and the context it was made
    for.  So where the nonces generated differ, no two shares have the same one. *)
Theorem responder_refines_nonce_store (es : list sign_event) :
  INTERACTIVE = true ->
  exists cs used, let l := run_nonce_calls cs in refines_store (run_sign_events es) l used /\
    used ⊆+ nonces_stored l /\ (NoDup (nonces_stored l).*2 -> NoDup used.*2).
Proof.
  intros HI. destruct (run_sign_events_refine es HI) as (cs & used & R). exists cs, used. cbn zeta.
  assert (used ⊆+ nonces_stored (run_nonce_calls cs)) as Hs.
  { etrans; [exact (rf_released _ _ _ R)|apply released_stored]. }
  split_and!; [done..|]. intros N. by eapply submseteq_NoDup, fmap_submseteq.
Qed.
End Release.
