(* ===== verification/DkgEvidence.v ===== *)
(** * Evidence about the dealers of a DKG

    [bin/orbis-node/src/dkg/v0/coordinator/evidence]: in a refresh or a reshare
    every commitment and every share travels with a statement the dealer signed.
    What the statements bind ([mod.rs]), how a dealer builds them, how a receiver
    checks them, and what it reports ([commitment.rs], [share.rs]); the first
    two phases, in which a dealer commits and makes its shares
    ([coordinator/phases]);
    and the two handlers that decide on a share and on a commitment
    ([coordinator/message_handlers/share.rs], [commitment.rs]).  The state
    machine of [DkgSession] drives the phases in between.  A handler works on
    the session it finds; stale attempts, logs, metrics and the cache of
    encoded messages for retransmission are left out. *)
From stdpp Require Import pretty.
From S2P Require Import Prelude Algebra Interpolation Primitives Pairing Codec Common WireCommitment Dkg Pet DkgSession.
From S2P Require Import ReportCodec ReportStatements ReportDkg ReportPet Evidence Identity NodeState Envelope Auth Routes Bulletin RingState PetNode Reporting PetProtocol PreNode Registry SignInitiator.

Inductive DkgError : Type :=
  | DkgUnauthorized (message : string)
  | DkgSerialization (message : string)
  | DkgDeserialization (message : string)
  | DkgNetworkConnection (message : string)
  | DkgNetworkCommunication (message : string)
  | DkgCrypto (message : string)
  | DkgStorage (message : string)
  | DkgBulletin (message : string)
  | DkgSessionNotFound (message : string)
  | DkgStaleAttempt (ceremony_id : Z)
  | DkgProtocolError (message : string)
  | DkgSessionAlreadyExists
  | DkgMaxSessionsReached
  | DkgInvalidParticipantCount (count : Z)
  | DkgMaxLocalRingsReached (current max : Z)
  | DkgInvalidInput (message : string)
  | DkgInvalidState (message : string)
  | DkgCommitmentVerificationFailed (message : string)
  | DkgShareVerificationFailed (message : string)
  | DkgGeneric (message : string)
  | DkgSystemTime (message : string)
  | DkgHashConversion
  | DkgInsufficientPeers (successful total threshold : Z)
  | DkgBarrierFailure (barrier : string) (failed_peers : list (bytes * string)).

Abbreviation dkg_result := (res DkgError).

(** ** Data *)

Record DkgReportEvidenceBinding := MkDkgReportEvidenceBinding {
  bd_ring_id : bytes;
  bd_ring_pk : bytes;
  bd_ring_state_sha256 : bytes;
  bd_chain_id : bytes;
  bd_protocol_version : Z;
  bd_request_id : bytes;
  bd_origin_protocol : bytes;
  bd_current_node_keys : list bytes;
  bd_receiver_node_keys : list bytes;
}.

Record DkgEvidenceBuildContext := MkDkgEvidenceBuildContext {
  bc_binding : DkgReportEvidenceBinding;
  bc_signing_key_hex : bytes;
  bc_session_nonce : bytes;
  bc_attempt_id : bytes;
}.

Record SignedDkgShare := MkSignedDkgShare {
  ss_statement : DkgShareStatement;
  ss_signature : bytes;
}.

(** The parts of [ReshareParams] the handlers use. *)
Record ReshareParams (F : Type) := MkReshareParams {
  rp_old_share : option F;
  rp_participating_ids : list Z;
  rp_new_threshold : Z;
  rp_new_total_nodes : Z;
  rp_new_node_id : option Z;
}.
#[global] Arguments MkReshareParams {F}. #[global] Arguments rp_old_share {F}. #[global] Arguments rp_participating_ids {F}.
#[global] Arguments rp_new_threshold {F}. #[global] Arguments rp_new_total_nodes {F}. #[global] Arguments rp_new_node_id {F}.

Record PendingDkgShare (F : Type) := MkPendingDkgShare {
  pending_share : DistributedShare F;
  pending_evidence : option SignedDkgShare;
}.
#[global] Arguments MkPendingDkgShare {F}. #[global] Arguments pending_share {F}. #[global] Arguments pending_evidence {F}.

(** What the node is given: its key and storage, the bulletin, its peer id and
    the clock. *)
Record DkgApp {St Post : Type} := MkDkgApp {
  dk_node_key : bytes;
  dk_chain_id : bytes;
  dk_local_peer_id : bytes;
  dk_storage : St;
  dk_read_ring : bytes -> option Post;
  dk_read_node : bytes -> option Post;
  dk_now : option Z;
}.
#[global] Arguments DkgApp : clear implicits.

(** The session of an attempt, with its routing, audit and pending state, and
    what the node queues and relays for it. *)
Record DkgAttempt (F G : Type) := MkDkgAttempt {
  dt_session_id : Z;
  dt_attempt_id : bytes;
  dt_session : DkgSessionState F G;
  dt_ring_id : bytes;
  dt_peer_node_keys : list bytes;
  dt_node_id_to_peer_id : gmap Z bytes;
  dt_reshare_new_node_id_to_peer_id : gmap Z bytes;
  dt_activated : bool;
  dt_aborted : bool;
  dt_protocol_version : Z;
  dt_session_nonce : bytes;
  dt_reshare_params : option (ReshareParams F);
  dt_report_evidence_binding : option DkgReportEvidenceBinding;
  dt_local_signed_commitment : option SignedDkgCommitment;
  dt_received_shares : gset Z;
  dt_pending_shares : gmap Z (PendingDkgShare F);
  dt_peer_no_progress : gset Z;
  dt_pending_commitments : gmap Z (bytes * option SignedDkgCommitment);
  dt_audit_commitments : gmap Z SignedDkgCommitment;
  dt_reporting : ReportingState;
  dt_relays : list InvalidCryptoResponse;
}.
#[global] Arguments MkDkgAttempt {F G}. #[global] Arguments dt_session_id {F G}. #[global] Arguments dt_attempt_id {F G}.
#[global] Arguments dt_session {F G}. #[global] Arguments dt_ring_id {F G}. #[global] Arguments dt_peer_node_keys {F G}.
#[global] Arguments dt_node_id_to_peer_id {F G}. #[global] Arguments dt_reshare_new_node_id_to_peer_id {F G}.
#[global] Arguments dt_activated {F G}. #[global] Arguments dt_aborted {F G}. #[global] Arguments dt_protocol_version {F G}.
#[global] Arguments dt_session_nonce {F G}. #[global] Arguments dt_reshare_params {F G}.
#[global] Arguments dt_report_evidence_binding {F G}. #[global] Arguments dt_local_signed_commitment {F G}.
#[global] Arguments dt_received_shares {F G}. #[global] Arguments dt_pending_shares {F G}.
#[global] Arguments dt_peer_no_progress {F G}. #[global] Arguments dt_pending_commitments {F G}.
#[global] Arguments dt_audit_commitments {F G}. #[global] Arguments dt_reporting {F G}. #[global] Arguments dt_relays {F G}.

Section Fields.
Context {F G : Type}.
Abbreviation state := (DkgAttempt F G).

Definition set_session (x : DkgSessionState F G) (s : state) : state :=
  MkDkgAttempt (dt_session_id s) (dt_attempt_id s) x (dt_ring_id s) (dt_peer_node_keys s) (dt_node_id_to_peer_id s)
    (dt_reshare_new_node_id_to_peer_id s) (dt_activated s) (dt_aborted s) (dt_protocol_version s) (dt_session_nonce s) (dt_reshare_params s) (dt_report_evidence_binding s)
    (dt_local_signed_commitment s) (dt_received_shares s) (dt_pending_shares s) (dt_peer_no_progress s)
    (dt_pending_commitments s) (dt_audit_commitments s) (dt_reporting s) (dt_relays s).

Definition set_evidence (binding : option DkgReportEvidenceBinding) (commitment : option SignedDkgCommitment) (s : state) : state :=
  MkDkgAttempt (dt_session_id s) (dt_attempt_id s) (dt_session s) (dt_ring_id s) (dt_peer_node_keys s) (dt_node_id_to_peer_id s)
    (dt_reshare_new_node_id_to_peer_id s) (dt_activated s) (dt_aborted s) (dt_protocol_version s) (dt_session_nonce s) (dt_reshare_params s) binding commitment
    (dt_received_shares s) (dt_pending_shares s) (dt_peer_no_progress s)
    (dt_pending_commitments s) (dt_audit_commitments s) (dt_reporting s) (dt_relays s).

Definition set_shares (received : gset Z) (pending : gmap Z (PendingDkgShare F)) (no_progress : gset Z) (s : state) : state :=
  MkDkgAttempt (dt_session_id s) (dt_attempt_id s) (dt_session s) (dt_ring_id s) (dt_peer_node_keys s) (dt_node_id_to_peer_id s)
    (dt_reshare_new_node_id_to_peer_id s) (dt_activated s) (dt_aborted s) (dt_protocol_version s) (dt_session_nonce s) (dt_reshare_params s) (dt_report_evidence_binding s)
    (dt_local_signed_commitment s) received pending no_progress
    (dt_pending_commitments s) (dt_audit_commitments s) (dt_reporting s) (dt_relays s).

Definition set_reports (reporting : ReportingState) (relays : list InvalidCryptoResponse) (s : state) : state :=
  MkDkgAttempt (dt_session_id s) (dt_attempt_id s) (dt_session s) (dt_ring_id s) (dt_peer_node_keys s) (dt_node_id_to_peer_id s)
    (dt_reshare_new_node_id_to_peer_id s) (dt_activated s) (dt_aborted s) (dt_protocol_version s) (dt_session_nonce s) (dt_reshare_params s) (dt_report_evidence_binding s)
    (dt_local_signed_commitment s) (dt_received_shares s) (dt_pending_shares s) (dt_peer_no_progress s)
    (dt_pending_commitments s) (dt_audit_commitments s) reporting relays.

Definition set_reshare_params (params : option (ReshareParams F)) (s : state) : state :=
  MkDkgAttempt (dt_session_id s) (dt_attempt_id s) (dt_session s) (dt_ring_id s) (dt_peer_node_keys s) (dt_node_id_to_peer_id s)
    (dt_reshare_new_node_id_to_peer_id s) (dt_activated s) (dt_aborted s) (dt_protocol_version s) (dt_session_nonce s) params
    (dt_report_evidence_binding s) (dt_local_signed_commitment s) (dt_received_shares s) (dt_pending_shares s)
    (dt_peer_no_progress s)
    (dt_pending_commitments s) (dt_audit_commitments s) (dt_reporting s) (dt_relays s).

Definition abort_attempt (s : state) : state :=
  MkDkgAttempt (dt_session_id s) (dt_attempt_id s) (dt_session s) (dt_ring_id s) (dt_peer_node_keys s) (dt_node_id_to_peer_id s)
    (dt_reshare_new_node_id_to_peer_id s) (dt_activated s) true (dt_protocol_version s) (dt_session_nonce s) (dt_reshare_params s)
    (dt_report_evidence_binding s) (dt_local_signed_commitment s) (dt_received_shares s) (dt_pending_shares s)
    (dt_peer_no_progress s)
    (dt_pending_commitments s) (dt_audit_commitments s) (dt_reporting s) (dt_relays s).

Definition set_commitments (pending : gmap Z (bytes * option SignedDkgCommitment)) (audit : gmap Z SignedDkgCommitment)
    (s : state) : state :=
  MkDkgAttempt (dt_session_id s) (dt_attempt_id s) (dt_session s) (dt_ring_id s) (dt_peer_node_keys s) (dt_node_id_to_peer_id s)
    (dt_reshare_new_node_id_to_peer_id s) (dt_activated s) (dt_aborted s) (dt_protocol_version s) (dt_session_nonce s)
    (dt_reshare_params s) (dt_report_evidence_binding s) (dt_local_signed_commitment s) (dt_received_shares s)
    (dt_pending_shares s) (dt_peer_no_progress s) pending audit (dt_reporting s) (dt_relays s).

Definition set_node (n : DKGNode F G) (s : state) : state :=
  let x := dt_session s in
  set_session (MkDkgSessionState (kind x) (phase x) n (received_hashes x) (own_hash_broadcast_complete x)
    (commitments_received x) (shares_received x) (selected_dealers x)) s.
End Fields.

(** ** What the evidence binds *)

Section Evidence.
Context {F G S P : Type} {SF : ScalarField F} {CG : CurveGroup F G} {BL : Blst F G S P} {SHA : Sha2}.
Context {HX : Hex} {EC : Ecdsa} {SJ : StateJson} {St Post : Type} {LS : LocalStorage St} {BP : BulletinPosts Post}.
Context (app : DkgApp St Post).
Abbreviation state := (DkgAttempt F G).
Abbreviation node_method := (method state DkgError).

(** The session keeps the new committee of a reshare in sorted order. *)
Definition init_kind (k : SessionKind) : SessionKind :=
  match k with
  | KReshare ring_pk_hex new_peer_node_keys new_threshold bulletin_post_id =>
      KReshare ring_pk_hex (sort_strings new_peer_node_keys) new_threshold bulletin_post_id
  | KResharePet ring_id new_peer_node_keys new_threshold => KResharePet ring_id (sort_strings new_peer_node_keys) new_threshold
  | _ => k
  end.

Definition receiver_node_keys_of (s : state) : list bytes :=
  match kind (dt_session s) with
  | KFresh | KFreshPet _ => []
  | KRefresh _ | KRefreshPet _ => dt_peer_node_keys s
  | KReshare _ new_peer_node_keys _ _ | KResharePet _ new_peer_node_keys _ => new_peer_node_keys
  end.

(** The protocol and the ring of a session; a fresh DKG has no evidence. *)
Definition evidence_origin (s : state) : option (bytes * bytes) :=
  match kind (dt_session s) with
  | KFresh | KFreshPet _ => None
  | KRefresh _ | KRefreshPet _ => Some (bstr "pss_refresh", dt_ring_id s)
  | KReshare _ _ _ bulletin_post_id =>
      Some (bstr "pss_reshare", if bool_decide (dt_ring_id s = []) then bulletin_post_id else dt_ring_id s)
  | KResharePet _ _ _ => Some (bstr "pss_reshare", dt_ring_id s)
  end.

Definition evidence_binding : node_method (option DkgReportEvidenceBinding) :=
  let! s := m_get in
  match dt_report_evidence_binding s, evidence_origin s with
  | Some cached, _ => m_ret (Some cached)
  | None, None => m_ret None
  | None, Some (origin_protocol, ring_id) =>
      m_lift (reject (bool_decide (ring_id = []))
        (DkgInvalidState "PSS DKG report evidence requires an authoritative ring ID")) ;!
      let! ring_post := m_lift (ok_or (dk_read_ring app ring_id) (DkgBulletin "{}")) in
      let! ring := m_lift (ok_or (RingPayload_try_from ring_post) (DkgDeserialization "{}")) in
      let binding := MkDkgReportEvidenceBinding ring_id (ring_pk ring) (ring_state_sha256 ring) (dk_chain_id app)
        (dt_protocol_version s) (bstr (pretty (Z.to_N (dt_session_id s)))) origin_protocol (Bulletin.peer_node_keys ring)
        (receiver_node_keys_of s) in
      m_modify (set_evidence (Some binding) (dt_local_signed_commitment s)) ;!
      m_ret (Some binding)
  end.

Definition read_node_signing_key_hex : dkg_result bytes :=
  let? stored := map_err (get_encrypted (dk_storage app) NodeSigningKey) (DkgStorage "Failed to read node signing key: {error}") in
  let? signing_key := ok_or stored (DkgStorage "Node signing key is not configured") in
  reject (negb (utf8_valid signing_key)) (DkgStorage "Stored node signing key is not UTF-8: {error}") ;?
  Ok signing_key.

Definition evidence_build_context : node_method (option DkgEvidenceBuildContext) :=
  let! binding := evidence_binding in
  match binding with
  | None => m_ret None
  | Some binding =>
      let! signing_key_hex := m_lift read_node_signing_key_hex in
      let! s := m_get in
      m_ret (Some (MkDkgEvidenceBuildContext binding signing_key_hex (dt_session_nonce s) (dt_attempt_id s)))
  end.

Definition sign_statement_with_key (signing_key_hex message : bytes) : dkg_result bytes :=
  map_err (sign_node_message_with_hex_key signing_key_hex message) (DkgCrypto "Failed to sign DKG evidence: {error}").

Definition now_unix_secs : dkg_result Z := ok_or (dk_now app) (DkgGeneric "Failed to get unix timestamp: {error}").

(** ** What a dealer signs *)

Definition build_commitment_evidence_with_context (context : DkgEvidenceBuildContext) (from_node_id : Z) (commitment : bytes) :
    dkg_result SignedDkgCommitment :=
  let binding := bc_binding context in
  let? signed_at := now_unix_secs in
  let statement := MkDkgCommitmentStatement DKG_COMMITMENT_DOMAIN (bd_chain_id binding) (bd_ring_id binding) (bd_ring_pk binding)
    (bd_ring_state_sha256 binding) (bd_protocol_version binding) (bd_request_id binding) signed_at (dk_node_key app)
    (bd_origin_protocol binding) Current Current from_node_id commitment (bc_session_nonce context) (bc_attempt_id context)
    DKG_NAME in
  let? signature := sign_statement_with_key (bc_signing_key_hex context) (DkgCommitmentStatement_canonical_bytes statement) in
  Ok (MkSignedDkgCommitment statement signature).

Definition build_and_store_commitment_evidence_with_context (context : DkgEvidenceBuildContext) (from_node_id : Z)
    (commitment : bytes) : node_method SignedDkgCommitment :=
  let! report_evidence := m_lift (build_commitment_evidence_with_context context from_node_id commitment) in
  let! s := m_get in
  m_modify (set_evidence (dt_report_evidence_binding s) (Some report_evidence)) ;!
  m_ret report_evidence.

Definition build_and_store_commitment_evidence (from_node_id : Z) (commitment : bytes) : node_method (option SignedDkgCommitment) :=
  let! context := evidence_build_context in
  match context with
  | None => m_ret None
  | Some context =>
      let! report_evidence := build_and_store_commitment_evidence_with_context context from_node_id commitment in
      m_ret (Some report_evidence)
  end.

Definition build_share_evidence_with_context (context : DkgEvidenceBuildContext) (from_node_id to_node_id : Z)
    (share_value nonce : bytes) (commitment_evidence : SignedDkgCommitment) : dkg_result SignedDkgShare :=
  let binding := bc_binding context in
  let? receiver_node_key := ok_or (receiver_key (bd_receiver_node_keys binding) to_node_id)
    (DkgInvalidState "DKG share to_node_id {} is outside the receiver committee") in
  let? signed_at := now_unix_secs in
  let statement := MkDkgShareStatement DKG_SHARE_DOMAIN (bd_chain_id binding) (bd_ring_id binding) (bd_ring_pk binding)
    (bd_ring_state_sha256 binding) (bd_protocol_version binding) (bd_request_id binding) signed_at (dk_node_key app)
    receiver_node_key (bd_origin_protocol binding) Current Current from_node_id to_node_id (sc_statement commitment_evidence)
    (sc_signature commitment_evidence) share_value nonce DKG_NAME in
  let? signature := sign_statement_with_key (bc_signing_key_hex context) (DkgShareStatement_canonical_bytes statement) in
  Ok (MkSignedDkgShare statement signature).

(** ** The first and the second phase *)

Definition is_fresh_kind (k : SessionKind) : bool := match k with KFresh | KFreshPet _ => true | _ => false end.

Definition is_reshare_kind (k : SessionKind) : bool :=
  match k with KReshare _ _ _ _ | KResharePet _ _ _ => true | _ => false end.

(** The mode of the session's polynomial; the old share leaves the session. *)
Definition take_mode : node_method (DkgMode F) :=
  let! s := m_get in
  match kind (dt_session s) with
  | KFresh | KFreshPet _ => m_ret Fresh
  | KRefresh _ | KRefreshPet _ => m_ret Refresh
  | KReshare _ _ _ _ | KResharePet _ _ _ =>
      let! p := m_lift (ok_or (dt_reshare_params s) (DkgGeneric "Reshare session is missing reshare_params — this is a bug")) in
      let! old_share := m_lift (ok_or (rp_old_share p) (DkgGeneric "Reshare: Receiver nodes cannot generate a polynomial")) in
      m_modify (set_reshare_params (Some (MkReshareParams None (rp_participating_ids p) (rp_new_threshold p)
        (rp_new_total_nodes p) (rp_new_node_id p)))) ;!
      m_ret (Reshare old_share (rp_participating_ids p) (rp_new_threshold p) (rp_new_total_nodes p) (rp_new_node_id p))
  end.

(** [generate_polynomial] of the session. *)
Definition session_generate_polynomial (rng : Rng F) : node_method (Rng F) :=
  let! mode := take_mode in
  let! s := m_get in
  let '(r, n) := generate_polynomial mode rng (node (dt_session s)) in
  m_modify (set_node n) ;!
  m_lift (map_err r (DkgCrypto "Failed to generate polynomial: {}")).

Definition ensure_polynomial (rng : Rng F) : node_method (Rng F) :=
  let! s := m_get in
  if bool_decide (coefficients (commitment (node (dt_session s))) = []) then session_generate_polynomial rng else m_ret rng.

Definition phase1_over (s : state) : bool :=
  bool_decide (phase (dt_session s) = Phase2Shares \/ phase (dt_session s) = Phase4Completing
               \/ phase (dt_session s) = Phase4Complete).

(** The commitment a dealer publishes, with the evidence; [None] when the call
    is ignored.  The second phase of a reshare follows at once. *)
Definition initiate_phase1_commitments (rng : Rng F) : node_method (option (bytes * option SignedDkgCommitment) * Rng F) :=
  let! s := m_get in
  if phase1_over s || (is_reshare_kind (kind (dt_session s)) && bool_decide (role (node (dt_session s)) = Receiver))
  then m_ret (None, rng)
  else
    m_lift (reject (is_fresh_kind (kind (dt_session s)) &&
        bool_decide (phase (dt_session s) = Initializing \/ phase (dt_session s) = Phase0CommitmentHashes))
      (DkgProtocolError "Fresh DKG commitments can only be revealed after commitment hashes are complete")) ;!
    let! rng := ensure_polynomial rng in
    let! s := m_get in
    let commitment_bytes := serialize_commitment_coefficients (coefficients (commitment (node (dt_session s)))) in
    m_modify (fun s => set_session (update_phase_for_attempt Phase1Commitments (dt_session s)) s) ;!
    let! report_evidence := build_and_store_commitment_evidence (id (node (dt_session s))) commitment_bytes in
    m_ret (Some (commitment_bytes, report_evidence), rng).

Record ShareDelivery := MkShareDelivery {
  dl_to : Z;
  dl_target_peer_id : bytes;
  dl_share_value : bytes;
  dl_nonce : bytes;
  dl_evidence : option SignedDkgShare;
}.

(** Whether a share stays with its dealer. *)
Definition own_share (s : state) (share : DistributedShare F) : bool :=
  if is_reshare_kind (kind (dt_session s)) then bool_decide (Some (to_id share) = dt_reshare_params s ≫= rp_new_node_id)
  else to_id share =? id (node (dt_session s)).

Definition share_route (s : state) (to : Z) : option bytes :=
  if is_reshare_kind (kind (dt_session s))
  then match dt_reshare_params s with Some _ => dt_reshare_new_node_id_to_peer_id s !! to | None => None end
  else dt_node_id_to_peer_id s !! to.

Fixpoint outgoing_shares (s : state) (evidence : option (DkgEvidenceBuildContext * SignedDkgCommitment))
    (shares : list (DistributedShare F)) : dkg_result (list ShareDelivery) :=
  match shares with
  | [] => Ok []
  | share :: shares =>
      if own_share s share then outgoing_shares s evidence shares
      else
        let? target_peer_id := ok_or (share_route s (to_id share))
          (DkgProtocolError "Missing peer mapping for node_id {}; refusing to route private share") in
        let share_value := fr_serialize (value share) in
        let? report_evidence := match evidence with
          | Some (context, commitment_evidence) =>
              let? e := build_share_evidence_with_context context (id (node (dt_session s))) (to_id share) share_value
                (nonce share) commitment_evidence in
              Ok (Some e)
          | None => Ok None
          end in
        let? rest := outgoing_shares s evidence shares in
        Ok (MkShareDelivery (to_id share) target_peer_id share_value (nonce share) report_evidence :: rest)
  end.

Definition stored_or_built (stored : option SignedDkgCommitment) (evidence_context : option DkgEvidenceBuildContext)
    (from_node_id : Z) (commitment_bytes : bytes) : node_method (option SignedDkgCommitment) :=
  match stored, evidence_context with
  | Some evidence, _ => m_ret (Some evidence)
  | None, Some context =>
      let! e := build_and_store_commitment_evidence_with_context context from_node_id commitment_bytes in
      m_ret (Some e)
  | None, None => m_ret None
  end.

(** The shares a dealer sends, with the evidence; the exchange follows. *)
Definition initiate_phase2_shares (peer_ids : list bytes) (rng : Rng F) : node_method (list ShareDelivery * Rng F) :=
  let! rng := ensure_polynomial rng in
  let! s := m_get in
  let! '(shares, rng) := m_lift (map_err (generate_shares (node (dt_session s)) rng) (DkgCrypto "Failed to generate shares: {}")) in
  let commitment_bytes := serialize_commitment_coefficients (coefficients (commitment (node (dt_session s)))) in
  m_modify (fun s => set_session (update_phase_for_attempt Phase2Shares (dt_session s)) s) ;!
  let! evidence_context := evidence_build_context in
  let! commitment_evidence := stored_or_built (dt_local_signed_commitment s) evidence_context (id (node (dt_session s)))
    commitment_bytes in
  (if bool_decide (peer_ids = [])
   then m_modify abort_attempt ;! m_lift (Err (DkgInsufficientPeers 0 0 (threshold (node (dt_session s)))))
   else m_ret tt) ;!
  m_lift (reject (negb (dt_activated s)) (DkgProtocolError "private shares generated before transport attempt activation")) ;!
  let evidence := context ← evidence_context; commitment ← commitment_evidence; Some (context, commitment) in
  let! outgoing := m_lift (outgoing_shares s evidence shares) in
  m_ret (outgoing, rng).

(** ** What a receiver checks *)

Definition validate_commitment_statement (binding : DkgReportEvidenceBinding) (from_node_id : Z) (commitment : bytes)
    (statement : DkgCommitmentStatement) : dkg_result unit :=
  reject (negb (bool_decide (dc_domain statement = DKG_COMMITMENT_DOMAIN))
          || negb (bool_decide (dc_chain_id statement = bd_chain_id binding))
          || negb (bool_decide (dc_ring_id statement = bd_ring_id binding))
          || negb (bool_decide (dc_ring_pk statement = bd_ring_pk binding))
          || negb (bool_decide (dc_ring_state_sha256 statement = bd_ring_state_sha256 binding))
          || negb (dc_protocol_version statement =? bd_protocol_version binding)
          || negb (bool_decide (dc_request_id statement = bd_request_id binding))
          || negb (bool_decide (dc_origin_protocol statement = bd_origin_protocol binding))
          || negb (bool_decide (dc_accused_committee_scope statement = Current))
          || negb (bool_decide (dc_signing_committee_scope statement = Current))
          || negb (dc_from_node_id statement =? from_node_id)
          || negb (bool_decide (dc_commitment statement = commitment))
          || negb (bool_decide (dc_crypto_backend statement = DKG_NAME)))
    (DkgUnauthorized "DKG commitment evidence does not match this session") ;?
  reject (bool_decide (trim (dc_responder_node_key statement) = []))
    (DkgUnauthorized "DKG commitment evidence responder cannot be empty") ;?
  let? expected_responder_node_key :=
    ok_or (node_key_for_canonical_node_id from_node_id (bd_current_node_keys binding))
      (DkgUnauthorized "DKG commitment from_node_id {from_node_id} is outside the current committee") in
  reject (negb (bool_decide (dc_responder_node_key statement = expected_responder_node_key)))
    (DkgUnauthorized "DKG commitment evidence responder does not match from_node_id").

Definition validate_share_statement (binding : DkgReportEvidenceBinding) (from_node_id to_node_id : Z)
    (share_value nonce : bytes) (statement : DkgShareStatement) : dkg_result unit :=
  reject (negb (bool_decide (ds_domain statement = DKG_SHARE_DOMAIN))
          || negb (bool_decide (ds_chain_id statement = bd_chain_id binding))
          || negb (bool_decide (ds_ring_id statement = bd_ring_id binding))
          || negb (bool_decide (ds_ring_pk statement = bd_ring_pk binding))
          || negb (bool_decide (ds_ring_state_sha256 statement = bd_ring_state_sha256 binding))
          || negb (ds_protocol_version statement =? bd_protocol_version binding)
          || negb (bool_decide (ds_request_id statement = bd_request_id binding))
          || negb (bool_decide (ds_origin_protocol statement = bd_origin_protocol binding))
          || negb (bool_decide (ds_accused_committee_scope statement = Current))
          || negb (bool_decide (ds_signing_committee_scope statement = Current))
          || negb (ds_from_node_id statement =? from_node_id)
          || negb (ds_to_node_id statement =? to_node_id)
          || negb (bool_decide (ds_share_value statement = share_value))
          || negb (bool_decide (ds_nonce statement = nonce))
          || negb (bool_decide (ds_crypto_backend statement = DKG_NAME)))
    (DkgUnauthorized "DKG share evidence does not match this session") ;?
  let? receiver_node_key := ok_or (receiver_key (bd_receiver_node_keys binding) to_node_id)
    (DkgUnauthorized "DKG share to_node_id {} is outside the receiver committee") in
  reject (negb (bool_decide (ds_receiver_node_key statement = receiver_node_key)))
    (DkgUnauthorized "DKG share evidence receiver does not match to_node_id") ;?
  let commitment := ds_commitment_statement statement in
  validate_commitment_statement binding from_node_id (dc_commitment commitment) commitment ;?
  reject (negb (bool_decide (dc_responder_node_key commitment = ds_responder_node_key statement))
          || (ds_signed_at statement <? dc_signed_at commitment))
    (DkgUnauthorized "DKG share evidence has invalid nested commitment binding").

Definition verify_commitment_evidence (from_node_id : Z) (commitment : bytes) (evidence : option SignedDkgCommitment) :
    node_method (option SignedDkgCommitment) :=
  let! binding := evidence_binding in
  match binding with
  | None => m_ret None
  | Some binding =>
      let! evidence := m_lift (ok_or evidence (DkgUnauthorized "PSS DKG commitment is missing signed report evidence")) in
      m_lift (validate_commitment_statement binding from_node_id commitment (sc_statement evidence)) ;!
      m_lift (map_err (verify_node_message (dc_responder_node_key (sc_statement evidence))
        (DkgCommitmentStatement_canonical_bytes (sc_statement evidence)) (sc_signature evidence))
        (DkgUnauthorized "invalid DKG commitment evidence signature: {error}")) ;!
      m_ret (Some evidence)
  end.

Definition verify_share_evidence (from_node_id to_node_id : Z) (share_value nonce : bytes) (evidence : option SignedDkgShare) :
    node_method (option SignedDkgShare) :=
  let! binding := evidence_binding in
  match binding with
  | None => m_ret None
  | Some binding =>
      let! evidence := m_lift (ok_or evidence (DkgUnauthorized "PSS DKG share is missing signed report evidence")) in
      let statement := ss_statement evidence in
      m_lift (validate_share_statement binding from_node_id to_node_id share_value nonce statement) ;!
      m_lift (map_err (verify_node_message (ds_responder_node_key statement)
        (DkgCommitmentStatement_canonical_bytes (ds_commitment_statement statement)) (ds_commitment_signature statement))
        (DkgUnauthorized "invalid nested DKG commitment signature: {error}")) ;!
      m_lift (map_err (verify_node_message (ds_responder_node_key statement) (DkgShareStatement_canonical_bytes statement)
        (ss_signature evidence)) (DkgUnauthorized "invalid DKG share evidence signature: {error}")) ;!
      m_ret (Some evidence)
  end.

Definition share_evidence_proves_failure (evidence : SignedDkgShare) : bool :=
  match deserialize_wire_commitment (F:=F) (G:=G) (dc_commitment (ds_commitment_statement (ss_statement evidence))),
        Fr_from_bytes (F:=F) (ds_share_value (ss_statement evidence)) with
  | Ok commitment, Ok share_value => negb (Common.verify_share commitment (ds_to_node_id (ss_statement evidence)) share_value)
  | _, _ => true
  end.

Definition commitments_prove_equivocation (commitment_a commitment_b : SignedDkgCommitment) : bool :=
  proves_equivocation_with (sc_statement commitment_a) (sc_statement commitment_b).

(** ** Reports *)

Definition local_node_is_current_route_member (s : state) : bool :=
  let local_peer_hex := hex_encode (dk_local_peer_id app) in
  existsb (fun e : Z * bytes => bool_decide (extract_node_part e.2 = local_peer_hex)) (map_to_list (dt_node_id_to_peer_id s)).

Definition verify_relay_is_current_signer (s : state) : dkg_result unit :=
  reject (negb (local_node_is_current_route_member s)) (DkgUnauthorized "local node is not a current committee report signer").

Definition dkg_read_node_info (node_key : bytes) : dkg_result NodeInfo :=
  let? post := ok_or (dk_read_node app node_key) (DkgBulletin "{}") in
  ok_or (NodeInfo_try_from post) (DkgDeserialization "{}").

Definition dkg_queue_report (observation : ReportObservation) : node_method unit :=
  let! s := m_get in
  let (r, reporting) := queue_report observation (dt_reporting s) in
  m_modify (set_reports reporting (dt_relays s)) ;!
  let! _ := m_lift (map_err r (DkgGeneric "{}")) in
  m_ret tt.

(** The report of a dealer, anchored to the moment of [signed_at]; its route is
    the bulletin's. *)
Definition queue_dealer_report (ring_id accused_node_key : bytes) (signed_at : Z) (evidence : InvalidCryptoResponse) : node_method unit :=
  let! accused_info := m_lift (dkg_read_node_info accused_node_key) in
  dkg_queue_report (ObsInvalidCryptoResponse (MkInvalidCryptoResponseObservation ring_id accused_node_key
    (ni_peer_id accused_info) (u64_saturating_sub signed_at CHAIN_BLOCK_GRACE_SECS) evidence None None None)).

Definition queue_invalid_share_report (evidence : SignedDkgShare) : node_method unit :=
  let statement := ss_statement evidence in
  queue_dealer_report (ds_ring_id statement) (ds_responder_node_key statement) (ds_signed_at statement)
    (EvDkgShare statement (ss_signature evidence)).

Definition queue_invalid_refresh_commitment_report (commitment : SignedDkgCommitment) : node_method unit :=
  let statement := sc_statement commitment in
  queue_dealer_report (dc_ring_id statement) (dc_responder_node_key statement) (dc_signed_at statement)
    (EvDkgInvalidRefreshCommitment statement (sc_signature commitment)).

Definition queue_equivocation_report (commitment_a commitment_b : SignedDkgCommitment) : node_method unit :=
  let a := sc_statement commitment_a in
  queue_dealer_report (dc_ring_id a) (dc_responder_node_key a) (Z.max (dc_signed_at a) (dc_signed_at (sc_statement commitment_b)))
    (EvDkgEquivocation commitment_a commitment_b).

(** [spawn_evidence_relay]: the evidence goes to the current committee. *)
Definition spawn_evidence_relay (evidence : InvalidCryptoResponse) : node_method unit :=
  let! s := m_get in m_modify (set_reports (dt_reporting s) (dt_relays s ++ [evidence])).

Definition queue_or_relay (queue : node_method unit) (origin_protocol : bytes) (evidence : InvalidCryptoResponse) : node_method unit :=
  let! s := m_get in
  if local_node_is_current_route_member s then queue
  else if bool_decide (origin_protocol = bstr "pss_reshare") then spawn_evidence_relay evidence
  else m_lift (Err (DkgUnauthorized "local node is not in the report signing committee")).

Definition queue_or_relay_invalid_share (evidence : SignedDkgShare) : node_method unit :=
  queue_or_relay (queue_invalid_share_report evidence) (ds_origin_protocol (ss_statement evidence))
    (EvDkgShare (ss_statement evidence) (ss_signature evidence)).

Definition queue_or_relay_equivocation (commitment_a commitment_b : SignedDkgCommitment) : node_method unit :=
  queue_or_relay (queue_equivocation_report commitment_a commitment_b) (dc_origin_protocol (sc_statement commitment_a))
    (EvDkgEquivocation commitment_a commitment_b).

(** Relayed evidence is checked as if it had arrived with its message. *)
Definition handle_invalid_share_evidence_relay (report_evidence : SignedDkgShare) : node_method unit :=
  let statement := ss_statement report_evidence in
  m_lift (reject (negb (bool_decide (ds_origin_protocol statement = bstr "pss_reshare")))
    (DkgUnauthorized "DKG bad-share evidence relay is only valid for reshare")) ;!
  let! s := m_get in
  m_lift (verify_relay_is_current_signer s) ;!
  let! verified := verify_share_evidence (ds_from_node_id statement) (ds_to_node_id statement) (ds_share_value statement)
    (ds_nonce statement) (Some report_evidence) in
  let! verified := m_lift (ok_or verified
    (DkgUnauthorized "relayed DKG bad-share evidence is not valid for this session")) in
  m_lift (reject (negb (share_evidence_proves_failure verified))
    (DkgUnauthorized "relayed DKG share evidence does not prove a verification failure")) ;!
  queue_invalid_share_report verified.

Definition verify_relayed_commitment (commitment : SignedDkgCommitment) : node_method SignedDkgCommitment :=
  let! verified := verify_commitment_evidence (dc_from_node_id (sc_statement commitment)) (dc_commitment (sc_statement commitment))
    (Some commitment) in
  m_lift (ok_or verified (DkgUnauthorized "relayed DKG equivocation commitment is not valid for this session")).

Definition handle_invalid_commitment_evidence_relay (commitment_a commitment_b : SignedDkgCommitment) : node_method unit :=
  m_lift (reject (negb (bool_decide (dc_origin_protocol (sc_statement commitment_a) = bstr "pss_reshare")))
    (DkgUnauthorized "DKG equivocation evidence relay is only valid for reshare")) ;!
  let! s := m_get in
  m_lift (verify_relay_is_current_signer s) ;!
  let! verified_a := verify_relayed_commitment commitment_a in
  let! verified_b := verify_relayed_commitment commitment_b in
  m_lift (reject (negb (commitments_prove_equivocation verified_a verified_b))
    (DkgUnauthorized "relayed DKG commitments do not prove equivocation")) ;!
  queue_equivocation_report verified_a verified_b.

(** ** Shares *)

(** An error of the report is logged and dropped. *)
Definition best_effort (m : node_method unit) : node_method unit := fun s => (Ok tt, (m s).2).

(** A share that the signed evidence refutes is reported and refused; another
    refusal is an error. *)
Definition refuse_share {A} (report_evidence : option SignedDkgShare) (refused : A) (error : DkgError) : node_method A :=
  match report_evidence with
  | Some evidence =>
      if share_evidence_proves_failure evidence then
        best_effort (queue_or_relay_invalid_share evidence) ;!
        m_ret refused
      else m_lift (Err error)
  | None => m_lift (Err error)
  end.

Definition try_receive_share (share : DistributedShare F) : node_method (res CryptoError unit) := fun s =>
  let '(r, n) := receive_share share (node (dt_session s)) in (Ok r, set_node n s).

Definition record_received_share_for_attempt (dealer_id : Z) (s : state) : state :=
  let x := dt_session s in
  let x := if bool_decide (dealer_id ∈ dt_received_shares s) then x
           else MkDkgSessionState (kind x) (phase x) (node x) (received_hashes x) (own_hash_broadcast_complete x)
                  (commitments_received x) (shares_received x + 1) (selected_dealers x) in
  set_shares ({[dealer_id]} ∪ dt_received_shares s) (dt_pending_shares s) (dt_peer_no_progress s ∖ {[dealer_id]}) (set_session x s).

Definition store_pending_share_for_attempt (share : DistributedShare F) (report_evidence : option SignedDkgShare) (s : state) : state :=
  if bool_decide (is_Some (dt_pending_shares s !! from_id share)) then s
  else set_shares (dt_received_shares s) (<[from_id share := MkPendingDkgShare share report_evidence]> (dt_pending_shares s))
         (dt_peer_no_progress s) s.

Definition our_share_id (s : state) : dkg_result Z :=
  match dt_reshare_params s with
  | Some params => ok_or (rp_new_node_id params) (DkgShareVerificationFailed
      "Reshare share received but this node is a pure Dealer with no new-committee assignment")
  | None => Ok (id (node (dt_session s)))
  end.

Definition ignore_unselected_reshare_share (s : state) (from_node_id : Z) : bool :=
  match kind (dt_session s), selected_dealers (dt_session s) with
  | KReshare _ _ _ _, Some selected => negb (bool_decide (from_node_id ∈ selected))
  | _, _ => false
  end.

Definition is_commitment_missing (r : res CryptoError unit) (from_node_id : Z) : bool :=
  match r with Err (CommitmentMissing missing_node_id) => missing_node_id =? from_node_id | _ => false end.

(** Whether the share was accepted; the ceremony is driven afterwards. *)
Definition accept_share_message (from_node_id to_node_id : Z) (share_value nonce : bytes) (report_evidence : option SignedDkgShare) :
    node_method bool :=
  let! s := m_get in
  let! our_node_id := m_lift (our_share_id s) in
  m_lift (reject (negb (to_node_id =? our_node_id)) (DkgShareVerificationFailed "Share intended for node {}, but we are node {}")) ;!
  if ignore_unselected_reshare_share s from_node_id then m_ret false
  else
    match Fr_from_bytes (F:=F) share_value with
    | Ok share_val =>
        let share := MkDistributedShare from_node_id to_node_id share_val nonce (dt_session_id s) in
        let! report_evidence := verify_share_evidence from_node_id to_node_id share_value nonce report_evidence in
        let! received := try_receive_share share in
        match received with
        | Ok tt => m_modify (record_received_share_for_attempt from_node_id) ;! m_ret true
        | _ =>
            if is_commitment_missing received from_node_id
            then m_modify (store_pending_share_for_attempt share report_evidence) ;! m_ret false
            else refuse_share report_evidence false (DkgShareVerificationFailed "Failed to receive share: {}")
        end
    | _ =>
        let! report_evidence := verify_share_evidence from_node_id to_node_id share_value nonce report_evidence in
        refuse_share report_evidence false (DkgDeserialization "Failed to deserialize share value: {}")
    end.

(** A share that waited for its commitment. *)
Definition receive_and_record_share (share : DistributedShare F) (report_evidence : option SignedDkgShare) : node_method unit :=
  let! received := try_receive_share share in
  match received with
  | Ok tt => m_modify (record_received_share_for_attempt (from_id share))
  | _ => refuse_share report_evidence tt (DkgShareVerificationFailed "Failed to receive share: {}")
  end.

(** ** Commitments *)

Inductive PreparedCommitment : Type :=
  | WaitingForHash
  | Ready (polynomial_commitment : PolynomialCommitment G) (verified_evidence : option SignedDkgCommitment)
      (is_fresh is_reshare : bool).

Definition expected_commitment_size (s : state) : Z :=
  match dt_reshare_params s with Some p => rp_new_threshold p | None => threshold (node (dt_session s)) end.

Definition report_invalid_refresh_commitment (is_refresh : bool) (verified_evidence : option SignedDkgCommitment) : node_method unit :=
  match verified_evidence with
  | Some evidence => if is_refresh then best_effort (queue_invalid_refresh_commitment_report evidence) else m_ret tt
  | None => m_ret tt
  end.

Definition session_kinds (k : SessionKind) : bool * bool * bool :=
  match k with
  | KFresh | KFreshPet _ => (true, false, false)
  | KRefresh _ | KRefreshPet _ => (false, true, false)
  | KReshare _ _ _ _ | KResharePet _ _ _ => (false, false, true)
  end.

Definition DKG_COMMITMENT_HASH_DOMAIN : bytes := bstr "orbis-dkg-commitment-hash-v1".
Definition MAX_COMMITMENT_COEFFICIENTS : nat := 256.

Definition fresh_commitment_hash (session_id from_node_id : Z) (commitment_bytes : bytes) : bytes :=
  sha256 (DKG_COMMITMENT_HASH_DOMAIN ++ to_le_bytes 16 session_id ++ to_le_bytes 4 from_node_id ++ commitment_bytes).

(** A fresh commitment is compared with the hash its dealer published before. *)
Definition check_fresh_hash (s : state) (from_node_id : Z) (commitment : bytes) (expected_hash : option bytes) : dkg_result unit :=
  match expected_hash with
  | Some expected_hash =>
      reject (negb (bool_decide (fresh_commitment_hash (dt_session_id s) from_node_id commitment = expected_hash)))
        (DkgCommitmentVerificationFailed "Fresh commitment from node {} does not match its commitment hash")
  | None => Ok tt
  end.

Definition prepare_commitment_message (from_node_id : Z) (commitment : bytes) (report_evidence : option SignedDkgCommitment)
    (expected_hash_override : option bytes) : node_method PreparedCommitment :=
  m_lift (reject (bool_decide (commitment = [])) (DkgCommitmentVerificationFailed "Commitment cannot be empty")) ;!
  m_lift (reject (negb (length commitment mod g_size (G:=G) =? 0)%nat) (DkgCommitmentVerificationFailed
    "Invalid commitment length: {} bytes is not a multiple of {} (G1 compressed size)")) ;!
  let num_coefficients := (length commitment / g_size (G:=G))%nat in
  m_lift (reject (MAX_COMMITMENT_COEFFICIENTS <? num_coefficients)%nat (DkgCommitmentVerificationFailed
    "Too many commitment coefficients: {} exceeds maximum {}")) ;!
  let! s := m_get in
  let '(is_fresh, is_refresh, is_reshare) := session_kinds (kind (dt_session s)) in
  let expected_hash := match expected_hash_override with
                       | Some h => Some h
                       | None => received_hashes (dt_session s) !! from_node_id
                       end in
  m_lift (reject (negb (Z.of_nat num_coefficients =? expected_commitment_size s)) (DkgCommitmentVerificationFailed
    "Invalid number of commitment coefficients: got {}, expected {}")) ;!
  (if is_fresh then m_lift (check_fresh_hash s from_node_id commitment expected_hash) else m_ret tt) ;!
  let! verified_evidence := verify_commitment_evidence from_node_id commitment report_evidence in
  match res_mapM (G1Affine_from_bytes (F:=F) (G:=G)) (as_chunks (g_size (G:=G)) num_coefficients commitment) with
  | Ok commitment_coeffs =>
      let polynomial_commitment := MkPolynomialCommitment commitment_coeffs in
      if is_refresh && negb (constant_term_is_identity polynomial_commitment) then
        report_invalid_refresh_commitment is_refresh verified_evidence ;!
        m_lift (Err (DkgCommitmentVerificationFailed
          "Refresh commitment from node {} has a non-identity constant term (a nonzero delta at x=0 would shift the ring key)"))
      else
        m_lift (map_err (receive_commitment from_node_id polynomial_commitment (node (dt_session s))).1
          (DkgCrypto "Failed to receive commitment: {}")) ;!
        m_ret (if is_fresh && negb (bool_decide (is_Some expected_hash)) then WaitingForHash
               else Ready polynomial_commitment verified_evidence is_fresh is_reshare)
  | _ =>
      report_invalid_refresh_commitment is_refresh verified_evidence ;!
      m_lift (Err (DkgDeserialization "Failed to deserialize commitment coefficient {}: {}"))
  end.

(** The commitment of a prepared message enters the node and the audit. *)
Definition record_commitment (from_node_id : Z) (polynomial_commitment : PolynomialCommitment G)
    (verified_evidence : option SignedDkgCommitment) (is_fresh : bool) : node_method bool :=
  let! s := m_get in
  let n := node (dt_session s) in
  let generates_polynomial := negb (bool_decide (role n = Receiver)) in
  let local_commitment_empty := bool_decide (coefficients (commitment n) = []) in
  m_lift (reject (is_fresh && generates_polynomial && local_commitment_empty)
    (DkgProtocolError "Fresh commitment arrived before local commitment hash was prepared")) ;!
  let '(r, n') := receive_commitment from_node_id polynomial_commitment n in
  m_modify (set_node n') ;!
  m_lift (map_err r (DkgCrypto "Failed to receive commitment: {}")) ;!
  m_modify (fun s => let x := dt_session s in
    set_session (MkDkgSessionState (kind x) (phase x) (node x) (received_hashes x) (own_hash_broadcast_complete x)
      (commitments_received x + 1) (shares_received x) (selected_dealers x)) s) ;!
  m_modify (fun s => match verified_evidence with
    | Some evidence => set_commitments (dt_pending_commitments s) (<[from_node_id := evidence]> (dt_audit_commitments s)) s
    | None => s
    end) ;!
  m_ret (negb is_fresh && generates_polynomial && local_commitment_empty).

(** Whether the node has to deal now; a fresh commitment may wait for its hash. *)
Definition apply_commitment_message (from_node_id : Z) (commitment : bytes) (report_evidence : option SignedDkgCommitment) :
    node_method bool :=
  let! prepared := prepare_commitment_message from_node_id commitment report_evidence None in
  match prepared with
  | WaitingForHash =>
      m_modify (fun s =>
        if bool_decide (is_Some (dt_pending_commitments s !! from_node_id)) then s
        else set_commitments (<[from_node_id := (commitment, report_evidence)]> (dt_pending_commitments s)) (dt_audit_commitments s) s) ;!
      m_ret false
  | Ready polynomial_commitment verified_evidence is_fresh _ =>
      record_commitment from_node_id polynomial_commitment verified_evidence is_fresh
  end.

(** The share that waited for the commitment; its error is logged. *)
Definition replay_pending_share (from_node_id : Z) : node_method unit :=
  let! s := m_get in
  match dt_pending_shares s !! from_node_id with
  | Some pending =>
      m_modify (set_shares (dt_received_shares s) (delete from_node_id (dt_pending_shares s)) (dt_peer_no_progress s)) ;!
      best_effort (receive_and_record_share (pending_share pending) (pending_evidence pending))
  | None => m_ret tt
  end.
End Evidence.
