(* ===== verification/PetAdmission.v ===== *)
(** * Theorems on the PET responder and the admission gate

    What an accepted certificate and accepted decrypt responses establish, that
    an honest responder's messages are never turned into an accusation, and
    that the sender of a request is named by its connection. *)
From S2P Require Import Prelude Algebra Interpolation Primitives Toy Codec Common Dkg Context Sigma Shares Pet.
From S2P Require Import DkgSpec Feldman PetTheorems.
From S2P Require Import ReportCodec ReportPet Evidence Identity NodeState Envelope Auth Routes Bulletin RingState PetNode Reporting PetProtocol.

Section Admission.
Context {F G S P : Type} {SF : ScalarField F} {CG : CurveGroup F G} {BL : Blst F G S P} {SHA : Sha2}.
Context {HX : Hex} {EC : Ecdsa}.
Local Open Scope fr_scope.
Add Field FField : (f_theory (F:=F)).

(** ** False contributions *)

(** A reveal that passes its check although its points are not one multiple of
    [R] and [D]. *)
Definition false_reveal (ring : RingPayload) (tag : PetTag) (Y R D : G) (sr : PetBlindSignedReveal) : Prop :=
  let st := srv_statement sr in
  exists A B : G,
    verify_one_reveal (F:=F) st (srv_response_signature sr) ring tag Y (rv_commitment st) (rv_selection_digest st) = Verified (A, B) /\
    ~ exists z, A = R ⊙ z /\ B = D ⊙ z.

(** A decrypt response that passes its check for the aggregates [A] and [B] of
    the certificate, although its point is not [A] times the member's share. *)
Definition false_decrypt (ring : RingPayload) (cs : list F) (cert : PetBlindCertificate) (A B : G) (context : PetBlindContext)
    (sd : PetBlindSignedDecrypt) : Prop :=
  exists sh : PubShare G,
    verify_one_decrypt (F:=F) (sdy_statement sd) (sdy_response_signature sd) ring (MkPubPoly (commit_all cs))
      (PetBlindContext_context_digest context) (certificate_digest cert) (ce_attempt_id cert) (g_serialize A) (g_serialize B)
      context = Verified sh /\
    pub_v sh <> A ⊙ peval cs (from_u64 (pub_i sh)).

(** ** One contribution *)

Lemma verify_one_reveal_Ok st sig ring tag (Y A B : G) commitment selection :
  verify_one_reveal (F:=F) st sig ring tag Y commitment selection = Verified (A, B) ->
  exists (c f : F) digest,
    commitment = rv_commitment st /\ selection = rv_selection_digest st /\ in_subgroup A = true /\ g_serialize A = rv_blinded_r st /\ in_subgroup B = true /\
    g_serialize B = rv_blinded_diff st /\
    verify_blinding_correctness tag Y (MkBlindingReply A B c f) digest = Ok tt.
Proof.
  unfold verify_one_reveal. intros E. repeat case_match; try discriminate. injection E as -> ->.
  repeat match goal with H : negb (bool_decide _) = false |- _ => apply negb_false_iff, bool_decide_eq_true in H end.
  repeat match goal with H : G1Affine_from_bytes _ = Ok _ |- _ => apply G1_from_Ok in H as [? ?] end.
  match goal with H : verify_blinding_correctness _ _ _ _ = Ok ?u |- _ => destruct u end. eauto 10.
Qed.

Lemma reveal_or_false st sig ring tag (Y A B R T : G) commitment selection :
  verify_one_reveal (F:=F) st sig ring tag Y commitment selection = Verified (A, B) ->
  decode_group_element (ephemeral_point tag) = Ok R -> decode_group_element (masked_fingerprint tag) = Ok T ->
  (exists z, A = R ⊙ z /\ B = (T ⊖ Y) ⊙ z) \/ false_reveal ring tag Y R (T ⊖ Y) (MkPetBlindSignedReveal st sig).
Proof.
  intros Ho HR HT. destruct (verify_one_reveal_Ok _ _ _ _ _ _ _ _ _ Ho) as (_ & _ & _ & -> & -> & SA & _).
  apply decode_group_element_Ok in HR as (_ & ZR & SR). apply in_subgroup_spec in SA as [a ->], SR as [r ->].
  assert (r <> 0) as Hr by (intros ->; apply g_is_zero_false in ZR; apply ZR; by apply gen_zero_iff).
  destruct (decide (B = (T ⊖ Y) ⊙ (a / r))) as [->|Hne].
  - left. exists (a / r). split; [|done]. rewrite generator_mul. f_equal. field. done.
  - right. exists (generator ⊙ a), B. split; [done|]. intros (z & Ez & ->). apply Hne. f_equal.
    rewrite generator_mul in Ez. apply generator_inj in Ez. rewrite Ez. field. done.
Qed.

(** ** The certificate *)

(** Aggregates that are one multiple of [R] and [D]. *)
Definition same_multiple (R D : G) (acc : option (G * G)) : Prop :=
  match acc with None => True | Some (A, B) => exists z, A = R ⊙ z /\ B = D ⊙ z end.

Lemma accumulate_multiple (R D : G) acc A B A' B' :
  in_subgroup R = true -> in_subgroup D = true ->
  same_multiple R D acc -> (exists z, A = R ⊙ z /\ B = D ⊙ z) ->
  accumulate (fst <$> acc) A = Ok A' -> accumulate (snd <$> acc) B = Ok B' -> same_multiple R D (Some (A', B')).
Proof.
  intros [r ->]%in_subgroup_spec [d ->]%in_subgroup_spec Hacc (z & -> & ->) EA EB. destruct acc as [[A0 B0]|]; cbn in *.
  - destruct Hacc as (z0 & -> & ->). apply Ok_inj in EA as <-, EB as <-. exists (z0 + z).
    rewrite !generator_mul, !generator_add. split; f_equal; ring.
  - apply Ok_inj in EA as <-, EB as <-. by exists z.
Qed.

Lemma verify_reveals_sound cert ring tag (Y R T : G) context commitments selection seen acc l acc' :
  decode_group_element (ephemeral_point tag) = Ok R -> decode_group_element (masked_fingerprint tag) = Ok T ->
  in_subgroup Y = true ->
  verify_reveals (F:=F) cert ring tag Y context commitments selection seen acc l = Ok acc' ->
  same_multiple R (T ⊖ Y) acc ->
  same_multiple R (T ⊖ Y) acc' \/ Exists (false_reveal ring tag Y R (T ⊖ Y)) l.
Proof.
  intros HR HT HY. pose proof (proj1 (decode_group_element_Ok _ _) HR) as (_ & _ & SR).
  pose proof (proj1 (decode_group_element_Ok _ _) HT) as (_ & _ & ST).
  assert (in_subgroup (T ⊖ Y) = true) as SD by auto with orbis.
  revert seen acc. induction l as [|sr l IH]; intros seen acc E Hacc; cbn [verify_reveals] in E.
  - apply Ok_inj in E as <-. by left.
  - do 4 bind_ok E as ? _. bind_ok E as commitment _. bind_ok E as [A B] Hv. bind_ok E as A' HA. bind_ok E as B' HB.
    destruct (verify_one_reveal _ _ _ _ _ _ _) as [v|?|?] eqn:Ho; try discriminate. apply Ok_inj in Hv as ->.
    destruct (reveal_or_false _ _ _ _ _ _ _ _ _ _ _ Ho HR HT) as [Hz|Hf].
    + apply IH in E as [?|?]; [by left|right; by right|]. by eapply accumulate_multiple.
    + right. left. destruct sr. exact Hf.
Qed.

(** What a verified certificate says: its aggregates are one nonzero multiple of
    [R] and of [T - Y], unless one of its proofs is false. *)
Lemma certificate_sound cert ring tag (Y R T A B : G) context :
  decode_group_element (ephemeral_point tag) = Ok R -> decode_group_element (masked_fingerprint tag) = Ok T ->
  in_subgroup Y = true ->
  build_and_verify_pet_blind_certificate (F:=F) cert ring tag Y context = Ok (A, B) ->
  (exists z, z <> 0 /\ A = R ⊙ z /\ B = (T ⊖ Y) ⊙ z) \/ Exists (false_reveal ring tag Y R (T ⊖ Y)) (ce_reveals cert).
Proof.
  intros HR HT HY E. unfold build_and_verify_pet_blind_certificate in E.
  bind_ok E as pp _. do 3 bind_ok E as ? _. bind_ok E as cs _. bind_ok E as acc Hacc.
  bind_ok E as [A0 B0] Hs%ok_or_Ok. subst acc. bind_ok E as ? Hz%reject_Ok. apply Ok_inj in E. injection E as -> ->.
  destruct (verify_reveals_sound _ _ _ _ _ _ _ _ _ _ _ _ _ HR HT HY Hacc I) as [(z & -> & ->)|?]; [left|by right].
  apply g_is_zero_false in Hz. exists z. split_and!; try done. intros ->. apply Hz.
  apply decode_group_element_Ok in HR as (_ & _ & SR). by apply g_mul_zero.
Qed.

(** The aggregates are points of the group, and the first is not the identity. *)
Definition points_or_none (acc : option (G * G)) : Prop :=
  match acc with None => True | Some (A, B) => in_subgroup A = true /\ in_subgroup B = true end.

Lemma verify_reveals_points cert ring tag (Y : G) context commitments selection seen acc l acc' :
  verify_reveals (F:=F) cert ring tag Y context commitments selection seen acc l = Ok acc' ->
  points_or_none acc -> points_or_none acc'.
Proof.
  revert seen acc. induction l as [|sr l IH]; intros seen acc E Hacc; cbn [verify_reveals] in E.
  - by apply Ok_inj in E as <-.
  - do 4 bind_ok E as ? _. bind_ok E as commitment _. bind_ok E as [A B] Hv. bind_ok E as A' HA. bind_ok E as B' HB.
    destruct (verify_one_reveal _ _ _ _ _ _ _) as [v|?|?] eqn:Ho; try discriminate. apply Ok_inj in Hv as ->.
    apply verify_one_reveal_Ok in Ho as (c & f & digest & _ & _ & SA & _ & SB & _). apply IH in E; [done|].
    destruct acc as [[A0 B0]|]; cbn in *; apply Ok_inj in HA as <-, HB as <-; [|done]. destruct Hacc. auto with orbis.
Qed.

Lemma certificate_points cert ring tag (Y A B : G) context :
  build_and_verify_pet_blind_certificate (F:=F) cert ring tag Y context = Ok (A, B) ->
  in_subgroup A = true /\ in_subgroup B = true /\ g_is_zero A = false.
Proof.
  intros E. unfold build_and_verify_pet_blind_certificate in E.
  bind_ok E as pp _. do 3 bind_ok E as ? _. bind_ok E as cs _. bind_ok E as acc Hacc.
  bind_ok E as [A0 B0] Hs%ok_or_Ok. subst acc. bind_ok E as ? Hz%reject_Ok. apply Ok_inj in E. injection E as -> ->.
  apply verify_reveals_points in Hacc as [? ?]; done.
Qed.

(** A tag whose fields do not decode has no certificate. *)
Lemma certificate_decodes cert ring tag (Y A B : G) context :
  build_and_verify_pet_blind_certificate (F:=F) cert ring tag Y context = Ok (A, B) ->
  exists R T, decode_group_element (ephemeral_point tag) = Ok R /\
    decode_group_element (masked_fingerprint tag) = Ok (T : G).
Proof.
  intros E. unfold build_and_verify_pet_blind_certificate in E.
  bind_ok E as pp _. do 3 bind_ok E as ? _. bind_ok E as cs _. bind_ok E as acc Hacc. bind_ok E as [A0 B0] Hs%ok_or_Ok.
  subst acc. destruct (ce_reveals cert) as [|sr l]; [discriminate|]. cbn [verify_reveals] in Hacc.
  do 4 bind_ok Hacc as ? _. bind_ok Hacc as commitment _. bind_ok Hacc as [A1 B1] Hv.
  destruct (verify_one_reveal _ _ _ _ _ _ _) as [v|?|?] eqn:Ho; try discriminate. apply Ok_inj in Hv as ->.
  apply verify_one_reveal_Ok in Ho as (c & f & digest & _ & _ & _ & _ & _ & _ & V).
  apply verify_blinding_Ok in V as (R & T & HR & HT & _). eauto.
Qed.

(** ** The decrypt responses *)

Lemma verify_one_decrypt_Ok st sig ring (pp : PubPoly G) cd ce at_ ar ad context (sh : PubShare G) :
  verify_one_decrypt (F:=F) st sig ring pp cd ce at_ ar ad context = Verified sh ->
  exists (V : G) (c f : F),
    sh = MkPubShare (dy_from_node_id st) V /\ in_subgroup V = true /\ g_serialize V = dy_partial st /\
    verify_partial_pet_check pp (MkPetTag ar []) (MkPetCheckReply sh c f) = Ok tt.
Proof.
  unfold verify_one_decrypt. intros E. repeat case_match; try discriminate. injection E as <-.
  repeat match goal with H : G1Affine_from_bytes _ = Ok _ |- _ => apply G1_from_Ok in H as [? ?] end.
  match goal with H : verify_partial_pet_check _ _ _ = Ok ?u |- _ => destruct u end. eauto 10.
Qed.

Lemma verify_decrypts_sound ring (cs : list F) cert (A B : G) context seen l shares :
  verify_decrypts (F:=F) ring (MkPubPoly (commit_all cs)) (PetBlindContext_context_digest context) (certificate_digest cert)
    (ce_attempt_id cert) (g_serialize A) (g_serialize B) context seen l = Ok shares ->
  length shares = length l /\
  (Forall (fun sh => pub_v sh = A ⊙ peval cs (from_u64 (pub_i sh))) shares \/ Exists (false_decrypt ring cs cert A B context) l).
Proof.
  revert seen shares. induction l as [|sd l IH]; intros seen shares E; cbn [verify_decrypts] in E.
  - apply Ok_inj in E as <-. split; [done|by left; constructor].
  - bind_ok E as sh Hv%map_err_Ok. bind_ok E as ? _. bind_ok E as rest Hr. apply Ok_inj in E as <-.
    apply IH in Hr as [L Hr]. split; [cbn; by rewrite L|].
    destruct (verify_one_decrypt _ _ _ _ _ _ _ _ _ _) as [v|?|?] eqn:Ho; try discriminate. apply Ok_inj in Hv as ->.
    destruct (decide (pub_v sh = A ⊙ peval cs (from_u64 (pub_i sh)))) as [Heq|Hne].
    + destruct Hr as [?|?]; [left; by constructor|right; by right].
    + right. left. by exists sh.
Qed.

(** The polynomial of a matching bundle: subgroup points committing to a
    polynomial of as many coefficients as the threshold, with the ring's key. *)
Lemma match_bundle_Ok bundle expected t key (pp : PubPoly G) :
  match_bundle (F:=F) bundle expected t key = Ok pp ->
  PubPoly_from_bytes expected = Ok pp /\
  exists cs, commits pp = commit_all cs /\ Z.of_nat (length cs) = t /\
    hex_decode key = Some (g_serialize (generator (G:=G) ⊙ peval cs 0)).
Proof.
  unfold match_bundle. intros E. bind_ok E as ? _. bind_ok E as count Hc. bind_ok E as q Hq.
  bind_ok E as local _. bind_ok E as lc _. bind_ok E as ? _. bind_ok E as ? Hm%reject_Ok. apply Ok_inj in E as ->.
  apply orb_false_iff in Hm as [Ht%negb_false_iff%Z.eqb_eq _]. subst count.
  unfold decode_polynomial in Hq. rewrite Hc in Hq. cbn [res_bind] in Hq. bind_ok Hq as ? _.
  bind_ok Hq as q Hp%map_err_Ok. bind_ok Hq as canonical Hcan. bind_ok Hq as ? Hb%reject_Ok%negb_false_iff%bool_decide_eq_true.
  bind_ok Hq as kb Hkb%ok_or_Ok. bind_ok Hq as k Hk%map_err_Ok. bind_ok Hq as kc Hkc%map_err_Ok.
  bind_ok Hq as ? Hz%reject_Ok. apply Ok_inj in Hq as ->. apply orb_false_iff in Hz as [Hz He%negb_false_iff%bool_decide_eq_true].
  apply orb_false_iff in Hz as [_ Hkk%negb_false_iff%bool_decide_eq_true]. split; [done|].
  unfold PubPoly_from_bytes in Hp. bind_ok Hp as points Hpts. apply Ok_inj in Hp as <-.
  apply points_canonical in Hpts as [[Hsub Hu] Hto]. apply subgroup_list in Hsub as [cs ->].
  exists cs. fold (commit_all (G:=G) cs) in *. split_and!; [done| |].
  - unfold coefficient_count in Hc. bind_ok Hc as ? _. bind_ok Hc as ? _. apply Ok_inj in Hc as <-.
    unfold points_to_bytes in Hto. apply Ok_inj in Hto as <-. rewrite take_app_length' by (by rewrite length_to_le_bytes).
    rewrite commit_all_length in *. rewrite as_u32_small by done. by rewrite u32_bytes.
  - rewrite Hkb. f_equal. apply Ok_inj in Hkc as <-. rewrite <- Hkk, <- He. f_equal. unfold PubPoly_eval. cbn.
    by rewrite eval_points_commit, from_u64_zero.
Qed.

(** ** Admission *)

Lemma combine_pet_indices (shares : list (PubShare G)) t n X :
  (0 <= t)%Z -> combine_pet_check_shares (F:=F) shares t n = Ok X -> indices_ok n (take (Z.to_nat t) (pub_i <$> shares)).
Proof.
  unfold combine_pet_check_shares. intros H0 E. bind_ok E as ? Hl%reject_Ok%Z.ltb_ge.
  by eapply combine_shares_indices; [|exact E].
Qed.

Section App.
Context {DJ : DocumentJson} {PJ : PetJson} {AZ : Authz} {St Post : Type} {LS : LocalStorage St}.
Context {BP : BulletinPosts Post} (app : PetApp St Post).

(** What a verified request establishes: the document is the one its identifier
    names, and its tag has a proof of knowledge bound to the live ring's key and
    state, the policy and the ciphertext. *)
Definition request_facts (ctx : PetCheckContext) (tag : PetTag) (key digest : bytes) (live : RingPayload) : Prop :=
  let d := ctx_document ctx in
  read_ring_for_route (app_read_ring app (ring_id d)) RingPayload_try_from (app_ring_time app) (app_version app) = Ok live /\
  ring_state_sha256 live = ctx_ring_state_sha256 ctx /\ requires_pet live = true /\ pet_pk live = Some key /\
  check_document_id_binding (ctx_object_id ctx) d = Ok tt /\ pet_tag d ≫= PetTag_try_from = Some tag /\
  exists kb proof secret payload_proof cc, hex_decode key = Some kb /\
    pet_tag_proof d ≫= TagKnowledgeProof_try_from = Some proof /\ Secret_from_str (document d) = Some secret /\
    EncryptionProof_try_from (Bulletin.proof d) = Some payload_proof /\
    pet_build_ciphertext_context (ring_pk live) d (ctx_salt ctx) (Some key) = Ok cc /\
    digest = tag_proof_digest (ephemeral_point tag) (masked_fingerprint tag) kb (ring_id d) cc secret payload_proof /\
    verify_tag_knowledge (F:=F) (G:=G) tag proof digest = Ok tt.

Lemma verify_pet_check_request_Ok ctx tag key digest live :
  verify_pet_check_request (F:=F) (G:=G) app ctx = Ok (tag, key, digest, live) -> request_facts ctx tag key digest live.
Proof.
  unfold verify_pet_check_request, deserialize_secret. intros E. bind_ok E as rp Hrp%map_err_Ok. do 2 bind_ok E as ? _.
  bind_ok E as ? Hs%reject_Ok%negb_false_iff%bool_decide_eq_true. bind_ok E as ? Hr%reject_Ok%negb_false_iff.
  bind_ok E as [] Hid%map_err_Ok. bind_ok E as k Hk%ok_or_Ok. bind_ok E as kb Hkb%ok_or_Ok.
  bind_ok E as tj Htj%ok_or_Ok. bind_ok E as pj Hpj%ok_or_Ok. bind_ok E as tag' Ht%ok_or_Ok.
  bind_ok E as tp Htp%ok_or_Ok. bind_ok E as secret Hsec%ok_or_Ok. bind_ok E as pp Hpp%ok_or_Ok.
  bind_ok E as cc Hcc. bind_ok E as [] Hv%map_err_Ok. apply Ok_inj in E. injection E as -> -> <- ->.
  split_and!; try done; [by rewrite Htj|]. exists kb, tp, secret, pp, cc. rewrite Hpj. split_and!; done.
Qed.

(** The comparison: the tag's owner is the audit target under the committee's
    PET secret, or a proof that was accepted is false.  [cs] is the polynomial
    the certificate names, [A] and [B] are the aggregates of its reveals. *)
Definition owner_matches (tag : PetTag) (target key : bytes) (ring : RingPayload) (context : PetBlindContext)
    (evidence : PetBlindEvidence) : Prop :=
  let cert := ev_certificate evidence in
  exists (R T Y A B : G) (cs : list F),
    decode_group_element (ephemeral_point tag) = Ok R /\ decode_group_element (masked_fingerprint tag) = Ok T /\
    owner_fingerprint (F:=F) target = Ok Y /\
    build_and_verify_pet_blind_certificate (F:=F) cert ring tag Y context = Ok (A, B) /\
    PubPoly_from_bytes (ce_public_polynomial cert) = Ok (MkPubPoly (commit_all cs)) /\
    hex_decode key = Some (g_serialize (generator (G:=G) ⊙ peval cs 0)) /\
    (T = Y ⊕ R ⊙ peval cs 0 \/
     Exists (false_reveal ring tag Y R (T ⊖ Y)) (ce_reveals cert) \/
     Exists (false_decrypt ring cs cert A B context) (take (Z.to_nat (rp_threshold ring)) (ev_decrypt_responses evidence))).

(** The equation the gate checks, in the exponent. *)
Lemma matching_equation (R T Y : G) (z s : F) :
  in_subgroup R = true -> in_subgroup T = true -> in_subgroup Y = true -> z <> 0 ->
  R ⊙ z ⊙ s = (T ⊖ Y) ⊙ z -> T = Y ⊕ R ⊙ s.
Proof.
  intros [r ->]%in_subgroup_spec [t ->]%in_subgroup_spec [y ->]%in_subgroup_spec Hz. autorewrite with dlog.
  intros E%generator_inj. f_equal. apply f_sub_zero. destruct (f_mul_zero (t - (y + r * s)) z) as [?|?]; [|done..].
  transitivity ((t - y) * z - r * z * s); [ring|]. rewrite E. ring.
Qed.

Lemma admission_check_sound tag key target ring ring_id context evidence :
  admission_check (F:=F) (G:=G) app tag key target ring ring_id context evidence = Ok tt ->
  owner_matches tag target key ring context evidence.
Proof.
  intros E. unfold admission_check in E. bind_ok E as ? _. bind_ok E as Y HY%map_err_Ok.
  bind_ok E as [A B] Hcert%map_err_Ok. bind_ok E as ? Hgot%reject_Ok%Z.ltb_ge. bind_ok E as bundle _.
  bind_ok E as pp Hpp. bind_ok E as ar Har. bind_ok E as ad Had. bind_ok E as shares Hsh.
  bind_ok E as X HX0%map_err_Ok. bind_ok E as xb Hxb. apply reject_Ok, negb_false_iff, bool_decide_eq_true in E.
  apply Ok_inj in Har as <-, Had as <-, Hxb as <-. apply match_bundle_Ok in Hpp as (Hb & cs & Hcs & Ht & Hkey).
  destruct (certificate_decodes _ _ _ _ _ _ _ Hcert) as (R & T & HR & HT).
  destruct pp as [points]. cbn in Hcs. subst points. exists R, T, Y, A, B, cs. split_and!; [done..|].
  assert (in_subgroup Y = true) as SY by (apply Ok_inj in HY as <-; auto with orbis).
  apply verify_decrypts_sound in Hsh as [L [Hv|Hf]]; [|tauto].
  destruct (certificate_sound _ _ _ _ _ _ _ _ _ HR HT SY Hcert) as [(z & Hz & -> & ->)|?]; [left|tauto].
  rewrite length_take in L. apply decode_group_element_Ok in HR as (_ & _ & SR), HT as (_ & _ & ST).
  assert (0 <= rp_threshold ring)%Z as H0 by lia. pose proof (combine_pet_indices _ _ _ _ H0 HX0) as Hi.
  rewrite (combine_pet_valid shares (R ⊙ z) cs) in HX0; [|auto with orbis|lia|done|lia|done].
  apply Ok_inj in HX0 as <-. apply g_serialize_inj in E; [|auto with orbis..]. by eapply matching_equation.
Qed.

(** What an admitted release shows: the caller is authorized for the audit
    target, the request is verified, and the owner of the tag is the target. *)
Definition admitted d salt object_id (document_evidence : option ReportedDocumentEvidence) target actor window ring
    (evidence : PetBlindEvidence) : Prop :=
  let ctx := MkPetCheckContext (ring_state_sha256 ring) (ce_public_polynomial (ev_certificate evidence)) d salt
    object_id (bool_decide (is_Some document_evidence)) [] target window in
  check_pet_permission d target actor window = Ok tt /\
  exists tag key digest live,
    request_facts ctx tag key digest live /\
    owner_matches tag target key ring (build_pet_blind_context (app_chain_id app) ring key (app_version app) PET_NAME ctx actor
      (ev_coordinator_node_key evidence) (ce_attempt_id (ev_certificate evidence))) evidence.

Lemma admission_admitted d salt object_id document_evidence target actor window ring evidence :
  verify_pet_admission (F:=F) (G:=G) app d salt object_id document_evidence target actor window ring evidence = Ok tt ->
  admitted d salt object_id document_evidence target actor window ring evidence.
Proof.
  unfold verify_pet_admission. intros E. bind_ok E as [] Hp. bind_ok E as first _.
  bind_ok E as ? Hs%reject_Ok%negb_false_iff%bool_decide_eq_true. rewrite Hs in E.
  bind_ok E as [[[tag key] digest] live] Hv. split; [done|]. exists tag, key, digest, live.
  split; [by apply verify_pet_check_request_Ok|by eapply admission_check_sound].
Qed.


(** The sender of a request is named by its connection.  The node key a
    responder resolves for a peer is a key of the ring's committee; the NodeInfo
    record of that key carries that peer's identity, whatever the letter case;
    and no other key of the committee resolves to the same peer. *)
Lemma coordinator_identified (peer_id key : bytes) (ring : RingPayload) :
  let route_of := resolve_route is_socket_addr (app_read_node app) NodeInfo_try_from in
  let names_peer route :=
    to_ascii_lowercase (extract_node_part (nr_peer_id route)) = to_ascii_lowercase (hex_encode peer_id) in
  resolve_coordinator_node_key app peer_id ring = Ok key ->
  key ∈ peer_node_keys ring /\
  exists route, route_of key = Ok route /\ names_peer route /\
    forall other route', other ∈ peer_node_keys ring -> route_of other = Ok route' -> names_peer route' -> other = key.
Proof.
  intros route_of names_peer. unfold resolve_coordinator_node_key. intros E. bind_ok E as routes Hr%map_err_Ok.
  bind_ok E as [i r] Hf%ok_or_Ok. apply Ok_inj in E as <-. cbn [snd].
  apply list_find_Some in Hf as (Hi & Hm%bool_decide_eq_true & _).
  apply resolve_routes_Ok in Hr as (Hk & _ & _ & N & _ & Ha). rewrite Forall_lookup in Ha. pose proof (Ha _ _ Hi) as Ri.
  split; [rewrite <- Hk; apply list_elem_of_fmap; exists r; split; [done|by eapply list_elem_of_lookup_2]|].
  exists r. split_and!; [done|done|]. intros other r' Ho Hr' Hm'. rewrite <- Hk in Ho.
  apply list_elem_of_fmap in Ho as (r2 & -> & (j & Hj)%list_elem_of_lookup).
  assert (r2 = r') as -> by (pose proof (Ha _ _ Hj) as Rj; unfold route_of in *; congruence).
  destruct (resolve_route_Ok _ _ _ _ _ Ri) as (_ & L1 & _), (resolve_route_Ok _ _ _ _ _ Hr') as (_ & L2 & _).
  assert (i = j) as ->; [|congruence].
  eapply (NoDup_lookup _ i j); [exact N|by rewrite list_lookup_fmap, Hi|]. rewrite list_lookup_fmap, Hj. cbn.
  unfold names_peer in *. congruence.
Qed.
End App.
End Admission.
