(* ===== verification/PetHonest.v ===== *)
(** * Honest PET responders

    A member that runs the commit and reveal handlers, or the decrypt handler,
    answers, and the coordinator's verification of collected responses accepts
    what it answers; so it is never turned into an accusation. *)
From S2P Require Import Prelude Algebra Interpolation Primitives Toy Codec Common Dkg Context Sigma Shares Pet.
From S2P Require Import DkgSpec Feldman PetTheorems.
From S2P Require Import ReportCodec ReportPet Evidence Identity NodeState Envelope Auth Routes Bulletin RingState PetNode Reporting PetProtocol PetAdmission.

(** ** Selected lists *)

Lemma selected_list_id e1 e2 seen (l : list (Z * bytes)) :
  NoDup l.*1 -> (forall k, k ∈ l.*1 -> k ∉ seen) -> Forall (fun e => length e.2 = 32%nat) l ->
  selected_list e1 e2 seen l = Ok l.
Proof.
  revert seen. induction l as [|[k c] l IH]; intros seen N D L; [done|]. cbn [selected_list].
  rewrite fmap_cons, NoDup_cons in N. destruct N as [Hk N]. apply Forall_cons in L as [Lc L]. cbn in *.
  rewrite bool_decide_false by (apply D; by left). cbn [reject res_bind]. rewrite Lc. cbn [Nat.eqb negb reject res_bind].
  rewrite IH; [done|done| |done]. intros j Hj. apply not_elem_of_cons. split; [by intros ->|]. apply D. by right.
Qed.

Lemma filter_key (i : Z) (c : bytes) (l : list (Z * bytes)) :
  NoDup l.*1 -> (i, c) ∈ l -> filter (fun e => e.1 = i) l = [(i, c)].
Proof.
  induction l as [|[k d] l IH]; intros N H; [by apply elem_of_nil in H|].
  rewrite fmap_cons, NoDup_cons in N. cbn in N. destruct N as [Hk N]. apply elem_of_cons in H as [[= <- <-]|H].
  - rewrite filter_cons_True by done. f_equal. apply elem_of_nil_inv. intros [j e] [Ej Hj]%list_elem_of_filter.
    apply (list_elem_of_fmap_2 fst) in Hj. cbn in *. by subst j.
  - rewrite filter_cons_False; [by apply IH|]. cbn. intros ->. apply Hk. by apply (list_elem_of_fmap_2 fst) in H.
Qed.

Lemma find_key (i : Z) (c : bytes) (l : list (Z * bytes)) :
  NoDup l.*1 -> (i, c) ∈ l -> exists j, list_find (fun e => e.1 = i) l = Some (j, (i, c)).
Proof.
  intros N H. destruct (list_find_elem_of (fun e : Z * bytes => e.1 = i) l (i, c) H eq_refl) as [[j [k d]] E].
  rewrite E. apply list_find_Some in E as (Hj & Hk & _). cbn in Hk. subst k. apply list_elem_of_lookup_2 in Hj.
  assert ((i, d) ∈ filter (fun e : Z * bytes => e.1 = i) l) as Hf by (by apply list_elem_of_filter).
  rewrite (filter_key i c l N H) in Hf. apply list_elem_of_singleton in Hf as [= ->]. eauto.
Qed.

Section Honest.
Context {F G S P : Type} {SF : ScalarField F} {CG : CurveGroup F G} {BL : Blst F G S P} {SHA : Sha2}.
Context {HX : Hex} {EC : Ecdsa} {DJ : DocumentJson} {PJ : PetJson} {AZ : Authz} {JW : JwtLib PreClaims}.
Context {St Post : Type} {LS : LocalStorage St} {BP : BulletinPosts Post}.
Local Open Scope fr_scope.

(** A configured node: its signing key is stored and belongs to its node key,
    which has no route suffix, and its clock works. *)
Record configured (app : PetApp St Post) : Prop := {
  cf_key : exists sk key, get_encrypted (app_storage app) NodeSigningKey = Ok (Some sk) /\ utf8_valid sk = true /\
    hex_decode sk = Some key /\ hex_decode (app_node_key app) = Some (ecdsa_public key) /\
    forall m, is_Some (ecdsa_sign key m);
  cf_plain : Byte.x40 ∉ app_node_key app;
  cf_clock : is_Some (app_sign_time app);
}.

(** A member of a ring, with a share of the PET key and its position. *)
Record member (app : PetApp St Post) (ctx : PetCheckContext) (ring : RingPayload) (key : bytes)
    (bundle : RingShareBundle) (share : PriShare F) : Prop := {
  mb_configured : configured app;
  mb_loads e : load_member (G:=G) app ctx ring key e = Ok (bundle, share);
  mb_committee : (Z.of_nat (length (peer_node_keys ring)) < 2 ^ 32)%Z;
}.

Lemma configured_signs app m :
  configured app ->
  exists sk sig, signing_key_hex app = Ok sk /\ sign_node_message_with_hex_key sk m = Ok sig /\
    verify_node_message (app_node_key app) m sig = Ok tt.
Proof.
  intros [(sk & key & Hs & Hu & Hk & Hp & Hsign) _ _]. destruct (Hsign m) as [sig Hsig]. exists sk, sig. split_and!.
  - unfold signing_key_hex. rewrite Hs. cbn [map_err ok_or res_bind]. by rewrite Hu.
  - unfold sign_node_message_with_hex_key. rewrite Hk. cbn [ok_or res_bind]. by rewrite Hsig.
  - unfold verify_node_message. rewrite Hp. cbn [ok_or res_bind]. by rewrite (ecdsa_correct key m sig).
Qed.

Lemma node_id_key me l i :
  (Z.of_nat (length l) < 2 ^ 32)%Z -> determine_session_node_id me l = Some i ->
  node_key_for_id i l = Some (extract_node_part me).
Proof.
  intros HL [H1 Hi]%session_node_id_Some; [|done]. unfold node_key_for_id. by rewrite (proj2 (Z.ltb_ge _ _)) by lia.
Qed.

(** The committee's number of a member leads back to its key. *)
Lemma member_identity app ctx ring key bundle share :
  member app ctx ring key bundle share ->
  node_key_for_id (pri_i share) (peer_node_keys ring) = Some (app_node_key app).
Proof.
  intros [[_ Hplain _] HL HC]. specialize (HL "{}"). unfold load_member in HL. bind_ok HL as b _. bind_ok HL as pp _.
  bind_ok HL as sh Hm. apply Ok_inj in HL. injection HL as -> ->. unfold member_share in Hm. bind_ok Hm as sh0 _.
  bind_ok Hm as ? Hd%reject_Ok%negb_false_iff%bool_decide_eq_true. bind_ok Hm as b _. bind_ok Hm as n _.
  bind_ok Hm as c _. bind_ok Hm as ? _. apply Ok_inj in Hm as ->.
  apply node_id_key in Hd; [|done]. rewrite Hd. f_equal. by apply node_part_self.
Qed.

(** ** Commit and reveal *)

Section Reveal.
Context (app1 app2 : PetApp St Post) (ctx : PetCheckContext) (attempt_id peer_id : bytes).
Context (tag : PetTag) (key : bytes) (ring : RingPayload) (blind_context : PetBlindContext).
Context (bundle1 bundle2 : RingShareBundle) (share1 share2 : PriShare F) (R T : G).

(** The two phases see the same request and the same member. *)
Context (Hauth1 : authorize_request (F:=F) (G:=G) app1 ctx attempt_id peer_id = Ok (tag, key, ring, blind_context)).
Context (Hauth2 : authorize_request (F:=F) (G:=G) app2 ctx attempt_id peer_id = Ok (tag, key, ring, blind_context)).
Context (Hm1 : member app1 ctx ring key bundle1 share1) (Hm2 : member app2 ctx ring key bundle2 share2).
Context (Hid : pri_i share2 = pri_i share1) (Hver : app_version app2 = app_version app1).
Context (HR : decode_group_element (ephemeral_point tag) = Ok R).
Context (HT : decode_group_element (masked_fingerprint tag) = Ok T).

Let Y : G := generator ⊙ hash_to_scalar (FINGERPRINT_DOMAIN ++ ctx_audit_target_object_id ctx).
Let digest : bytes := PetBlindContext_context_digest blind_context.
Let HY : in_subgroup Y = true := gen_in_subgroup _.
Let slot : bytes := versioned_key (app_version app1) attempt_id.

(** The commitment to a blinding scalar. *)
Definition blind_commitment (salt : bytes) (z : F) : bytes :=
  pet_blind_commit_hash attempt_id digest (pri_i share1) salt (g_serialize (R ⊙ z)) (g_serialize ((T ⊖ Y) ⊙ z)).

Definition blind_entry (salt : bytes) (created : Instant) (z : F) : PendingBlind.PendingBlinding F :=
  PendingBlind.MkPendingBlinding F z salt (pri_i share1) digest (blind_commitment salt z) peer_id created.

Lemma commit_answers fuel now created salt request_id from rng map :
  healthy fuel rng ->
  (size (remove_expired now map) < PendingBlind.MAX_PET_BLIND_PENDING)%nat -> remove_expired now map !! slot = None ->
  exists z rng', z <> 0 /\
    handle_commit_request (G:=G) app1 fuel now created salt (MkCommitRequest request_id attempt_id from ctx) peer_id rng map
    = (Ok (Some (PetCommitResponse request_id attempt_id digest (pri_i share1) (blind_commitment salt z)), rng'),
       <[slot := blind_entry salt created z]> (remove_expired now map)).
Proof.
  intros Hh Hsize Hslot. destruct (sample_nonzero_healthy (E:=PetError) fuel rng Hh) as (z & rng1 & Hz & Hne & Hh1).
  destruct (blinding_complete fuel z tag Y R T (replicate 32 Byte.x00) rng1 Hh1 Hne HY HR HT)
    as (reply & rng2 & Hp & Er & Ed & _).
  exists z, rng2. split; [done|]. unfold handle_commit_request. cbn [cq_attempt_id cq_context cq_request_id].
  rewrite Hauth1, m_bind_Ok, (mb_loads _ _ _ _ _ _ Hm1), m_bind_Ok.
  unfold pet_owner_fingerprint, owner_fingerprint, point_bytes. cbn [map_err G1Affine_to_bytes].
  rewrite m_bind_Ok, Hz, m_bind_Ok. fold Y. rewrite Hp. cbn [map_err]. rewrite !m_bind_Ok, m_bind_get, Er, Ed.
  unfold PendingBlind.store, store_entry. fold slot. cbn [entry_limit PendingBlind.pending_one_use].
  rewrite (proj2 (Nat.leb_gt _ _) Hsize), Hslot. rewrite bool_decide_false by (by intros []). done.
Qed.

(** The opening of a pending entry, and what the coordinator makes of it. *)
Lemma open_answers fuel salt created z request_id from commitments rng :
  healthy fuel rng -> z <> 0 ->
  own_commitment (pri_i share1) (blind_commitment salt z) commitments = true ->
  let selection := pet_blind_selection_digest attempt_id digest commitments in
  let req := MkRevealRequest request_id attempt_id from commitments ctx in
  exists c f signed_at sig rng',
    let A := g_serialize (R ⊙ z) in
    let B := g_serialize ((T ⊖ Y) ⊙ z) in
    let st := reveal_statement blind_context attempt_id digest selection (app_node_key app2) (pri_i share1)
      (blind_commitment salt z) A B salt (fr_serialize c) (fr_serialize f) signed_at in
    open_blinding app2 fuel req tag blind_context share2 commitments (blind_entry salt created z) rng =
      Ok (Some (PetRevealResponse request_id attempt_id digest selection (pri_i share1) (blind_commitment salt z) A B
        salt (fr_serialize c) (fr_serialize f) signed_at sig), rng') /\
    verify_one_reveal (F:=F) st sig ring tag Y (blind_commitment salt z) selection = Verified (R ⊙ z, (T ⊖ Y) ⊙ z).
Proof.
  intros Hh Hz Hown selection req.
  set (transcript := pet_blind_proof_transcript_digest attempt_id digest selection (pri_i share1) (blind_commitment salt z)).
  destruct (blinding_complete fuel z tag Y R T transcript rng Hh Hz HY HR HT) as (reply & rng1 & Hp & Er & Ed & Hv).
  destruct (cf_clock _ (mb_configured _ _ _ _ _ _ Hm2)) as [signed_at Hclock].
  exists (br_challenge reply), (br_proof reply), signed_at. cbv zeta.
  set (st := reveal_statement _ _ _ _ _ _ _ _ _ _ _ _ _).
  destruct (configured_signs app2 (PetBlindRevealStatement_canonical_bytes st) (mb_configured _ _ _ _ _ _ Hm2))
    as (sk & sig & Hsk & Hsig & Hver2).
  exists sig, rng1. split.
  - unfold open_blinding. cbn [rq_attempt_id rq_context rq_request_id req blind_entry PendingBlind.node_id
      PendingBlind.commitment PendingBlind.context_digest PendingBlind.z_i PendingBlind.commit_salt].
    rewrite Hid, Z.eqb_refl. cbn [negb reject res_bind]. rewrite bool_decide_true by done. cbn [negb reject res_bind].
    rewrite Hown. cbn [negb reject res_bind]. unfold pet_owner_fingerprint, owner_fingerprint, point_bytes, scalar_bytes.
    cbn [map_err res_bind]. fold Y digest selection transcript. rewrite Hp. cbn [map_err res_bind G1Affine_to_bytes Fr_to_bytes].
    rewrite Er, Ed. unfold current_unix_time. rewrite Hclock. cbn [ok_or res_bind]. rewrite Hsk. cbn [res_bind].
    fold st. rewrite Hsig. done.
  - unfold verify_one_reveal. cbn [st reveal_statement rv_from_node_id rv_responder_node_key rv_commitment rv_selection_digest
      rv_attempt_id rv_context_digest rv_commit_salt rv_blinded_r rv_blinded_diff rv_challenge rv_proof].
    rewrite <- Hid at 1. rewrite (member_identity _ _ _ _ _ _ Hm2), bool_decide_true by done. cbn [negb].
    fold st. rewrite Hver2, !bool_decide_true by done. cbn [negb].
    rewrite !G1_from_to, !Fr_from_to by (apply decode_group_element_Ok in HR as (_ & _ & ?), HT as (_ & _ & ?); auto with orbis).
    fold transcript. destruct reply. cbn in Er, Ed |- *. subst. by rewrite Hv.
Qed.

(** C14: an honest responder is accepted, never accused.  A member that is
    authorized for an attempt answers the commit request; whatever happens to
    other attempts in between, it answers the reveal request that selects its
    commitment, once, since its blinding is gone from the store; and the
    coordinator's verification of that answer accepts it. *)
Theorem honest_reveal_accepted fuel now created salt request_id1 request_id2 from1 from2 rng1 map :
  healthy fuel rng1 ->
  (size (remove_expired now map) < PendingBlind.MAX_PET_BLIND_PENDING)%nat -> remove_expired now map !! slot = None ->
  exists commitment rng1' map1,
    handle_commit_request (G:=G) app1 fuel now created salt (MkCommitRequest request_id1 attempt_id from1 ctx) peer_id rng1 map
    = (Ok (Some (PetCommitResponse request_id1 attempt_id digest (pri_i share1) commitment), rng1'), map1) /\
    forall commitments map2 rng2 seen ring_id accused_peer_id document_evidence,
      map2 !! slot = map1 !! slot -> healthy fuel rng2 ->
      Z.of_nat (length commitments) = rp_threshold ring -> NoDup commitments.*1 ->
      Forall (fun e => length e.2 = 32%nat) commitments -> (pri_i share1, commitment) ∈ commitments ->
      pri_i share1 ∉ seen ->
      exists reply rng2' reveal,
        handle_reveal_request (G:=G) app2 fuel (MkRevealRequest request_id2 attempt_id from2 commitments ctx) peer_id
          rng2 map2 = (Ok (Some reply, rng2'), delete slot map2) /\
        verify_reveal_response (F:=F) reply ring_id ring accused_peer_id tag Y commitments
          (pet_blind_selection_digest attempt_id digest commitments) blind_context document_evidence seen
        = (RevealVerified reveal, {[pri_i share1]} ∪ seen).
Proof.
  intros Hh1 Hsize Hslot.
  destruct (commit_answers fuel now created salt request_id1 from1 rng1 map Hh1 Hsize Hslot) as (z & rng1' & Hz & Hc).
  eexists _, _, _. split; [exact Hc|]. rewrite lookup_insert_eq.
  intros commitments map2 rng2 seen ring_id accused docev Hmap Hh2 Hlen N L Hin Hseen.
  assert (own_commitment (pri_i share1) (blind_commitment salt z) commitments = true) as Hown.
  { unfold own_commitment. rewrite (filter_key _ _ _ N Hin). by apply bool_decide_eq_true. }
  destruct (open_answers fuel salt created z request_id2 from2 commitments rng2 Hh2 Hz Hown)
    as (c & f & signed_at & sig & rng2' & Hopen & Hv).
  eexists _, _, _. split.
  - unfold handle_reveal_request. cbn [rq_attempt_id rq_context rq_all_commitments].
    rewrite Hauth2, m_bind_Ok, (mb_loads _ _ _ _ _ _ Hm2), m_bind_Ok, m_bind_reject, Hlen, Z.eqb_refl. cbn [negb].
    rewrite (selected_list_id _ _ [] commitments N), m_bind_Ok, m_bind_get; [|intros; apply not_elem_of_nil|done].
    rewrite Hver. fold slot. unfold PendingBlind.take, take_entry. fold slot. rewrite Hmap.
    cbn [entry_peer PendingBlind.pending_one_use blind_entry PendingBlind.coordinator_peer_id].
    rewrite bool_decide_true by done. rewrite m_bind_modify, m_bind_ok_or. unfold m_lift. by rewrite Hopen.
  - unfold verify_reveal_response. rewrite bool_decide_false by done.
    rewrite <- Hid at 1. rewrite (member_identity _ _ _ _ _ _ Hm2), bool_decide_true by done. cbn [negb].
    destruct (find_key _ _ _ N Hin) as [j ->]. by rewrite Hv.
Qed.
End Reveal.

(** ** Decrypt *)

(** The stored share of a member is its value on the polynomial it answers with,
    which is the one it was asked for. *)
Lemma member_on_polynomial app ctx ring key bundle share (pp : PubPoly G) t bundle' :
  member app ctx ring key bundle share ->
  match_bundle (F:=F) bundle' (ctx_public_polynomial ctx) t key = Ok pp ->
  hex_decode (public_polynomial bundle) = Some (ctx_public_polynomial ctx) /\
  PubPoly_eval pp (pri_i share) = generator ⊙ pri_v share.
Proof.
  intros [_ HL _] Hpp. specialize (HL "{}"). unfold load_member in HL. bind_ok HL as b _. bind_ok HL as pp' Hb.
  bind_ok HL as sh Hm. apply Ok_inj in HL. injection HL as -> ->.
  unfold match_bundle in Hb, Hpp. bind_ok Hb as ? _. bind_ok Hb as count Hc. bind_ok Hb as q Hq.
  bind_ok Hb as local Hlocal%ok_or_Ok. bind_ok Hb as lc _. bind_ok Hb as ? _. bind_ok Hb as ? Hsame%reject_Ok.
  apply orb_false_iff in Hsame as [_ Hsame%negb_false_iff%bool_decide_eq_true]. subst local. split; [done|].
  rewrite Hc in Hpp. bind_ok Hpp as ? _. cbn [res_bind] in Hpp. rewrite Hq in Hpp. cbn [res_bind] in Hpp.
  do 4 bind_ok Hpp as ? _. apply Ok_inj in Hpp as ->.
  unfold member_share in Hm. rewrite Hlocal in Hm. bind_ok Hm as sh0 _. bind_ok Hm as ? _. cbn [ok_or res_bind] in Hm.
  bind_ok Hm as n _. bind_ok Hm as c Hcom%map_err_Ok. bind_ok Hm as ? Hv%reject_Ok%negb_false_iff. apply Ok_inj in Hm as ->.
  unfold decode_polynomial in Hq. bind_ok Hq as ? _. bind_ok Hq as ? _. bind_ok Hq as q Hfrom%map_err_Ok.
  do 6 bind_ok Hq as ? _. apply Ok_inj in Hq as ->.
  unfold PubPoly_from_bytes in Hfrom. unfold PolynomialCommitment_from_bytes in Hcom.
  bind_ok Hfrom as points Hp. bind_ok Hcom as points' Hp'. apply Ok_inj in Hfrom as <-, Hcom as <-.
  apply points_canonical in Hp as [W E], Hp' as [W' E'].
  apply (points_roundtrip "x" "x" "x") in E, E'; [|done..]. rewrite E in E'. apply Ok_inj in E' as ->.
  by apply verify_share_spec in Hv; [|apply W'].
Qed.

(** The context of an attempt names the polynomial it was requested for. *)
Lemma authorized_polynomial (app : PetApp St Post) ctx attempt_id peer_id tag key ring blind_context :
  authorize_request (F:=F) (G:=G) app ctx attempt_id peer_id = Ok (tag, key, ring, blind_context) ->
  pc_public_polynomial_digest blind_context = pet_public_polynomial_digest (ctx_public_polynomial ctx).
Proof.
  unfold authorize_request. intros E. bind_ok E as [[[? ?] ?] ?] _. bind_ok E as now _. bind_ok E as actor _.
  bind_ok E as coordinator _. apply Ok_inj in E. by injection E as _ _ _ <-.
Qed.

Section Decrypt.
Context (app : PetApp St Post) (ctx : PetCheckContext) (attempt_id peer_id : bytes).
Context (tag : PetTag) (key : bytes) (ring : RingPayload) (blind_context : PetBlindContext).
Context (bundle : RingShareBundle) (share : PriShare F).
Context (certificate : PetBlindCertificate) (A B : G) (coordinator_bundle : RingShareBundle) (pub_poly : PubPoly G).

Let Y : G := generator ⊙ hash_to_scalar (FINGERPRINT_DOMAIN ++ ctx_audit_target_object_id ctx).
Let digest : bytes := PetBlindContext_context_digest blind_context.

(** The member is authorized for the attempt, the certificate is the attempt's
    and verifies, and the coordinator is at the same generation. *)
Context (Hauth : authorize_request (F:=F) (G:=G) app ctx attempt_id peer_id = Ok (tag, key, ring, blind_context)).
Context (Hm : member app ctx ring key bundle share).
Context (Hattempt : ce_attempt_id certificate = attempt_id) (Hdigest : ce_context_digest certificate = digest).
Context (Hcert : build_and_verify_pet_blind_certificate (F:=F) certificate ring tag Y blind_context = Ok (A, B)).
Context (Hpp : match_bundle (F:=F) coordinator_bundle (ctx_public_polynomial ctx) (rp_threshold ring) key = Ok pub_poly).

(** C23: an honest decryptor is accepted, never accused.  A member that is
    authorized for an attempt and is shown a certificate that verifies answers,
    and the coordinator's verification of the answer accepts it, with the
    member's PET share times the certificate's aggregate. *)
Theorem honest_decrypt_accepted fuel request_id from rng seen ring_id accused_peer_id document_evidence :
  healthy fuel rng -> pri_i share ∉ seen ->
  exists reply rng' decrypt,
    handle_decrypt_request (F:=F) (G:=G) app fuel (MkDecryptRequest request_id attempt_id from certificate ctx) peer_id rng
      = Ok (Some reply, rng') /\
    verify_decrypt_response (F:=F) reply ring_id ring accused_peer_id pub_poly digest (certificate_digest certificate)
      attempt_id (g_serialize A) (g_serialize B) blind_context certificate document_evidence seen
    = (DecryptVerified decrypt (MkPubShare (pri_i share) (A ⊙ pri_v share)), {[pri_i share]} ∪ seen).
Proof.
  intros Hh Hseen. destruct (member_on_polynomial _ _ _ _ _ _ _ _ _ Hm Hpp) as [Hpoly Heval].
  destruct (certificate_points _ _ _ _ _ _ _ Hcert) as (SA & SB & ZA).
  assert (decode_group_element (g_serialize A) = Ok A) as HA by (by apply decode_group_element_Ok).
  destruct (partial_pet_check_ok fuel (pri_v share) (pri_i share) (MkPetTag (g_serialize A) []) rng A pub_poly Hh HA Heval)
    as (reply & rng' & Hcheck & Hpartial & Hverify).
  destruct (cf_clock _ (mb_configured _ _ _ _ _ _ Hm)) as [signed_at Hclock].
  set (st := decrypt_statement blind_context attempt_id digest (certificate_digest certificate) (app_node_key app)
    (pri_i share) (g_serialize A) (g_serialize B) (g_serialize (A ⊙ pri_v share)) (fr_serialize (pcr_challenge reply))
    (fr_serialize (pcr_proof reply)) signed_at (ctx_public_polynomial ctx)).
  destruct (configured_signs app (PetBlindDecryptStatement_canonical_bytes st) (mb_configured _ _ _ _ _ _ Hm))
    as (sk & sig & Hsk & Hsig & Hver).
  eexists _, rng', _. split.
  - unfold handle_decrypt_request. cbn [dq_attempt_id dq_context dq_certificate dq_request_id]. rewrite Hauth. cbn [res_bind].
    rewrite !bool_decide_true by done. cbn [negb orb reject res_bind]. unfold pet_owner_fingerprint, owner_fingerprint.
    cbn [map_err res_bind]. fold Y. rewrite Hcert. cbn [res_bind]. rewrite (mb_loads _ _ _ _ _ _ Hm). cbn [res_bind].
    rewrite Hpoly. unfold point_bytes, scalar_bytes. cbn [ok_or G1Affine_to_bytes map_err res_bind]. rewrite Hcheck.
    cbn [map_err Fr_to_bytes G1Affine_to_bytes res_bind]. unfold current_unix_time. rewrite Hclock, Hpartial.
    cbn [ok_or res_bind pub_v]. rewrite Hsk. cbn [res_bind]. fold digest st. rewrite Hsig. reflexivity.
  - unfold verify_decrypt_response. rewrite bool_decide_false by done. rewrite (member_identity _ _ _ _ _ _ Hm).
    fold st. rewrite Hver. unfold verify_one_decrypt, SignedContext_matches, SignedContext_of_decrypt.
    cbn [st decrypt_statement dy_domain dy_chain_id dy_ring_id dy_ring_pk dy_ring_state_sha256 dy_protocol_version
      dy_attempt_id dy_context_digest dy_certificate_digest dy_aggregate_r dy_aggregate_diff dy_from_node_id
      dy_responder_node_key dy_public_polynomial dy_partial dy_challenge dy_proof
      sx_domain sx_chain_id sx_ring_id sx_ring_pk sx_ring_state_sha256 sx_protocol_version].
    rewrite !bool_decide_true, Z.eqb_refl by done. cbn [andb orb negb]. rewrite (member_identity _ _ _ _ _ _ Hm).
    rewrite bool_decide_true by done. cbn [negb]. fold st. rewrite Hver, bool_decide_true by (by rewrite (authorized_polynomial _ _ _ _ _ _ _ _ Hauth)).
    cbn [negb]. rewrite G1_from_to, !Fr_from_to by auto with orbis. rewrite <- Hpartial. destruct reply. cbn in *.
    by rewrite Hverify.
Qed.
End Decrypt.
End Honest.
