(* ===== verification/PreRelease.v ===== *)
(** * Theorems on the PRE responder

    What a released share shows about the request it was released for, which
    effects a refused request leaves behind, and that what an honest responder
    answers is accepted by the coordinator that collects it. *)
From S2P Require Import Prelude Algebra Interpolation Primitives Toy Codec Common Dkg Context Sigma Shares Pre Pet.
From S2P Require Import DkgSpec Feldman PreTheorems.
From S2P Require Import ReportCodec ReportStatements ReportPet Evidence Identity NodeState Envelope Auth Routes Bulletin RingState PetNode Reporting Relay PetProtocol PreNode PreInitiator PetAdmission PetHonest.

Section Release.
Context {F G S P : Type} {SF : ScalarField F} {CG : CurveGroup F G} {BL : Blst F G S P} {SHA : Sha2}.
Context {HX : Hex} {EC : Ecdsa} {DJ : DocumentJson} {PJ : PetJson} {AZ : Authz} {JW : JwtLib PreClaims}.
Context {HO : HashOrder} {PD : PointDisplay G}.
Context {St Post : Type} {LS : LocalStorage St} {BP : BulletinPosts Post} {DP : DocumentPosts Post}.
Context (app : PreApp St Post).
Local Open Scope fr_scope.
Add Field FField : (f_theory (F:=F)).

(** The caller: a token signed by the key its issuer names, in its window, whose
    claims are the request, speaking for the actor. *)
Definition caller_vouched (ctx : PreRequestContext) (r : Resolved) : Prop :=
  let token := rs_token r in
  (exists key, verified_by (px_token_string ctx) token key) /\
  in_window token (rs_current_time r) MAX_TOKEN_LIFETIME_SECS JWT_CLOCK_SKEW_LEEWAY_SECS /\
  pa_auth_time app = Some (rs_current_time r) /\
  claims token = MkPreClaims (px_rdr_pk_bytes ctx) (px_object_id ctx) (px_derivation ctx) (px_salt ctx) /\
  resolve_actor_id token (default [] (trusted_auth_relay_dids (rs_ring r))) = Ok (rs_actor_id r).

(** The document: the one its identifier names, of a ring that runs this
    protocol version. *)
Definition document_resolved (ctx : PreRequestContext) (r : Resolved) : Prop :=
  generate_document_id (rs_document r) = Ok (px_object_id ctx) /\
  read_ring_for_route (pa_read_ring app (ring_id (rs_document r))) RingPayload_try_from (pa_ring_time app)
    (app_version (pa_pet app)) = Ok (rs_ring r) /\
  (px_document ctx = Some (rs_document r) \/
   px_document ctx = None /\ pa_read_document app (px_object_id ctx) ≫= DocumentPayload_try_from = Some (rs_document r)).

(** Access: the policy engine let the actor through. *)
Definition access_granted (ctx : PreRequestContext) (r : Resolved) : Prop :=
  exists permission, authz_check permission (rs_actor_id r) = Ok true /\
    request_to_bytes (document_access (rs_document r) (px_object_id ctx) (px_valid_window ctx)) = Some permission.

Lemma claims_Ok token rdr_pk object_id derivation salt :
  validate_pre_claims token rdr_pk object_id derivation salt = Ok tt ->
  claims token = MkPreClaims rdr_pk object_id derivation salt.
Proof.
  unfold validate_pre_claims. intros E. do 3 (bind_ok E as ? ?%reject_Ok%negb_false_iff%bool_decide_eq_true).
  apply reject_Ok, negb_false_iff, bool_decide_eq_true in E. destruct token as [? ? ? ? ? ? []]. cbn in *. by subst.
Qed.

Lemma check_document_id_binding_Ok object_id d :
  check_document_id_binding object_id d = Ok tt -> generate_document_id d = Ok object_id.
Proof.
  unfold check_document_id_binding. intros E. bind_ok E as id Hid%map_err_Ok.
  by apply reject_Ok, negb_false_iff, bool_decide_eq_true in E as ->.
Qed.

Lemma resolve_document_Ok object_id inline d ring :
  resolve_document_and_ring_payloads app object_id inline = Ok (d, ring) ->
  generate_document_id d = Ok object_id /\
  read_ring_for_route (pa_read_ring app (ring_id d)) RingPayload_try_from (pa_ring_time app) (app_version (pa_pet app)) = Ok ring /\
  (inline = Some d \/ inline = None /\ pa_read_document app object_id ≫= DocumentPayload_try_from = Some d).
Proof.
  unfold resolve_document_and_ring_payloads. intros E. bind_ok E as d' Hd. bind_ok E as ring' Hr%map_err_Ok.
  bind_ok E as [] Hid%check_document_id_binding_Ok. apply Ok_inj in E. injection E as -> ->. split_and!; [done..|].
  destruct inline; [left; congruence|right]. split; [done|]. unfold fetch_document_payload in Hd.
  bind_ok Hd as post Hp%ok_or_Ok. apply ok_or_Ok in Hd. by rewrite Hp.
Qed.

Lemma resolve_request_Ok ctx r :
  resolve_request app ctx = Ok r ->
  caller_vouched ctx r /\ document_resolved ctx r /\ rs_evidence r = evidence_of <$> px_document ctx /\
  build_ciphertext_context (ring_pk (rs_ring r)) (rs_document r) (px_salt ctx) (pet_pk (rs_ring r)) =
    Ok (rs_ciphertext_context r) /\
  build_reader_authorization_context (app_chain_id (pa_pet app)) (ring_pk (rs_ring r)) (rs_token r) (rs_actor_id r)
    (px_object_id ctx) (px_rdr_pk_bytes ctx) (px_derivation ctx) (px_salt ctx) (px_valid_window ctx)
    (px_audit_target_object_id ctx) = Ok (rs_reader_auth_context r).
Proof.
  unfold resolve_request, request_actor. intros E. bind_ok E as now Hnow%ok_or_Ok. bind_ok E as token Ht%map_err_Ok.
  bind_ok E as [] Hc%claims_Ok. bind_ok E as [d ring] Hd. bind_ok E as actor Ha%map_err_Ok%map_err_Ok.
  bind_ok E as cc Hcc. bind_ok E as rac Hra. apply Ok_inj in E as <-. cbn.
  apply resolve_jwt_did_Ok in Ht as (_ & _ & _ & Hk & Hw). apply resolve_document_Ok in Hd. done.
Qed.

Lemma check_policy_access_Ok ctx r :
  check_policy_access (rs_document r) (px_object_id ctx) (rs_actor_id r) (px_valid_window ctx) = Ok tt -> access_granted ctx r.
Proof.
  unfold check_policy_access. intros E. bind_ok E as permission Hp%ok_or_Ok. bind_ok E as b Hb%map_err_Ok.
  apply reject_Ok, negb_false_iff in E as ->. by exists permission.
Qed.

(** The reader: the holder of the recipient key signed this request. *)
Definition reader_signed (ctx : PreRequestContext) (r : Resolved) (rdr_pk : G) : Prop :=
  let token := rs_token r in
  G1Affine_from_bytes (F:=F) (px_rdr_pk_bytes ctx) = Ok rdr_pk /\
  verify_reader_authorization (F:=F) rdr_pk (rs_reader_auth_context r) (px_rdr_pk_signature ctx) = Ok tt /\
  exists ring_key, hex_decode (ring_pk (rs_ring r)) = Some ring_key /\
    rs_reader_auth_context r = MkReaderAuthorizationContext (app_chain_id (pa_pet app)) ring_key (issuer_id token)
      (subject_id token) (rs_actor_id r) (jwt_id token) (issued_time token) (expiration_time token) (not_before token)
      (px_object_id ctx) (px_rdr_pk_bytes ctx) (px_derivation ctx) (px_salt ctx)
      ((fun w => MkValidWindowBinding (window_start w) (window_end w)) <$> px_valid_window ctx)
      (px_audit_target_object_id ctx).

(** The token: not seen before, and recorded. *)
Definition token_spent (r : Resolved) (s s' : PreState) : Prop :=
  let jti := jwt_id (rs_token r) in
  jti <> [] /\ (forall deadline, ps_seen s !! jti = Some deadline -> (deadline <= pa_guard_now app)%Z) /\
  ps_seen s' !! jti = Some (pa_guard_now app + retention (expiration_time (rs_token r)) (pa_guard_unix app))%Z.

(** The context of the encryption proof: the key of the ring, the policy, the
    resource, the permission, the tier and the timestamp of the document, the
    salt of the request and the document's tag under the ring's checking key. *)
Definition policy_bound (ctx : PreRequestContext) (r : Resolved) (cc : CiphertextContext) : Prop :=
  let d := rs_document r in
  hex_decode (ring_pk (rs_ring r)) = Some (cc_ring_pk cc) /\
  cc_policy_id cc = policy_id d /\ cc_resource cc = resource d /\ cc_permission cc = permission d /\
  cc_tier cc = tier d /\ cc_timestamp cc = timestamp d /\ cc_salt cc = px_salt ctx /\
  match pet_tag d with
  | None => cc_pet_tag cc = None
  | Some json => exists key_hex key tag, pet_pk (rs_ring r) = Some key_hex /\ hex_decode key_hex = Some key /\
      PetTag_try_from json = Some tag /\
      cc_pet_tag cc = Some (MkPetTagBinding (ring_id d) key (ephemeral_point tag) (masked_fingerprint tag))
  end.

Lemma policy_bound_intro ctx r :
  build_ciphertext_context (ring_pk (rs_ring r)) (rs_document r) (px_salt ctx) (pet_pk (rs_ring r)) =
    Ok (rs_ciphertext_context r) -> policy_bound ctx r (rs_ciphertext_context r).
Proof.
  unfold build_ciphertext_context, build_pet_tag_binding, policy_bound. intros E. bind_ok E as key Hk%ok_or_Ok.
  bind_ok E as binding Hb. apply Ok_inj in E as <-. cbn. split_and!; try done.
  destruct (pet_tag (rs_document r)); [|by apply Ok_inj in Hb].
  bind_ok Hb as kh Hkh%ok_or_Ok. bind_ok Hb as tag Ht%ok_or_Ok. bind_ok Hb as kb Hkb%ok_or_Ok. apply Ok_inj in Hb as <-.
  by exists kh, kb, tag.
Qed.

(** The share: the node's own, times the reader's point and the commitment of
    the document, whose encryption proof is bound to the policy. *)
Definition share_released (req : ReencryptRequest) (r : Resolved) (rdr_pk : G) (msg : PreMessage) : Prop :=
  exists (secret : Secret) (enc_proof : EncryptionProof) (ring_key : bytes * G) (bundle : RingShareBundle)
    (share : PriShare F) (U : G) (challenge proof : bytes) (signed_at : Z) (signature : bytes),
    Secret_from_str (document (rs_document r)) = Some secret /\ decompress_point (enc_cmt secret) = Ok U /\
    EncryptionProof_try_from (Bulletin.proof (rs_document r)) = Some enc_proof /\
    (exists cc, policy_bound (eq_context req) r cc /\ verify_encryption (F:=F) (G:=G) enc_proof cc secret = Ok tt) /\
    decode_ring_pk (F:=F) (ring_pk (rs_ring r)) = Ok ring_key /\
    load_by_ring_pk (app_storage (pa_pet app)) ring_key.2 = Ok bundle /\
    PriShare_from_bytes (share_bytes bundle) = Ok share /\
    msg = PreReencryptResponse (eq_request_id req) (pri_i share)
      (g_serialize ((rdr_pk ⊕ U) ⊙ (derivation_factor (px_derivation (eq_context req)) * pri_v share)%fr))
      challenge proof signed_at signature.

Lemma reader_signed_intro ctx r rdr_pk :
  resolve_request app ctx = Ok r -> G1Affine_from_bytes (F:=F) (px_rdr_pk_bytes ctx) = Ok rdr_pk ->
  verify_reader_authorization (F:=F) rdr_pk (rs_reader_auth_context r) (px_rdr_pk_signature ctx) = Ok tt ->
  reader_signed ctx r rdr_pk.
Proof.
  intros (_ & _ & _ & _ & Hra)%resolve_request_Ok Hk Hv. unfold build_reader_authorization_context in Hra.
  bind_ok Hra as ? _. bind_ok Hra as ring_key Hrk%ok_or_Ok. apply Ok_inj in Hra. split_and!; [done..|]. by exists ring_key.
Qed.

Lemma attributed_Ok check report s u s' : attributed check report s = (Ok u, s') -> check = Ok tt /\ s' = s.
Proof. unfold attributed. destruct check as [[]|[]| |]; by intros [= <- <-] || done. Qed.

Lemma map_err_with_Ok {E E' A} (f : E -> E') (m : res E A) a : map_err_with f m = Ok a -> m = Ok a.
Proof. by destruct m; intros [= ->]. Qed.

Lemma pet_gate_Ok ctx r report s u s' :
  pet_gate (F:=F) (G:=G) app ctx r report s = (Ok u, s') -> s' = s /\
  (requires_pet (rs_ring r) = true -> exists target evidence, px_audit_target_object_id ctx = Some target /\
    px_pet_evidence ctx = Some evidence /\
    admitted (F:=F) (G:=G) (pa_pet app) (rs_document r) (px_salt ctx) (px_object_id ctx) (rs_evidence r) target
      (rs_actor_id r) (px_valid_window ctx) (rs_ring r) evidence).
Proof.
  unfold pet_gate. destruct (requires_pet (rs_ring r)); [|by intros [= <- <-]].
  intros (target & Ht%ok_or_Ok & H)%m_lift_inv. apply m_lift_inv in H as (evidence & He%ok_or_Ok & H).
  apply attributed_Ok in H as [Ha%map_err_with_Ok ->]. split; [done|]. intros _. exists target, evidence.
  split_and!; [done..|by apply admission_admitted].
Qed.

Lemma record_token_Ok r s u s' : record_token app (rs_token r) s = (Ok u, s') -> token_spent r s s' /\ ps_reporting s' = ps_reporting s.
Proof.
  unfold record_token, token_spent. destruct (check_and_record _ _ _ _ _) as [outcome seen] eqn:E.
  destruct outcome as [o| | |]; [|by intros [=]..]. intros H. apply (f_equal snd) in H. cbn in H. subst s'.
  split; [|done]. cbn [ps_seen].
  destruct (check_records _ _ _ _ _ _ _ E) as [Hj Hs]. split_and!; [done| |done]. intros d Hd. apply Z.nlt_ge. intros Hl.
  pose proof (check_seen _ (expiration_time (rs_token r)) _ (pa_guard_unix app) _ _ Hj Hd Hl) as Hc. by rewrite E in Hc.
Qed.

(** The reply of a node, whatever polynomial its share is on. *)
Lemma reencrypt_share fuel (share : PriShare F) secret (rdr_pk : G) context sig rng reply rng' :
  reencrypt fuel (MkDistKeyShare share) secret rdr_pk context sig rng = Ok (reply, rng') ->
  exists U, decompress_point (enc_cmt secret) = Ok U /\
    rr_share reply = MkPubShare (pri_i share) ((rdr_pk ⊕ U) ⊙ (derivation_factor (ra_derivation context) * pri_v share)%fr).
Proof.
  intros H. destruct (reencrypt_reply_ok _ _ _ _ _ _ _ _ _ (MkPubPoly (commit_all [pri_v share])) H) as (_ & U & HU & E & _).
  - cbn [pri_share]. unfold PubPoly_eval. cbn [commits]. rewrite eval_points_commit. f_equal. cbn. ring.
  - by exists U.
Qed.

(** The steps of a release, with the signature over the statement. *)
Lemma release_share_inv fuel req r rdr_pk rng msg rng' :
  release_share app fuel req r rdr_pk rng = Ok (Some msg, rng') ->
  exists secret enc_proof ring_key bundle share reply signed_at sk signature,
    Secret_from_str (document (rs_document r)) = Some secret /\
    EncryptionProof_try_from (Bulletin.proof (rs_document r)) = Some enc_proof /\
    verify_encryption (F:=F) (G:=G) enc_proof (rs_ciphertext_context r) secret = Ok tt /\
    decode_ring_pk (F:=F) (ring_pk (rs_ring r)) = Ok ring_key /\
    load_by_ring_pk (app_storage (pa_pet app)) ring_key.2 = Ok bundle /\
    PriShare_from_bytes (share_bytes bundle) = Ok share /\
    reencrypt fuel (MkDistKeyShare share) secret rdr_pk (rs_reader_auth_context r) (px_rdr_pk_signature (eq_context req)) rng
      = Ok (reply, rng') /\
    pa_sign_time app = Some signed_at /\ get_encrypted (app_storage (pa_pet app)) NodeSigningKey = Ok (Some sk) /\
    let c := response_report_context (PreReportBinding_from_ring (app_chain_id (pa_pet app)) (ring_id (rs_document r))
        (rs_ring r) (timestamp (rs_document r)) (rs_evidence r)) (app_version (pa_pet app)) (eq_request_id req)
        (app_node_key (pa_pet app)) [] (px_object_id (eq_context req)) (px_rdr_pk_bytes (eq_context req))
        (px_derivation (eq_context req)) in
    let statement := context_statement c (pri_i share) (g_serialize (pub_v (rr_share reply)))
      (fr_serialize (rr_challenge reply)) (fr_serialize (rr_proof reply)) signed_at in
    sign_node_message_with_hex_key sk (PreReencryptResponseStatement_canonical_bytes statement) = Ok signature /\
    msg = PreReencryptResponse (eq_request_id req) (pri_i share) (g_serialize (pub_v (rr_share reply)))
      (fr_serialize (rr_challenge reply)) (fr_serialize (rr_proof reply)) signed_at signature.
Proof.
  intros E. unfold release_share, verify_encryption_binding, pre_deserialize_secret in E.
  bind_ok E as secret Hs%ok_or_Ok. bind_ok E as [rb ring_key] Hk. bind_ok E as bundle Hb%map_err_Ok.
  bind_ok E as share Hsh%map_err_Ok. bind_ok E as [] Hv. bind_ok Hv as enc_proof Hp%ok_or_Ok. apply map_err_Ok in Hv.
  bind_ok E as [reply rng1] Hr%map_err_Ok. bind_ok E as sb Hsb. bind_ok E as ch Hch. bind_ok E as pf Hpf.
  bind_ok E as signed_at Ht%ok_or_Ok. bind_ok E as stored Hst%map_err_Ok. bind_ok E as sk Hsk%ok_or_Ok.
  bind_ok E as ? _. bind_ok E as sig Hsig%map_err_Ok. apply Ok_inj in E. injection E as <- <-. subst stored.
  apply Ok_inj in Hsb as <-, Hch as <-, Hpf as <-.
  exists secret, enc_proof, (rb, ring_key), bundle, share, reply, signed_at, sk, sig. done.
Qed.

Lemma release_share_Ok fuel req r rdr_pk rng msg rng' :
  ra_derivation (rs_reader_auth_context r) = px_derivation (eq_context req) ->
  policy_bound (eq_context req) r (rs_ciphertext_context r) ->
  release_share app fuel req r rdr_pk rng = Ok (Some msg, rng') -> share_released req r rdr_pk msg.
Proof.
  intros Hd Hc (secret & enc_proof & ring_key & bundle & share & reply & signed_at & sk & sig & Hs & Hp & Hv & Hk & Hb & Hsh &
    (U & HU & Hreply)%reencrypt_share & _ & _ & _ & ->)%release_share_inv. rewrite Hreply, Hd.
  exists secret, enc_proof, ring_key, bundle, share, U. do 4 eexists. split_and!; eauto.
Qed.

(** C4: a released share is an authorized one.  When a node answers a request
    with a share, the caller's token is signed by the key its issuer names, is
    in its window, and its claims are the request; the document is the one the
    request names, of a ring that runs this protocol version; the policy engine
    granted the actor access to it; in a ring that requires the equality test,
    the PET evidence is admitted; the holder of the recipient key signed this
    very request; the token was not used before and is recorded as used; nobody
    is reported; and the answer is the node's share times the recipient's point
    and the document's commitment, whose encryption proof verifies under the
    context made of the ring key, the document's own policy, resource,
    permission, tier, timestamp and tag, and the request's salt. *)
Theorem release_authorized fuel req rng s msg rng' s' :
  handle_reencrypt_request (F:=F) (G:=G) app fuel req rng s = (Ok (Some msg, rng'), s') ->
  let ctx := eq_context req in
  exists r rdr_pk, caller_vouched ctx r /\ document_resolved ctx r /\ access_granted ctx r /\
    (requires_pet (rs_ring r) = true -> exists target evidence, px_audit_target_object_id ctx = Some target /\
      px_pet_evidence ctx = Some evidence /\
      admitted (F:=F) (G:=G) (pa_pet app) (rs_document r) (px_salt ctx) (px_object_id ctx) (rs_evidence r) target
        (rs_actor_id r) (px_valid_window ctx) (rs_ring r) evidence) /\
    reader_signed ctx r rdr_pk /\ token_spent r s s' /\ ps_reporting s' = ps_reporting s /\
    share_released req r rdr_pk msg.
Proof.
  intros E ctx. unfold handle_reencrypt_request in E. fold ctx in E. apply m_lift_inv in E as (r & Hr & E).
  apply m_bind_inv in E as (u & s1 & [Hp%check_policy_access_Ok ->]%attributed_Ok & E).
  apply m_bind_inv in E as (u2 & s2 & [-> Hg]%pet_gate_Ok & E). apply m_lift_inv in E as (rdr_pk & Hk%map_err_Ok & E).
  apply m_lift_inv in E as ([] & Hv%map_err_Ok & E). apply m_bind_inv in E as (u3 & s3 & [Ht Hrep]%record_token_Ok & E).
  injection E as E <-. pose proof (reader_signed_intro _ _ _ Hr Hk Hv) as Hsig.
  apply resolve_request_Ok in Hr as (Hc & Hdoc & _ & Hcc%policy_bound_intro & _). exists r, rdr_pk. split_and!; try done.
  eapply release_share_Ok; [|done|exact E]. by destruct Hsig as (_ & _ & ? & _ & ->).
Qed.

(** *** The effects of a refused request *)

Lemma attributed_effect check report s o s' :
  attributed check report s = (o, s') -> s' = s \/ exists msg, check = Err (PreUnauthorized msg) /\ o = check /\ s' = report s.
Proof. unfold attributed. destruct check as [|[]| |]; intros [= <- <-]; eauto. Qed.

Lemma pet_gate_effect ctx r report s o s' :
  pet_gate (F:=F) (G:=G) app ctx r report s = (o, s') -> s' = s \/ exists msg, o = Err (PreUnauthorized msg) /\ s' = report s.
Proof.
  unfold pet_gate. destruct (requires_pet _); [|intros [= <- <-]; auto]. rewrite m_bind_ok_or.
  destruct (px_audit_target_object_id ctx); [|intros [= <- <-]; auto]. rewrite m_bind_ok_or.
  destruct (px_pet_evidence ctx); [|intros [= <- <-]; auto].
  intros [->|(msg & -> & -> & ->)]%attributed_effect; eauto.
Qed.

(** The report queued is one more task, of an observation that accuses a relay
    over a statement about this very request, under a signature by the accused
    key. *)
Definition relay_attributed (req : ReencryptRequest) (r : Resolved) (s s' : ReportingState) : Prop :=
  exists statement o, px_relay_statement (eq_context req) = Some statement /\
    validate_relay_request_binding statement (request_binding app req r) = Ok tt /\
    ur_statement (uo_payload o) = statement /\ ur_relay_signature (uo_payload o) = px_relay_signature (eq_context req) /\
    verify_node_message (uo_accused_node_key o) (RelayRequestStatement_canonical_bytes statement)
      (px_relay_signature (eq_context req)) = Ok tt /\
    uo_ring_id o = ring_id (rs_document r) /\
    is_Some (determine_session_node_id (uo_accused_node_key o) (peer_node_keys (rs_ring r))) /\
    tasks s' = tasks s ++ [(in_flight_key (ObsUnauthorizedRequest o), ObsUnauthorizedRequest o)].

(** A bound statement is about the ring of the request, and names a member. *)
Lemma relay_binding_member statement expected :
  validate_relay_request_binding statement expected = Ok tt ->
  rr_ring_id statement = rb_ring_id expected /\
  is_Some (determine_session_node_id (rr_relayer_node_key statement) (peer_node_keys (rb_ring expected))).
Proof.
  unfold validate_relay_request_binding. intros E. bind_ok E as ? _.
  bind_ok E as ? Hr%reject_Ok%negb_false_iff%bool_decide_eq_true. do 8 bind_ok E as ? _. bind_ok E as w _.
  do 2 bind_ok E as ? _. bind_ok E as i Hi%ok_or_Ok. split; [done|by exists i].
Qed.

Lemma queue_unauthorized_effect {Q} (view : RelayView Q) statement sig anchor inline s s' :
  s' = (queue_unauthorized_request_report view statement sig anchor inline s).2 -> s' <> s ->
  exists o, uo_accused_node_key o = rr_relayer_node_key statement /\ uo_ring_id o = rr_ring_id statement /\
    uo_payload o = MkUnauthorizedRequestPayload statement sig anchor /\
    tasks s' = tasks s ++ [(in_flight_key (ObsUnauthorizedRequest o), ObsUnauthorizedRequest o)].
Proof.
  unfold queue_unauthorized_request_report. rewrite m_bind_ok_or. destruct (relay_read_node _ _) as [post|]; [|done].
  rewrite m_bind_ok_or. destruct (relay_node_info _ _) as [info|]; [|done].
  unfold queue_report, spawn, m_bind. case_bool_decide; [done|]. case_bool_decide; [done|]. cbn. intros -> _.
  eexists. split_and!; [..|cbn; done]; done.
Qed.

Lemma report_relay_effect req r now evidence s s' :
  s' = report_relay_if_bound app (eq_context req) (request_binding app req r) now evidence s ->
  ps_seen s' = ps_seen s /\ (ps_reporting s' <> ps_reporting s -> relay_attributed req r (ps_reporting s) (ps_reporting s')).
Proof.
  unfold report_relay_if_bound. destruct (px_relay_statement _) as [st|] eqn:Hst; [|by intros ->].
  destruct (validate_relay_request_binding _ _) as [[]| | |] eqn:Hb; [|by intros ->..]. intros ->. split; [done|].
  cbn [ps_reporting]. unfold report_unauthorized_relay. destruct (_ <? _); [done|].
  destruct (verify_node_message _ _ _) as [[]| | |] eqn:Hv; [|done..]. destruct (default _ _); [done|].
  destruct (relay_anchor _) as [anchor|]; [|done].
  intros (o & Ho & Hring & Hp & Ht)%(queue_unauthorized_effect _ _ _ _ _ _ _ eq_refl).
  destruct (relay_binding_member _ _ Hb) as [Hid Hm]. exists st, o. rewrite Ho, Hp, Hring. split_and!; done.
Qed.

(** A request that was refused before the replay guard leaves it alone. *)
Definition guard_reached (ctx : PreRequestContext) (r : Resolved) : Prop :=
  access_granted ctx r /\ exists rdr_pk, reader_signed ctx r rdr_pk.


(** *** Honest responders *)

(** A node that holds its share of the ring key, at its position on the ring's
    public polynomial, and the signing key of its node key. *)
Record serving_member (r : Resolved) (pp : PubPoly G) (node_id : Z) : Prop := {
  sm_share ring_key bundle : decode_ring_pk (F:=F) (ring_pk (rs_ring r)) = Ok ring_key ->
    load_by_ring_pk (app_storage (pa_pet app)) ring_key.2 = Ok bundle ->
    exists share : PriShare F, PriShare_from_bytes (share_bytes bundle) = Ok share /\ pri_i share = node_id /\
      PubPoly_eval pp node_id = generator ⊙ pri_v share;
  sm_key : exists sk key, get_encrypted (app_storage (pa_pet app)) NodeSigningKey = Ok (Some sk) /\
    hex_decode sk = Some key /\ hex_decode (app_node_key (pa_pet app)) = Some (ecdsa_public key);
}.

(** The context a coordinator that resolved the same document and ring checks
    the node's answer against. *)
Definition collected_context (req : ReencryptRequest) (r : Resolved) (peer_id : bytes) : PreResponseReportContext :=
  response_report_context (PreReportBinding_from_ring (app_chain_id (pa_pet app)) (ring_id (rs_document r)) (rs_ring r)
    (timestamp (rs_document r)) (rs_evidence r)) (app_version (pa_pet app)) (eq_request_id req) (app_node_key (pa_pet app))
    peer_id (px_object_id (eq_context req)) (px_rdr_pk_bytes (eq_context req)) (px_derivation (eq_context req)).

Lemma signed_verifies sk key pk_hex m sig :
  hex_decode sk = Some key -> hex_decode pk_hex = Some (ecdsa_public key) ->
  sign_node_message_with_hex_key sk m = Ok sig -> verify_node_message pk_hex m sig = Ok tt.
Proof.
  unfold sign_node_message_with_hex_key, verify_node_message. intros -> -> E. cbn [ok_or res_bind] in *.
  apply ok_or_Ok, ecdsa_correct in E. by rewrite E.
Qed.

(** The statement a member signs about its answer. *)
Definition served_statement (req : ReencryptRequest) (r : Resolved) (reply : ReencryptReply F G) (signed_at : Z) :
    PreReencryptResponseStatement :=
  context_statement (collected_context req r []) (pub_i (rr_share reply)) (g_serialize (pub_v (rr_share reply)))
    (fr_serialize (rr_challenge reply)) (fr_serialize (rr_proof reply)) signed_at.

(** What a serving member answers: a reply the public polynomial accepts, under a
    signature of the node. *)
Lemma served_reply fuel req rng s msg rng' s' r rdr_pk pp node_id :
  handle_reencrypt_request (F:=F) (G:=G) app fuel req rng s = (Ok (Some msg, rng'), s') ->
  resolve_request app (eq_context req) = Ok r -> serving_member r pp node_id ->
  G1Affine_from_bytes (F:=F) (px_rdr_pk_bytes (eq_context req)) = Ok rdr_pk ->
  exists secret U (reply : ReencryptReply F G) signed_at sig,
    Secret_from_str (document (rs_document r)) = Some secret /\ G1Affine_from_bytes (F:=F) (enc_cmt secret) = Ok U /\
    pub_i (rr_share reply) = node_id /\ in_subgroup (pub_v (rr_share reply)) = true /\
    verify rdr_pk pp U reply (px_derivation (eq_context req)) = Ok tt /\ pa_sign_time app = Some signed_at /\
    verify_node_message (app_node_key (pa_pet app)) (PreReencryptResponseStatement_canonical_bytes
      (served_statement req r reply signed_at)) sig = Ok tt /\
    msg = PreReencryptResponse (eq_request_id req) node_id (g_serialize (pub_v (rr_share reply)))
      (fr_serialize (rr_challenge reply)) (fr_serialize (rr_proof reply)) signed_at sig.
Proof.
  intros E Hr M Hk. unfold handle_reencrypt_request in E.
  apply m_lift_inv in E as (r' & Hr' & E). rewrite Hr in Hr'. apply Ok_inj in Hr' as <-.
  apply m_bind_inv in E as (u & s1 & _ & E). apply m_bind_inv in E as (u2 & s2 & _ & E).
  apply m_lift_inv in E as (k & Hk'%map_err_Ok & E). rewrite Hk in Hk'. apply Ok_inj in Hk' as <-.
  apply m_lift_inv in E as ([] & Hv%map_err_Ok & E). apply m_bind_inv in E as (u3 & s3 & _ & E). injection E as E _.
  destruct (reader_signed_intro _ _ _ Hr Hk Hv) as (_ & _ & ring_pk & _ & Hra).
  apply release_share_inv in E as (secret & ep & ring_key & bundle & share & reply & signed_at & sk & sig & Hs & _ & _ & Hrk
    & Hb & Hsh & Hre & Ht & Hsk & Hsig & ->).
  destruct M as [Ms (sk' & key & Hsk' & Hkey & Hpub)]. rewrite Hsk in Hsk'. apply Ok_inj in Hsk'. injection Hsk' as <-.
  destruct (Ms _ _ Hrk Hb) as (share' & Hsh' & <- & Hpp). rewrite Hsh in Hsh'. apply Ok_inj in Hsh' as <-.
  destruct (reencrypt_reply_ok _ _ _ _ _ _ _ _ _ pp Hre Hpp) as (_ & U & HU & Hshare & Hverify).
  apply decompress_point_Ok in HU as (EU & _ & HsU). rewrite Hra in Hverify. cbn [ra_derivation] in Hverify.
  cbn [pri_share] in Hshare. exists secret, U, reply, signed_at, sig. split_and!; try done.
  - rewrite <- EU. by apply G1_from_to.
  - by rewrite Hshare.
  - rewrite Hshare. apply G1_from_Ok in Hk as [? _]. cbn. auto with orbis.
  - eapply (signed_verifies sk key _ _ sig Hkey Hpub). unfold served_statement. rewrite Hshare in *. exact Hsig.
Qed.

(** An honest responder is counted.  What a ring member answers to a request
    it serves is accepted by a coordinator that resolved the same document and
    ring, within the window of its clock, as the share of that member: it is
    neither dropped nor turned into an accusation. *)
Lemma honest_share_accepted fuel req rng s msg rng' s' r rdr_pk secret U pp node_id peer_id signed_at now seen :
  handle_reencrypt_request (F:=F) (G:=G) app fuel req rng s = (Ok (Some msg, rng'), s') ->
  resolve_request app (eq_context req) = Ok r -> serving_member r pp node_id ->
  G1Affine_from_bytes (F:=F) (px_rdr_pk_bytes (eq_context req)) = Ok rdr_pk ->
  Secret_from_str (document (rs_document r)) = Some secret -> G1Affine_from_bytes (F:=F) (enc_cmt secret) = Ok U ->
  pa_sign_time app = Some signed_at -> response_in_window now signed_at = true -> node_id ∉ seen ->
  exists share, pub_i share = node_id /\
    verify_peer_response (F:=F) now msg rdr_pk pp U (px_derivation (eq_context req)) node_id
      (collected_context req r peer_id) seen = (PeerVerified share, {[node_id]} ∪ seen).
Proof.
  intros E Hr M Hk Hs HU Ht Hw Hseen.
  destruct (served_reply _ _ _ _ _ _ _ _ _ _ _ E Hr M Hk)
    as (secret' & U' & reply & signed_at' & sig & Hs' & HU' & Hi & Hsub & Hverify & Ht' & Hsig & ->).
  rewrite Hs in Hs'. injection Hs' as <-. rewrite HU in HU'. apply Ok_inj in HU' as <-. rewrite Ht in Ht'. injection Ht' as <-.
  assert (MkReencryptReply (MkPubShare node_id (pub_v (rr_share reply))) (rr_challenge reply) (rr_proof reply) = reply)
    as Heta by (destruct reply as [[] c f]; cbn in *; by subst).
  exists (rr_share reply). split; [done|]. cbn [verify_peer_response].
  rewrite bool_decide_false by done. rewrite Z.eqb_refl, Hw. cbn [negb].
  match goal with |- context [verify_node_message ?k ?m ?g] =>
    assert (verify_node_message k m g = Ok tt) as -> by (rewrite <- Hi; exact Hsig) end.
  rewrite G1_from_to, !Fr_from_to, Heta, Hverify by done. done.
Qed.
End Release.
