(* ===== verification/PreCollect.v ===== *)
(** * Theorems on the PRE initiator

    A request is served whenever enough ring members answer it, whatever the
    others send, and what comes out opens the document. *)
From S2P Require Import Prelude Algebra Interpolation Primitives Toy Codec Common Dkg Context Sigma Shares Pre Pet.
From S2P Require Import DkgSpec Feldman PreTheorems.
From S2P Require Import ReportCodec ReportStatements ReportPet Evidence Identity NodeState Envelope Collection Responses Auth Routes Bulletin RingState PetNode Reporting Relay PetProtocol PreNode PreInitiator PetAdmission PetHonest PreRelease.

(** A response that is not counted. *)
Ltac refused E := injection E as <- <-; split; [by auto|by intros].

Section Collect.
Context {F G S P : Type} {SF : ScalarField F} {CG : CurveGroup F G} {BL : Blst F G S P} {SHA : Sha2} {AE : Aead} {KD : Kdf}.
Context {HX : Hex} {EC : Ecdsa} {PJ : PetJson} {PD : PointDisplay G} {UC : UnicodeCase} {RJ : PreJson}.
Context {St : Type} {LS : LocalStorage St}.
Add Field FField : (f_theory (F:=F)).

(** ** One response *)

(** The share the member at index [i] owes: its value of the key polynomial,
    times the derivation, times the reader's point and the commitment. *)
Definition owed (cs : list F) (rdr_pk U : G) (derivation : option bytes) (i : Z) : G :=
  (rdr_pk ⊕ U) ⊙ derivation_factor derivation ⊙ peval cs (from_u64 i).

Lemma peer_response_outcome now m rdr_pk pp (U : G) d i c seen v seen' :
  verify_peer_response (F:=F) now m rdr_pk pp U d i c seen = (v, seen') ->
  (seen' = seen \/ seen' = {[i]} ∪ seen) /\
  (forall share, v = PeerVerified share -> pub_i share = i /\ (i ∉ seen) /\ seen' = {[i]} ∪ seen /\
    exists rid sb cb pb t sig (ch pf : F), m = PreReencryptResponse rid i sb cb pb t sig /\
      G1Affine_from_bytes (F:=F) sb = Ok (pub_v share) /\ verify rdr_pk pp U (MkReencryptReply share ch pf) d = Ok tt).
Proof.
  unfold verify_peer_response, report_invalid_pre_response. intros E.
  destruct m as [req|rid j sb cb pb t sig|rid e]; [refused E| |refused E].
  case_bool_decide as Hs; [refused E|]. destruct (Z.eqb_spec j i) as [->|]; [|refused E].
  cbn [negb] in E. destruct (response_in_window now t); [|refused E]. cbn [negb] in E.
  destruct (verify_node_message _ _ _); [|refused E..].
  destruct (G1Affine_from_bytes sb) as [share| | |] eqn:Esh; [|refused E..].
  destruct (Fr_from_bytes cb) as [ch| | |]; [|refused E..].
  destruct (Fr_from_bytes pb) as [pf| | |]; [|refused E..].
  destruct (verify _ _ _ _ _) as [[]| | |] eqn:Ev; [|refused E..]. injection E as <- <-.
  split; [auto|]. intros sh [= <-]. cbn. split_and!; [done..|]. by exists rid, sb, cb, pb, t, sig, ch, pf.
Qed.

(** The message of an arrival. *)
Definition arrival_message (a : Arrival) : option (bytes * PreMessage) :=
  match ar_result a with Some (peer, Ok (Some m)) => Some (peer, m) | _ => None end.

(** A response the table held, as an arrival. *)
Definition stored_arrival (r : option Z * AuthenticatedResponse PreMessage) : Arrival :=
  MkArrival r.1 (Some (sender_peer_hex r.2, Ok (Some (message r.2)))).

(** The lemma for one response of the loop. *)
Section Request.
Context (version : Z) (request_id : bytes) (ring : RingConfig) (ctx : PreRequestContext) (binding : PreReportBinding)
  (bundle : option RingShareBundle) (request : ReencryptionRequestMaterial G) (cs : list F).

Let derivation := px_derivation ctx.
Let material := MkReencryptionMaterial (MkPubPoly (commit_all (G:=G) cs)) bundle.
Let right_share (sh : PubShare G) := pub_v sh = owed cs (qm_rdr_pk request) (qm_enc_cmt request) derivation (pub_i sh).
Let check := check_response (F:=F) version request_id ring ctx binding material request.

(** The initiator's own check of the message takes it, and the share it takes
    is not the one the member owes. *)
Definition false_reply (a : Arrival) : Prop :=
  exists peer m seen share seen', arrival_message a = Some (peer, m) /\
    check (ar_now a) peer m seen = Some (PeerVerified share, seen') /\ ~ right_share share.

Context (HN : Z.of_nat (length (rc_peer_node_keys ring)) < 2 ^ 32).

Lemma ring_node_id_range peer i :
  determine_ring_node_id_from_peer_id peer ring = Some i -> 1 <= i <= Z.of_nat (length (rc_peer_node_keys ring)).
Proof.
  unfold determine_ring_node_id_from_peer_id. case_match; [done|]. intros (k & _ & Hi)%bind_Some.
  apply session_node_id_Some in Hi as [H1 Hl%lookup_lt_Some]; [|done].
  pose proof (sorted_peer_ids_length (rc_peer_node_keys ring)). lia.
Qed.

Lemma check_response_outcome now peer m seen v seen' :
  check now peer m seen = Some (v, seen') ->
  exists i, determine_ring_node_id_from_peer_id peer ring = Some i /\ (seen' = seen \/ seen' = {[i]} ∪ seen) /\
    (forall share, v = PeerVerified share -> pub_i share = i /\ (i ∉ seen) /\ i ∈ seen').
Proof.
  unfold check, check_response. intros (i & Hi & (k & _ & [= E])%bind_Some)%bind_Some. exists i. split; [done|].
  apply peer_response_outcome in E as [Hs Hv]. split; [done|]. intros share ->.
  destruct (Hv share eq_refl) as (Hi' & Hn & -> & _). split_and!; [done|done|by apply elem_of_union_l, elem_of_singleton].
Qed.

(** *** The collection *)

(** The member an arrival counts for. *)
Definition arrival_node (a : Arrival) : option Z :=
  '(peer, _) ← arrival_message a; determine_ring_node_id_from_peer_id peer ring.

Definition arrival_check (a : Arrival) (seen : gset Z) : option (PubShare G) * gset Z :=
  match '(peer, m) ← arrival_message a; check (ar_now a) peer m seen with
  | Some (v, seen) => (match v with PeerVerified share => Some share | _ => None end, seen)
  | None => (None, seen)
  end.

(** The share is owed, or a false reply was accepted. *)
Definition share_accepted (bad : Prop) (sh : PubShare G) : Prop :=
  1 <= pub_i sh <= Z.of_nat (length (rc_peer_node_keys ring)) /\ (right_share sh \/ bad).

(** An arrival that counts as soon as its member was not seen. *)
Definition counts : Arrival -> Prop := valid_answer arrival_node arrival_check.

Lemma arrival_fair bad a :
  (false_reply a -> bad) ->
  fair_check arrival_node pub_i arrival_check (share_accepted bad) a.
Proof.
  intros Hb seen r seen'. unfold arrival_check, arrival_node.
  destruct (arrival_message a) as [[peer m]|] eqn:Em; cbn [mbind option_bind]; [|intros [= <- <-]; split; [by left|done]].
  destruct (check (ar_now a) peer m seen) as [[v seen1]|] eqn:E; [|intros [= <- <-]; split; [by left|done]].
  destruct (check_response_outcome _ _ _ _ _ _ E) as (i & Hi & Hs & Hv). intros [= <- <-]. rewrite Hi.
  split; [destruct Hs; [by left|right; by exists i]|]. intros x Hx. destruct v as [share|o|]; try done. injection Hx as <-.
  destruct (Hv share eq_refl) as (<- & Hn & Hin). split_and!; [done..|]. split; [by eapply ring_node_id_range|].
  destruct (decide (right_share share)) as [Hr|Hr]; [by left|right]. apply Hb. by exists peer, m, seen, share, seen1.
Qed.

Let step := handle_arrival (F:=F) version request_id ring ctx binding material request.
Let loop := collect_loop (F:=F) version request_id ring ctx binding material request.

Lemma arrival_step a st :
  (cl_seen (step a st), cl_shares (step a st)) = absorb arrival_check a (cl_seen st, cl_shares st) /\
  cl_successful (step a st) = cl_successful st + gain arrival_check a (cl_seen st, cl_shares st).
Proof.
  unfold step, handle_arrival, absorb, gain, arrival_check, arrival_message.
  destruct (ar_result a) as [[peer [[m|]|e| |]]|]; cbn; rewrite ?app_nil_r; try (split; [done|lia]).
  fold check. destruct (check (ar_now a) peer m (cl_seen st)) as [[[share|o|] seen]|]; cbn; rewrite ?app_nil_r; split; done || lia.
Qed.

Lemma loop_collects min arrivals st :
  collect_until arrival_check min arrivals (cl_successful st) (cl_seen st, cl_shares st)
    = (cl_successful (loop min arrivals st), (cl_seen (loop min arrivals st), cl_shares (loop min arrivals st))).
Proof.
  revert st. induction arrivals as [|a arrivals IH]; intros st; [done|]. cbn [loop collect_loop collect_until]. fold step.
  destruct (arrival_step a st) as [E1 E2]. rewrite <- E1, <- E2. destruct (_ <=? _); [done|]. by rewrite IH.
Qed.

Lemma stored_collect l st :
  let st' := fold_left (fun st r => handle_stored (F:=F) version request_id ring ctx binding material request r.1 r.2 st) l st in
  (cl_seen st', cl_shares st') = collect_all arrival_check (stored_arrival <$> l) (cl_seen st, cl_shares st).
Proof.
  revert st. induction l as [|r l IH]; intros st; [done|]. cbn [fold_left fmap list_fmap collect_all] in *. rewrite IH.
  unfold collect_all. f_equal. unfold handle_stored, absorb, arrival_check. cbn. fold check.
  destruct (check r.1 (sender_peer_hex r.2) (message r.2) (cl_seen st)) as [[[share|o|] seen]|]; cbn; by rewrite ?app_nil_r.
Qed.
End Request.

(** ** The request *)

(** The node's own share, when it has one, is its value of the polynomial. *)
Definition bundle_on_polynomial (ring : RingConfig) (cs : list F) (bundle : option RingShareBundle) : Prop :=
  forall b (share : PriShare F), bundle = Some b -> PriShare_from_bytes (share_bytes b) = Ok share ->
    pri_v share = peval cs (from_u64 (pri_i share)) /\ 1 <= pri_i share <= Z.of_nat (length (rc_peer_node_keys ring)).

Lemma local_share_right fuel self cs bundle (request : ReencryptionRequestMaterial G) ring ctx context rng local rng1 :
  bundle_on_polynomial ring cs bundle -> ra_derivation context = px_derivation ctx ->
  decompress_point (enc_cmt (qm_secret request)) = Ok (qm_enc_cmt request) ->
  compute_local_reencryption_share fuel self (MkReencryptionMaterial (MkPubPoly (commit_all cs)) bundle) request ctx context
    rng = Ok (local, rng1) ->
  Forall (fun sh => 1 <= pub_i sh <= Z.of_nat (length (rc_peer_node_keys ring)) /\
    pub_v sh = owed cs (qm_rdr_pk request) (qm_enc_cmt request) (px_derivation ctx) (pub_i sh)) (option_list local).
Proof.
  intros Hb Hd HU. unfold compute_local_reencryption_share. destruct self; cbn [negb]; [|by intros [= <- _]].
  intros E. bind_ok E as b Hbun%ok_or_Ok. cbn in Hbun. bind_ok E as share Hsh%map_err_Ok.
  bind_ok E as [reply rng2] Hr%map_err_Ok. destruct (Hb b share Hbun Hsh) as [Hv Hi].
  destruct (reencrypt_reply_ok _ _ _ _ _ _ _ _ _ (MkPubPoly (commit_all cs)) Hr) as (Hsig & U & HU' & Hs & _).
  { unfold PubPoly_eval. cbn. by rewrite eval_points_commit, Hv. }
  rewrite HU in HU'. apply Ok_inj in HU' as <-. destruct (verify _ _ _ _ _); injection E as <- _; [|constructor..].
  apply verify_reader_authorization_Ok in Hsig as (_ & [k Hk]%in_subgroup_spec & _).
  apply decompress_point_Ok in HU as (_ & _ & [u Hu]%in_subgroup_spec).
  apply Forall_singleton. rewrite Hs, Hd. cbn. split; [done|]. rewrite Hv, Hk, Hu. unfold owed. dlog. f_equal. ring.
Qed.

(** The collection gathers enough shares, each owed or accepted over a false
    reply. *)
Lemma collect_enough version request_id ring ctx binding bundle request cs arrivals stored hs local r :
  let material := MkReencryptionMaterial (MkPubPoly (commit_all (G:=G) cs)) bundle in
  let shares := option_list local in
  let bad := exists a, a ∈ arrivals ++ (stored_arrival <$> stored) /\
    false_reply version request_id ring ctx binding bundle request cs a in
  Z.of_nat (length (rc_peer_node_keys ring)) < 2 ^ 32 ->
  Forall (fun sh => 1 <= pub_i sh <= Z.of_nat (length (rc_peer_node_keys ring)) /\
    pub_v sh = owed cs (qm_rdr_pk request) (qm_enc_cmt request) (px_derivation ctx) (pub_i sh)) shares ->
  sublist hs arrivals -> Forall (counts version request_id ring ctx binding bundle request cs) hs ->
  rc_threshold ring <= Z.of_nat (length shares + length hs) ->
  NoDup ((pub_i <$> shares) ++ omap (arrival_node ring) arrivals) ->
  exists st, collect_network_reencryption_shares version request_id ring ctx binding material request
      (Z.of_nat (length shares)) arrivals (Some stored) (MkCollectState (list_to_set (pub_i <$> shares)) shares 0 r) = (Ok tt, st) /\
    collected pub_i (share_accepted ring ctx request cs bad) (cl_seen st, cl_shares st) /\
    rc_threshold ring <= Z.of_nat (length (cl_shares st)).
Proof.
  intros material shares bad HN Hl Hsub Hh Ht HD. unfold collect_network_reencryption_shares.
  set (st0 := MkCollectState _ shares 0 r). set (min := u64_saturating_sub _ _).
  set (st1 := if 0 <? min then _ else st0). eexists. split; [done|].
  set (check := arrival_check version request_id ring ctx binding bundle request cs).
  assert ((if 0 <? min then (collect_until check min arrivals 0 (list_to_set (pub_i <$> shares), shares)).2
    else (list_to_set (pub_i <$> shares), shares)) = (cl_seen st1, cl_shares st1)) as E.
  { unfold st1. destruct (0 <? min); [|done].
    pose proof (loop_collects version request_id ring ctx binding bundle request cs min arrivals st0) as E.
    cbn [cl_successful cl_seen cl_shares st0] in E. unfold check. by rewrite E. }
  pose proof (stored_collect version request_id ring ctx binding bundle request cs stored st1) as Es. cbn zeta in Es.
  fold material check in Es. set (st2 := fold_left _ stored st1) in Es |- *.
  pose proof (collection_enough (arrival_node ring) pub_i check (share_accepted ring ctx request cs bad) (rc_threshold ring) shares
    arrivals (stored_arrival <$> stored) hs) as H. unfold collection in H. change (Z.max 0 _) with min in H. rewrite E in H.
  rewrite <- Es in H. apply H; try done.
  - apply Forall_forall. intros a Ha. apply arrival_fair; [lia|]. intros Hf. by exists a.
  - eapply Forall_impl; [exact Hl|]. intros sh [Hi Hv]. split; [done|by left].
Qed.

Lemma finalize_recovers pss (ring : RingConfig) ctx request cs bad st secret_bytes secret :
  collected pub_i (share_accepted ring ctx request cs bad) (cl_seen st, cl_shares st) ->
  rc_threshold ring <= Z.of_nat (length (cl_shares st)) ->
  1 <= rc_threshold ring <= rc_total_participants ring -> rc_total_participants ring < 2 ^ 32 ->
  Z.of_nat (length (rc_peer_node_keys ring)) <= rc_total_participants ring -> (length cs <= Z.to_nat (rc_threshold ring))%nat ->
  in_subgroup (qm_rdr_pk request) = true -> in_subgroup (qm_enc_cmt request) = true ->
  Secret_from_str secret_bytes = Some secret -> (forall b, is_Some (PreResponse_to_vec b secret)) ->
  exists response xnc, finalize_reencryption (F:=F) pss (cl_shares st) ring secret_bytes = Ok response /\
    PreResponse_to_vec (hex_encode (g_serialize xnc)) secret = Some response /\
    (xnc = (qm_rdr_pk request ⊕ qm_enc_cmt request) ⊙ derivation_factor (px_derivation ctx) ⊙ peval cs 0%fr \/ bad).
Proof.
  intros [D _ A] Hlen Ht Hn Hk Hcs Hr HU Hs Hj. cbn [snd] in D, A. apply Forall_and in A as [R V].
  assert (indices_ok (rc_total_participants ring) (take (Z.to_nat (rc_threshold ring)) (pub_i <$> cl_shares st))) as Hi.
  { split.
    - apply Forall_take, Forall_fmap. eapply Forall_impl; [exact R|]. intros sh Hsh. cbn in *. unfold as_u32.
      rewrite Z.mod_small by lia. lia.
    - eapply sublist_NoDup; [exact D|apply sublist_take]. }
  set (B := (qm_rdr_pk request ⊕ qm_enc_cmt request) ⊙ derivation_factor (px_derivation ctx)) in *.
  assert (exists xnc, recover (F:=F) (cl_shares st) (rc_threshold ring) (rc_total_participants ring) = Ok (Some xnc) /\
    (xnc = B ⊙ peval cs 0%fr \/ bad)) as (xnc & Hrec & Hx).
  { destruct (decide (Forall (fun sh => pub_v sh = B ⊙ peval cs (from_u64 (pub_i sh))) (cl_shares st))) as [Hv|Hv].
    - exists (B ⊙ peval cs 0%fr). split; [|by left]. apply recover_valid; [unfold B; auto with orbis|done..].
    - apply not_Forall_Exists in Hv; [|apply _]. apply Exists_exists in Hv as (sh & Hsh & Hne). rewrite Forall_forall in V.
      destruct (V sh Hsh) as [E|Hb]; [by destruct Hne|].
      destruct (recover_total (F:=F) (cl_shares st) (rc_threshold ring) (rc_total_participants ring)) as [xnc E]; [done..|].
      eauto. }
  destruct (Hj (hex_encode (g_serialize xnc))) as [response Hres]. exists response, xnc. split_and!; [|done..].
  unfold finalize_reencryption. rewrite (proj2 (Z.ltb_ge _ _)) by lia. cbn [andb reject res_bind].
  rewrite Hrec. cbn [map_err res_bind ok_or G1Affine_to_bytes]. rewrite Hs. cbn [ok_or res_bind]. by rewrite Hres.
Qed.

End Collect.

(** ** The request, served *)

Section Served.
Context {F G S P : Type} {SF : ScalarField F} {CG : CurveGroup F G} {BL : Blst F G S P} {SHA : Sha2} {AE : Aead} {KD : Kdf}.
Context {HX : Hex} {EC : Ecdsa} {DJ : DocumentJson} {PJ : PetJson} {AZ : Authz} {JW : JwtLib PreClaims}.
Context {HO : HashOrder} {PD : PointDisplay G} {UC : UnicodeCase} {RJ : PreJson}.
Context {St Post : Type} {LS : LocalStorage St} {BP : BulletinPosts Post} {DP : DocumentPosts Post}.

(** An arrival that carries the answer of a ring member: a node whose handler
    served this request, having resolved the document and the ring the
    coordinator did, and whose clock agrees with the coordinator's. *)
Record answered_by (app : PreApp St Post) (version : Z) (request_id : bytes) (ring : RingConfig) (ctx : PreRequestContext)
    (binding : PreReportBinding) (pp : PubPoly G) (secret : Secret) (a : Arrival) : Prop := {
  an_run : exists fuel from rng s peer m rng' s', arrival_message a = Some (peer, m) /\
    handle_reencrypt_request (F:=F) (G:=G) app fuel (MkReencryptRequest request_id from ctx) rng s = (Ok (Some m, rng'), s') /\
    pre_node_key_for_peer ring peer = Some (app_node_key (pa_pet app)) /\
    exists i r signed_at, determine_ring_node_id_from_peer_id peer ring = Some i /\ resolve_request app ctx = Ok r /\
      serving_member (F:=F) app r pp i /\ Secret_from_str (document (rs_document r)) = Some secret /\
      binding = PreReportBinding_from_ring (app_chain_id (pa_pet app)) (ring_id (rs_document r)) (rs_ring r)
        (timestamp (rs_document r)) (rs_evidence r) /\ version = app_version (pa_pet app) /\
      pa_sign_time app = Some signed_at /\ response_in_window (default 0 (ar_now a)) signed_at = true;
}.

Lemma answer_counts app version request_id ring ctx binding bundle (rdr_pk : G) secret U cs a :
  G1Affine_from_bytes (F:=F) (px_rdr_pk_bytes ctx) = Ok rdr_pk -> G1Affine_from_bytes (F:=F) (enc_cmt secret) = Ok U ->
  answered_by app version request_id ring ctx binding (MkPubPoly (commit_all cs)) secret a ->
  counts version request_id ring ctx binding bundle (MkReencryptionRequestMaterial rdr_pk secret U) cs a.
Proof.
  intros Hk HU [(fuel & from & rng & s & peer & m & rng' & s' & Hm & Hrun & Hkey & i & r & t & Hi & Hr & Hsm & Hs & -> & -> & Ht & Hw)].
  exists i. unfold arrival_node, arrival_check. rewrite Hm. cbn [mbind option_bind]. split; [done|]. intros seen Hseen.
  destruct (honest_share_accepted app fuel (MkReencryptRequest request_id from ctx) rng s m rng' s' r rdr_pk secret U
    (MkPubPoly (commit_all cs)) i peer t (default 0 (ar_now a)) seen) as (sh & _ & E); [done..|].
  exists sh. match goal with |- context [check_response ?v ?q ?g ?c ?b ?x ?y ?n ?p ?w ?z] =>
    assert (check_response v q g c b x y n p w z = Some (PeerVerified sh, {[i]} ∪ seen)) as -> end; [|done].
  unfold check_response. rewrite Hi, Hkey. cbn [mbind option_bind]. f_equal. exact E.
Qed.

(** The pipeline, given the responses the table held. *)
Lemma inner_served fuel version (storage : St) pss request_id ring secret_bytes self peers ctx binding context
    (arrivals : list Arrival) stored hs rng s fuel_e (cs : list F) (x : F) data cc rng_e U secret proof rng_e' bundle local rng1 :
  let t := rc_threshold ring in
  let rdr_pk := generator (G:=G) ⊙ x in
  encrypt_secret fuel_e (generator (G:=G) ⊙ peval cs 0%fr) data (px_derivation ctx) cc rng_e = Ok ((U, secret, proof), rng_e') ->
  Secret_from_str secret_bytes = Some secret -> (forall b, is_Some (PreResponse_to_vec b secret)) ->
  px_rdr_pk_bytes ctx = g_serialize rdr_pk -> ra_derivation context = px_derivation ctx ->
  load_ring_pub_poly_and_bundle storage ring self = Ok (MkPubPoly (commit_all cs), bundle) ->
  bundle_on_polynomial ring cs bundle ->
  1 <= t <= rc_total_participants ring -> rc_total_participants ring < 2 ^ 32 ->
  Z.of_nat (length (rc_peer_node_keys ring)) <= rc_total_participants ring -> (length cs <= Z.to_nat t)%nat ->
  t <= peers + (if self then 1 else 0) ->
  let request := MkReencryptionRequestMaterial rdr_pk secret U in
  compute_local_reencryption_share fuel self (MkReencryptionMaterial (MkPubPoly (commit_all cs)) bundle) request ctx context rng
    = Ok (local, rng1) ->
  sublist hs arrivals -> t <= Z.of_nat (length (option_list local) + length hs) ->
  Forall (fun a => exists app, answered_by app version request_id ring ctx binding (MkPubPoly (commit_all cs)) secret a) hs ->
  NoDup ((pub_i <$> option_list local) ++ omap (arrival_node ring) arrivals) ->
  exists response xnc s',
    initiate_reencryption_inner fuel version storage pss request_id ring secret_bytes self peers ctx binding context arrivals
      (Some stored) rng s = (Ok (response, rng1), s') /\
    PreResponse_to_vec (hex_encode (g_serialize xnc)) secret = Some response /\
    (decrypt_secret (generator ⊙ (derivation_factor (px_derivation ctx) * peval cs 0)%fr) xnc x secret cc = Ok data \/
     exists a, a ∈ arrivals ++ (stored_arrival <$> stored) /\
       false_reply version request_id ring ctx binding bundle request cs a).
Proof.
  intros t rdr_pk He Hs Hj Hk Hd Hload Hbun Ht Hn Hkeys Hcs Hpot request Hloc Hsub Hlen Hh HD.
  pose proof (decrypt_combined _ _ x _ _ _ _ _ _ _ _ He) as Hdec.
  apply encrypt_secret_Ok in He as (r & k & epk & key & Hr0 & _ & HU & _ & _ & _ & Hu & _).
  assert (decompress_point (enc_cmt secret) = Ok U) as HUd.
  { apply decompress_point_Ok. subst U. split_and!; [done|by apply gen_nonzero|auto with orbis]. }
  assert (in_subgroup U = true) as HUs by (subst U; auto with orbis).
  pose proof (local_share_right _ _ _ _ request _ _ _ _ _ _ Hbun Hd HUd Hloc) as Hl.
  assert (Forall (counts version request_id ring ctx binding bundle request cs) hs) as Hc.
  { eapply Forall_impl; [exact Hh|]. intros a [app Ha]. eapply answer_counts; [| |exact Ha].
    - rewrite Hk. apply G1_from_to. unfold rdr_pk. auto with orbis.
    - rewrite Hu. by apply G1_from_to. }
  unfold initiate_reencryption_inner, resolve_reencryption_material, resolve_reencryption_request.
  rewrite Hload. cbn [map_err res_bind]. rewrite (proj2 (Z.ltb_ge (if self then _ else _) _)) by (destruct self; fold t; lia).
  cbn [reject res_bind]. rewrite m_bind_Ok, Hk, G1_from_to by (unfold rdr_pk; auto with orbis). cbn [map_err res_bind].
  rewrite Hs. cbn [ok_or res_bind]. rewrite Hu, G1_from_to by done. cbn [map_err res_bind]. rewrite m_bind_Ok. fold request.
  rewrite Hloc, m_bind_Ok. cbn beta iota. rewrite m_bind_get.
  replace (match local with Some share => [share] | None => [] end) with (option_list local) by done.
  destruct (collect_enough version request_id ring ctx binding bundle request cs arrivals stored hs local s)
    as (st & -> & I & L); [lia|done..|].
  destruct (finalize_recovers pss ring ctx request cs _ st secret_bytes secret I L) as (response & xnc & Hf & Hv & Hx);
    try done; [cbn; unfold rdr_pk; auto with orbis|].
  rewrite m_bind_modify, m_bind_Ok, Hf, m_bind_Ok. exists response, xnc, (cl_reporting st). split_and!; [done..|].
  destruct Hx as [->|Hx]; [by left|by right].
Qed.

End Served.
