(* ===== verification/SignCollect.v ===== *)
(** * Theorems on the signing initiator

    Proved against the contract of a threshold signer, so they hold for the BLS
    and for the FROST build: the signature that is returned verifies, and a
    request that enough members answer is served, whatever the others send. *)
From S2P Require Import Prelude Algebra Interpolation Primitives Codec Common Dkg Context Sigma Shares Pre Pet Frost FrostTheorems Signer SignerContract.
From S2P Require Import PreCollect.
From S2P Require Import ReportCodec ReportStatements ReportDkg ReportPet Evidence Identity NodeState Envelope Collection Responses Auth Routes Bulletin RingState PetNode Reporting Relay PetProtocol PreNode SignHelpers Registry SignNode SignResponder PreInitiator SignInitiator SignRelease.
Import NonceStates.

(** An answer that is not counted. *)
Ltac not_counted := intros [= <- <-]; split; [by left|done].

(** ** The selection of a signing set *)
Section Selection.
Context {NonceCommitment : Type}.
Implicit Types l : list (Z * NonceCommitment).

Lemma select_rest_spec t selected l :
  NoDup selected.*1 -> Z.of_nat (length selected) <= t ->
  let r := select_rest t selected l in
  NoDup r.*1 /\ Z.of_nat (length r) <= t /\ selected ⊆ r /\ r ⊆ selected ++ l /\ (Z.of_nat (length r) = t \/ l.*1 ⊆ r.*1).
Proof.
  revert selected. induction l as [|[i c] l IH]; intros selected N L; cbn [select_rest].
  - split_and!; [done|done|done|by rewrite app_nil_r|right; by intros ? ?%elem_of_nil].
  - destruct (Z.eqb_spec (Z.of_nat (length selected)) t) as [E|E].
    { split_and!; [done|done|done|intros x Hx; apply elem_of_app; by left|by left]. }
    case_bool_decide as Hi.
    + destruct (IH selected N L) as (N' & L' & S1 & S2 & C). split_and!; [done|done|done|set_solver|].
      destruct C as [C|C]; [by left|right]. cbn. intros x [->|Hx]%elem_of_cons; [|by apply C].
      apply list_elem_of_fmap in Hi as (y & -> & Hy). by apply list_elem_of_fmap_2, S1.
    + destruct (IH (selected ++ [(i, c)])) as (N' & L' & S1 & S2 & C).
      { rewrite fmap_app. apply NoDup_app. split_and!; [done| |apply NoDup_singleton].
        by intros x Hx ->%list_elem_of_singleton. }
      { rewrite length_app. cbn. lia. }
      split_and!; [done|done|set_solver|set_solver|]. destruct C as [C|C]; [by left|right]. cbn.
      intros x [->|Hx]%elem_of_cons; [|by apply C].
      apply (list_elem_of_fmap_2 fst _ (i, c)). apply S1, elem_of_app. right. by apply list_elem_of_singleton.
Qed.

(** Exactly [t] commitments of different members are selected, the preferred one
    among them. *)
Lemma select_signing_commitments_Ok l t preferred :
  NoDup l.*1 -> 1 <= t <= Z.of_nat (length l) ->
  exists r, select_signing_commitments l t preferred = Ok r /\ NoDup r.*1 /\ Z.of_nat (length r) = t /\ r ⊆ l /\
    forall i, preferred = Some i -> i ∈ l.*1 -> i ∈ r.*1.
Proof.
  intros N Ht. unfold select_signing_commitments. rewrite (proj2 (Z.ltb_ge _ _)) by lia. cbn [reject res_bind].
  set (selected := match preferred with Some _ => _ | None => [] end).
  assert (NoDup selected.*1 /\ Z.of_nat (length selected) <= t /\ selected ⊆ l /\
    forall i, preferred = Some i -> i ∈ l.*1 -> i ∈ selected.*1) as (N0 & L0 & S0 & P0).
  { unfold selected. destruct preferred as [i|]; [|split_and!; [constructor|cbn; lia|by intros ? ?%elem_of_nil|done]].
    destruct (list_find _ l) as [[k c]|] eqn:Ef.
    - apply list_find_Some in Ef as (Hk & Hc & _). apply list_elem_of_lookup_2 in Hk.
      split_and!; [apply NoDup_singleton|cbn; lia|by intros x ->%list_elem_of_singleton|].
      intros j [= <-] _. by apply list_elem_of_singleton.
    - split_and!; [constructor|cbn; lia|by intros ? ?%elem_of_nil|]. intros j [= <-] (c & -> & Hc)%list_elem_of_fmap.
      apply list_find_None in Ef. rewrite Forall_forall in Ef. by destruct (Ef c Hc). }
  destruct (select_rest_spec t selected l N0 L0) as (N1 & L1 & S1 & S2 & C). set (r := select_rest t selected l) in *.
  exists (sort_by_id r). split; [done|]. pose proof (sort_by_id_perm r) as Pr. split_and!.
  - by rewrite Pr.
  - rewrite Pr. destruct C as [C|C]; [done|]. assert (l.*1 ⊆+ r.*1) as Hl by (by apply NoDup_submseteq).
    apply submseteq_length in Hl. rewrite !length_fmap in Hl. lia.
  - intros x Hx. rewrite Pr in Hx. apply S2, elem_of_app in Hx as [Hx|Hx]; [by apply S0|done].
  - intros i Hi Hin. rewrite Pr. specialize (P0 i Hi Hin) as (y & -> & Hy)%list_elem_of_fmap. by apply list_elem_of_fmap_2, S1.
Qed.
End Selection.

Section Initiator.
Context {F G S P Signature Share NonceCommitment SigningState : Type} {SF : ScalarField F} {CG : CurveGroup F G}.
Context {BL : Blst F G S P} {TS : ThresholdSigner F G Signature Share NonceCommitment SigningState} {SC : SignerContract TS}.
Context {SHA : Sha2} {HX : Hex} {EC : Ecdsa} {DJ : DocumentJson} {PJ : PetJson} {SJ : StateJson} {AZ : Authz} {AH : AuthzHistory}.
Context {JW : JwtLib SignClaims} {HO : HashOrder} {PR : Prost} {IJ : RingIndexJson} {PD : PointDisplay G} {UC : UnicodeCase}.
Context {RJ : SignJson} {St Post : Type} {LS : LocalStorage St} {BP : BulletinPosts Post} {DP : DocumentPosts Post}.
Context {KP : DerivationPosts Post} {BJ : PostJson Post}.
Context (validate_dkg_evidence : ReportEnvelope -> ReportValidationContext St Post -> RingPayload ->
  InvalidCryptoResponse -> report_result unit).

(** The answer an arrival carries, and the member it counts for. *)
Definition arrival_response (a : SignArrival) : option (AuthenticatedResponse SignMessage) :=
  match sr_result a with Some (_, Ok (Some r)) => Some r | _ => None end.

Definition arrival_member (ring : RingConfig) (a : SignArrival) : option Z :=
  r ← arrival_response a; determine_ring_node_id_from_peer_id (sender_peer_hex r) ring.

(** A response the table held, as an arrival. *)
Definition stored_arrival (now : option Z) (r : AuthenticatedResponse SignMessage) : SignArrival :=
  MkSignArrival now (Some (sender_peer_hex r, Ok (Some r))).

Section Rounds.
Context (app : SignApp St Post) (request_id : bytes) (ring : RingConfig) (context : SignContext).
Context (HN : Z.of_nat (length (rc_peer_node_keys ring)) < 2 ^ 32).

Let in_ring (i : Z) := 1 <= i <= Z.of_nat (length (rc_peer_node_keys ring)).

(** *** Round 1 *)

Definition nonce_check (a : SignArrival) (seen : gset Z) : option (Z * NonceCommitment) * gset Z :=
  match arrival_response a with Some r => nonce_of_response ring r seen | None => (None, seen) end.

Definition nonce_accepted (c : Z * NonceCommitment) : Prop := in_ring c.1 /\ nonce_wf c.2.

Lemma nonce_check_fair a : fair_check (arrival_member ring) fst nonce_check nonce_accepted a.
Proof.
  intros seen r seen'. unfold nonce_check, arrival_member, nonce_of_response, parse_peer_nonce_response.
  destruct (arrival_response a) as [m|]; [|not_counted]. cbn [mbind option_bind].
  destruct (determine_ring_node_id_from_peer_id _ ring) as [i|] eqn:Hi; [|not_counted].
  destruct (Responses.message m) as [|rid j b| | |]; try not_counted.
  destruct (Z.eqb_spec j i) as [->|]; cbn [negb]; [|not_counted].
  case_bool_decide as Hs; [not_counted|]. intros [= <- <-]. split; [right; by exists i|].
  intros x Hx. destruct (from_bytes b) as [c| | |] eqn:Eb; try done. injection Hx as <-. cbn.
  split_and!; [done|done|set_solver|]. split; [by eapply ring_node_id_range|by eapply contract_nonce_decode].
Qed.

Lemma nonce_arrival_step a st :
  let st' := handle_nonce_arrival app request_id ring context a st in
  (nc_seen st', nc_commitments st') = absorb nonce_check a (nc_seen st, nc_commitments st) /\
  nc_successful st' = nc_successful st + gain nonce_check a (nc_seen st, nc_commitments st).
Proof.
  unfold handle_nonce_arrival, absorb, gain, nonce_check, arrival_response.
  destruct (sr_result a) as [[peer [[r|]|e| |]]|]; cbn; rewrite ?app_nil_r; try (split; [done|lia]).
  destruct (nonce_of_response ring r (nc_seen st)) as [[c|] seen]; cbn; rewrite ?app_nil_r; split; done || lia.
Qed.

Lemma nonce_loop_collects min arrivals st :
  let st' := nonce_loop app request_id ring context min arrivals st in
  collect_until nonce_check min arrivals (nc_successful st) (nc_seen st, nc_commitments st)
    = (nc_successful st', (nc_seen st', nc_commitments st')).
Proof.
  revert st. induction arrivals as [|a arrivals IH]; intros st; [done|]. cbn [nonce_loop collect_until].
  destruct (nonce_arrival_step a st) as [E1 E2]. rewrite <- E1, <- E2. destruct (_ <=? _); [done|]. by rewrite IH.
Qed.

Lemma stored_nonces_collect l st :
  let st' := fold_left (fun st r => handle_stored_nonce ring r st) l st in
  (nc_seen st', nc_commitments st') = collect_all nonce_check (stored_arrival None <$> l) (nc_seen st, nc_commitments st).
Proof.
  revert st. induction l as [|r l IH]; intros st; [done|]. cbn [fold_left fmap list_fmap collect_all] in *. rewrite IH.
  unfold collect_all. f_equal. unfold handle_stored_nonce, absorb, nonce_check. cbn.
  destruct (nonce_of_response ring r (nc_seen st)) as [[c|] seen]; cbn; by rewrite ?app_nil_r.
Qed.

(** A change of the response table that leaves the entry of a request there, as
    the storing of responses does. *)
Definition keeps_entry (during : sign_response_table -> sign_response_table) (key : bytes) : Prop :=
  forall m, is_Some (m !! key) -> is_Some (during m !! key).

Lemma local_nonce_accepted fuel node_id self local rng own state rng1 :
  local_nonce (F:=F) fuel node_id self local rng = Ok (own, state, rng1) -> (own <> [] -> in_ring node_id) ->
  Forall nonce_accepted own /\ NoDup own.*1.
Proof.
  unfold local_nonce. destruct (if self then local else None) as [ks|]; [|intros [= <- _ _] _; by split; constructor].
  intros E Hi. bind_ok E as [[c st] rng2] Hg%map_err_Ok. apply Ok_inj in E. injection E as <- _ _.
  split; [|apply NoDup_singleton]. apply Forall_singleton. split; [by apply Hi|by eapply contract_generate].
Qed.

(** Round 1 with enough answers. *)
Lemma nonce_round_served fuel max_entries now local_peer_id node_id self local options arrivals during rng s own state rng1 hs :
  let nkey := versioned_key (view_version (sa_view app)) (bstr "nonce-" ++ request_id) in
  si_responses s !! nkey = None -> (size (si_responses s) < max_entries)%nat -> keeps_entry during nkey ->
  local_nonce (F:=F) fuel node_id self local rng = Ok (own, state, rng1) -> (own <> [] -> in_ring node_id) ->
  NoDup (own.*1 ++ omap (arrival_member ring) arrivals) -> sublist hs arrivals ->
  Forall (valid_answer (arrival_member ring) nonce_check) hs -> rc_threshold ring <= Z.of_nat (length own + length hs) ->
  exists commitments s' e,
    collect_nonces app request_id ring context fuel max_entries now local_peer_id node_id self local options arrivals during rng s
      = (Ok (commitments, state, rng1), s') /\
    NoDup commitments.*1 /\ Forall nonce_accepted commitments /\ rc_threshold ring <= Z.of_nat (length commitments) /\
    si_responses s' = delete nkey (during (<[nkey := e]> (si_responses s))).
Proof.
  intros nkey Hnew Hroom Hkeep Hown Hself HD Hsub Hh Ht. unfold collect_nonces. rewrite Hown, m_bind_Ok.
  destruct (local_nonce_accepted _ _ _ _ _ _ _ _ Hown Hself) as [Ho _].
  unfold m_bind, init_response_for_version, init_response. fold nkey. rewrite Hnew.
  rewrite bool_decide_false by (by intros []). rewrite (proj2 (Nat.leb_gt _ _)) by done. cbn [si_responses si_reporting].
  set (e := MkResponseEntry _ _ _ _). unfold take_authenticated_responses_for_version, take_authenticated_responses. fold nkey.
  destruct (Hkeep (<[nkey := e]> (si_responses s))) as [e' ->]; [by rewrite lookup_insert_eq|]. cbn [fmap option_fmap option_map].
  set (min := u64_saturating_sub _ _). set (st0 := MkNonceCollection _ own 0 _).
  destruct (collection_enough (arrival_member ring) fst nonce_check nonce_accepted (rc_threshold ring) own arrivals
    (stored_arrival None <$> responses e') hs) as [[D _ C] L]; try done; [by apply Forall_forall; intros; apply nonce_check_fair|].
  eexists _, _, e. split; [done|]. rewrite sort_by_id_perm. revert D C L. unfold collection. fold min.
  change (Z.max 0 (rc_threshold ring - Z.of_nat (length own))) with min.
  set (st1 := if 0 <? min then nonce_loop app request_id ring context min arrivals st0 else st0).
  assert ((if 0 <? min then (collect_until nonce_check min arrivals 0 (list_to_set own.*1, own)).2 else (list_to_set own.*1, own))
    = (nc_seen st1, nc_commitments st1)) as ->.
  { unfold st1. destruct (0 <? min); [|done]. pose proof (nonce_loop_collects min arrivals st0) as E. cbn [nc_successful nc_seen nc_commitments st0] in E. by rewrite E. }
  rewrite <- (stored_nonces_collect (responses e') st1). done.
Qed.

(** The answer of a member: what the handler of a node gives, under the number the
    transport's peer has in the ring. *)
Definition nonce_answered (a : SignArrival) : Prop :=
  exists r i node fuel req sender rng rng' s s', arrival_response a = Some r /\ arrival_member ring a = Some i /\
    handle_nonce_request (F:=F) (G:=G) validate_dkg_evidence node fuel req sender rng s = (Ok (Some (Responses.message r), rng'), s') /\
    SignMessage_sender_node_id (Responses.message r) = Some i.

Lemma nonce_answered_valid a : nonce_answered a -> valid_answer (arrival_member ring) nonce_check a.
Proof.
  intros (r & i & node & fuel & req & sender & rng & rng' & s & s' & Hr & Hi & E & Hid). exists i. split; [done|]. intros seen Hn.
  unfold handle_nonce_request in E. apply m_bind_inv in E as ([hex staged] & s1 & _ & E).
  apply m_lift_inv in E as ([[[j cb] sb] rng2] & Hm & E). apply m_lift_inv in E as (ck & _ & E).
  apply m_bind_inv in E as (u & s2 & _ & E). apply (f_equal fst) in E. cbn in E. apply Ok_inj in E. injection E as E _.
  rewrite <- E in Hid. injection Hid as ->. unfold make_nonce in Hm. bind_ok Hm as ? _. bind_ok Hm as ? _. bind_ok Hm as ? _.
  bind_ok Hm as ? _. bind_ok Hm as ks _. bind_ok Hm as [[c st] rng3] Hg%map_err_Ok. bind_ok Hm as cb' Hcb%map_err_Ok.
  bind_ok Hm as sb' _. apply Ok_inj in Hm. injection Hm as _ -> _ _.
  destruct (contract_nonce_encode c) as (b & Hto & Hfrom); [by eapply contract_generate|]. rewrite Hcb in Hto. apply Ok_inj in Hto as ->.
  exists (i, c). unfold nonce_check, arrival_member in *. rewrite Hr in *. cbn [mbind option_bind] in Hi.
  unfold nonce_of_response, parse_peer_nonce_response. rewrite Hi, <- E, Z.eqb_refl, bool_decide_false by done. cbn. by rewrite Hfrom.
Qed.

(** *** Round 2 *)
Section ShareRound.
Context (message : bytes) (material : SigningMaterial F G) (round : CommitmentRound NonceCommitment SigningState).

Let commitments := cr_signing_commitments round.
Let check := check_share ring message material round.

Definition share_check (a : SignArrival) (seen : gset Z) : option (PubShare Share) * gset Z :=
  match arrival_response a with
  | Some r => let '(v, seen) := check (sr_now a) r seen in (match v with SigVerified share => Some share | _ => None end, seen)
  | None => (None, seen)
  end.

Definition share_accepted (share : PubShare Share) : Prop :=
  in_ring (pub_i share) /\ share_wf (pub_v share) /\
  signer_verify_share message (sm_pub_poly material) share commitments (sm_derivation material) (sm_metadata material) = Ok tt.

Lemma check_share_outcome now r seen v seen' :
  check now r seen = (v, seen') ->
  let member := determine_ring_node_id_from_peer_id (sender_peer_hex r) ring in
  (seen' = seen \/ exists i, member = Some i /\ seen' = {[i]} ∪ seen) /\
  forall share, v = SigVerified share ->
    member = Some (pub_i share) /\ (pub_i share ∉ seen) /\ pub_i share ∈ seen' /\ share_accepted share.
Proof.
  unfold check, check_share, verify_peer_signature_response.
  destruct (determine_ring_node_id_from_peer_id _ ring) as [i|] eqn:Hi; [|not_counted].
  destruct (Responses.message r) as [| | |rid j b t sig|]; try not_counted.
  destruct (Z.eqb_spec j i) as [->|]; cbn [negb]; [|not_counted]. case_bool_decide as Hs; [not_counted|].
  intros [= <- <-]. split; [right; by exists i|]. intros share Hv. revert Hv. destruct (from_bytes b) as [x| | |] eqn:Eb; cbn.
  2-4: unfold attribute_bad_share; repeat case_match; done.
  destruct (signer_verify_share _ _ _ _ _ _) as [[]| | |] eqn:Ev; cbn.
  2-4: unfold attribute_bad_share; repeat case_match; done.
  intros [= <-]. cbn. split_and!; [done|done|set_solver|]. split_and!; [by eapply ring_node_id_range|by eapply contract_share_decode|done].
Qed.

Lemma share_check_fair a : fair_check (arrival_member ring) pub_i share_check share_accepted a.
Proof.
  intros seen x seen'. unfold share_check, arrival_member. destruct (arrival_response a) as [r|]; [|not_counted].
  destruct (check (sr_now a) r seen) as [v seen1] eqn:E. apply check_share_outcome in E as [Hs Hv]. intros [= <- <-]. split; [done|].
  intros y Hy. destruct v as [share|o|]; try done. injection Hy as <-. by apply Hv.
Qed.

Lemma share_arrival_step a st :
  let st' := handle_share_arrival app request_id ring context message material round a st in
  (sc_seen st', sc_shares st') = absorb share_check a (sc_seen st, sc_shares st) /\
  sc_successful st' = sc_successful st + gain share_check a (sc_seen st, sc_shares st).
Proof.
  unfold handle_share_arrival, absorb, gain, share_check, arrival_response, check.
  destruct (sr_result a) as [[peer [[r|]|e| |]]|]; cbn; rewrite ?app_nil_r; try (split; [done|lia]).
  destruct (check_share _ _ _ _ _ _ _) as [[share|o|] seen]; cbn; rewrite ?app_nil_r; split; done || lia.
Qed.

Lemma share_loop_collects min arrivals st :
  let st' := share_loop app request_id ring context message material round min arrivals st in
  collect_until share_check min arrivals (sc_successful st) (sc_seen st, sc_shares st)
    = (sc_successful st', (sc_seen st', sc_shares st')).
Proof.
  revert st. induction arrivals as [|a arrivals IH]; intros st; [done|]. cbn [share_loop collect_until].
  destruct (share_arrival_step a st) as [E1 E2]. rewrite <- E1, <- E2. destruct (_ <=? _); [done|]. by rewrite IH.
Qed.

Lemma stored_shares_collect l st :
  let st' := fold_left (fun st r => handle_stored_share ring message material round r.1 r.2 st) l st in
  (sc_seen st', sc_shares st') = collect_all share_check ((fun r => stored_arrival r.1 r.2) <$> l) (sc_seen st, sc_shares st).
Proof.
  revert st. induction l as [|r l IH]; intros st; [done|]. cbn [fold_left fmap list_fmap collect_all] in *. rewrite IH.
  unfold collect_all. f_equal. unfold handle_stored_share, absorb, share_check, check. cbn.
  destruct (check_share _ _ _ _ _ _ _) as [[share|o|] seen]; cbn; by rewrite ?app_nil_r.
Qed.

(** The result of the collection. *)
Lemma share_round_collection own arrivals during clock s :
  let table := during (si_responses s) in
  let key := versioned_key (view_version (sa_view app)) request_id in
  exists reporting, collect_network_signature_shares app request_id ring context message material round own arrivals during clock s =
    (match table !! key with
     | Some e => Ok (collection pub_i share_check (Z.max 0 (rc_threshold ring - Z.of_nat (length own))) own arrivals
         ((fun r => stored_arrival r.1 r.2) <$> imap (fun i r => (clock i, r)) (responses e))).2
     | None => Err (SignTimeout "No responses found for request {}")
     end, MkSignInitState (delete key table) reporting).
Proof.
  intros table key. unfold collect_network_signature_shares, take_authenticated_responses_for_version, take_authenticated_responses.
  fold table key. destruct (table !! key) as [e|]; [|by eexists]. cbn [fmap option_fmap option_map]. eexists. f_equal.
  set (min := u64_saturating_sub _ _). set (st0 := MkShareCollection _ own 0 _).
  set (st1 := if 0 <? min then share_loop app request_id ring context message material round min arrivals st0 else st0).
  unfold collection. change (Z.max 0 _) with min.
  assert ((if 0 <? min then (collect_until share_check min arrivals 0 (list_to_set (pub_i <$> own), own)).2
    else (list_to_set (pub_i <$> own), own)) = (sc_seen st1, sc_shares st1)) as ->.
  { unfold st1. destruct (0 <? min); [|done]. pose proof (share_loop_collects min arrivals st0) as E.
    cbn [sc_successful sc_seen sc_shares st0] in E. by rewrite E. }
  by rewrite <- (stored_shares_collect _ st1).
Qed.

(** *** The answers of members *)

(** A node that holds its share of the key, at its position on the key
    polynomial, and derives the key the coordinator does. *)
Definition signing_member (cs : list F) (node : SignApp St Post) (req : SignRequest) (sender : bytes) (i : Z) : Prop :=
  (forall a, request_authorized (F:=F) (G:=G) validate_dkg_evidence node req sender a ->
    au_derivation a = sm_derivation material /\ au_metadata a = sm_metadata material) /\
  (forall (ring_pk : G) bundle poly_bytes pub_poly (share : PriShare F), signing_bundle (F:=F) node req ring_pk = Ok bundle ->
    hex_decode (public_polynomial bundle) = Some poly_bytes -> PubPoly_from_bytes (F:=F) poly_bytes = Ok pub_poly ->
    PriShare_from_bytes (share_bytes bundle) = Ok share ->
    pub_poly = ring_poly cs /\ pri_i share = i /\ pri_v share = peval cs (from_u64 i) /\ pri_v share <> fzero).

Definition share_answered (cs : list F) (req : SignRequest) (a : SignArrival) : Prop :=
  exists r i node sender s s', arrival_response a = Some r /\ arrival_member ring a = Some i /\
    handle_sign_request (F:=F) (G:=G) validate_dkg_evidence node req sender s = (Ok (Some (Responses.message r)), s') /\
    signing_member cs node req sender i.

Lemma share_answered_valid cs req a :
  sm_pub_poly material = ring_poly cs -> sq_message req = message -> Forall is_u32 commitments.*1 ->
  deserialize_commitments (TD:=nonce_deserialize) (sq_all_commitments req) = Ok commitments ->
  share_answered cs req a -> valid_answer (arrival_member ring) share_check a.
Proof.
  intros Hpp Hmsg Hu Hcms (r & i & node & sender & s & s' & Hr & Hi & E & Hd & Hb). exists i. split; [done|]. intros seen Hn.
  apply handle_sign_request_Ok in E as (msg & au & state & [= <-] & _ & Hau & _ & _ & _ & Hsh).
  destruct (Hd au Hau) as [Ed Em].
  destruct Hsh as (rb & rk & bundle & pb & pp & share & cms & sig & sb & t & nsig & _ & _ & Hbun & Hpb & Hp & Hs & Hc & Hsig & Hsb & _ & Emsg).
  destruct (Hb _ _ _ _ _ Hbun Hpb Hp Hs) as (-> & <- & Hv & Hnz). rewrite Hcms in Hc. apply Ok_inj in Hc as <-.
  rewrite Hmsg, Ed, Em in Hsig. destruct (contract_sign cs (MkDistKeyShare share) _ _ _ _ _ _ Hv Hnz Hu Hsig) as (Hidx & Hwf & Hver).
  destruct (contract_share_encode _ Hwf) as (b & Hto & Hfrom). rewrite Hsb in Hto. apply Ok_inj in Hto as <-.
  cbn [pri_share] in Hidx. assert (MkPubShare (pri_i share) (pub_v sig) = sig) as Heta by (rewrite <- Hidx; by destruct sig).
  exists sig. unfold share_check, arrival_member, check, check_share in *. rewrite Hr in *. cbn [mbind option_bind] in Hi.
  rewrite Hi, Emsg. cbn [verify_peer_signature_response]. rewrite Z.eqb_refl, bool_decide_false by done. cbn [negb].
  unfold commitments in Hver.
  rewrite Hfrom. cbn [res_bind]. by rewrite Heta, Hpp, Hver.
Qed.

(** The node's own key share, when it has one. *)
Definition own_share_valid (cs : list F) : Prop :=
  forall ks, sm_local_dist_key_share material = Some ks ->
    pri_v (pri_share ks) = peval cs (from_u64 (pri_i (pri_share ks))) /\ pri_v (pri_share ks) <> fzero /\
    in_ring (pri_i (pri_share ks)).

Lemma own_share_accepted cs :
  sm_pub_poly material = ring_poly cs -> Forall is_u32 commitments.*1 -> own_share_valid cs ->
  Forall share_accepted (option_list (compute_local_signature_share material round message)).
Proof.
  intros Hpp Hu Hown. unfold compute_local_signature_share. destruct (cr_should_attempt_local_share round); [|constructor].
  cbn [negb]. destruct (sm_local_dist_key_share material) as [ks|] eqn:Hks; [|constructor]. cbn [mbind option_bind].
  destruct (Hown ks Hks) as (Hv & Hnz & Hi). rewrite Hpp. fold commitments.
  destruct (signer_sign _ _ _ _ _ _ _) as [sig| | |] eqn:Hs; try constructor.
  destruct (contract_sign cs ks _ _ _ _ _ _ Hv Hnz Hu Hs) as (Hidx & Hwf & Hver). rewrite Hver. cbn.
  apply Forall_singleton. unfold share_accepted. by rewrite Hidx, Hpp.
Qed.

(** ** Recovery *)

Lemma finalize_served pss cs shares pk :
  let t := rc_threshold ring in
  sm_pub_poly material = ring_poly cs -> signing_set (TS:=TS) t commitments ->
  verify_key (ring_poly cs) (sm_derivation material) (sm_metadata material) = Ok pk ->
  1 <= t <= rc_total_participants ring -> is_u32 (rc_total_participants ring) ->
  Z.of_nat (length (rc_peer_node_keys ring)) <= rc_total_participants ring -> (length cs <= Z.to_nat t)%nat ->
  (forall b, is_Some (SignResponse_to_vec b)) ->
  t <= Z.of_nat (length shares) -> NoDup (pub_i <$> shares) -> Forall share_accepted shares ->
  exists response signature b, finalize_signature pss shares ring message commitments material = Ok response /\
    signer_verify pk message signature = Ok tt /\ @to_bytes _ signature_serialize signature = Ok b /\
    SignResponse_to_vec (hex_encode b) = Some response.
Proof.
  intros t Hpp Hset Hpk Ht Hn Hkeys Hcs Hj Hlen D Ha.
  destruct (contract_recover cs message shares commitments (sm_derivation material) (sm_metadata material) t
    (rc_total_participants ring) pk) as (signature & Hrec & Hver); try done.
  { apply Forall_fmap. eapply Forall_impl; [exact Ha|]. intros sh (Hi & _). unfold in_ring in Hi. cbn. lia. }
  { eapply Forall_impl; [exact Ha|]. intros sh (_ & Hwf & Hv). by rewrite Hpp in Hv. }
  destruct (contract_signature_encode signature) as [b Hb]. destruct (Hj (hex_encode b)) as [response Hr].
  exists response, signature, b. split_and!; try done. unfold finalize_signature. fold t.
  rewrite (proj2 (Z.ltb_ge _ _)) by lia. cbn [andb reject res_bind]. rewrite Hpp, Hpk. cbn [map_err res_bind].
  rewrite Hrec. cbn [map_err res_bind ok_or]. rewrite Hver. cbn [map_err res_bind]. rewrite Hb. cbn [map_err res_bind]. by rewrite Hr.
Qed.
End ShareRound.

(** *** The commitments of a round *)

(** What Round 1 needs: the node's own nonce and the answers of members, as many
    as the threshold together, and a signing set the buffer can carry. *)
Record nonces_available (fuel : nat) (node_id : Z) (self : bool) (local : option (DistKeyShare F)) (arrivals : list SignArrival)
    (rng rng1 : Rng F) : Prop := {
  na_answers : exists own state hs, local_nonce (F:=F) fuel node_id self local rng = Ok (own, state, rng1) /\
    (own <> [] -> in_ring node_id) /\ NoDup (own.*1 ++ omap (arrival_member ring) arrivals) /\ sublist hs arrivals /\
    Forall nonce_answered hs /\ rc_threshold ring <= Z.of_nat (length own + length hs);
  na_fit : rc_threshold ring <= MAX_COMMITMENTS /\
    forall (c : NonceCommitment) b, @to_bytes _ nonce_serialize c = Ok b -> 1 <= Z.of_nat (length b) <= MAX_COMMITMENT_SIZE;
}.

Lemma nonce_key_differs v : versioned_key v (bstr "nonce-" ++ request_id) <> versioned_key v request_id.
Proof. unfold versioned_key. intros E. repeat apply app_inv_head in E. apply (f_equal length) in E. rewrite length_app in E. cbn in E. clear -E. lia. Qed.

Lemma selected_carried selected :
  Forall nonce_accepted selected -> Z.of_nat (length selected) <= MAX_COMMITMENTS ->
  (forall (c : NonceCommitment) b, @to_bytes _ nonce_serialize c = Ok b -> 1 <= Z.of_nat (length b) <= MAX_COMMITMENT_SIZE) ->
  Forall is_u32 selected.*1 /\
  exists b, serialize_commitments (TS:=nonce_serialize) selected = Ok b /\ deserialize_commitments (TD:=nonce_deserialize) b = Ok selected.
Proof.
  intros Ha Hl Hfit.
  assert (Forall is_u32 selected.*1) as Hu.
  { apply Forall_fmap. eapply Forall_impl; [exact Ha|]. intros c [Hi _]. unfold in_ring, is_u32 in *. cbn. lia. }
  split; [done|]. apply (commitments_round_trip (TS:=nonce_serialize) (TD:=nonce_deserialize) nonce_wf); [apply contract_nonce_encode| |done].
  eapply Forall_impl; [exact Ha|]. intros c [Hi Hw]. unfold in_ring in Hi. split_and!; [unfold is_u32; lia|done|apply Hfit].
Qed.

Lemma commitment_round_served fuel max_entries now local_peer_id node_id self local options message derivation metadata arrivals
    during rng rng1 s :
  let version := view_version (sa_view app) in
  let key := versioned_key version request_id in
  let nkey := versioned_key version (bstr "nonce-" ++ request_id) in
  is_Some (si_responses s !! key) -> si_responses s !! nkey = None -> (size (si_responses s) < max_entries)%nat ->
  keeps_entry during key -> keeps_entry during nkey -> 1 <= rc_threshold ring ->
  (forall b, exists base, sign_response_report_context_base (F:=F) (G:=G) app context request_id message b derivation metadata = Ok base) ->
  (if INTERACTIVE then nonces_available fuel node_id self local arrivals rng rng1 else rng1 = rng) ->
  exists round s', collect_signing_commitments app fuel max_entries now local_peer_id request_id ring node_id self context local
      options message derivation metadata arrivals during rng s = (Ok (round, rng1), s') /\
    signing_set (TS:=TS) (rc_threshold ring) (cr_signing_commitments round) /\
    deserialize_commitments (TD:=nonce_deserialize) (cr_all_commitments_bytes round) = Ok (cr_signing_commitments round) /\
    is_Some (si_responses s' !! key).
Proof.
  intros version key nkey Hkey Hnew Hroom Hk Hnk Ht Hbase Hn. unfold collect_signing_commitments, signing_set. destruct INTERACTIVE.
  - destruct Hn as [(own & state & hs & Hown & Hself & HD & Hsub & Hh & Hlen) (H256 & Hfit)].
    destruct (nonce_round_served fuel max_entries now local_peer_id node_id self local options arrivals during rng s own state rng1 hs)
      as (cms & s' & e & E & D & Ha & L & Es); try done; [eapply Forall_impl; [exact Hh|apply nonce_answered_valid]|].
    unfold m_bind at 1. rewrite E. cbn beta iota.
    destruct (select_signing_commitments_Ok cms (rc_threshold ring) (if self then Some node_id else None)) as (sel & Hsel & _ & Hl & Hsub' & _);
      [done|lia|]. rewrite Hsel, m_bind_Ok.
    destruct (selected_carried sel) as (Hu & b & Hser & Hde); [|lia|done|].
    { apply Forall_forall. intros c Hc. rewrite Forall_forall in Ha. by apply Ha, Hsub'. }
    rewrite Hser, m_bind_Ok. destruct (Hbase b) as [base ->]. rewrite m_bind_Ok. eexists _, s'. split; [done|]. cbn.
    split_and!; [done..|]. rewrite Es, lookup_delete_ne by apply nonce_key_differs. apply Hk.
    by rewrite lookup_insert_ne by apply nonce_key_differs.
  - subst rng1. unfold m_bind at 1, m_ret at 1. rewrite m_bind_Ok. cbn [serialize_commitments]. rewrite m_bind_Ok. destruct (Hbase []) as [base ->]. rewrite m_bind_Ok.
    eexists _, s. split; [done|]. cbn. done.
Qed.

(** What Round 2 needs: the node's own share and the answers of members, as many
    as the threshold together. *)
Definition shares_available (cs : list F) (message : bytes) (node_id : Z) (material : SigningMaterial F G)
    (round : CommitmentRound NonceCommitment SigningState) (arrivals : list SignArrival) : Prop :=
  let own := option_list (compute_local_signature_share material round message) in
  exists hs, sublist hs arrivals /\
    Forall (share_answered material cs (sign_request_for request_id node_id message (cr_all_commitments_bytes round) context)) hs /\
    NoDup ((pub_i <$> own) ++ omap (arrival_member ring) arrivals) /\ rc_threshold ring <= Z.of_nat (length own + length hs).

Lemma share_round_served cs message node_id material round arrivals during clock s :
  sm_pub_poly material = ring_poly cs -> own_share_valid material cs ->
  signing_set (TS:=TS) (rc_threshold ring) (cr_signing_commitments round) ->
  deserialize_commitments (TD:=nonce_deserialize) (cr_all_commitments_bytes round) = Ok (cr_signing_commitments round) ->
  shares_available cs message node_id material round arrivals ->
  is_Some (during (si_responses s) !! versioned_key (view_version (sa_view app)) request_id) ->
  exists shares s', collect_network_signature_shares app request_id ring context message material round
      (option_list (compute_local_signature_share material round message)) arrivals during clock s = (Ok shares, s') /\
    rc_threshold ring <= Z.of_nat (length shares) /\ NoDup (pub_i <$> shares) /\ Forall (share_accepted message material round) shares.
Proof.
  intros Hpp Hown [Hu Hset] Hde (hs & Hsub & Hh & HD & Hl) [e He].
  destruct (share_round_collection message material round (option_list (compute_local_signature_share material round message))
    arrivals during clock s) as [rep E]. rewrite He in E. eexists _, _. split; [exact E|].
  destruct (collection_enough (arrival_member ring) pub_i (share_check message material round) (share_accepted message material round)
    (rc_threshold ring) (option_list (compute_local_signature_share material round message)) arrivals
    ((fun r => stored_arrival r.1 r.2) <$> imap (fun i r => (clock i, r)) (responses e)) hs) as [[D _ C] L]; try done.
  - apply Forall_forall. intros a _. apply share_check_fair.
  - by eapply own_share_accepted.
  - eapply Forall_impl; [exact Hh|]. intros a. by apply share_answered_valid.
Qed.
End Rounds.

(** C7: a signing request that enough members answer is served.  Let the response
    table have room, let the node know the key polynomial of its ring, and let the
    members answer: in an interactive scheme with nonces first, then with shares
    over the signing set that was selected, each answer given by the handler of a
    node that holds its share, as many as the threshold with the node's own.
    Whatever else arrives in either round, in whatever order, the initiator
    returns a signature, the signature verifies under the ring's key or the key
    derived from it, and the entry of the request is gone from the response
    table. *)
Theorem signing_served (app : SignApp St Post) fuel max_entries now pss local_peer_id request_id ring message context options
    nonce_io share_io rng rng1 s (cs : list F) material pk :
  let t := rc_threshold ring in
  let version := view_version (sa_view app) in
  let key := versioned_key version request_id in
  let nkey := versioned_key version (bstr "nonce-" ++ request_id) in
  let member := determine_session_node_id (view_node_key (sa_view app)) (rc_peer_node_keys ring) in
  let self := bool_decide (is_Some member) && negb (bool_decide (view_node_key (sa_view app) ∈ excluded_node_keys options)) in
  let node_id := default 0 member in
  let local := sm_local_dist_key_share material in
  let start := <[key := MkResponseEntry _ [] (list_to_set (extract_node_part <$> contacted local_peer_id options ring)) now]>
    (si_responses s) in
  si_responses s !! key = None -> si_responses s !! nkey = None -> (Datatypes.S (size (si_responses s)) < max_entries)%nat ->
  keeps_entry (rd_during nonce_io) key -> keeps_entry (rd_during nonce_io) nkey -> keeps_entry (rd_during share_io) key ->
  resolve_signing_material app ring context message self (Z.of_nat (length (contacted local_peer_id options ring))) = Ok material ->
  sm_pub_poly material = ring_poly cs -> own_share_valid ring material cs ->
  verify_key (ring_poly cs) (sm_derivation material) (sm_metadata material) = Ok pk ->
  1 <= t <= rc_total_participants ring -> is_u32 (rc_total_participants ring) ->
  Z.of_nat (length (rc_peer_node_keys ring)) <= rc_total_participants ring -> (length cs <= Z.to_nat t)%nat ->
  (forall b, exists base, sign_response_report_context_base (F:=F) (G:=G) app context request_id message b (sm_derivation material)
    (sm_metadata material) = Ok base) ->
  (forall b, is_Some (SignResponse_to_vec b)) ->
  (if INTERACTIVE then nonces_available ring fuel node_id self local (rd_arrivals nonce_io) rng rng1 else rng1 = rng) ->
  (forall round s1, collect_signing_commitments app fuel max_entries (rd_now nonce_io) local_peer_id request_id ring node_id self
      context local options message (sm_derivation material) (sm_metadata material) (rd_arrivals nonce_io) (rd_during nonce_io) rng
      (MkSignInitState start (si_reporting s)) = (Ok (round, rng1), s1) ->
    shares_available request_id ring context cs message node_id material round (rd_arrivals share_io)) ->
  exists response signature b s',
    initiate_signing app fuel max_entries now pss local_peer_id request_id ring message context options nonce_io share_io rng s
      = (Ok (response, rng1), s') /\
    signer_verify pk message signature = Ok tt /\ @to_bytes _ signature_serialize signature = Ok b /\
    SignResponse_to_vec (hex_encode b) = Some response /\ si_responses s' !! key = None.
Proof.
  intros t version key nkey member self node_id local start Hnew Hnnew Hroom Hk1 Hk2 Hk3 Hmat Hpp Hown Hpk Ht Hn Hkeys Hcs Hbase Hj
    Hnonce Hshare.
  assert (Z.of_nat (length (rc_peer_node_keys ring)) < 2 ^ 32) as HN by (unfold is_u32 in Hn; lia).
  unfold initiate_signing. fold version member self node_id. unfold init_response_for_version, init_response. fold key.
  rewrite Hnew, bool_decide_false by (by intros []). rewrite (proj2 (Nat.leb_gt _ _)) by lia. fold start.
  unfold initiate_signing_inner. rewrite Hmat, m_bind_Ok.
  destruct (commitment_round_served app request_id ring context HN fuel max_entries (rd_now nonce_io) local_peer_id node_id self local
    options message (sm_derivation material) (sm_metadata material) (rd_arrivals nonce_io) (rd_during nonce_io) rng rng1
    (MkSignInitState start (si_reporting s))) as (round & s1 & E1 & Hset & Hde & He); try done.
  { by eexists; apply lookup_insert_eq. }
  { cbn [si_responses]. unfold start. rewrite lookup_insert_ne; [done|]. exact (not_eq_sym (nonce_key_differs request_id version)). }
  { unfold start. cbn [si_responses]. by rewrite map_size_insert_None. }
  { lia. }
  unfold m_bind at 1. fold local. rewrite E1. cbn beta iota.
  destruct (share_round_served app request_id ring context HN cs message node_id material round (rd_arrivals share_io)
    (rd_during share_io) (rd_clock share_io) s1) as (shares & s2 & E2 & L & D & Ha); try done; [by eapply Hshare|by apply Hk3|].
  unfold m_bind at 1. replace (match compute_local_signature_share material round message with Some sh => [sh] | None => [] end)
    with (option_list (compute_local_signature_share material round message)) by done. rewrite E2.
  destruct (finalize_served ring message material round pss cs shares pk) as (response & signature & b & Ef & Hver & Hb & Hr); try done.
  rewrite Ef, m_bind_Ok. exists response, signature, b. eexists. split; [done|]. split_and!; [done..|]. cbn.
  unfold remove_response_for_version, remove_response. apply lookup_delete_eq.
Qed.
End Initiator.
