(* ===== verification/Convictions.v ===== *)
(** * What a signed report shows

    Theorems on the validation of fault reports: what a node that signs a report
    has established about the accused, and that the answer of an honest member
    of a ring is not confirmed as an invalid one, also across refreshes of the
    ring's key, as far as these keep their history. *)
From S2P Require Import Prelude Algebra Interpolation Primitives Pairing Toy Codec Common WireCommitment Dkg Context Sigma Shares Pre Pet Signer.
From S2P Require Import DkgSpec Feldman PreTheorems.
From S2P Require Import ReportCodec ReportStatements ReportDkg ReportPet Evidence Identity NodeState Envelope Auth Routes Bulletin RingState PetNode Reporting Relay PetProtocol PreNode SignHelpers Registry PetAdmission PreRelease.

(** The statements the accused signed, for the kinds of evidence that hold their
    own signatures. *)
Definition signed_statements (e : InvalidCryptoResponse) : list (bytes * bytes) :=
  match e with
  | EvPre s sig => [(PreReencryptResponseStatement_canonical_bytes s, sig)]
  | EvSign s sig => [(SignResponseStatement_canonical_bytes s, sig)]
  | EvPetBlindReveal s sig => [(PetBlindRevealStatement_canonical_bytes s, sig)]
  | EvPetBlindDecrypt s sig => [(PetBlindDecryptStatement_canonical_bytes s, sig)]
  | EvDkgShare s sig =>
      [(DkgCommitmentStatement_canonical_bytes (ds_commitment_statement s), ds_commitment_signature s);
       (DkgShareStatement_canonical_bytes s, sig)]
  | EvDkgInvalidRefreshCommitment s sig => [(DkgCommitmentStatement_canonical_bytes s, sig)]
  | EvDkgEquivocation a b =>
      [(DkgCommitmentStatement_canonical_bytes (sc_statement a), sc_signature a);
       (DkgCommitmentStatement_canonical_bytes (sc_statement b), sc_signature b)]
  | _ => []
  end.

(** The moment the accused put into what it signed; of two commitments, the
    later one. *)
Definition evidence_signed_at (e : InvalidCryptoResponse) : Z :=
  match e with
  | EvPre s _ => pr_signed_at s
  | EvSign s _ => sr_signed_at s
  | EvPetBlindReveal s _ => rv_signed_at s
  | EvPetBlindDecrypt s _ => dy_signed_at s
  | EvDkgShare s _ => ds_signed_at s
  | EvDkgInvalidRefreshCommitment s _ => dc_signed_at s
  | EvDkgEquivocation a b => Z.max (dc_signed_at (sc_statement a)) (dc_signed_at (sc_statement b))
  | _ => 0
  end.

Section Convictions.
Context {F G S P Signature Share NonceCommitment SigningState : Type} {SF : ScalarField F} {CG : CurveGroup F G}.
Context {BL : Blst F G S P} {TS : ThresholdSigner F G Signature Share NonceCommitment SigningState} {SHA : Sha2}.
Context {HX : Hex} {EC : Ecdsa} {DJ : DocumentJson} {PJ : PetJson} {SJ : StateJson} {AZ : Authz} {AH : AuthzHistory}.
Context {PD : PointDisplay G} {St Post : Type} {LS : LocalStorage St} {BP : BulletinPosts Post}.
Context {DP : DocumentPosts Post} {KP : DerivationPosts Post}.
Abbreviation context_t := (ReportValidationContext St Post).

(** The ring and the people of a report: the ring is the one on the bulletin,
    and runs the validator's protocol version; the reporter and the validator
    are other members of it than the accused; the accused is one of its members,
    under the route it published; and the members without the accused are enough
    for a signature. *)
Record fair_report (envelope : ReportEnvelope) (context : context_t) : Prop := {
  fr_chain : re_chain_id envelope = vc_chain_id context;
  fr_ring : exists ring signing accused, read_ring (vc_read_ring context) (re_ring_id envelope) = Ok ring /\
    ring_pk ring = re_ring_pk envelope /\ ring_state_sha256 ring = re_ring_state_sha256 envelope /\
    effective_version (upgrade_info ring) (re_observed_at envelope) = Ok (vc_version context) /\
    (exists scope, committee_for_scope ring scope = Ok signing) /\ (exists scope, committee_for_scope ring scope = Ok accused) /\
    2 <= cv_threshold signing /\ vc_local_node_key context ∈ cv_peer_node_keys signing /\
    re_reporter_node_key envelope ∈ cv_peer_node_keys signing /\ re_accused_node_key envelope ∈ cv_peer_node_keys accused /\
    (NoDup (cv_peer_node_keys signing) ->
     cv_threshold signing <= Z.of_nat (length (filter (fun k => k <> re_accused_node_key envelope) (cv_peer_node_keys signing))));
  fr_local : vc_local_node_key context <> re_accused_node_key envelope;
  fr_accused : exists info, read_node_info (vc_read_node context) (re_accused_node_key envelope) = Ok info /\
    ni_peer_id info = re_accused_peer_id envelope;
  fr_reporter : exists info, read_node_info (vc_read_node context) (re_reporter_node_key envelope) = Ok info /\
    extract_node_part (ni_peer_id info) = hex_encode (default (vc_local_peer_id context) (vc_requester_peer_id context));
}.

Lemma filter_other (x : bytes) l :
  NoDup l -> length (filter (fun k => k <> x) l) = (length l - (if bool_decide (x ∈ l) then 1 else 0))%nat.
Proof.
  induction 1 as [|y l Hy _ IH]; [done|]. destruct (decide (y = x)) as [->|Hne].
  - rewrite filter_cons_False by naive_solver. rewrite IH, bool_decide_false by done. rewrite bool_decide_true by by left.
    cbn. lia.
  - rewrite filter_cons_True by done. cbn [length]. rewrite IH.
    rewrite (bool_decide_ext (x ∈ y :: l) (x ∈ l)) by (rewrite elem_of_cons; naive_solver).
    case_bool_decide as Hx; [|lia]. destruct l; [by apply elem_of_nil in Hx|cbn; lia].
Qed.

(** The steps every kind of report shares. *)
Lemma fair_report_intro envelope (context : context_t) ring scope scope' label committee version :
  re_chain_id envelope = vc_chain_id context -> read_ring (vc_read_ring context) (re_ring_id envelope) = Ok ring ->
  validate_report_route_version_at_observed_at envelope ring (vc_version context) = Ok version ->
  validate_ring_and_membership_for_scopes envelope ring scope scope' label = Ok committee ->
  validate_node_routes envelope context = Ok tt -> validate_local_signer envelope context committee label = Ok tt ->
  version = vc_version context /\ fair_report envelope context.
Proof.
  intros Hc Hr Hv Hm Hn Hl. unfold validate_report_route_version_at_observed_at in Hv. bind_ok Hv as v Hv'%map_err_Ok.
  bind_ok Hv as [] ?%reject_Ok%negb_false_iff%Z.eqb_eq. apply Ok_inj in Hv as <-. subst v. split; [done|].
  unfold validate_ring_and_membership_for_scopes in Hm. bind_ok Hm as [] _.
  do 2 (bind_ok Hm as [] ?%reject_Ok%negb_false_iff%bool_decide_eq_true). bind_ok Hm as accused Ha. bind_ok Hm as signing Hs.
  bind_ok Hm as [] Ht%reject_Ok%Z.ltb_ge. bind_ok Hm as [] Hz%reject_Ok%Z.ltb_ge. bind_ok Hm as [] Hq%reject_Ok.
  do 2 (bind_ok Hm as [] ?%reject_Ok%negb_false_iff%bool_decide_eq_true). apply Ok_inj in Hm as ->.
  unfold validate_local_signer in Hl. bind_ok Hl as [] Hla%reject_Ok%bool_decide_eq_false.
  apply reject_Ok, negb_false_iff, bool_decide_eq_true in Hl. unfold validate_node_routes in Hn. bind_ok Hn as ai Hai.
  bind_ok Hn as [] Hap%reject_Ok%negb_false_iff%bool_decide_eq_true. bind_ok Hn as ri Hri.
  apply reject_Ok, negb_false_iff, bool_decide_eq_true in Hn.
  constructor; [done| |done|by exists ai|by exists ri]. exists ring, committee, accused. split_and!; eauto. intros N.
  rewrite (filter_other _ _ N). revert Hq. unfold u64_saturating_sub. case_bool_decide; cbn [andb]; intros Hq; lia.
Qed.

Lemma prologue_Ok envelope (context : context_t) p :
  validate_invalid_crypto_statement_prologue envelope context p = Ok tt -> pl_check_anchor p = true ->
  re_chain_id envelope = vc_chain_id context /\ pl_request_id p = re_session_id envelope /\
  pl_ring_pk p = re_ring_pk envelope /\ pl_responder_node_key p = re_accused_node_key envelope /\
  re_observed_at envelope = pl_signed_at p - CHAIN_BLOCK_GRACE_SECS.
Proof.
  intros E Ha. unfold validate_invalid_crypto_statement_prologue in E. rewrite Ha in E. bind_ok E as [] _.
  bind_ok E as [] Hc%reject_Ok%orb_false_iff. bind_ok E as [] [[_ Hr]%orb_false_iff _]%reject_Ok%orb_false_iff.
  bind_ok E as [] Hq%reject_Ok%negb_false_iff%bool_decide_eq_true. bind_ok E as [] Hw. unfold validate_evidence_anchor in Hw.
  apply reject_Ok, orb_false_iff in Hw as [_ Hw%negb_false_iff%Z.eqb_eq].
  apply reject_Ok, negb_false_iff, bool_decide_eq_true in E. destruct Hc as [_ Hc%negb_false_iff%bool_decide_eq_true].
  apply negb_false_iff, bool_decide_eq_true in Hr. done.
Qed.

Lemma prologue_chain envelope (context : context_t) p :
  validate_invalid_crypto_statement_prologue envelope context p = Ok tt -> re_chain_id envelope = vc_chain_id context.
Proof.
  intros E. unfold validate_invalid_crypto_statement_prologue in E. bind_ok E as [] _.
  bind_ok E as [] [_ Hc%negb_false_iff%bool_decide_eq_true]%reject_Ok%orb_false_iff. done.
Qed.

(** *** Signed answers *)

(** What the validators of signed answers establish. *)
Definition attributed (envelope : ReportEnvelope) (context : context_t) (signed : list (bytes * bytes)) (signed_at : Z) : Prop :=
  fair_report envelope context /\
  Forall (fun '(m, sig) => verify_node_message (re_accused_node_key envelope) m sig = Ok tt) signed /\
  re_observed_at envelope = signed_at - CHAIN_BLOCK_GRACE_SECS.
Definition attributed_answer envelope context (m sig : bytes) signed_at : Prop :=
  attributed envelope context [(m, sig)] signed_at.

(** The fault a dealer's evidence shows: a share that is not on the polynomial
    committed to, a refresh that moves the ring's key, or two commitments in one
    attempt. *)
Definition dealer_fault (e : InvalidCryptoResponse) : Prop :=
  match e with
  | EvDkgShare s _ => forall c v, deserialize_wire_commitment (F:=F) (G:=G) (dc_commitment (ds_commitment_statement s)) = Ok c ->
      Fr_from_bytes (F:=F) (ds_share_value s) = Ok v -> PolynomialCommitment_eval c (ds_to_node_id s) <> generator ⊙ v
  | EvDkgInvalidRefreshCommitment s _ => dc_origin_protocol s = bstr "pss_refresh" /\
      forall c, deserialize_wire_commitment (F:=F) (G:=G) (dc_commitment s) = Ok c ->
      constant_term_is_identity c = false
  | EvDkgEquivocation a b =>
      let a := sc_statement a in let b := sc_statement b in
      dc_attempt_id a = dc_attempt_id b /\ dc_session_nonce a = dc_session_nonce b /\ dc_from_node_id a = dc_from_node_id b /\
      dc_commitment a <> dc_commitment b
  | _ => False
  end.

(** The polynomials an answer may be given under: the one the validator stores
    for the ring, and those it retired recently. *)
Definition ring_polynomial (context : context_t) (ring_pk_hex : bytes) (pp : PubPoly G) : Prop :=
  (exists b, load_from_ring_pk_hex (F:=F) (G:=G) (vc_storage context) ring_pk_hex = Ok b /\
     decode_history_entry (F:=F) (public_polynomial b) = Some pp) \/
  (exists poly, poly ∈ recent_from_ring_pk_hex (F:=F) (G:=G) (vc_storage context) ring_pk_hex (vc_now context) /\
     decode_history_entry (F:=F) poly = Some pp).

(** The accused's position in the ring is the one its statement names. *)
Definition accused_position (envelope : ReportEnvelope) (keys : list bytes) (from_node_id : Z) : Prop :=
  determine_session_node_id (re_accused_node_key envelope) keys = Some from_node_id.

(** A share of a re-encryption that does not decode, or whose proof verifies
    under no polynomial of the ring. *)
Definition pre_fault (envelope : ReportEnvelope) (context : context_t) (ring : RingPayload) (s : PreReencryptResponseStatement) : Prop :=
  pr_ring_pk s = re_ring_pk envelope /\ accused_position envelope (peer_node_keys ring) (pr_from_node_id s) /\
  exists secret (rdr_pk U : G), reported_secret s context = Ok secret /\ G1Affine_from_bytes (F:=F) (pr_rdr_pk s) = Ok rdr_pk /\
    G1Affine_from_bytes (F:=F) (enc_cmt secret) = Ok U /\
    forall (share : G) (challenge proof : F), G1Affine_from_bytes (F:=F) (pr_share s) = Ok share ->
      Fr_from_bytes (pr_challenge s) = Ok challenge -> Fr_from_bytes (pr_proof s) = Ok proof ->
      (exists pp, ring_polynomial context (pr_ring_pk s) pp) /\
      forall pp, ring_polynomial context (pr_ring_pk s) pp ->
        Pre.verify rdr_pk pp U (MkReencryptReply (MkPubShare (pr_from_node_id s) share) challenge proof) (pr_derivation s) <> Ok tt.

(** A signature share that does not decode, or that verifies under no polynomial
    of the ring. *)
Definition sign_fault (envelope : ReportEnvelope) (context : context_t) (ring : RingPayload) (s : SignResponseStatement) : Prop :=
  sr_ring_pk s = re_ring_pk envelope /\
  (exists committee, committee_for_scope ring (sr_accused_committee_scope s) = Ok committee /\
     accused_position envelope (cv_peer_node_keys committee) (sr_from_node_id s)) /\
  (exists pp, ring_polynomial context (sr_ring_pk s) pp) /\
  forall share, @from_bytes _ share_deserialize (sr_sig_share s) = Ok share ->
    exists commitments, deserialize_commitments (TD:=nonce_deserialize) (sr_signing_commitments s) = Ok commitments /\
      forall pp, ring_polynomial context (sr_ring_pk s) pp ->
        signer_verify_share (sr_message s) pp (MkPubShare (sr_from_node_id s) share) commitments (sr_derivation s)
          (sr_metadata s) <> Ok tt.

(** Blinded points that are not those committed to, that do not decode, or whose
    proof does not verify for the tag of the document and the target. *)
Definition reveal_fault (envelope : ReportEnvelope) (context : context_t) (ring : RingPayload) (s : PetBlindRevealStatement) : Prop :=
  accused_position envelope (peer_node_keys ring) (rv_from_node_id s) /\
  exists bc tag (target : G), vc_pet_blind_context context = Some bc /\ PetBlindContext_context_digest bc = rv_context_digest s /\
    resolve_pet_blind_tag_and_target (F:=F) bc context = Ok (tag, target) /\
    (pet_blind_commit_hash (rv_attempt_id s) (rv_context_digest s) (rv_from_node_id s) (rv_commit_salt s) (rv_blinded_r s)
       (rv_blinded_diff s) <> rv_commitment s \/
     forall (blinded_r blinded_diff : G) (challenge proof : F), G1Affine_from_bytes (F:=F) (rv_blinded_r s) = Ok blinded_r ->
       G1Affine_from_bytes (F:=F) (rv_blinded_diff s) = Ok blinded_diff -> Fr_from_bytes (rv_challenge s) = Ok challenge ->
       Fr_from_bytes (rv_proof s) = Ok proof ->
       verify_blinding_correctness tag target (MkBlindingReply blinded_r blinded_diff challenge proof)
         (pet_blind_proof_transcript_digest (rv_attempt_id s) (rv_context_digest s) (rv_selection_digest s)
           (rv_from_node_id s) (rv_commitment s)) <> Ok tt).

(** A partial decryption under another polynomial than the certified one, that
    does not decode, or whose proof does not verify for the aggregate of the
    certificate. *)
Definition decrypt_fault (envelope : ReportEnvelope) (context : context_t) (ring : RingPayload) (s : PetBlindDecryptStatement) : Prop :=
  accused_position envelope (peer_node_keys ring) (dy_from_node_id s) /\
  exists bc certificate tag (target aggregate_r aggregate_diff : G) polynomial, vc_pet_blind_context context = Some bc /\
    PetBlindContext_context_digest bc = dy_context_digest s /\ vc_pet_blind_certificate context = Some certificate /\
    certificate_digest certificate = dy_certificate_digest s /\
    resolve_pet_blind_tag_and_target (F:=F) bc context = Ok (tag, target) /\
    build_and_verify_pet_blind_certificate (F:=F) certificate ring tag target bc = Ok (aggregate_r, aggregate_diff) /\
    decode_polynomial (F:=F) (ce_public_polynomial certificate) (rp_threshold ring) (pc_pet_pk bc) = Ok polynomial /\
    (pet_public_polynomial_digest (dy_public_polynomial s) <> pc_public_polynomial_digest bc \/
     forall (partial : G) (challenge proof : F), G1Affine_from_bytes (F:=F) (dy_partial s) = Ok partial ->
       Fr_from_bytes (dy_challenge s) = Ok challenge -> Fr_from_bytes (dy_proof s) = Ok proof ->
       verify_partial_pet_check polynomial (MkPetTag (g_serialize aggregate_r) [])
         (MkPetCheckReply (MkPubShare (dy_from_node_id s) partial) challenge proof) <> Ok tt).

(** The fault the evidence of an invalid answer shows. *)
Definition answer_fault (envelope : ReportEnvelope) (context : context_t) (ring : RingPayload) (e : InvalidCryptoResponse) : Prop :=
  match e with
  | EvPre s _ => pre_fault envelope context ring s
  | EvSign s _ => sign_fault envelope context ring s
  | EvPetBlindReveal s _ => reveal_fault envelope context ring s
  | EvPetBlindDecrypt s _ => decrypt_fault envelope context ring s
  | e => dealer_fault e
  end.

Lemma candidates_spec (context : context_t) k candidates :
  candidate_public_polynomials (F:=F) context k = Ok candidates ->
  (exists pp, ring_polynomial context k pp) /\ forall pp, pp ∈ candidates <-> ring_polynomial context k pp.
Proof.
  intros E. unfold candidate_public_polynomials in E. bind_ok E as b Hb%map_err_Ok. bind_ok E as cb Hcb%ok_or_Ok.
  bind_ok E as current Hc%map_err_Ok. apply Ok_inj in E as <-.
  assert (decode_history_entry (F:=F) (public_polynomial b) = Some current) as Hd.
  { unfold decode_history_entry. rewrite Hcb. cbn [mbind option_bind]. by rewrite Hc. }
  split; [exists current; left; by exists b|]. intros pp. rewrite elem_of_cons, list_elem_of_omap. unfold ring_polynomial.
  rewrite Hb. split; [intros [->|H]; [left; by exists b|by right]|]. intros [(b' & [= <-] & H)|H]; [left; congruence|by right].
Qed.

(** No candidate passes a check that refused all of them. *)
Lemma no_candidate (context : context_t) k candidates (check : PubPoly G -> result unit) pp :
  candidate_public_polynomials (F:=F) context k = Ok candidates ->
  existsb (fun pp => is_ok (check pp)) candidates = false -> ring_polynomial context k pp -> check pp <> Ok tt.
Proof.
  intros [_ Hc]%candidates_spec Hn Hp%Hc Hok. apply not_true_iff_false in Hn. apply Hn, existsb_exists. exists pp.
  rewrite <- list_elem_of_In, Hok. done.
Qed.

Lemma require_node_id_Ok envelope keys claimed missing mismatch :
  require_node_id keys (re_accused_node_key envelope) claimed missing mismatch = Ok tt -> accused_position envelope keys claimed.
Proof.
  unfold require_node_id. intros E. bind_ok E as i Hi%ok_or_Ok. by apply reject_Ok, negb_false_iff, Z.eqb_eq in E as ->.
Qed.

Lemma pre_failure_Ok (context : context_t) s :
  require_pre_proof_verification_failure (F:=F) (G:=G) s context = Ok tt ->
  exists secret (rdr_pk U : G), reported_secret s context = Ok secret /\ G1Affine_from_bytes (F:=F) (pr_rdr_pk s) = Ok rdr_pk /\
    G1Affine_from_bytes (F:=F) (enc_cmt secret) = Ok U /\
    forall (share : G) (challenge proof : F), G1Affine_from_bytes (F:=F) (pr_share s) = Ok share ->
      Fr_from_bytes (pr_challenge s) = Ok challenge -> Fr_from_bytes (pr_proof s) = Ok proof ->
      (exists pp, ring_polynomial context (pr_ring_pk s) pp) /\
      forall pp, ring_polynomial context (pr_ring_pk s) pp ->
        Pre.verify rdr_pk pp U (MkReencryptReply (MkPubShare (pr_from_node_id s) share) challenge proof) (pr_derivation s) <> Ok tt.
Proof.
  unfold require_pre_proof_verification_failure. intros E. bind_ok E as secret Hs. bind_ok E as rdr_pk Hr%map_err_Ok.
  bind_ok E as U HU%map_err_Ok. exists secret, rdr_pk, U. split_and!; [done..|]. intros share ch pf Hsh Hch Hpf.
  rewrite Hsh, Hch, Hpf in E. bind_ok E as candidates Hc. apply reject_Ok in E.
  split; [by apply (candidates_spec _ _ _ Hc)|]. intros pp Hp.
  apply (no_candidate _ _ _ (fun pp => Pre.verify rdr_pk pp U _ _) pp Hc E Hp).
Qed.

Lemma sign_failure_Ok (context : context_t) s :
  require_sign_share_verification_failure (TS:=TS) s context = Ok tt ->
  (exists pp, ring_polynomial context (sr_ring_pk s) pp) /\
  forall share, @from_bytes _ share_deserialize (sr_sig_share s) = Ok share ->
    exists commitments, deserialize_commitments (TD:=nonce_deserialize) (sr_signing_commitments s) = Ok commitments /\
      forall pp, ring_polynomial context (sr_ring_pk s) pp ->
        signer_verify_share (sr_message s) pp (MkPubShare (sr_from_node_id s) share) commitments (sr_derivation s)
          (sr_metadata s) <> Ok tt.
Proof.
  unfold require_sign_share_verification_failure. intros E. bind_ok E as candidates Hc.
  split; [by apply (candidates_spec _ _ _ Hc)|]. intros share Hsh. rewrite Hsh in E. bind_ok E as cms Hcm%map_err_Ok.
  apply reject_Ok in E. exists cms. split; [done|]. intros pp Hp.
  apply (no_candidate _ _ _ (fun pp => signer_verify_share _ pp _ _ _ _) pp Hc E Hp).
Qed.

Lemma reveal_failure_Ok envelope (context : context_t) ring bc s :
  vc_pet_blind_context context = Some bc -> PetBlindContext_context_digest bc = rv_context_digest s ->
  accused_position envelope (peer_node_keys ring) (rv_from_node_id s) ->
  require_pet_blind_reveal_verification_failure (F:=F) (G:=G) bc s context = Ok tt -> reveal_fault envelope context ring s.
Proof.
  unfold require_pet_blind_reveal_verification_failure. intros Hb Hd Ha E. split; [done|].
  bind_ok E as [tag target] Ht. exists bc, tag, target. split_and!; [done..|].
  case_bool_decide as Hc; cbn [negb] in E; [right|by left]. intros br bd ch pf Hr Hf Hch Hpf Hv. rewrite Hr, Hf, Hch, Hpf in E.
  bind_ok E as [] _. by rewrite Hv in E.
Qed.

(** An invalid partial decryption, whatever the checks before it established. *)
Lemma verify_one_decrypt_invalid s sig ring (pp : PubPoly G) cd d a (A B : bytes) bc e :
  verify_one_decrypt (F:=F) s sig ring pp cd d a A B bc = Invalid e ->
  pet_public_polynomial_digest (dy_public_polynomial s) <> pc_public_polynomial_digest bc \/
  forall (partial : G) (challenge proof : F), G1Affine_from_bytes (F:=F) (dy_partial s) = Ok partial ->
    Fr_from_bytes (dy_challenge s) = Ok challenge -> Fr_from_bytes (dy_proof s) = Ok proof ->
    verify_partial_pet_check pp (MkPetTag A []) (MkPetCheckReply (MkPubShare (dy_from_node_id s) partial) challenge proof) <> Ok tt.
Proof.
  unfold verify_one_decrypt. intros E.
  repeat match type of E with (if ?b then NotAttributable _ else _) = _ => destruct b; [done|] end.
  destruct (node_key_for_id _ _) as [k|]; [|done].
  repeat match type of E with (if ?b then NotAttributable _ else _) = _ => destruct b; [done|] end.
  destruct (verify_node_message _ _ _); [|done..]. case_bool_decide; cbn [negb] in E; [right|by left].
  intros partial ch pf Hp Hc Hf Hv. by rewrite Hp, Hc, Hf, Hv in E.
Qed.

Lemma decrypt_failure_Ok envelope (context : context_t) ring bc s sig :
  vc_pet_blind_context context = Some bc -> PetBlindContext_context_digest bc = dy_context_digest s ->
  accused_position envelope (peer_node_keys ring) (dy_from_node_id s) ->
  require_pet_blind_decrypt_verification_failure (F:=F) (G:=G) bc s sig ring context = Ok tt ->
  decrypt_fault envelope context ring s.
Proof.
  unfold require_pet_blind_decrypt_verification_failure. intros Hb Hd Ha E. split; [done|].
  bind_ok E as cert Hc%ok_or_Ok. bind_ok E as [] Hcd%reject_Ok%negb_false_iff%bool_decide_eq_true.
  bind_ok E as [tag target] Ht. bind_ok E as [A B] HAB%map_err_Ok. bind_ok E as pp Hpp%map_err_Ok.
  bind_ok E as a Ea%map_err_Ok. bind_ok E as b Eb%map_err_Ok. apply Ok_inj in Ea as <-, Eb as <-.
  exists bc, cert, tag, target, A, B, pp. split_and!; [done..|].
  destruct (verify_one_decrypt _ _ _ _ _ _ _ _ _ _) eqn:Ev; try done. by eapply verify_one_decrypt_invalid.
Qed.

Lemma anchor_Ok signed_at observed_at :
  validate_evidence_anchor signed_at observed_at = Ok tt -> observed_at = signed_at - CHAIN_BLOCK_GRACE_SECS.
Proof. by intros [_ H%negb_false_iff%Z.eqb_eq]%reject_Ok%orb_false_iff. Qed.

Lemma verified_unit {E} k m sig (u : unit) (e : E) :
  map_err (verify_node_message k m sig) e = Ok u -> verify_node_message k m sig = Ok tt.
Proof. intros H%map_err_Ok. by destruct u. Qed.

Lemma attributed_intro envelope (context : context_t) ring scope scope' label committee version signed signed_at :
  re_chain_id envelope = vc_chain_id context -> read_ring (vc_read_ring context) (re_ring_id envelope) = Ok ring ->
  validate_report_route_version_at_observed_at envelope ring (vc_version context) = Ok version ->
  validate_ring_and_membership_for_scopes envelope ring scope scope' label = Ok committee ->
  validate_node_routes envelope context = Ok tt -> validate_local_signer envelope context committee label = Ok tt ->
  Forall (fun '(m, sig) => verify_node_message (re_accused_node_key envelope) m sig = Ok tt) signed ->
  re_observed_at envelope = signed_at - CHAIN_BLOCK_GRACE_SECS -> attributed envelope context signed signed_at.
Proof. intros Hc Hr Hv Hm Hn Hl Hs Ho. by destruct (fair_report_intro _ _ _ _ _ _ _ _ Hc Hr Hv Hm Hn Hl). Qed.

Lemma validate_pre_evidence_Ok envelope (context : context_t) ring statement sig :
  read_ring (vc_read_ring context) (re_ring_id envelope) = Ok ring ->
  validate_pre_evidence (F:=F) (G:=G) envelope context ring statement sig = Ok tt ->
  attributed_answer envelope context (PreReencryptResponseStatement_canonical_bytes statement) sig (pr_signed_at statement) /\
  pre_fault envelope context ring statement.
Proof.
  intros Hr E. unfold validate_pre_evidence in E. bind_ok E as [] Hs. unfold validate_pre_reencrypt_response_statement_shape in Hs.
  bind_ok Hs as [] (Hc & _ & Hk & Ha & Ho)%prologue_Ok; [|done]. bind_ok E as v Hv. bind_ok E as [] _. bind_ok E as c Hm.
  bind_ok E as [] Hn. bind_ok E as [] Hl. bind_ok E as [] Hi%require_node_id_Ok. bind_ok E as [] Hsig%verified_unit.
  apply pre_failure_Ok in E.
  by split; [apply (attributed_intro _ _ _ _ _ _ _ _ _ _ Hc Hr Hv Hm Hn Hl); [repeat constructor|]|].
Qed.

Lemma validate_sign_evidence_Ok envelope (context : context_t) ring statement sig :
  read_ring (vc_read_ring context) (re_ring_id envelope) = Ok ring ->
  validate_sign_evidence (TS:=TS) envelope context ring statement sig = Ok tt ->
  attributed_answer envelope context (SignResponseStatement_canonical_bytes statement) sig (sr_signed_at statement) /\
  sign_fault envelope context ring statement.
Proof.
  intros Hr E. unfold validate_sign_evidence in E. bind_ok E as [] Hs. unfold validate_sign_response_statement_shape in Hs.
  bind_ok Hs as [] (Hc & _ & Hk & Ha & Ho)%prologue_Ok; [|done]. bind_ok E as v Hv. bind_ok E as [] _. bind_ok E as c Hm.
  bind_ok E as [] Hn. bind_ok E as [] Hl. bind_ok E as ac Hac. bind_ok E as [] Hi%require_node_id_Ok.
  bind_ok E as [] Hsig%verified_unit. apply sign_failure_Ok in E.
  split; [apply (attributed_intro _ _ _ _ _ _ _ _ _ _ Hc Hr Hv Hm Hn Hl); [by repeat constructor|done]|].
  split; [done|]. split; [by exists ac|done].
Qed.

Lemma pet_prologue_Ok envelope (context : context_t) ring bc digest signed_at :
  validate_pet_blind_prologue envelope context ring bc digest signed_at = Ok tt ->
  re_chain_id envelope = vc_chain_id context /\ re_observed_at envelope = signed_at - CHAIN_BLOCK_GRACE_SECS /\
  PetBlindContext_context_digest bc = digest.
Proof.
  intros E. unfold validate_pet_blind_prologue in E. bind_ok E as [] Hd%reject_Ok%negb_false_iff%bool_decide_eq_true. bind_ok E as [] [_ Hc]%reject_Ok%orb_false_iff.
  do 3 (bind_ok E as [] _). bind_ok E as pk _. do 2 (bind_ok E as [] _). unfold validate_evidence_anchor in E.
  apply reject_Ok, orb_false_iff in E as [_ E%negb_false_iff%Z.eqb_eq]. by apply negb_false_iff, bool_decide_eq_true in Hc.
Qed.

Lemma validate_pet_blind_member_Ok envelope (context : context_t) ring label version id m sig signed_at digest bc :
  read_ring (vc_read_ring context) (re_ring_id envelope) = Ok ring ->
  validate_pet_blind_prologue envelope context ring bc digest signed_at = Ok tt ->
  validate_pet_blind_member envelope context ring label version id m sig = Ok tt ->
  attributed_answer envelope context m sig signed_at /\ PetBlindContext_context_digest bc = digest /\
  accused_position envelope (peer_node_keys ring) id.
Proof.
  intros Hr (Hc & Ho & Hd)%pet_prologue_Ok E. unfold validate_pet_blind_member in E. bind_ok E as v Hv. bind_ok E as [] _.
  bind_ok E as c Hm. bind_ok E as [] Hn. bind_ok E as [] Hl. bind_ok E as [] Hi%require_node_id_Ok. apply verified_unit in E.
  split; [apply (attributed_intro _ _ _ _ _ _ _ _ _ _ Hc Hr Hv Hm Hn Hl); [by repeat constructor|done]|done].
Qed.

(** *** Dealers *)

Lemma verify_share_false (c : PolynomialCommitment G) i (v : F) :
  Common.verify_share c i v = false -> PolynomialCommitment_eval c i <> generator ⊙ v.
Proof. unfold Common.verify_share. intros H%bool_decide_eq_false E. by rewrite E in H. Qed.

Lemma validate_dkg_share_evidence_Ok envelope (context : context_t) ring statement sig :
  read_ring (vc_read_ring context) (re_ring_id envelope) = Ok ring ->
  validate_dkg_share_evidence (F:=F) (G:=G) envelope context ring statement sig = Ok tt ->
  attributed envelope context (signed_statements (EvDkgShare statement sig)) (ds_signed_at statement) /\
  dealer_fault (EvDkgShare statement sig).
Proof.
  intros Hr E. unfold validate_dkg_share_evidence in E. bind_ok E as [] Hs. unfold validate_dkg_share_statement_shape in Hs.
  bind_ok Hs as [] (Hc & _ & _ & _ & Ho)%prologue_Ok; [|done]. bind_ok E as v Hv. bind_ok E as [] _. bind_ok E as c Hm.
  bind_ok E as [] Hn. bind_ok E as [] Hl. bind_ok E as ac _. bind_ok E as [] _. bind_ok E as rc _. bind_ok E as rk _.
  bind_ok E as [] _. bind_ok E as [] Hsc%verified_unit. bind_ok E as [] Hss%verified_unit. split.
  - apply (attributed_intro _ _ _ _ _ _ _ _ _ _ Hc Hr Hv Hm Hn Hl); [by repeat constructor|done].
  - intros c' v' Ec Ev. unfold require_dkg_share_verification_failure in E. rewrite Ec, Ev in E.
    by apply reject_Ok, verify_share_false in E.
Qed.

Lemma validate_refresh_commitment_evidence_Ok envelope (context : context_t) ring statement sig :
  read_ring (vc_read_ring context) (re_ring_id envelope) = Ok ring ->
  validate_dkg_invalid_refresh_commitment_evidence (F:=F) (G:=G) envelope context ring statement sig = Ok tt ->
  attributed envelope context (signed_statements (EvDkgInvalidRefreshCommitment statement sig)) (dc_signed_at statement) /\
  dealer_fault (EvDkgInvalidRefreshCommitment statement sig).
Proof.
  intros Hr E. unfold validate_dkg_invalid_refresh_commitment_evidence in E. bind_ok E as [] Hs.
  unfold validate_refresh_commitment_statement_shape in Hs.
  bind_ok Hs as [] (Hc & _ & _ & _ & Ho)%prologue_Ok; [|done]. bind_ok Hs as [] Hp%reject_Ok%negb_false_iff%bool_decide_eq_true.
  bind_ok E as v Hv. bind_ok E as [] _. bind_ok E as c Hm.
  bind_ok E as [] Hn. bind_ok E as [] Hl. bind_ok E as ac _. bind_ok E as [] _. bind_ok E as [] Hss%verified_unit. split.
  - apply (attributed_intro _ _ _ _ _ _ _ _ _ _ Hc Hr Hv Hm Hn Hl); [by repeat constructor|done].
  - split; [done|]. intros c' Ec. unfold require_refresh_commitment_is_invalid in E. rewrite Ec in E. by apply reject_Ok in E.
Qed.

Lemma proves_equivocation_spec a b :
  proves_equivocation_with a b = true <->
  dc_attempt_id a = dc_attempt_id b /\ dc_session_nonce a = dc_session_nonce b /\ dc_from_node_id a = dc_from_node_id b /\
  dc_commitment a <> dc_commitment b.
Proof.
  unfold proves_equivocation_with. rewrite !andb_true_iff, negb_true_iff, !bool_decide_eq_true, bool_decide_eq_false, Z.eqb_eq.
  tauto.
Qed.

Lemma validate_equivocation_evidence_Ok envelope (context : context_t) ring a b :
  read_ring (vc_read_ring context) (re_ring_id envelope) = Ok ring ->
  validate_dkg_equivocation_evidence (G:=G) envelope context ring a b = Ok tt ->
  attributed envelope context (signed_statements (EvDkgEquivocation a b))
    (Z.max (dc_signed_at (sc_statement a)) (dc_signed_at (sc_statement b))) /\
  dealer_fault (EvDkgEquivocation a b).
Proof.
  intros Hr E. unfold validate_dkg_equivocation_evidence in E. bind_ok E as [] Hs.
  unfold validate_equivocation_commitment_shape in Hs. bind_ok Hs as [] Hc%prologue_chain. bind_ok E as [] _.
  bind_ok E as [] Ho%anchor_Ok. bind_ok E as v Hv. bind_ok E as [] _. bind_ok E as c Hm.
  bind_ok E as [] Hn. bind_ok E as [] Hl. bind_ok E as ac _. bind_ok E as k _. bind_ok E as [] _.
  bind_ok E as [] Ha%verified_unit. bind_ok E as [] Hb%verified_unit. split.
  - apply (attributed_intro _ _ _ _ _ _ _ _ _ _ Hc Hr Hv Hm Hn Hl); [by repeat constructor|done].
  - apply proves_equivocation_spec. by apply reject_Ok, negb_false_iff in E.
Qed.

Lemma invalid_crypto_Ok dkg envelope (context : context_t) :
  invalid_crypto_validate (TS:=TS) dkg envelope context = Ok tt ->
  exists evidence ring, InvalidCryptoResponse_from_canonical_bytes (re_payload envelope) = Ok evidence /\
    read_ring (vc_read_ring context) (re_ring_id envelope) = Ok ring /\
    (attributed envelope context (signed_statements evidence) (evidence_signed_at evidence) /\
       answer_fault envelope context ring evidence \/
     signed_statements evidence = [] /\ dkg envelope context ring evidence = Ok tt).
Proof.
  intros E. unfold invalid_crypto_validate in E. bind_ok E as evidence Hev. bind_ok E as ring Hr. exists evidence, ring.
  split; [done|]. split; [done|]. destruct evidence; try (right; by eauto); left.
  - by apply (validate_pre_evidence_Ok _ _ ring).
  - by apply (validate_sign_evidence_Ok _ _ ring).
  - bind_ok E as bc Hbc%ok_or_Ok. unfold validate_pet_blind_reveal_evidence in E. bind_ok E as [] _. bind_ok E as [] Hp.
    bind_ok E as [] Hm. destruct (validate_pet_blind_member_Ok _ _ _ _ _ _ _ _ _ _ _ Hr Hp Hm) as (Ha & Hd & Hi).
    split; [done|by apply (reveal_failure_Ok _ _ _ bc)].
  - bind_ok E as bc Hbc%ok_or_Ok. unfold validate_pet_blind_decrypt_evidence in E. bind_ok E as [] _. bind_ok E as [] Hp.
    bind_ok E as [] Hm. destruct (validate_pet_blind_member_Ok _ _ _ _ _ _ _ _ _ _ _ Hr Hp Hm) as (Ha & Hd & Hi).
    split; [done|by apply (decrypt_failure_Ok _ _ _ bc _ response_signature)].
  - by apply (validate_dkg_share_evidence_Ok _ _ ring).
  - by apply (validate_refresh_commitment_evidence_Ok _ _ ring).
  - by apply (validate_equivocation_evidence_Ok _ _ ring).
Qed.

(** *** Relays *)

(** The policy engine refuses the relayed request at the moment of the relay. *)
Definition relay_refused (context : context_t) (statement : RelayRequestStatement) (anchor : bytes) : Prop :=
  exists window access request anchor_time,
    relayed_access context statement window = Ok access /\ request_to_bytes access = Some request /\
    authz_check_at request (rr_actor_id statement) anchor = Ok false /\ authz_anchor_time anchor = Ok anchor_time /\
    abs_diff anchor_time (rr_signed_at statement) <= RELAY_CHECK_MAX_DRIFT_SECS /\
    window_pair <$> window = (s ← rr_valid_window_start statement; (fun e => (s, e)) <$> rr_valid_window_end statement).

Lemma relay_refused_intro (context : context_t) statement anchor :
  require_relayed_request_unauthorized context statement anchor = Ok tt -> relay_refused context statement anchor.
Proof.
  intros E. unfold require_relayed_request_unauthorized in E. bind_ok E as at' Hat%map_err_Ok.
  bind_ok E as [] Hd%reject_Ok%Z.ltb_ge. bind_ok E as w Hw. bind_ok E as access Hacc. bind_ok E as request Hreq%ok_or_Ok.
  bind_ok E as b Hb%map_err_Ok. apply reject_Ok in E as ->. exists ((fun w : Z * Z => MkValidWindow w.1 w.2) <$> w), access, request, at'.
  split_and!; try done. revert Hw. unfold statement_window.
  destruct (rr_valid_window_start statement), (rr_valid_window_end statement); by intros [= <-].
Qed.

Lemma unauthorized_request_Ok envelope (context : context_t) :
  unauthorized_request_validate envelope context = Ok tt ->
  exists payload, let statement := ur_statement payload in
    UnauthorizedRequestPayload_from_canonical_bytes (re_payload envelope) = Ok payload /\
    attributed_answer envelope context (RelayRequestStatement_canonical_bytes statement) (ur_relay_signature payload)
      (rr_signed_at statement) /\
    abs_diff (rr_signed_at statement) (rr_user_signed_at statement) <= RELAY_CHECK_MAX_DRIFT_SECS /\
    relay_refused context statement (ur_checked_at_anchor payload).
Proof.
  intros E. unfold unauthorized_request_validate in E. bind_ok E as payload Hp. bind_ok E as [] Hs.
  unfold validate_relay_request_statement_shape in Hs. bind_ok Hs as [] (Hc & _ & _ & _ & Ho)%prologue_Ok; [|done].
  do 6 (bind_ok Hs as [] _). apply reject_Ok, Z.ltb_ge in Hs. bind_ok E as ring Hr. bind_ok E as v Hv. bind_ok E as [] _.
  bind_ok E as c Hm. bind_ok E as [] Hn. bind_ok E as [] Hl. bind_ok E as ac _. bind_ok E as [] _.
  bind_ok E as [] Hsig%verified_unit. apply relay_refused_intro in E. exists payload.
  split_and!; [done|apply (attributed_intro _ _ _ _ _ _ _ _ _ _ Hc Hr Hv Hm Hn Hl); [by repeat constructor|done]|done..].
Qed.

(** *** Offline nodes *)

Lemma probe_loop_Ok probe attempt more i :
  probe_loop probe attempt more = Ok tt -> (attempt <= i < attempt + more)%nat -> probe i = false.
Proof.
  revert attempt. induction more as [|more IH]; intros attempt E Hi; [lia|]. cbn in E.
  destruct (probe attempt) eqn:Ep; [done|]. destruct (decide (i = attempt)) as [->|]; [done|]. apply (IH _ E). lia.
Qed.

(** Three probes, all of them answered by nothing. *)
Definition unreachable (context : context_t) : Prop :=
  exists probe, vc_probe context = Some probe /\ forall i, (i < HEALTH_PROBE_ATTEMPTS)%nat -> probe i = false.

Lemma node_offline_Ok envelope (context : context_t) :
  node_offline_validate envelope context = Ok tt ->
  fair_report envelope context /\ (vc_mode context = IndependentSigner true -> unreachable context).
Proof.
  intros E. unfold node_offline_validate in E. bind_ok E as payload Hp. bind_ok E as [] _. bind_ok E as ring Hr.
  bind_ok E as [] Hc%reject_Ok%negb_false_iff%bool_decide_eq_true. bind_ok E as v Hv. bind_ok E as [] _. bind_ok E as c Hm.
  bind_ok E as [] Hn. bind_ok E as [] Hl. destruct (fair_report_intro _ _ _ _ _ _ _ _ Hc Hr Hv Hm Hn Hl). split; [done|].
  intros Hmode. rewrite Hmode in E. unfold require_peer_offline in E. destruct (vc_probe context) as [probe|] eqn:Ev; [|done].
  exists probe. split; [done|]. intros i Hi. apply (probe_loop_Ok _ _ _ _ E). lia.
Qed.

(** C9: a report is only signed against a node that is attributably at fault.  A
    validated report is fresh and accuses somebody else than its reporter.  An
    offline report is about a member of the ring, and a co-signer that probes the
    member found it unreachable.  Evidence of an invalid answer is a statement
    that the key of the accused signed, the report is anchored at the time the
    statement itself bears, and the answer is at fault: a re-encryption or a
    signature share that does not decode, or that verifies under neither the
    polynomial the validator has for the ring nor one it retired recently; a blinding whose points are not
    those committed to, do not decode, or fail their proof for the document's tag
    and the target; a partial decryption of a certified aggregate under another
    polynomial, or that does not decode or fails its proof; a dealer's share that
    does not decode or is not on the commitment it signed; a refresh commitment
    that does not decode or would move the ring's key; or two different
    commitments signed in one attempt.  A relay is reported for a request it
    signed, soon after the caller did, which the policy engine refused at the
    moment of the relay.  In each of these cases the ring is the bulletin's, the
    accused is one of its members, the node that signs is another one, and enough
    members remain without the accused where no key is listed twice.  The evidence of the remaining kinds, on
    the public channel of a key generation, is validated by [dkg], which stands
    for validators that are not modelled: of it the theorem says only that [dkg]
    accepts it for the ring on the bulletin. *)
Theorem conviction_sound dkg envelope (context : context_t) :
  registry_validate (TS:=TS) dkg envelope context = Ok tt ->
  re_observed_at envelope <= vc_now context <= re_observed_at envelope + REPORT_TTL_SECS /\
  re_reporter_node_key envelope <> re_accused_node_key envelope /\
  ((re_report_type envelope = NODE_OFFLINE_REPORT_TYPE /\ fair_report envelope context /\
    (vc_mode context = IndependentSigner true -> unreachable context)) \/
   (re_report_type envelope = INVALID_CRYPTO_RESPONSE_REPORT_TYPE /\
    exists evidence ring, InvalidCryptoResponse_from_canonical_bytes (re_payload envelope) = Ok evidence /\
      read_ring (vc_read_ring context) (re_ring_id envelope) = Ok ring /\
      (attributed envelope context (signed_statements evidence) (evidence_signed_at evidence) /\
         answer_fault envelope context ring evidence \/
       signed_statements evidence = [] /\ dkg envelope context ring evidence = Ok tt)) \/
   (re_report_type envelope = UNAUTHORIZED_REQUEST_REPORT_TYPE /\
    exists payload, let statement := ur_statement payload in
      UnauthorizedRequestPayload_from_canonical_bytes (re_payload envelope) = Ok payload /\
      attributed_answer envelope context (RelayRequestStatement_canonical_bytes statement) (ur_relay_signature payload)
        (rr_signed_at statement) /\
      abs_diff (rr_signed_at statement) (rr_user_signed_at statement) <= RELAY_CHECK_MAX_DRIFT_SECS /\
      relay_refused context statement (ur_checked_at_anchor payload))).
Proof.
  intros E. unfold registry_validate in E. bind_ok E as [] (_ & He & Ht & _ & Hne)%validate_shape_Ok.
  split; [by rewrite <- He|]. split; [done|].
  case_bool_decide as H1; [left; split; [done|]; by apply node_offline_Ok|]. right.
  case_bool_decide as H2; [left; split; [done|]|right; case_bool_decide; [split; [done|]; by apply unauthorized_request_Ok|done]].
  by apply invalid_crypto_Ok.
Qed.

(** ** Honest answers *)

(** A polynomial the validator keeps is one the answer may be given under. *)
Lemma kept_ring_polynomial (context : context_t) ring_pk_hex kb (key : G) poly (pp : PubPoly G) since k :
  hex_decode ring_pk_hex = Some kb -> G1Affine_from_bytes (F:=F) kb = Ok key -> decode_history_entry (F:=F) poly = Some pp ->
  kept (point_to_string key) poly since k (vc_storage context) ->
  vc_now context <= since + RING_POLY_HISTORY_RETENTION_SECS -> ring_polynomial context ring_pk_hex pp.
Proof.
  intros Hh Hk Hd K Hn. unfold ring_polynomial, load_from_ring_pk_hex, recent_from_ring_pk_hex. rewrite Hh, Hk.
  cbn [ok_or res_bind map_err]. rewrite Hk. cbn [map_err res_bind]. unfold load_by_ring_pk.
  destruct (kept_recent _ _ _ _ _ _ K Hn) as [(b & Hb & <-)|Hr]; [left; by exists b|right; by exists poly].
Qed.

(** The secret the validator recovers is the one the answer was given for. *)
Lemma reported_secret_same (app : PreApp St Post) {JW : JwtLib PreClaims} req r i sh ch pf t (context : context_t) secret secret' :
  let statement := context_statement (collected_context app req r []) i sh ch pf t in
  resolve_request app (eq_context req) = Ok r ->
  (forall j x, json_secret j = Some x -> Secret_from_str j = Some x) -> document_wf (rs_document r) ->
  (forall e, vc_inline_document context = Some e ->
     document_wf (evidence_document (ring_id (rs_document r)) (timestamp (rs_document r)) e)) ->
  (px_document (eq_context req) = None -> forall d, pa_read_document app (px_object_id (eq_context req)) ≫= DocumentPayload_try_from = Some d ->
     vc_read_document context (px_object_id (eq_context req)) ≫= DocumentPayload_try_from = Some d) ->
  Secret_from_str (document (rs_document r)) = Some secret -> reported_secret statement context = Ok secret' ->
  secret' = secret \/
  exists e m1 m2, vc_inline_document context = Some e /\ document_message (rs_document r) = Ok m1 /\
    document_message (evidence_document (ring_id (rs_document r)) (timestamp (rs_document r)) e) = Ok m2 /\ collision sha256 m1 m2.
Proof.
  intros statement Hr Hlen W We Hsame Hs E.
  destruct (resolve_request_Ok _ _ _ Hr) as (_ & (Hid & _ & Hdoc) & Hev & _). unfold reported_secret in E.
  replace (pr_document_inline statement) with (bool_decide (is_Some (px_document (eq_context req)))) in E.
  2:{ unfold statement. cbn. rewrite Hev. by destruct (px_document (eq_context req)). }
  destruct Hdoc as [Hd|[Hd Hb]]; rewrite Hd in E.
  - rewrite bool_decide_true in E by by eexists. bind_ok E as e He. unfold require_inline_document_evidence in He.
    bind_ok He as e' Hin%ok_or_Ok. bind_ok He as id Hid'%map_err_Ok. bind_ok He as [] Heq%reject_Ok%negb_false_iff%bool_decide_eq_true.
    apply Ok_inj in He as ->. cbn in Hid', Heq. subst id. apply map_err_Ok, ok_or_Ok in E.
    destruct (same_id_same_document _ _ _ W (We _ Hin) Hid Hid') as [Hsd|(m1 & m2 & M1 & M2 & C)]; [left|right; by exists e, m1, m2].
    destruct Hsd as (_ & _ & _ & _ & _ & _ & Hj & _). cbn in Hj. unfold generate_document_id, document_message in Hid.
    bind_ok Hid as mm Hmm. bind_ok Hmm as x Hx%ok_or_Ok. pose proof (Hlen _ _ Hx) as Hy. rewrite Hx in Hj.
    symmetry in Hj. apply Hlen in Hj. congruence.
  - rewrite bool_decide_false in E by by intros [? [=]]. bind_ok E as [] _. unfold read_document in E. bind_ok E as d Hrd.
    bind_ok Hrd as post Hp%ok_or_Ok. apply ok_or_Ok in Hrd. bind_ok E as [] _. apply map_err_Ok, ok_or_Ok in E. left.
    specialize (Hsame Hd _ Hb). cbn in Hp. rewrite Hp in Hsame. cbn in Hsame. rewrite Hrd in Hsame. injection Hsame as ->. congruence.
Qed.

(** C10: an honest answer is not confirmed as an invalid one.  Let a member of a
    ring answer a request with its share, and let a validator have held the
    ring's polynomial, after which the ring's key was refreshed at most four
    times, never stamped earlier than seventy seconds before the answer was
    signed or later than the validator's clock.  Let the validator read the
    document the member read, where the request named it without carrying it, and
    let the two readers of its JSON agree.  Then a report that accuses the member
    with this answer does not validate, whoever reports it, with whatever
    envelope and inline document, unless one of the refreshes lost its write to
    the history of retired polynomials, which a refresh makes as best it can, or
    the inline document exhibits a collision of SHA-256.  So the history covers
    the lifetime of a report as far as it is written. *)
Theorem honest_answer_not_convicted {JW : JwtLib PreClaims} {HO : HashOrder} (app : PreApp St Post) fuel req rng s i sh ch pf
    signed_at sig rng' s' r (pp : PubPoly G) node_id poly kb (key : G) s0 bs dkg envelope (context : context_t) sig' :
  let ctx := eq_context req in
  let statement := context_statement (collected_context app req r []) i sh ch pf signed_at in
  handle_reencrypt_request (F:=F) (G:=G) app fuel req rng s =
    (Ok (Some (PreReencryptResponse (eq_request_id req) i sh ch pf signed_at sig), rng'), s') ->
  resolve_request app ctx = Ok r -> serving_member (F:=F) app r pp node_id ->
  (forall j x, json_secret j = Some x -> Secret_from_str j = Some x) -> document_wf (rs_document r) ->
  (forall e, vc_inline_document context = Some e ->
     document_wf (evidence_document (ring_id (rs_document r)) (timestamp (rs_document r)) e)) ->
  (px_document ctx = None -> forall d, pa_read_document app (px_object_id ctx) ≫= DocumentPayload_try_from = Some d ->
     vc_read_document context (px_object_id ctx) ≫= DocumentPayload_try_from = Some d) ->
  hex_decode (ring_pk (rs_ring r)) = Some kb -> G1Affine_from_bytes (F:=F) kb = Ok key ->
  decode_history_entry (F:=F) poly = Some pp ->
  (exists b, load_by_ring_key s0 (point_to_string key) = Ok b /\ public_polynomial b = poly) ->
  save_all (point_to_string key) bs s0 = (Ok tt, vc_storage context) -> Forall bundle_wf bs -> (length bs <= 4)%nat ->
  Forall (fun b => signed_at - 70 <= last_pss b <= vc_now context) bs ->
  re_report_type envelope = INVALID_CRYPTO_RESPONSE_REPORT_TYPE ->
  InvalidCryptoResponse_from_canonical_bytes (re_payload envelope) = Ok (EvPre statement sig') ->
  registry_validate (TS:=TS) dkg envelope context <> Ok tt \/ some_write_lost (point_to_string key) bs s0 \/
  exists e m1 m2, vc_inline_document context = Some e /\ document_message (rs_document r) = Ok m1 /\
    document_message (evidence_document (ring_id (rs_document r)) (timestamp (rs_document r)) e) = Ok m2 /\ collision sha256 m1 m2.
Proof.
  intros ctx statement Hrun Hr M Hlen W We Hsame Hkb Hkey Hpp H0 Hsaves Wbs Hbs Htimes Htype Hev.
  destruct (registry_validate dkg envelope context) as [[]|err| |] eqn:E; [right|by left..].
  unfold registry_validate in E. bind_ok E as [] (_ & He & Ht & _)%validate_shape_Ok. rewrite Htype in E.
  rewrite bool_decide_false, bool_decide_true in E by done. unfold invalid_crypto_validate in E. rewrite Hev in E.
  cbn [res_bind] in E. bind_ok E as ring Hring.
  destruct (validate_pre_evidence_Ok _ _ _ _ _ Hring E) as ((_ & _ & Hobs) & _ & _ & secret' & rdr_pk & U' & Hsec & Hrdr & HU' & Hf).
  clear E. destruct (served_reply _ _ _ _ _ _ _ _ _ _ _ _ Hrun Hr M Hrdr)
    as (secret & U & reply & signed_at' & sig0 & Hs & HU & Hi & Hsub & Hverify & _ & _ & [= -> -> -> -> -> ->]).
  destruct (reported_secret_same _ _ _ _ _ _ _ _ _ _ _ Hr Hlen W We Hsame Hs Hsec) as [->|Hcol]; [left|by right].
  rewrite HU in HU'. apply Ok_inj in HU' as <-. cbn in Hobs.
  unfold RING_POLY_HISTORY_RETENTION_SECS, REPORT_TTL_SECS, CHAIN_BLOCK_GRACE_SECS in *.
  destruct (kept_saves (point_to_string key) poly (signed_at' - 70) 0 bs s0 (vc_storage context)) as [K|?]; [done..| |by left|exfalso|done].
  { eapply Forall_impl; [exact Htimes|]. intros b. unfold RING_POLY_HISTORY_RETENTION_SECS. cbn. lia. }
  destruct (Hf (pub_v (rr_share reply)) (rr_challenge reply) (rr_proof reply)) as [_ Hno]; [by apply G1_from_to|apply Fr_from_to..|].
  apply (Hno pp).
  - eapply (kept_ring_polynomial context _ kb key poly pp); [exact Hkb|done..|]. unfold RING_POLY_HISTORY_RETENTION_SECS. lia.
  - assert (MkReencryptReply (MkPubShare node_id (pub_v (rr_share reply))) (rr_challenge reply) (rr_proof reply) = reply) as Heta
      by (destruct reply as [[] c f]; cbn in Hi |- *; by rewrite Hi).
    change (Pre.verify rdr_pk pp U (MkReencryptReply (MkPubShare node_id (pub_v (rr_share reply))) (rr_challenge reply)
      (rr_proof reply)) (px_derivation (eq_context req)) = Ok tt). by rewrite Heta.
Qed.

(** ** Routes that are not spelled canonically *)

(** Who an observation accuses, and under which route; the DKG evidence takes the
    route from the bulletin. *)
Definition accuses (o : ReportObservation) (node_key peer_id : bytes) : Prop :=
  match o with
  | ObsNodeOffline o => of_accused_node_key o = node_key /\ of_accused_peer_id o = peer_id
  | ObsInvalidCryptoResponse o =>
      signed_statements (ob_evidence o) <> [] /\ InvalidCryptoResponse_wf (ob_evidence o) /\
      ob_accused_node_key o = node_key /\ ob_accused_peer_id o = peer_id
  | ObsUnauthorizedRequest _ => False
  end.

Lemma attributed_route envelope (context : context_t) info :
  fair_report envelope context -> read_node_info (vc_read_node context) (re_accused_node_key envelope) = Ok info ->
  ni_peer_id info = re_accused_peer_id envelope.
Proof. intros [_ _ _ (info' & Hi & He) _] H. rewrite Hi in H. by apply Ok_inj in H as <-. Qed.

(** A node whose published route is not spelled canonically is not reported
    for being offline or for an invalid PRE, signing or PET answer.  The protocols
    know the node by the canonical spelling of its route, and put that one into
    the observation; the validation compares it with the published spelling, so
    the reporter's own validation refuses the report. *)
Lemma respelled_route_unreported dkg (view : ReportingView St Post) now o node_key route info :
  resolve_route is_socket_addr (view_read_node view) NodeInfo_try_from node_key = Ok route ->
  read_node_info (view_read_node view) node_key = Ok info -> ni_peer_id info <> nr_peer_id route ->
  accuses o node_key (nr_peer_id route) ->
  forall prepared, create_report (TS:=TS) dkg view now o <> Ok prepared.
Proof.
  intros _ Hi Hne Ho prepared E. apply Hne. unfold create_report, prepare in E. bind_ok E as p Hp. bind_ok E as t _.
  bind_ok E as [] Hv. unfold registry_validate in Hv. bind_ok Hv as [] _.
  destruct o as [o|o|o]; [..|done]; cbn in Ho; bind_ok Hp as [ring config] _; apply Ok_inj in Hp as <-.
  - destruct Ho as [<- <-]. cbn [prep_envelope offline_envelope re_report_type] in Hv.
    rewrite bool_decide_true in Hv by done. apply node_offline_Ok in Hv as [Hf _]. by apply (attributed_route _ _ _ Hf).
  - destruct Ho as (Hs & W & <- & <-). cbn [prep_envelope invalid_crypto_envelope re_report_type] in Hv.
    rewrite bool_decide_false, bool_decide_true in Hv by done. apply invalid_crypto_Ok in Hv as (ev & rg & Hev & _ & Hv).
    cbn [prep_envelope invalid_crypto_envelope re_payload] in Hev. pose proof (canonical_decode (T:=InvalidCryptoResponse) (ob_evidence o) W) as Hd. cbn in Hd.
    rewrite Hd in Hev. apply Ok_inj in Hev as <-.
    destruct Hv as [[(Hf & _) _]|[He _]]; [|done]. by apply (attributed_route _ _ _ Hf).
Qed.
End Convictions.
