(* ===== verification/DkgConvictions.v ===== *)
(** * What the evidence about dealers shows

    Theorems on [DkgEvidence] and the validators of [Registry]: nothing an honest
    dealer signs in the course of a session convicts it, and a share that a
    receiver refuses with evidence is one that the co-signers of the report
    refuse as well, under the conditions that only they check. *)
From S2P Require Import Prelude Algebra Interpolation Primitives Pairing Toy Codec Common WireCommitment Dkg DkgSpec Feldman Context Sigma Shares Pre Pet Signer DkgSession.
From S2P Require Import ReportCodec ReportStatements ReportDkg ReportPet Evidence Identity NodeState Envelope Auth Routes Bulletin RingState PetNode Reporting Relay PetProtocol PreNode SignHelpers Registry SignInitiator PetAdmission PreRelease DkgEvidence Convictions.

(** ** Honest dealers *)

Section Dealers.
Context {F G S P Signature Share NonceCommitment SigningState : Type} {SF : ScalarField F} {CG : CurveGroup F G}.
Context {BL : Blst F G S P} {TS : ThresholdSigner F G Signature Share NonceCommitment SigningState} {SHA : Sha2}.
Context {HX : Hex} {EC : Ecdsa} {DJ : DocumentJson} {PJ : PetJson} {SJ : StateJson} {AZ : Authz} {AH : AuthzHistory}.
Context {PD : PointDisplay G} {St Post : Type} {LS : LocalStorage St} {BP : BulletinPosts Post}.
Context {DP : DocumentPosts Post} {KP : DerivationPosts Post}.
Abbreviation context_t := (ReportValidationContext St Post).
Abbreviation state := (DkgAttempt F G).
Abbreviation node_method := (method state DkgError).

Definition poly (s : state) : list F := polynomial_coeffs (node (dt_session s)).
Definition comm (s : state) : list G := coefficients (commitment (node (dt_session s))).
Definition refreshing (s : state) : bool :=
  match kind (dt_session s) with KRefresh _ | KRefreshPet _ => true | _ => false end.

(** A statement about the dealer's own polynomial. *)
Definition honest_commitment (s : state) (c : DkgCommitmentStatement) : Prop :=
  poly s <> [] /\ dc_commitment c = serialize_commitment_coefficients (comm s) /\
  (dc_origin_protocol c = bstr "pss_refresh" -> refreshing s = true).

Definition honest_share (s : state) (e : DkgShareStatement) : Prop :=
  honest_commitment s (ds_commitment_statement e) /\
  ds_share_value e = fr_serialize (peval (poly s) (from_u64 (ds_to_node_id e))).

(** The session of a dealer that has signed the commitments [cs] and the shares
    [ss]. *)
Record dealer_ok (cs : list SignedDkgCommitment) (ss : list SignedDkgShare) (s : state) : Prop := {
  do_commitment : comm s = commit_all (poly s);
  do_refresh : refreshing s = true -> poly s = [] \/ exists q, poly s = fzero :: q;
  do_binding : forall b, dt_report_evidence_binding s = Some b -> bd_origin_protocol b = bstr "pss_refresh" -> refreshing s = true;
  do_signed : forall c, dt_local_signed_commitment s = Some c -> honest_commitment s (sc_statement c);
  do_commitments : Forall (fun c => honest_commitment s (sc_statement c)) cs;
  do_shares : Forall (fun e => honest_share s (ss_statement e)) ss;
}.

Section Run.
Context (app : DkgApp St Post).

(** The handlers of a session, in any order; what a dealer signs for others is
    the result of the first two. *)
Inductive dealer_event : Type :=
  | DealCommitment (rng : Rng F)
  | DealShares (peer_ids : list bytes) (rng : Rng F)
  | TakeShare (from_node_id to_node_id : Z) (share_value nonce : bytes) (evidence : option SignedDkgShare)
  | TakeCommitment (from_node_id : Z) (commitment : bytes) (evidence : option SignedDkgCommitment)
  | ReplayShare (from_node_id : Z)
  | RelayShare (evidence : SignedDkgShare)
  | RelayCommitments (a b : SignedDkgCommitment).

Definition signed_commitments (r : dkg_result (option (bytes * option SignedDkgCommitment) * Rng F)) : list SignedDkgCommitment :=
  match r with Ok (Some (_, Some e), _) => [e] | _ => [] end.

Definition signed_shares (r : dkg_result (list ShareDelivery * Rng F)) : list SignedDkgShare :=
  match r with Ok (deliveries, _) => omap dl_evidence deliveries | _ => [] end.

Definition dealer_step (e : dealer_event) (s : state) : list SignedDkgCommitment * list SignedDkgShare * state :=
  match e with
  | DealCommitment rng => let '(r, s') := initiate_phase1_commitments app rng s in (signed_commitments r, [], s')
  | DealShares peer_ids rng => let '(r, s') := initiate_phase2_shares app peer_ids rng s in ([], signed_shares r, s')
  | TakeShare from to v nonce e => ([], [], (accept_share_message app from to v nonce e s).2)
  | TakeCommitment from c e => ([], [], (apply_commitment_message app from c e s).2)
  | ReplayShare from => ([], [], (replay_pending_share app from s).2)
  | RelayShare e => ([], [], (handle_invalid_share_evidence_relay app e s).2)
  | RelayCommitments a b => ([], [], (handle_invalid_commitment_evidence_relay app a b s).2)
  end.

Fixpoint dealer_run (es : list dealer_event) (s : state) : list SignedDkgCommitment * list SignedDkgShare * state :=
  match es with
  | [] => ([], [], s)
  | e :: es =>
      let '(cs, ss, s1) := dealer_step e s in
      let '(cs', ss', s2) := dealer_run es s1 in (cs ++ cs', ss ++ ss', s2)
  end.

(** *** Steps that leave the dealer's side alone *)

Definition dealer_view (s : state) :=
  (kind (dt_session s), poly s, comm s, dt_report_evidence_binding s, dt_local_signed_commitment s).

Lemma dealer_ok_view cs ss s s' : dealer_view s' = dealer_view s -> dealer_ok cs ss s -> dealer_ok cs ss s'.
Proof.
  unfold dealer_view. intros [= Hk Hp Hc Hb Hl] [H1 H2 H3 H4 H5 H6].
  assert (refreshing s' = refreshing s) as Hr by (unfold refreshing; by rewrite Hk).
  assert (forall c, honest_commitment s c -> honest_commitment s' c) as Hh by (unfold honest_commitment; by rewrite Hp, Hc, Hr).
  constructor.
  - by rewrite Hp, Hc.
  - by rewrite Hr, Hp.
  - by rewrite Hb, Hr.
  - rewrite Hl. eauto.
  - by eapply Forall_impl; [exact H5|eauto].
  - eapply Forall_impl; [exact H6|]. intros e [? He]. split; [by apply Hh|by rewrite Hp].
Qed.

Definition keeps {A} (m : node_method A) : Prop :=
  forall cs ss, m_preserves (fun s s' => dealer_ok cs ss s -> dealer_ok cs ss s') m.

Lemma keeps_dealer_bind {A B} (m : node_method A) (k : A -> node_method B) : keeps m -> (forall a, keeps (k a)) -> keeps (m_bind m k).
Proof. intros Hm Hk cs ss. apply m_preserves_bind; [apply _|done|intros a; apply Hk]. Qed.
Lemma keeps_dealer_lift {A} (r : dkg_result A) : keeps (m_lift r).
Proof. intros cs ss. apply m_preserves_lift, _. Qed.
Lemma keeps_dealer_ret {A} (a : A) : keeps (m_ret a).
Proof. intros cs ss. apply m_preserves_ret, _. Qed.
Lemma keeps_dealer_get : keeps m_get.
Proof. intros cs ss. apply m_preserves_get, _. Qed.
Lemma keeps_modify f : (forall s, dealer_view (f s) = dealer_view s) -> keeps (m_modify f).
Proof. intros Hf cs ss s. apply dealer_ok_view, Hf. Qed.
Lemma keeps_best_effort m : keeps m -> keeps (best_effort m).
Proof. intros Hm cs ss s H%Hm. done. Qed.

Ltac keeps_step := match goal with
  | |- keeps (match ?x with _ => _ end) => destruct x
  | |- keeps (m_modify _) => apply keeps_modify; intros ?; done
  | |- keeps (best_effort _) => apply keeps_best_effort
  | |- keeps (m_bind _ _) => apply keeps_dealer_bind; [|intros ?]
  end.
Ltac keeps_steps := repeat first [solve [eauto with keeps] | keeps_step].
Create HintDb keeps.
#[local] Hint Resolve keeps_dealer_lift keeps_dealer_ret keeps_dealer_get : keeps.

Lemma keeps_try_receive_share share : keeps (try_receive_share share).
Proof.
  intros cs ss s. unfold try_receive_share. apply dealer_ok_view.
  destruct (receive_share_cases share (node (dt_session s))) as [[e ->]|[(c & _ & _ & ->)|[_ ->]]]; done.
Qed.

Lemma evidence_binding_frame s r s' : evidence_binding app s = (r, s') ->
  exists b, s' = set_evidence b (dt_local_signed_commitment s) s /\ (forall b', r = Ok (Some b') -> b = Some b') /\
    (forall b', b = Some b' -> dt_report_evidence_binding s = Some b' \/
       (bd_origin_protocol b' = bstr "pss_refresh" -> refreshing s = true)).
Proof.
  assert (set_evidence (dt_report_evidence_binding s) (dt_local_signed_commitment s) s = s) as Hs by by destruct s.
  unfold evidence_binding. rewrite m_bind_get.
  destruct (dt_report_evidence_binding s) eqn:Eb; [intros [= <- <-]; eexists; split_and!; [done|congruence|by left]|].
  destruct (evidence_origin s) as [[origin ring]|] eqn:Eo; [|by intros [= <- <-]; eexists].
  rewrite m_bind_reject. case_match; [by intros [= <- <-]; eexists|].
  rewrite m_bind_ok_or. case_match; [|by intros [= <- <-]; eexists]. rewrite m_bind_ok_or. case_match; [|by intros [= <- <-]; eexists].
  intros [= <- <-]. eexists. split_and!; [done|congruence|]. intros b' [= <-]. right. cbn. intros ->. revert Eo.
  unfold evidence_origin, refreshing. by destruct (kind (dt_session s)); intros [=].
Qed.

Lemma keeps_evidence_binding : keeps (evidence_binding app).
Proof.
  intros cs ss s K. destruct (evidence_binding app s) as [r s'] eqn:E. apply evidence_binding_frame in E as (b & -> & _ & Hb).
  destruct K as [Kc Kr Kb Ks Kcs Kss]. constructor; [done|done| |done..]. cbn. intros b' ->. destruct (Hb b' eq_refl); [by apply Kb|done].
Qed.
#[local] Hint Resolve keeps_try_receive_share keeps_evidence_binding : keeps.

Lemma keeps_verify_share_evidence from to v nonce e : keeps (verify_share_evidence app from to v nonce e).
Proof. unfold verify_share_evidence. keeps_steps. Qed.
Lemma keeps_verify_commitment_evidence from c e : keeps (verify_commitment_evidence app from c e).
Proof. unfold verify_commitment_evidence. keeps_steps. Qed.
Lemma keeps_queue_report o : keeps (dkg_queue_report o).
Proof. unfold dkg_queue_report. keeps_steps. Qed.
#[local] Hint Resolve keeps_verify_share_evidence keeps_verify_commitment_evidence keeps_queue_report : keeps.

Lemma keeps_queue_dealer_report ring accused t e : keeps (queue_dealer_report app ring accused t e).
Proof. unfold queue_dealer_report. keeps_steps. Qed.
#[local] Hint Resolve keeps_queue_dealer_report : keeps.

Lemma keeps_refuse_share {A} e (a : A) err : keeps (refuse_share app e a err).
Proof.
  unfold refuse_share, queue_or_relay_invalid_share, queue_or_relay, queue_invalid_share_report, spawn_evidence_relay. keeps_steps.
Qed.
#[local] Hint Resolve keeps_refuse_share : keeps.

Lemma record_share_view from s : dealer_view (record_received_share_for_attempt from s) = dealer_view s.
Proof. unfold record_received_share_for_attempt. by case_bool_decide. Qed.
Lemma store_share_view share e s : dealer_view (store_pending_share_for_attempt share e s) = dealer_view s.
Proof. unfold store_pending_share_for_attempt. by case_bool_decide. Qed.
Lemma keeps_record_share from : keeps (m_modify (record_received_share_for_attempt from)).
Proof. apply keeps_modify, record_share_view. Qed.
Lemma keeps_store_share share e : keeps (m_modify (store_pending_share_for_attempt share e)).
Proof. apply keeps_modify, store_share_view. Qed.
#[local] Hint Resolve keeps_record_share keeps_store_share : keeps.

Lemma keeps_take_share from to v nonce e : keeps (accept_share_message app from to v nonce e).
Proof. unfold accept_share_message. keeps_steps. Qed.

Lemma keeps_replay from : keeps (replay_pending_share app from).
Proof. unfold replay_pending_share, receive_and_record_share. keeps_steps. Qed.

Lemma keeps_relay_share e : keeps (handle_invalid_share_evidence_relay app e).
Proof. unfold handle_invalid_share_evidence_relay, queue_invalid_share_report. keeps_steps. Qed.

Lemma keeps_relay_commitments a b : keeps (handle_invalid_commitment_evidence_relay app a b).
Proof. unfold handle_invalid_commitment_evidence_relay, verify_relayed_commitment, queue_equivocation_report. keeps_steps. Qed.

Lemma keeps_prepare from c e h : keeps (prepare_commitment_message app from c e h).
Proof.
  unfold prepare_commitment_message, report_invalid_refresh_commitment, queue_invalid_refresh_commitment_report. keeps_steps.
Qed.

Lemma keeps_record_commitment from c e fresh : keeps (record_commitment from c e fresh).
Proof.
  intros cs ss s H. unfold record_commitment. rewrite m_bind_get, m_bind_reject. case_match; [done|].
  destruct (receive_commitment_cases from c (node (dt_session s))) as [[err ->]|[_ ->]];
    (eapply dealer_ok_view; [|exact H]); [done|]. by destruct e.
Qed.
#[local] Hint Resolve keeps_prepare keeps_record_commitment : keeps.

Lemma keeps_take_commitment from c e : keeps (apply_commitment_message app from c e).
Proof.
  unfold apply_commitment_message. apply keeps_dealer_bind; [apply keeps_prepare|]. intros [|p ev fresh reshare]; [|apply keeps_record_commitment].
  apply keeps_dealer_bind; [|intros ?; apply keeps_dealer_ret]. apply keeps_modify. intros s. by case_bool_decide.
Qed.

(** *** Steps in which the dealer signs *)

Lemma uncommitted cs ss s : dealer_ok cs ss s -> comm s = [] ->
  poly s = [] /\ dt_local_signed_commitment s = None /\ cs = [] /\ ss = [].
Proof.
  intros [Hc _ _ Hl Hcs Hss] E. rewrite E in Hc. assert (poly s = []) as Hp by by destruct (poly s). split; [done|].
  split; [|split].
  - destruct (dt_local_signed_commitment s) as [c|]; [|done]. by destruct (Hl c).
  - destruct Hcs as [|c cs [H _] _]; [done|]. by rewrite Hp in H.
  - destruct Hss as [|e ss [[H _] _] _]; [done|]. by rewrite Hp in H.
Qed.

Lemma generate_polynomial_view mode rng (n : DKGNode F G) :
  let '(r, n') := generate_polynomial mode rng n in
  (forall rng', r <> Ok rng') /\ polynomial_coeffs n' = polynomial_coeffs n /\ commitment n' = commitment n \/
  coefficients (commitment n') = commit_all (polynomial_coeffs n') /\ polynomial_coeffs n' <> [] /\
  (mode = Refresh -> exists q, polynomial_coeffs n' = fzero :: q).
Proof.
  destruct (generate_polynomial_cases mode rng n) as [[e ->]|[_ [[_ ->]|[_ ->]]]]; [by left|left; by destruct mode|right].
  unfold drawn. destruct (constant_term mode rng) as [c0 rng1] eqn:E. destruct (draw_scalars _ rng1) as [blind rng2]. cbn.
  split_and!; [done..|]. intros ->. injection E as <- <-. eauto.
Qed.

(** A polynomial drawn for a session without one. *)
Lemma dealer_ok_drawn cs ss s s' : dealer_ok cs ss s -> comm s = [] ->
  kind (dt_session s') = kind (dt_session s) -> dt_report_evidence_binding s' = dt_report_evidence_binding s ->
  dt_local_signed_commitment s' = dt_local_signed_commitment s ->
  comm s' = commit_all (poly s') -> (refreshing s = true -> poly s' = [] \/ exists q, poly s' = fzero :: q) ->
  dealer_ok cs ss s'.
Proof.
  intros H E Hk Hb Hl Hc Hz. destruct (uncommitted _ _ _ H E) as (_ & Hn & -> & ->). destruct H as [_ _ H3 _ _ _].
  assert (refreshing s' = refreshing s) as Hr by (unfold refreshing; by rewrite Hk).
  constructor; [done|by rewrite Hr|by rewrite Hb, Hr|by rewrite Hl, Hn|done..].
Qed.

Lemma take_mode_view s : dealer_view (take_mode s).2 = dealer_view s /\
  forall mode, (take_mode s).1 = Ok mode -> refreshing s = true -> mode = Refresh.
Proof.
  unfold take_mode, refreshing. rewrite m_bind_get. destruct (kind (dt_session s)); try by (split; [done|intros ? [= <-]]).
  all: rewrite m_bind_ok_or; case_match; [|done]; rewrite m_bind_ok_or; by case_match.
Qed.

Lemma keeps_session_generate cs ss s rng r s' : dealer_ok cs ss s -> comm s = [] ->
  session_generate_polynomial rng s = (r, s') -> dealer_ok cs ss s' /\ (forall rng', r = Ok rng' -> poly s' <> []).
Proof.
  intros H E. unfold session_generate_polynomial, m_bind at 1. destruct (take_mode_view s) as [V M].
  destruct (take_mode s) as [[mode|e| |] s1]; cbn [fst snd] in *; [|intros [= <- <-]; split; [by apply (dealer_ok_view _ _ s)|done]..].
  pose proof (dealer_ok_view _ _ _ _ V H) as H1. rewrite m_bind_get.
  assert (comm s1 = []) as E1 by (unfold dealer_view in V; congruence).
  assert (refreshing s1 = refreshing s) as Hr by (unfold refreshing; by injection V as ->).
  pose proof (generate_polynomial_view mode rng (node (dt_session s1))) as Hv.
  destruct (generate_polynomial mode rng (node (dt_session s1))) as [r0 n'].
  assert (forall rng', map_err r0 (DkgCrypto "Failed to generate polynomial: {}") = Ok rng' -> r0 = Ok rng') as Hr0 by (by intros rng' ?%map_err_Ok).
  intros [= <- <-]. destruct Hv as [(Hno & Hp & Hc)|(Hc & Hne & Hz)].
  - split; [|by intros rng' ?%Hr0%Hno]. eapply dealer_ok_view; [|exact H1].
    unfold dealer_view, poly, comm. cbn. by rewrite Hp, Hc.
  - split; [|done]. apply (dealer_ok_drawn _ _ s1); [done..|]. rewrite Hr. intros Hf. right. by apply Hz, M.
Qed.

Lemma keeps_ensure_polynomial cs ss s rng r s' : dealer_ok cs ss s ->
  ensure_polynomial rng s = (r, s') -> dealer_ok cs ss s' /\ (forall rng', r = Ok rng' -> poly s' <> []).
Proof.
  intros H. unfold ensure_polynomial. rewrite m_bind_get. case_bool_decide as E; [by apply keeps_session_generate|].
  intros [= <- <-]. split; [done|]. intros rng' _ Hp. apply E. change (comm s = []).
  by rewrite (do_commitment _ _ _ H), Hp.
Qed.

(** What a dealer speaks about does not change when it signs. *)
Definition dealer_poly (s : state) := (kind (dt_session s), poly s, comm s).

Lemma honest_commitment_poly s s' c : dealer_poly s' = dealer_poly s -> honest_commitment s c -> honest_commitment s' c.
Proof. unfold dealer_poly, honest_commitment, refreshing. by intros [= -> -> ->]. Qed.

Lemma dealer_ok_app cs cs' ss ss' s : dealer_ok cs ss s -> Forall (fun c => honest_commitment s (sc_statement c)) cs' ->
  Forall (fun e => honest_share s (ss_statement e)) ss' -> dealer_ok (cs ++ cs') (ss ++ ss') s.
Proof. intros [H1 H2 H3 H4 H5 H6] Hcs Hss. constructor; [done..| |]; by apply Forall_app. Qed.

Lemma evidence_binding_poly s r s' : evidence_binding app s = (r, s') ->
  dealer_poly s' = dealer_poly s /\ dt_local_signed_commitment s' = dt_local_signed_commitment s /\
  forall b, r = Ok (Some b) -> dt_report_evidence_binding s' = Some b.
Proof. intros (b & -> & Hr & _)%evidence_binding_frame. split_and!; [done..|]. by intros b' ->%Hr. Qed.

Lemma keeps_build_context : keeps (evidence_build_context app).
Proof. unfold evidence_build_context. keeps_steps. Qed.

Lemma build_context_poly s r s' : evidence_build_context app s = (r, s') -> dealer_poly s' = dealer_poly s /\
  (dt_local_signed_commitment s' = dt_local_signed_commitment s) /\
  forall c, r = Ok (Some c) -> dt_report_evidence_binding s' = Some (bc_binding c).
Proof.
  unfold evidence_build_context, m_bind at 1. destruct (evidence_binding app s) as [rb s1] eqn:Eb.
  apply evidence_binding_poly in Eb as (Hp & Hl & Hb). destruct rb as [[b|]|e| |]; [|by intros [= <- <-]..].
  specialize (Hb b eq_refl).
  unfold m_bind at 1, m_lift. destruct (read_node_signing_key_hex app); [|by intros [= <- <-]..].
  intros [= <- <-]. split_and!; [done..|]. by intros c [= <-].
Qed.

Lemma build_commitment_honest cs ss s c from e : dealer_ok cs ss s -> poly s <> [] ->
  dt_report_evidence_binding s = Some (bc_binding c) ->
  build_commitment_evidence_with_context app c from (serialize_commitment_coefficients (comm s)) = Ok e ->
  honest_commitment s (sc_statement e).
Proof.
  intros H Hp Hb E. unfold build_commitment_evidence_with_context in E. bind_ok E as t _. bind_ok E as sig _.
  apply Ok_inj in E as <-. split; [done|]. split; [done|]. cbn. by apply (do_binding _ _ _ H).
Qed.

Lemma store_commitment cs ss s c from r s' : dealer_ok cs ss s -> poly s <> [] ->
  dt_report_evidence_binding s = Some (bc_binding c) ->
  build_and_store_commitment_evidence_with_context app c from (serialize_commitment_coefficients (comm s)) s = (r, s') ->
  dealer_ok cs ss s' /\ dealer_poly s' = dealer_poly s /\ forall e, r = Ok e -> honest_commitment s (sc_statement e).
Proof.
  intros H Hp Hb. unfold build_and_store_commitment_evidence_with_context, m_bind at 1, m_lift.
  destruct (build_commitment_evidence_with_context _ _ _ _) as [e| | |] eqn:Ee; [|by intros [= <- <-]..].
  pose proof (build_commitment_honest _ _ _ _ _ _ H Hp Hb Ee) as He. intros [= <- <-]. split; [|split; [done|by intros ? [= <-]]].
  destruct H as [H1 H2 H3 H4 H5 H6]. constructor; [done..| |done|done]. cbn. by intros ? [= <-].
Qed.

Lemma set_phase_view p (s : state) : dealer_view (set_session (update_phase_for_attempt p (dt_session s)) s) = dealer_view s.
Proof. unfold update_phase_for_attempt, transition_phase. by case_bool_decide. Qed.

(** A step that ends before the dealer signs. *)
Ltac nothing_signed := intros [= <- <-]; cbn [signed_commitments signed_shares]; by rewrite (right_id_L [] (++)).

(** The first phase. *)
Lemma phase1_ok cs ss s rng r s' : dealer_ok cs ss s -> initiate_phase1_commitments app rng s = (r, s') ->
  dealer_ok (cs ++ signed_commitments r) ss s'.
Proof.
  intros H. unfold initiate_phase1_commitments. rewrite m_bind_get.
  case_match; [nothing_signed|]. rewrite m_bind_reject.
  case_match; [nothing_signed|]. unfold m_bind at 1.
  destruct (ensure_polynomial rng s) as [re s1] eqn:Ee. destruct (keeps_ensure_polynomial _ _ _ _ _ _ H Ee) as [K1 Hp].
  destruct re as [rng'| | |]; [|nothing_signed..]. specialize (Hp rng' eq_refl).
  rewrite m_bind_get, m_bind_modify. set (s2 := set_session _ s1).
  assert (dealer_view s2 = dealer_view s1) as V by apply set_phase_view. pose proof (dealer_ok_view _ _ _ _ V K1) as K2.
  unfold build_and_store_commitment_evidence. rewrite m_bind_assoc. unfold m_bind at 1.
  destruct (evidence_build_context app s2) as [rc s3] eqn:Ec. pose proof (keeps_build_context _ _ _ K2) as K3.
  rewrite Ec in K3. cbn [snd] in K3. destruct (build_context_poly _ _ _ Ec) as (P3 & _ & Hb).
  destruct rc as [[c|]| | |]; [|nothing_signed..].
  specialize (Hb c eq_refl). unfold dealer_view, dealer_poly in *.
  replace (coefficients (commitment (node (dt_session s1)))) with (comm s3) by (change (comm s3 = comm s1); congruence).
  rewrite m_bind_assoc. unfold m_bind at 1.
  destruct (build_and_store_commitment_evidence_with_context _ _ _ _ s3) as [rb s4] eqn:Eb.
  apply (store_commitment cs ss) in Eb as (K4 & P4 & He); [|done|congruence|done].
  destruct rb as [e| | |]; [|nothing_signed..].
  intros [= <- <-]. rewrite <- (right_id_L [] (++) ss). apply dealer_ok_app; [done| |done]. apply Forall_singleton.
  eapply honest_commitment_poly; [exact P4|by apply He].
Qed.

Lemma make_shares_value (n : DKGNode F G) ids rng :
  Forall (fun share => value share = peval (polynomial_coeffs n) (from_u64 (to_id share))) (make_shares n ids rng).1.
Proof.
  revert rng. induction ids as [|to ids IH]; intros rng; cbn [make_shares]; [constructor|].
  destruct (fill_bytes 16 rng) as [nonce rng1]. specialize (IH rng1). destruct (make_shares n ids rng1) as [shares rng2].
  constructor; [apply eval_polynomial_spec|done].
Qed.

Lemma outgoing_honest s evidence shares ds : outgoing_shares app s evidence shares = Ok ds ->
  (forall c e, evidence = Some (c, e) -> honest_commitment s (sc_statement e)) ->
  Forall (fun share => value share = peval (poly s) (from_u64 (to_id share))) shares ->
  Forall (fun e => honest_share s (ss_statement e)) (omap dl_evidence ds).
Proof.
  intros E He Hs. revert ds E. induction Hs as [|share shares Hv _ IH]; intros ds E; [by apply Ok_inj in E as <-|].
  cbn [outgoing_shares] in E. destruct (own_share s share); [by apply IH|]. bind_ok E as target _. bind_ok E as e Ee.
  bind_ok E as rest Hr. apply Ok_inj in E as <-. specialize (IH _ Hr). destruct evidence as [[c ce]|].
  - bind_ok Ee as e' Hb. apply Ok_inj in Ee as <-. cbn. constructor; [|done].
    unfold build_share_evidence_with_context in Hb. bind_ok Hb as rk _. bind_ok Hb as t _. bind_ok Hb as sig _.
    apply Ok_inj in Hb as <-. split; [by apply (He c)|]. cbn. by rewrite Hv.
  - apply Ok_inj in Ee as <-. done.
Qed.

Lemma honest_share_poly s s' e : dealer_poly s' = dealer_poly s -> honest_share s e -> honest_share s' e.
Proof.
  intros Hp [Hc Hv]. split; [by eapply honest_commitment_poly|]. unfold dealer_poly in Hp. by injection Hp as _ -> _.
Qed.

Lemma stored_or_built_honest cs ss s stored oc from b r s' : dealer_ok cs ss s -> poly s <> [] ->
  stored = dt_local_signed_commitment s -> b = serialize_commitment_coefficients (comm s) -> (forall c, oc = Some c -> dt_report_evidence_binding s = Some (bc_binding c)) ->
  stored_or_built app stored oc from b s = (r, s') ->
  dealer_ok cs ss s' /\ dealer_poly s' = dealer_poly s /\ forall e, r = Ok (Some e) -> honest_commitment s (sc_statement e).
Proof.
  intros K Hp -> -> Hb. unfold stored_or_built. destruct (dt_local_signed_commitment s) as [e|] eqn:El.
  - intros [= <- <-]. split_and!; [done..|]. intros ? [= <-]. by apply (do_signed _ _ _ K).
  - destruct oc as [c|]; [|by intros [= <- <-]]. unfold m_bind.
    destruct (build_and_store_commitment_evidence_with_context _ _ _ _ s) as [rb s4] eqn:Eb.
    apply (store_commitment cs ss) in Eb as (K4 & P4 & He); [|done|done|by apply Hb].
    destruct rb as [e| | |]; intros [= <- <-]; split_and!; try done. intros ? [= <-]. by apply He.
Qed.

(** The second phase. *)
Lemma phase2_ok cs ss s peer_ids rng r s' : dealer_ok cs ss s -> initiate_phase2_shares app peer_ids rng s = (r, s') ->
  dealer_ok cs (ss ++ signed_shares r) s'.
Proof.
  intros K. unfold initiate_phase2_shares. unfold m_bind at 1.
  destruct (ensure_polynomial rng s) as [re s1] eqn:Ee. destruct (keeps_ensure_polynomial _ _ _ _ _ _ K Ee) as [K1 Hp].
  destruct re as [rng'| | |]; [|nothing_signed..]. specialize (Hp rng' eq_refl). rewrite m_bind_get. unfold m_bind at 1, m_lift at 1.
  destruct (map_err (generate_shares _ _) _) as [[shares rng2]| | |] eqn:Hg; [|nothing_signed..]. apply map_err_Ok in Hg.
  assert (Forall (fun share => value share = peval (poly s1) (from_u64 (to_id share))) shares) as Hv.
  { unfold generate_shares in Hg. do 2 (bind_ok Hg as [] _). apply Ok_inj in Hg.
    pose proof (make_shares_value (node (dt_session s1)) (seqZ 1 (as_u32 (effective_total_nodes (node (dt_session s1))))) rng') as Hm.
    by rewrite Hg in Hm. }
  rewrite m_bind_modify. set (s2 := set_session _ s1).
  assert (dealer_view s2 = dealer_view s1) as V by apply set_phase_view. pose proof (dealer_ok_view _ _ _ _ V K1) as K2.
  unfold m_bind at 1. destruct (evidence_build_context app s2) as [rc s3] eqn:Ec. pose proof (keeps_build_context _ _ _ K2) as K3.
  rewrite Ec in K3. cbn [snd] in K3. destruct (build_context_poly _ _ _ Ec) as (P3 & L3 & Hb).
  destruct rc as [oc| | |]; [|nothing_signed..]. unfold m_bind at 1.
  assert (dealer_poly s3 = dealer_poly s1) as P13 by (rewrite P3; unfold dealer_view in V; unfold dealer_poly; congruence).
  assert (poly s3 = poly s1 /\ comm s3 = comm s1) as [Hp3 Hc3] by (unfold dealer_poly in P13; by injection P13).
  destruct (stored_or_built _ _ _ _ _ s3) as [r4 s4] eqn:Eown.
  apply (stored_or_built_honest cs ss) in Eown as (K4 & P4 & He);
    [|done|congruence|unfold dealer_view in V; congruence|by rewrite Hc3|by intros c ->; apply Hb].
  destruct r4 as [oe| | |]; [|nothing_signed..]. unfold m_bind at 1.
  case_bool_decide; [intros [= <- <-]; cbn [signed_shares]; rewrite (right_id_L [] (++)); by eapply dealer_ok_view; [|exact K4]|].
  cbn [m_ret]. rewrite m_bind_reject. case_match; [nothing_signed|]. unfold m_bind at 1, m_lift.
  destruct (outgoing_shares app s1 _ shares) as [ds| | |] eqn:Eo; [|nothing_signed..]. intros [= <- <-].
  cbn [signed_shares]. rewrite <- (right_id_L [] (++) cs). apply dealer_ok_app; [done..|].
  eapply Forall_impl; [eapply (outgoing_honest _ _ _ _ Eo); [|exact Hv]|].
  - intros c e E. destruct oc as [c'|]; [|done]. destruct oe as [e'|]; [|done]. injection E as _ <-. eapply honest_commitment_poly; [|by apply He]. done.
  - intros e. apply honest_share_poly. congruence.
Qed.

Lemma dealer_step_ok cs ss e s cs' ss' s' : dealer_ok cs ss s -> dealer_step e s = (cs', ss', s') ->
  dealer_ok (cs ++ cs') (ss ++ ss') s'.
Proof.
  intros K. destruct e; cbn [dealer_step].
  - destruct (initiate_phase1_commitments app rng s) as [r s1] eqn:E. intros [= <- <- <-]. rewrite (right_id_L [] (++) ss).
    exact (phase1_ok _ _ _ _ _ _ K E).
  - destruct (initiate_phase2_shares app peer_ids rng s) as [r s1] eqn:E. intros [= <- <- <-]. rewrite (right_id_L [] (++) cs).
    exact (phase2_ok _ _ _ _ _ _ _ K E).
  - intros [= <- <- <-]. rewrite !(right_id_L [] (++)). by apply keeps_take_share.
  - intros [= <- <- <-]. rewrite !(right_id_L [] (++)). by apply keeps_take_commitment.
  - intros [= <- <- <-]. rewrite !(right_id_L [] (++)). by apply keeps_replay.
  - intros [= <- <- <-]. rewrite !(right_id_L [] (++)). by apply keeps_relay_share.
  - intros [= <- <- <-]. rewrite !(right_id_L [] (++)). by apply keeps_relay_commitments.
Qed.

Lemma dealer_run_ok es cs ss s cs' ss' s' : dealer_ok cs ss s -> dealer_run es s = (cs', ss', s') ->
  dealer_ok (cs ++ cs') (ss ++ ss') s'.
Proof.
  revert cs ss s cs' ss'. induction es as [|e es IH]; intros cs ss s cs' ss' K; cbn [dealer_run].
  - intros [= <- <- <-]. by rewrite !(right_id_L [] (++)).
  - destruct (dealer_step e s) as [[cs1 ss1] s1] eqn:E1. destruct (dealer_run es s1) as [[cs2 ss2] s2] eqn:E2.
    intros [= <- <- <-]. rewrite !(assoc_L (++)). by apply (IH _ _ s1); [apply (dealer_step_ok _ _ e s)|].
Qed.
End Run.

(** A session that has not dealt. *)
Definition undealt (s : state) : Prop :=
  poly s = [] /\ comm s = [] /\ dt_report_evidence_binding s = None /\ dt_local_signed_commitment s = None.

Lemma undealt_ok s : undealt s -> dealer_ok [] [] s.
Proof.
  intros (Hp & Hc & Hb & Hl). constructor; [by rewrite Hp, Hc|by left|by rewrite Hb|by rewrite Hl|constructor|constructor].
Qed.

(** Evidence put together from what a dealer signed. *)
Definition signed_by (cs : list SignedDkgCommitment) (ss : list SignedDkgShare) (c : DkgCommitmentStatement) : Prop :=
  c ∈ (sc_statement <$> cs) ++ ((fun e => ds_commitment_statement (ss_statement e)) <$> ss).

Definition dealt (cs : list SignedDkgCommitment) (ss : list SignedDkgShare) (evidence : InvalidCryptoResponse) : Prop :=
  match evidence with
  | EvDkgShare e _ => e ∈ ss_statement <$> ss
  | EvDkgInvalidRefreshCommitment c _ => signed_by cs ss c
  | EvDkgEquivocation a b => signed_by cs ss (sc_statement a) /\ signed_by cs ss (sc_statement b)
  | _ => False
  end.

Lemma signed_by_honest cs ss s c : dealer_ok cs ss s -> signed_by cs ss c -> honest_commitment s c.
Proof.
  intros K [(x & -> & Hx)%list_elem_of_fmap|(x & -> & Hx)%list_elem_of_fmap]%elem_of_app.
  - by apply (proj1 (Forall_forall _ _) (do_commitments _ _ _ K)).
  - by apply (proj1 (Forall_forall _ _) (do_shares _ _ _ K)).
Qed.

Lemma honest_decodes cs ss s c : dealer_ok cs ss s -> honest_commitment s c ->
  deserialize_wire_commitment (F:=F) (dc_commitment c) = Ok (MkPolynomialCommitment (commit_all (poly s))).
Proof.
  intros K (Hp & -> & _). rewrite (do_commitment _ _ _ K).
  apply (wire_commitment_roundtrip (MkPolynomialCommitment (commit_all (poly s)))); cbn.
  - by rewrite commit_all_nil.
  - apply subgroup_list. by eexists.
Qed.

Lemma dealt_no_fault cs ss s evidence : dealer_ok cs ss s -> dealt cs ss evidence -> ~ dealer_fault (F:=F) (G:=G) evidence.
Proof.
  intros K. destruct evidence; cbn [dealt]; try done.
  - intros (x & -> & Hx)%list_elem_of_fmap Hf. destruct (proj1 (Forall_forall _ _) (do_shares _ _ _ K) _ Hx) as [Hc Hv].
    eapply Hf; [by apply (honest_decodes _ _ _ _ K)|rewrite Hv; apply Fr_from_to|].
    apply verify_share_spec; [apply subgroup_list; by eexists|]. by apply verify_share_commit.
  - intros Hs [Ho Hf]. pose proof (signed_by_honest _ _ _ _ K Hs) as Hc. specialize (Hf _ (honest_decodes _ _ _ _ K Hc)).
    destruct Hc as (Hp & _ & Hr). destruct (do_refresh _ _ _ K (Hr Ho)) as [?|[q Hq]]; [done|]. rewrite Hq in Hf.
    cbn in Hf. rewrite <- generator_zero in Hf. by apply g_is_zero_false in Hf.
  - intros [(_ & Ha & _)%(signed_by_honest _ _ _ _ K) (_ & Hb & _)%(signed_by_honest _ _ _ _ K)] (_ & _ & _ & Hne). congruence.
Qed.

(** C11: nothing an honest dealer signs convicts it.  Run the handlers of a
    refresh or reshare session in any order, any number of times, with whatever
    shares, commitments and relayed evidence the others send.  No report made of
    the commitments and shares the node signed in the course of it validates,
    whoever reports and whatever the envelope says: its shares lie on the
    polynomial it commits to, a refresh commits to zero at zero, and the session
    never commits twice. *)
Theorem honest_dealer_not_convicted (app : DkgApp St Post) es s cs ss s' dkg envelope (context : context_t) evidence :
  undealt s -> dealer_run app es s = (cs, ss, s') ->
  re_report_type envelope = INVALID_CRYPTO_RESPONSE_REPORT_TYPE ->
  InvalidCryptoResponse_from_canonical_bytes (re_payload envelope) = Ok evidence -> dealt cs ss evidence ->
  registry_validate (TS:=TS) dkg envelope context <> Ok tt.
Proof.
  intros Hu Hrun Htype Hev Hd E. apply undealt_ok in Hu. pose proof (dealer_run_ok _ _ _ _ _ _ _ _ Hu Hrun) as K.
  unfold registry_validate in E. bind_ok E as [] _. rewrite Htype, bool_decide_false, bool_decide_true in E by done.
  apply invalid_crypto_Ok in E as (ev & ring & Hev' & _ & [[_ Hf]|[Hn _]]); rewrite Hev in Hev'; apply Ok_inj in Hev' as <-.
  - apply (dealt_no_fault _ _ _ _ K Hd). by destruct evidence.
  - by destruct evidence.
Qed.
End Dealers.

(** ** Shares that are refused *)

Lemma reject_pass {E A} b (e : E) (k : res E A) r : b = false -> k = r -> (reject b e ;? k) = r.
Proof. by intros -> <-. Qed.

Lemma bind_pass {E A B} (m : res E A) (k : A -> res E B) a r : m = Ok a -> k a = r -> (let? x := m in k x) = r.
Proof. by intros -> <-. Qed.

(** Splits a refused disjunction of mismatches into the equations. *)
Ltac split_checks H :=
  lazymatch type of H with
  | (_ || _)%bool = false => let H' := fresh "C" in apply orb_false_iff in H as [H H']; split_checks H'; split_checks H
  | negb (bool_decide _) = false => apply negb_false_iff, bool_decide_eq_true in H
  | negb (_ =? _) = false => apply negb_false_iff, Z.eqb_eq in H
  | (_ <? _) = false => apply Z.ltb_ge in H
  | _ => idtac
  end.

Section Refusals.
Context {F G S P Signature Share NonceCommitment SigningState : Type} {SF : ScalarField F} {CG : CurveGroup F G}.
Context {BL : Blst F G S P} {TS : ThresholdSigner F G Signature Share NonceCommitment SigningState} {SHA : Sha2}.
Context {HX : Hex} {EC : Ecdsa} {DJ : DocumentJson} {PJ : PetJson} {SJ : StateJson} {AZ : Authz} {AH : AuthzHistory}.
Context {PD : PointDisplay G} {St Post : Type} {LS : LocalStorage St} {BP : BulletinPosts Post}.
Context {DP : DocumentPosts Post} {KP : DerivationPosts Post}.
Abbreviation context_t := (ReportValidationContext St Post).
Abbreviation state := (DkgAttempt F G).

(** What a receiver has established of evidence it accepted. *)
Record share_bound (b : DkgReportEvidenceBinding) (e : SignedDkgShare) : Prop := {
  sb_domain : ds_domain (ss_statement e) = DKG_SHARE_DOMAIN;
  sb_chain : ds_chain_id (ss_statement e) = bd_chain_id b;
  sb_ring : ds_ring_id (ss_statement e) = bd_ring_id b;
  sb_pk : ds_ring_pk (ss_statement e) = bd_ring_pk b;
  sb_state : ds_ring_state_sha256 (ss_statement e) = bd_ring_state_sha256 b;
  sb_version : ds_protocol_version (ss_statement e) = bd_protocol_version b;
  sb_request : ds_request_id (ss_statement e) = bd_request_id b;
  sb_origin : ds_origin_protocol (ss_statement e) = bd_origin_protocol b;
  sb_accused_scope : ds_accused_committee_scope (ss_statement e) = Current;
  sb_signing_scope : ds_signing_committee_scope (ss_statement e) = Current;
  sb_backend : ds_crypto_backend (ss_statement e) = DKG_NAME;
  sb_receiver : receiver_key (bd_receiver_node_keys b) (ds_to_node_id (ss_statement e)) = Some (ds_receiver_node_key (ss_statement e));
  sb_dealer : node_key_for_canonical_node_id (ds_from_node_id (ss_statement e)) (bd_current_node_keys b) =
    Some (ds_responder_node_key (ss_statement e));
  sb_nested : validate_dkg_commitment_statement_shape (G:=G) (ss_statement e) =
    require_commitment_bytes (G:=G) (dc_commitment (ds_commitment_statement (ss_statement e))) "DKG commitment cannot be empty"
      "DKG commitment length {} is not a multiple of {}";
  sb_commitment_signed : verify_node_message (ds_responder_node_key (ss_statement e))
    (DkgCommitmentStatement_canonical_bytes (ds_commitment_statement (ss_statement e))) (ds_commitment_signature (ss_statement e)) = Ok tt;
  sb_signed : verify_node_message (ds_responder_node_key (ss_statement e)) (DkgShareStatement_canonical_bytes (ss_statement e))
    (ss_signature e) = Ok tt;
}.

Lemma validate_share_statement_bound b from to v nonce e :
  validate_share_statement b from to v nonce (ss_statement e) = Ok tt ->
  verify_node_message (ds_responder_node_key (ss_statement e))
    (DkgCommitmentStatement_canonical_bytes (ds_commitment_statement (ss_statement e))) (ds_commitment_signature (ss_statement e)) = Ok tt ->
  verify_node_message (ds_responder_node_key (ss_statement e)) (DkgShareStatement_canonical_bytes (ss_statement e))
    (ss_signature e) = Ok tt -> share_bound b e /\ ds_share_value (ss_statement e) = v.
Proof.
  unfold validate_share_statement. intros E Hc Hs. bind_ok E as [] H%reject_Ok. split_checks H.
  bind_ok E as rk Hrk%ok_or_Ok. bind_ok E as [] Hr%reject_Ok. split_checks Hr. bind_ok E as [] Hn.
  apply reject_Ok in E. split_checks E. unfold validate_commitment_statement in Hn. bind_ok Hn as [] N%reject_Ok. split_checks N.
  bind_ok Hn as [] _. bind_ok Hn as dk Hdk%ok_or_Ok. apply reject_Ok in Hn. split_checks Hn.
  split; [|done]. constructor; try congruence. unfold validate_dkg_commitment_statement_shape.
  apply reject_pass; [by rewrite bool_decide_true|].
  apply reject_pass; [|by apply reject_pass; [by apply Z.ltb_ge|]].
  rewrite !bool_decide_true by congruence. rewrite !(proj2 (Z.eqb_eq _ _)) by congruence. done.
Qed.

(** The receiver finds the dealer by its number, the validator the number by the
    dealer. *)
Lemma canonical_key_number id key keys :
  (forall k, k ∈ keys -> Byte.x40 ∉ k) -> key ∈ keys ->
  node_key_for_canonical_node_id id keys = Some key -> determine_session_node_id key keys = Some id.
Proof.
  intros Hat Hk. unfold node_key_for_canonical_node_id. destruct (id =? 0); [done|].
  destruct (canonical_node_id_assignments_from_node_keys keys) as [m| | |] eqn:Em; [|done..].
  destruct (list_find _ (map_to_list m)) as [[i [k n]]|] eqn:El; [|done]. intros [= ->].
  apply list_find_Some in El as (Hi & Hn & _). cbn in Hn. subst n. apply list_elem_of_lookup_2, elem_of_map_to_list in Hi.
  rewrite <- Hi. symmetry. by apply (numberings_agree keys); [..|apply Hat].
Qed.

(** The checks of a report that do not look at its evidence. *)
Definition routine_checks (envelope : ReportEnvelope) (context : context_t) (ring : RingPayload) (label : string) : Prop :=
  validate_shape envelope (vc_now context) = Ok tt /\
  validate_report_route_version_at_observed_at envelope ring (vc_version context) = Ok (vc_version context) /\
  exists committee, validate_ring_and_membership_for_scopes envelope ring Current Current label = Ok committee /\
    validate_node_routes envelope context = Ok tt /\ validate_local_signer envelope context committee label = Ok tt.

(** The validator reads the ring the receiver read; no node key has an [@]. *)
Record same_ring (b : DkgReportEvidenceBinding) (context : context_t) (ring : RingPayload) : Prop := {
  sr_read : read_ring (vc_read_ring context) (bd_ring_id b) = Ok ring;
  sr_pk : bd_ring_pk b = ring_pk ring;
  sr_state : bd_ring_state_sha256 b = ring_state_sha256 ring;
  sr_chain : bd_chain_id b = vc_chain_id context;
  sr_version : bd_protocol_version b = vc_version context;
  sr_origin : is_valid_invalid_crypto_dkg_origin (bd_origin_protocol b) = true;
  sr_current : bd_current_node_keys b = Bulletin.peer_node_keys ring;
  sr_keys : forall k, k ∈ Bulletin.peer_node_keys ring -> Byte.x40 ∉ k;
}.

(** The bulletin lists the receiver of the share at the place the share names: in
    the new committee for a reshare, in the current one otherwise.  A session
    sorts the new committee, the bulletin need not. *)
Definition receiver_listed (ring : RingPayload) (e : DkgShareStatement) : Prop :=
  exists c, committee_for_scope ring (if bool_decide (ds_origin_protocol e = bstr "pss_reshare") then PendingNew else Current) = Ok c /\
    receiver_key (cv_peer_node_keys c) (ds_to_node_id e) = Some (ds_receiver_node_key e).

(** The bytes of the signed commitment are those of one point or more. *)
Definition whole_points (commitment : bytes) : Prop :=
  commitment <> [] /\ (length commitment mod g_size (G:=G) = 0)%nat.

(** The observation a receiver queues. *)
Definition share_observation (e : SignedDkgShare) (peer_id : bytes) : InvalidCryptoResponseObservation :=
  MkInvalidCryptoResponseObservation (ds_ring_id (ss_statement e)) (ds_responder_node_key (ss_statement e)) peer_id
    (u64_saturating_sub (ds_signed_at (ss_statement e)) CHAIN_BLOCK_GRACE_SECS)
    (EvDkgShare (ss_statement e) (ss_signature e)) None None None.

(** Evidence whose fields are not empty. *)
Record share_filled (e : SignedDkgShare) : Prop := {
  sf_ids : ds_from_node_id (ss_statement e) <> 0 /\ ds_to_node_id (ss_statement e) <> 0;
  sf_receiver : trim (ds_receiver_node_key (ss_statement e)) <> [];
  sf_value : ds_share_value (ss_statement e) <> [];
  sf_signatures : ds_commitment_signature (ss_statement e) <> [] /\ ss_signature e <> [];
  sf_time : CHAIN_BLOCK_GRACE_SECS <= ds_signed_at (ss_statement e);
}.

Lemma proves_failure_confirms e :
  share_evidence_proves_failure (F:=F) (G:=G) e = true <-> require_dkg_share_verification_failure (F:=F) (G:=G) (ss_statement e) = Ok tt.
Proof.
  unfold share_evidence_proves_failure, require_dkg_share_verification_failure.
  destruct (deserialize_wire_commitment _) as [c| | |]; [|done..]. destruct (Fr_from_bytes _) as [v| | |]; [|done..].
  by rewrite negb_true_iff, reject_Ok.
Qed.

Lemma membership_accused envelope ring label c :
  validate_ring_and_membership_for_scopes envelope ring Current Current label = Ok c ->
  re_accused_node_key envelope ∈ Bulletin.peer_node_keys ring.
Proof.
  intros E. unfold validate_ring_and_membership_for_scopes in E. do 3 (bind_ok E as [] _). bind_ok E as ac Ha. bind_ok E as sc _.
  do 4 (bind_ok E as [] _). bind_ok E as [] Hin%reject_Ok%negb_false_iff%bool_decide_eq_true. by apply Ok_inj in Ha as <-.
Qed.

Lemma shape_passes b e peer_id reporter (context : context_t) ring :
  let envelope := invalid_crypto_envelope (share_observation e peer_id) ring reporter (vc_chain_id context) in
  share_bound b e -> share_filled e -> whole_points (dc_commitment (ds_commitment_statement (ss_statement e))) ->
  same_ring b context ring ->
  validate_dkg_share_statement_shape (G:=G) envelope (ss_statement e) (ss_signature e) context = Ok tt.
Proof.
  intros envelope B Fl [Hc1 Hc2] R. destruct Fl as [[Hf Ht] Hr Hv [Hs1 Hs2] Htime]. unfold validate_dkg_share_statement_shape.
  eapply bind_pass.
  - unfold validate_invalid_crypto_statement_prologue. cbn [pl_label pl_domain pl_expected_domain pl_chain_id pl_ring_id pl_ring_pk
      pl_ring_state_sha256 pl_request_id pl_check_anchor pl_signed_at pl_responder_node_key].
    apply reject_pass; [by rewrite bool_decide_true by exact (sb_domain _ _ B)|].
    apply reject_pass; [rewrite !bool_decide_true; [done|done|by rewrite (sb_chain _ _ B), (sr_chain _ _ _ R)]|].
    apply reject_pass; [rewrite !bool_decide_true; [done|rewrite (sb_state _ _ B); apply (sr_state _ _ _ R)|
      rewrite (sb_pk _ _ B); apply (sr_pk _ _ _ R)|done]|].
    apply reject_pass; [by rewrite bool_decide_true|]. eapply bind_pass; [|by rewrite bool_decide_true].
    unfold validate_evidence_anchor. rewrite (proj2 (Z.ltb_ge _ _)) by done. cbn [orb re_observed_at].
    unfold envelope, share_observation, u64_saturating_sub. cbn. rewrite Z.max_r by lia. by rewrite Z.eqb_refl.
  - apply reject_pass; [by rewrite (sb_origin _ _ B), (sr_origin _ _ _ R)|].
    eapply bind_pass; [by rewrite (sb_accused_scope _ _ B), (sb_signing_scope _ _ B)|].
    apply reject_pass; [by rewrite !(proj2 (Z.eqb_neq _ _))|]. apply reject_pass; [by rewrite bool_decide_false|].
    eapply bind_pass; [by unfold require_dkg_backend; rewrite bool_decide_true by exact (sb_backend _ _ B)|].
    do 3 (apply reject_pass; [by rewrite bool_decide_false|]). rewrite (sb_nested _ _ B). unfold require_commitment_bytes.
    rewrite bool_decide_false by done. cbn [reject res_bind]. by rewrite Hc2.
Qed.

(** Co-signers confirm what a receiver reports. *)
Lemma accepted_evidence_confirmed b e peer_id reporter (context : context_t) ring dkg :
  let envelope := invalid_crypto_envelope (share_observation e peer_id) ring reporter (vc_chain_id context) in
  share_bound b e -> share_filled e -> whole_points (dc_commitment (ds_commitment_statement (ss_statement e))) ->
  same_ring b context ring -> receiver_listed ring (ss_statement e) ->
  InvalidCryptoResponse_wf (EvDkgShare (ss_statement e) (ss_signature e)) ->
  share_evidence_proves_failure (F:=F) (G:=G) e = true ->
  routine_checks envelope context ring "DKG invalid-share" ->
  registry_validate (TS:=TS) dkg envelope context = Ok tt.
Proof.
  intros envelope B Fl Hw R (rc & Hrc & Hkey) W Hp (Hshape & Hver & c & Hm & Hn & Hl). unfold registry_validate.
  eapply bind_pass; [exact Hshape|]. cbn zeta. change (re_report_type envelope) with INVALID_CRYPTO_RESPONSE_REPORT_TYPE.
  rewrite bool_decide_false, bool_decide_true by done. unfold invalid_crypto_validate.
  eapply bind_pass; [exact (canonical_decode (T:=InvalidCryptoResponse) _ W)|].
  eapply bind_pass; [change (re_ring_id envelope) with (ds_ring_id (ss_statement e)); rewrite (sb_ring _ _ B); exact (sr_read _ _ _ R)|].
  unfold validate_dkg_share_evidence. rewrite (sb_accused_scope _ _ B), (sb_signing_scope _ _ B).
  eapply bind_pass; [by apply (shape_passes b)|].
  eapply bind_pass; [exact Hver|]. eapply bind_pass.
  { unfold require_version. by rewrite (sb_version _ _ B), (sr_version _ _ _ R), Z.eqb_refl. }
  eapply bind_pass; [exact Hm|]. eapply bind_pass; [exact Hn|]. eapply bind_pass; [exact Hl|]. eapply bind_pass; [done|].
  apply membership_accused in Hm. eapply bind_pass.
  { unfold require_node_id. cbn [cv_peer_node_keys]. rewrite (canonical_key_number (ds_from_node_id (ss_statement e))).
    - cbn [ok_or res_bind]. by rewrite Z.eqb_refl.
    - exact (sr_keys _ _ _ R).
    - done.
    - rewrite <- (sr_current _ _ _ R). exact (sb_dealer _ _ B). }
  eapply bind_pass; [exact Hrc|]. rewrite Hkey. eapply bind_pass; [done|]. apply reject_pass; [by rewrite bool_decide_true|].
  eapply bind_pass; [by rewrite (sb_commitment_signed _ _ B : verify_node_message (re_accused_node_key envelope) _ _ = _)|].
  eapply bind_pass; [by rewrite (sb_signed _ _ B : verify_node_message (re_accused_node_key envelope) _ _ = _)|].
  by apply proves_failure_confirms.
Qed.

(** *** The handler *)

Section Handler.
Context (app : DkgApp St Post).

Lemma verify_share_evidence_Some (s : state) from to v nonce e e' s' :
  verify_share_evidence app from to v nonce e s = (Ok (Some e'), s') ->
  exists b, s' = set_evidence (Some b) (dt_local_signed_commitment s) s /\ share_bound b e' /\ ds_share_value (ss_statement e') = v.
Proof.
  intros (ob & s1 & (b & -> & Hb & _)%evidence_binding_frame & E)%m_bind_inv. destruct ob as [b'|]; [|done].
  apply m_lift_inv in E as (x & Hx%ok_or_Ok & E). apply m_lift_inv in E as ([] & Hv & E).
  apply m_lift_inv in E as (u1 & H1%verified_unit & E). apply m_lift_inv in E as (u2 & H2%verified_unit & E).
  injection E as -> <-. exists b'. rewrite (Hb b' eq_refl). split; [done|]. by apply (validate_share_statement_bound _ from to v nonce).
Qed.

(** A share the node refuses: it does not decode, or the node has the dealer's
    commitment and does not take the share. *)
Definition share_refused (s : state) (from to : Z) (v nonce : bytes) : Prop :=
  match Fr_from_bytes (F:=F) v with
  | Ok x =>
      let r := (receive_share (MkDistributedShare from to x nonce (dt_session_id s)) (node (dt_session s))).1 in
      r <> Ok tt /\ is_commitment_missing r from = false
  | _ => True
  end.

(** There is room for the report, and no report of the dealer for this session. *)
Definition reportable (s : state) (o : ReportObservation) : Prop :=
  (in_flight_key o ∉ in_flight (dt_reporting s)) /\ (size (in_flight (dt_reporting s)) < MAX_IN_FLIGHT_REPORTS)%nat.

Lemma refusal_queued {A} e (a : A) err (s : state) info :
  share_evidence_proves_failure (F:=F) (G:=G) e = true -> local_node_is_current_route_member app s = true ->
  dkg_read_node_info app (ds_responder_node_key (ss_statement e)) = Ok info ->
  let o := ObsInvalidCryptoResponse (share_observation e (ni_peer_id info)) in
  reportable s o ->
  exists s', refuse_share app (Some e) a err s = (Ok a, s') /\
    tasks (dt_reporting s') = tasks (dt_reporting s) ++ [(in_flight_key o, o)].
Proof.
  intros Hp Hl Hi o [Hk Hroom]. unfold refuse_share. rewrite Hp. unfold best_effort, queue_or_relay_invalid_share, queue_or_relay.
  unfold m_bind at 1. rewrite m_bind_get, Hl. unfold queue_invalid_share_report, queue_dealer_report.
  unfold m_bind at 1, m_lift at 1. rewrite Hi. unfold dkg_queue_report. rewrite m_bind_get. fold (share_observation e (ni_peer_id info)).
  fold o. unfold queue_report, spawn. rewrite bool_decide_false by done. rewrite bool_decide_false by lia.
  by eexists.
Qed.

End Handler.

(** *** Refusals that are not reported *)

Lemma share_report_checks dkg envelope (context : context_t) e sig :
  re_report_type envelope = INVALID_CRYPTO_RESPONSE_REPORT_TYPE ->
  InvalidCryptoResponse_from_canonical_bytes (re_payload envelope) = Ok (EvDkgShare e sig) ->
  registry_validate (TS:=TS) dkg envelope context = Ok tt ->
  ds_share_value e <> [] /\ exists ring c, read_ring (vc_read_ring context) (re_ring_id envelope) = Ok ring /\
    committee_for_scope ring (if bool_decide (ds_origin_protocol e = bstr "pss_reshare") then PendingNew else Current) = Ok c /\
    receiver_key (cv_peer_node_keys c) (ds_to_node_id e) = Some (ds_receiver_node_key e).
Proof.
  intros Ht Hev E. unfold registry_validate in E. bind_ok E as [] _. rewrite Ht, bool_decide_false, bool_decide_true in E by done.
  unfold invalid_crypto_validate in E. rewrite Hev in E. cbn [res_bind] in E. bind_ok E as ring Hr.
  unfold validate_dkg_share_evidence in E. bind_ok E as [] Hs. split.
  - unfold validate_dkg_share_statement_shape in Hs. do 6 (bind_ok Hs as [] _). bind_ok Hs as [] H%reject_Ok. by apply bool_decide_eq_false in H.
  - bind_ok E as v _. bind_ok E as [] _. bind_ok E as c _. bind_ok E as [] _. bind_ok E as [] _. bind_ok E as ac _.
    bind_ok E as [] _. bind_ok E as rc Hrc. bind_ok E as rk Hrk%ok_or_Ok.
    bind_ok E as [] Hk%reject_Ok%negb_false_iff%bool_decide_eq_true. exists ring, rc. by rewrite Hk.
Qed.

(** An empty share is refused and queued for a report, which no node confirms:
    the shape of the statement requires a share. *)
Lemma empty_share_unconfirmed dkg envelope (context : context_t) e :
  share_evidence_proves_failure (F:=F) (G:=G) e = true -> ds_share_value (ss_statement e) = [] ->
  re_report_type envelope = INVALID_CRYPTO_RESPONSE_REPORT_TYPE ->
  InvalidCryptoResponse_from_canonical_bytes (re_payload envelope) = Ok (EvDkgShare (ss_statement e) (ss_signature e)) ->
  registry_validate (TS:=TS) dkg envelope context <> Ok tt.
Proof. intros _ Hempty Ht Hev E. by destruct (share_report_checks _ _ _ _ _ Ht Hev E). Qed.

(** A session keeps the new committee of a reshare in sorted order, the validators
    take it in the order of the bulletin.  Where the two differ at the receiver's
    place, no report of its bad share is confirmed. *)
Lemma reordered_committee_unconfirmed dkg envelope (context : context_t) b e ring keys :
  share_bound b e -> bd_origin_protocol b = bstr "pss_reshare" -> bd_receiver_node_keys b = sort_strings keys ->
  read_ring (vc_read_ring context) (re_ring_id envelope) = Ok ring -> new_peer_node_keys ring = Some keys ->
  receiver_key keys (ds_to_node_id (ss_statement e)) <> receiver_key (sort_strings keys) (ds_to_node_id (ss_statement e)) ->
  re_report_type envelope = INVALID_CRYPTO_RESPONSE_REPORT_TYPE ->
  InvalidCryptoResponse_from_canonical_bytes (re_payload envelope) = Ok (EvDkgShare (ss_statement e) (ss_signature e)) ->
  registry_validate (TS:=TS) dkg envelope context <> Ok tt.
Proof.
  intros B Ho Hk Hr Hnew Hne Ht Hev E. destruct (share_report_checks _ _ _ _ _ Ht Hev E) as (_ & ring' & c & Hr' & Hc & Hrk).
  rewrite Hr in Hr'. apply Ok_inj in Hr' as <-. rewrite (sb_origin _ _ B), Ho, bool_decide_true in Hc by done.
  cbn in Hc. rewrite Hnew in Hc. cbn in Hc. apply Ok_inj in Hc as <-. cbn in Hrk.
  pose proof (sb_receiver _ _ B) as Hb. rewrite Hk in Hb. congruence.
Qed.
End Refusals.
