(* ===== verification/PetScenario.v ===== *)
(** * A complete blind equality test

    One ring with one member, over the toy group: the member commits, reveals
    and decrypts, the coordinator collects, and the admission gate lets the
    owner's audit through.  The run gives the theorems of [PetAdmission] and
    [PetHonest] concrete instances. *)
From S2P Require Import Prelude Algebra Interpolation Primitives Toy Codec Common Dkg Context Sigma Shares Pet.
From S2P Require Import DkgSpec Feldman PetTheorems.
From S2P Require Import ReportCodec ReportPet Evidence Identity NodeState Envelope Auth Routes Bulletin RingState PetNode Reporting PetProtocol PetAdmission PetHonest.

Module PetRun.

(** ** Instances of the parameters *)

#[local] Existing Instance plain_hex.

(** A signature is the key followed by the message. *)
#[local] Instance run_ecdsa : Ecdsa.
Proof.
  refine {| ecdsa_sign key m := Some (key ++ m); ecdsa_verify pk m sig := bool_decide (sig = pk ++ m);
            ecdsa_public key := key |}.
  intros key m sig [= <-]. by apply bool_decide_eq_true.
Defined.

(** The PET key polynomial is the constant 10; the tag is alice's. *)
Definition cs : list ToyF := [toy_F 10].
Definition alice : bytes := bstr "alice".
Definition tag : PetTag := tag_of (G:=ToyG1) (peval cs fzero) (toy_F 4) alice.
Definition poly_bytes : bytes := match PubPoly_to_bytes (G:=ToyG1) (MkPubPoly (commit_all cs)) with Ok b => b | _ => [] end.
Definition pet_key : bytes := hex_encode (g_serialize (generator (G:=ToyG1) ⊙ peval cs fzero)).

Definition ring : RingPayload :=
  MkRingPayload (bstr "aa") None None [bstr "01"] 1 60 5 None (Some []) (MkUpgradeInfo 0 None None)
    (MkReportingConfig (MkDemeritConfig 1 86400 1 1) [] 3) true (Some pet_key).

Definition doc : DocumentPayload :=
  MkDocumentPayload (bstr "ring") [Byte.x01] [Byte.x04] (bstr "p") (bstr "r") (bstr "read") None (Some 7)
    (Some (bstr "t")) (Some (bstr "q")).

Definition secret : Secret := MkSecret [Byte.x01] [Byte.x02] [Byte.x03].
Definition payload_proof : EncryptionProof := MkEncryptionProof [Byte.x04] [Byte.x05].

(** The document's JSON fields are what the names stand for. *)
Definition proof_of_tag : TagKnowledgeProof :=
  let context := MkCiphertextContext (default [] (hex_decode (ring_pk ring))) (policy_id doc) (resource doc)
    (permission doc) (tier doc) (timestamp doc) None
    (Some (MkPetTagBinding (ring_id doc) (default [] (hex_decode pet_key)) (ephemeral_point tag) (masked_fingerprint tag))) in
  let digest := tag_proof_digest (ephemeral_point tag) (masked_fingerprint tag) (default [] (hex_decode pet_key))
    (ring_id doc) context secret payload_proof in
  match prove_tag_knowledge (G:=ToyG1) 1 (toy_F 4) tag digest toy_rng with
  | Ok (p, _) => p
  | _ => MkTagKnowledgeProof [] []
  end.

#[local] Instance run_document_json : DocumentJson.
Proof.
  refine {| json_secret _ := Some secret; json_proof _ := Some payload_proof;
            json_pet_tag _ := Some (MkIdPetTag (ephemeral_point tag) (masked_fingerprint tag));
            json_pet_tag_proof _ := Some (MkIdPetTagProof (tkp_challenge proof_of_tag) (tkp_response proof_of_tag));
            PetTag_try_from _ := Some tag |}.
  intros s t [= <-]. reflexivity.
Defined.

#[local] Instance run_pet_json : PetJson := {|
  TagKnowledgeProof_try_from _ := Some proof_of_tag;
  Secret_from_str _ := Some secret;
  EncryptionProof_try_from _ := Some payload_proof;
|}.

#[local] Instance run_authz : Authz := {| request_to_bytes _ := Some []; authz_check _ _ := Ok true |}.

Definition object_id : bytes := match generate_document_id doc with Ok i => i | _ => [] end.

Definition token : BearerToken PreClaims :=
  MkBearerToken PreClaims (bstr "did:key:zK") None 1000 2000 None (bstr "id") (MkPreClaims [] object_id None None).

#[local] Instance run_jwt : JwtLib PreClaims := {|
  header_is_eddsa _ := Some true;
  decode_insecure _ := Some token;
  decode_signed _ _ := Some token;
  bs58_decode _ := Some ([Byte.xed; Byte.x01] ++ repeat Byte.x07 32);
  ed25519_key_valid _ := true;
  from_ed_components k := Some k;
  decode_same _ _ _ E := E;
|}.

Definition peer : bytes := repeat Byte.xab 32%nat.
Definition info : NodeInfo := MkNodeInfo (mjoin (repeat (bstr "AB") 32%nat)) [] [] [].

#[local] Instance run_posts : BulletinPosts (RingPayload + NodeInfo) := {|
  RingPayload_try_from p := match p with inl r => Some r | inr _ => None end;
  NodeInfo_try_from p := match p with inl _ => None | inr i => Some i end;
  is_socket_addr _ := false;
|}.

(** ** The node *)

Definition share : PriShare ToyF := MkPriShare 1 (peval cs (from_u64 1)).
Definition bundle : RingShareBundle :=
  MkRingShareBundle (match PriShare_to_bytes share with Ok b => b | _ => [] end) (hex_encode poly_bytes) 0.

Definition storage : map_storage :=
  (fun _ => None,
   fun k => match k with
            | PetRingKey _ => Some (RingShareBundle_to_bytes bundle)
            | NodeSigningKey => Some (bstr "01")
            | _ => None
            end).

Definition app : PetApp map_storage (RingPayload + NodeInfo) :=
  MkPetApp _ _ (bstr "chain") 0 (bstr "01") storage (fun _ _ => Some (inl ring))
    (fun k => if bool_decide (k = bstr "01") then Some (inr info) else None) 1500 (Some 1500) (Some 1501).

Definition ctx : PetCheckContext :=
  MkPetCheckContext (ring_state_sha256 ring) poly_bytes doc None object_id false [] alice None.

(** ** The run *)

Definition attempt : bytes := bstr "attempt".
Definition target : ToyG1 := generator ⊙ hash_to_scalar (FINGERPRINT_DOMAIN ++ alice).
Definition R : ToyG1 := generator ⊙ toy_F 4.
Definition T : ToyG1 := target ⊕ generator ⊙ toy_F 10 ⊙ toy_F 4.

Definition actor : bytes := bstr "did:key:zK".
Definition blind_context : PetBlindContext :=
  build_pet_blind_context (bstr "chain") ring pet_key 0 PET_NAME ctx actor (bstr "01") attempt.
Definition context_hash : bytes := PetBlindContext_context_digest blind_context.

(** The member's blinding scalar is 3, its salt all ones. *)
Definition salt : bytes := repeat Byte.x01 32%nat.
Definition commitment : bytes :=
  pet_blind_commit_hash attempt context_hash 1 salt (g_serialize (R ⊙ toy_F 3)) (g_serialize ((T ⊖ target) ⊙ toy_F 3)).
Definition entry : PendingBlind.PendingBlinding ToyF :=
  PendingBlind.MkPendingBlinding ToyF (toy_F 3) salt 1 context_hash commitment peer 0.
Definition commitments : list (Z * bytes) := [(1, commitment)].
Definition selection : bytes := pet_blind_selection_digest attempt context_hash commitments.

Definition reveal_reply : option PetMessage :=
  match open_blinding (G:=ToyG1) app 1 (MkRevealRequest [] attempt 0 commitments ctx) tag blind_context share commitments
          entry toy_rng with
  | Ok (reply, _) => reply
  | _ => None
  end.

Definition signed_reveal : option PetBlindSignedReveal :=
  reply ← reveal_reply;
  match (verify_reveal_response (F:=ToyF) (G:=ToyG1) reply (bstr "ring") ring [] tag target commitments selection blind_context None ∅).1
  with
  | RevealVerified reveal => Some reveal
  | _ => None
  end.

Definition certificate : PetBlindCertificate :=
  MkPetBlindCertificate poly_bytes attempt context_hash commitments (option_list signed_reveal).

Definition blinded_R : ToyG1 := R ⊙ toy_F 3.
Definition blinded_D : ToyG1 := (T ⊖ target) ⊙ toy_F 3.
Definition aggregate_r : bytes := g_serialize blinded_R.
Definition aggregate_diff : bytes := g_serialize blinded_D.

Definition decrypt_reply : option PetMessage :=
  match handle_decrypt_request (F:=ToyF) (G:=ToyG1) app 1 (MkDecryptRequest [] attempt 0 certificate ctx) peer toy_rng with
  | Ok (reply, _) => reply
  | _ => None
  end.

Definition signed_decrypt : option PetBlindSignedDecrypt :=
  reply ← decrypt_reply;
  match (verify_decrypt_response (F:=ToyF) (G:=ToyG1) reply (bstr "ring") ring [] (MkPubPoly (commit_all cs)) context_hash
    (certificate_digest certificate) attempt aggregate_r aggregate_diff blind_context certificate None ∅).1
  with
  | DecryptVerified decrypt _ => Some decrypt
  | _ => None
  end.

Definition evidence : PetBlindEvidence := MkPetBlindEvidence certificate (option_list signed_decrypt) (bstr "01").

(** ** Instances of the theorems *)


Lemma run_configured : configured app.
Proof.
  refine {| cf_key := _ |}.
  - exists (bstr "01"), [Byte.x01]. split_and!; try reflexivity. intros m. eexists. reflexivity.
  - apply (bool_decide_unpack _). vm_compute. exact I.
  - eexists. reflexivity.
Qed.

Lemma run_member : member (F:=ToyF) (G:=ToyG1) app ctx ring pet_key bundle share.
Proof. refine {| mb_configured := run_configured |}; [intros e|]; vm_compute; reflexivity. Qed.

Lemma run_authorized : authorize_request (F:=ToyF) (G:=ToyG1) app ctx attempt peer = Ok (tag, pet_key, ring, blind_context).
Proof. vm_compute. reflexivity. Qed.

Lemma run_certificate :
  build_and_verify_pet_blind_certificate (F:=ToyF) certificate ring tag target blind_context = Ok (blinded_R, blinded_D).
Proof. vm_compute. reflexivity. Qed.

Lemma run_polynomial :
  match_bundle (F:=ToyF) bundle poly_bytes (rp_threshold ring) pet_key = Ok (MkPubPoly (commit_all (G:=ToyG1) cs)).
Proof. vm_compute. reflexivity. Qed.

Lemma run_points :
  decode_group_element (ephemeral_point tag) = Ok R /\ decode_group_element (masked_fingerprint tag) = Ok T.
Proof. split; vm_compute; reflexivity. Qed.

Lemma honest_reveal_accepted_witness :
  exists c rng1 map1,
    handle_commit_request (G:=ToyG1) app 1 0 0 salt (MkCommitRequest [] attempt 0 ctx) peer toy_rng ∅
    = (Ok (Some (PetCommitResponse [] attempt context_hash 1 c), rng1), map1).
Proof.
  destruct run_points as [HR HT].
  destruct (honest_reveal_accepted app app ctx attempt peer tag pet_key ring blind_context bundle bundle share share R T
    run_authorized run_authorized run_member run_member eq_refl eq_refl HR HT 1 0 0 salt [] [] 0 0 toy_rng ∅ toy_rng_healthy)
    as (c & rng1 & map1 & E & _).
  - unfold remove_expired. rewrite map_filter_empty, map_size_empty. unfold PendingBlind.MAX_PET_BLIND_PENDING. lia.
  - unfold remove_expired. by rewrite map_filter_empty, lookup_empty.
  - exists c, rng1, map1. exact E.
Defined.

Lemma honest_decrypt_accepted_witness :
  exists reply rng1,
    handle_decrypt_request (F:=ToyF) (G:=ToyG1) app 1 (MkDecryptRequest [] attempt 0 certificate ctx) peer toy_rng
      = Ok (Some reply, rng1).
Proof.
  destruct (honest_decrypt_accepted app ctx attempt peer tag pet_key ring blind_context bundle share certificate
    blinded_R blinded_D bundle (MkPubPoly (commit_all cs)) run_authorized run_member eq_refl eq_refl
    run_certificate run_polynomial 1 [] 0 toy_rng ∅ [] [] None toy_rng_healthy (not_elem_of_empty _)) as (reply & rng1 & d & E & _).
  exists reply, rng1. exact E.
Defined.
End PetRun.
