(* ===== verification/PreScenario.v ===== *)
(** * A complete re-encryption

    A ring of three members with threshold two, over the toy group.  A document
    is encrypted to the ring key, a reader signs a request, the first member
    coordinates it, the second cannot be reached and the third answers.  The run
    gives the theorems of [PreRelease] and [PreCollect] concrete instances. *)
From S2P Require Import Prelude Algebra Interpolation Primitives Toy Codec Common Dkg Context Sigma Shares Pre Pet.
From S2P Require Import DkgSpec Feldman PreTheorems.
From S2P Require Import ReportCodec ReportStatements ReportPet Evidence Identity NodeState Envelope Responses Auth Routes Bulletin RingState PetNode Reporting Relay PetProtocol PreNode PreInitiator PetAdmission PetHonest PreRelease PreCollect.

Module PreRun.

(** ** Instances of the parameters *)

#[local] Existing Instances plain_hex list_order.

#[local] Instance run_ecdsa : Ecdsa.
Proof.
  refine {| ecdsa_sign key m := Some (key ++ m); ecdsa_verify pk m sig := bool_decide (sig = pk ++ m);
            ecdsa_public key := key |}.
  intros key m sig [= <-]. by apply bool_decide_eq_true.
Defined.

(** The key polynomial is [10 + 3x]; the reader's secret key is 21. *)
Definition cs : list ToyF := [toy_F 10; toy_F 3].
Definition ring_point : ToyG1 := generator ⊙ peval cs fzero.
Definition rdr_sk : ToyF := toy_F 21.
Definition rdr_pk : ToyG1 := generator ⊙ rdr_sk.
Definition derivation : option bytes := Some (bstr "cap").
Definition data : bytes := bstr "hello".
Definition keys : list bytes := [bstr "01"; bstr "02"; bstr "03"].

Definition ring : RingPayload :=
  MkRingPayload (hex_encode (g_serialize ring_point)) None None keys 2 60 5 None (Some []) (MkUpgradeInfo 0 None None)
    (MkReportingConfig (MkDemeritConfig 1 86400 1 1) [] 3) false None.

Definition doc : DocumentPayload :=
  MkDocumentPayload (bstr "ring") [Byte.x01] [Byte.x04] (bstr "p") (bstr "r") (bstr "read") None (Some 7) None None.

Definition cipher_context : CiphertextContext :=
  MkCiphertextContext (g_serialize ring_point) (policy_id doc) (resource doc) (permission doc) (tier doc) (timestamp doc)
    None None.

Definition no_secret : Secret := MkSecret [] [] [].
Definition encrypted : (ToyG1 * Secret * EncryptionProof) * Rng ToyF :=
  match encrypt_secret 1 ring_point data derivation cipher_context toy_rng with
  | Ok out => out
  | _ => ((g_zero, no_secret, MkEncryptionProof [] []), toy_rng)
  end.
Definition U : ToyG1 := encrypted.1.1.1.
Definition secret : Secret := encrypted.1.1.2.
Definition payload_proof : EncryptionProof := encrypted.1.2.

#[local] Instance run_document_json : DocumentJson.
Proof.
  refine {| json_secret _ := Some secret; json_proof _ := Some payload_proof; json_pet_tag _ := None;
            json_pet_tag_proof _ := None; PetTag_try_from _ := None |}.
  by intros.
Defined.

#[local] Instance run_pet_json : PetJson := {|
  TagKnowledgeProof_try_from _ := None;
  Secret_from_str _ := Some secret;
  EncryptionProof_try_from _ := Some payload_proof;
|}.

#[local] Instance run_authz : Authz := {| request_to_bytes _ := Some []; authz_check _ _ := Ok true |}.

Definition object_id : bytes := match generate_document_id doc with Ok i => i | _ => [] end.

Definition token : BearerToken PreClaims :=
  MkBearerToken PreClaims (bstr "did:key:zK") None 1000 2000 None (bstr "id")
    (MkPreClaims (g_serialize rdr_pk) object_id derivation None).

#[local] Instance run_jwt : JwtLib PreClaims := {|
  header_is_eddsa _ := Some true;
  decode_insecure _ := Some token;
  decode_signed _ _ := Some token;
  bs58_decode _ := Some ([Byte.xed; Byte.x01] ++ repeat Byte.x07 32);
  ed25519_key_valid _ := true;
  from_ed_components k := Some k;
  decode_same _ _ _ E := E;
|}.

Inductive Post := RingPost (r : RingPayload) | NodePost (i : NodeInfo) | DocumentPost (d : DocumentPayload).

#[local] Instance run_posts : BulletinPosts Post := {|
  RingPayload_try_from p := match p with RingPost r => Some r | _ => None end;
  NodeInfo_try_from p := match p with NodePost i => Some i | _ => None end;
  is_socket_addr _ := false;
|}.

#[local] Instance run_document_posts : DocumentPosts Post := {|
  DocumentPayload_try_from p := match p with DocumentPost d => Some d | _ => None end;
|}.

#[local] Instance run_display : PointDisplay ToyG1 := {| point_to_string := g_serialize |}.
#[local] Instance run_case : UnicodeCase := {| to_lowercase := to_ascii_lowercase; to_lowercase_ascii _ _ := eq_refl |}.
#[local] Instance run_response : PreJson := {| PreResponse_to_vec xnc_cmt _ := Some xnc_cmt |}.

(** ** The nodes *)

Definition poly_hex : bytes :=
  hex_encode (match PubPoly_to_bytes (G:=ToyG1) (MkPubPoly (commit_all cs)) with Ok b => b | _ => [] end).
Definition share (i : Z) : PriShare ToyF := MkPriShare i (peval cs (from_u64 i)).
Definition bundle (i : Z) : RingShareBundle :=
  MkRingShareBundle (match PriShare_to_bytes (share i) with Ok b => b | _ => [] end) poly_hex 0.

Definition storage (i : Z) (key : bytes) : map_storage :=
  (fun _ => None,
   fun k => match k with
            | RingKey _ => Some (RingShareBundle_to_bytes (bundle i))
            | NodeSigningKey => Some key
            | _ => None
            end).

Definition app (i : Z) (key : bytes) : PreApp map_storage Post :=
  MkPreApp _ _ (MkPetApp _ _ (bstr "chain") 0 key (storage i key) (fun _ _ => Some (RingPost ring)) (fun _ => None)
      1500 (Some 1500) (Some 1501))
    (fun _ => Some (DocumentPost doc)) (fun _ _ => Some (RingPost ring)) 1500 (Some 1500) (from_secs 5) 1500 (Some 1501)
    (Some false) None.

(** ** The request *)

Definition request_context : ReaderAuthorizationContext :=
  MkReaderAuthorizationContext (bstr "chain") (g_serialize ring_point) (issuer_id token) None (issuer_id token) (bstr "id")
    1000 2000 None object_id (g_serialize rdr_pk) derivation None None None.

Definition signature : ReaderAuthorizationSignature :=
  match sign_reader_authorization 1 rdr_sk rdr_pk request_context toy_rng with
  | Ok (sig, _) => sig
  | _ => MkReaderAuthorizationSignature [] []
  end.

Definition ctx : PreRequestContext :=
  MkPreRequestContext (g_serialize rdr_pk) signature object_id (bstr "jwt") derivation None None None [] None None None.
Definition the_request : bytes := bstr "req".
Definition request : ReencryptRequest := MkReencryptRequest the_request 1 ctx.

Definition node : PreApp map_storage Post := app 3 (bstr "03").
Definition resolved : Resolved :=
  MkResolved 1500 token doc ring None (issuer_id token) cipher_context request_context.
Definition idle : PreState := MkPreState ∅ (MkReportingState ∅ []).

Lemma request_resolved : resolve_request node ctx = Ok resolved.
Proof. vm_compute. reflexivity. Qed.
Definition answer : option PreMessage * Rng ToyF :=
  match release_share (G:=ToyG1) node 1 request resolved rdr_pk toy_rng with Ok out => out | _ => (None, toy_rng) end.
Definition served : PreMessage := default (PreErrorMessage [] []) answer.1.
Definition spent : PreState := MkPreState {[bstr "id" := from_secs 5 + retention 2000 1500]} (MkReportingState ∅ []).

Lemma request_served : handle_reencrypt_request (G:=ToyG1) node 1 request toy_rng idle = (Ok (Some served, answer.2), spent).
Proof. vm_compute. reflexivity. Qed.

(** ** The coordinator *)

Definition peers : list bytes := [bstr "aa"; bstr "bb"; bstr "cc"].
Definition config : RingConfig :=
  MkRingConfig (bstr "ring") (g_serialize ring_point) peers keys 2 3 poly_hex.
Definition binding : PreReportBinding := PreReportBinding_from_ring (bstr "chain") (bstr "ring") ring (timestamp doc) None.

(** The second member is offline, the third answers. *)
Definition reply : Arrival := MkArrival (Some 1502) (Some (bstr "cc", Ok (Some served))).
Definition arrivals : list Arrival :=
  [MkArrival (Some 1502) (Some (bstr "bb", Err (PreTimeout "Failed to receive"))); reply].

Definition material : ReencryptionMaterial ToyG1 := MkReencryptionMaterial (MkPubPoly (commit_all cs)) (Some (bundle 1)).
Definition request_material : ReencryptionRequestMaterial ToyG1 := MkReencryptionRequestMaterial rdr_pk secret U.
Definition own_share : PubShare ToyG1 * Rng ToyF :=
  match compute_local_reencryption_share 1 true material request_material ctx request_context toy_rng with
  | Ok (Some share, rng) => (share, rng)
  | _ => (MkPubShare 0 g_zero, toy_rng)
  end.

Lemma third_serves : serving_member (F:=ToyF) node resolved (MkPubPoly (commit_all cs)) 3.
Proof.
  constructor.
  - intros rk b H1 H2.
    assert (load_by_ring_pk (app_storage (pa_pet node)) rk.2 = Ok (bundle 3)) as E by (vm_compute; reflexivity).
    rewrite E in H2. injection H2 as <-. exists (share 3). split_and!; vm_compute; reflexivity.
  - exists (bstr "03"), [Byte.x03]. split_and!; vm_compute; reflexivity.
Qed.

Lemma third_answers : answered_by (F:=ToyF) (G:=ToyG1) node 0 the_request config ctx binding (MkPubPoly (commit_all cs)) secret reply.
Proof.
  constructor. exists 1%nat, 1, toy_rng, idle, (bstr "cc"), served, answer.2, spent. split; [done|].
  split; [exact request_served|]. split; [vm_compute; reflexivity|].
  exists 3, resolved, 1501. split; [vm_compute; reflexivity|]. split; [exact request_resolved|]. split; [exact third_serves|].
  split_and!; try done. 
Qed.

Lemma own_on_polynomial : bundle_on_polynomial config cs (Some (bundle 1)).
Proof.
  intros b sh [= <-] H. assert (PriShare_from_bytes (share_bytes (bundle 1)) = Ok (share 1)) as E by (vm_compute; reflexivity).
  rewrite E in H. injection H as <-. split; [done|cbn; lia].
Qed.

End PreRun.
Import PreRun.

#[local] Existing Instances plain_hex list_order run_ecdsa run_document_json run_pet_json run_authz run_jwt run_posts.
#[local] Existing Instances run_document_posts run_display run_case run_response.

Lemma release_authorized_witness :
  exists r pk, reader_signed (F:=ToyF) node ctx r pk /\ token_spent node r idle spent /\
    share_released (F:=ToyF) node request r pk served.
Proof.
  destruct (release_authorized node 1 request toy_rng idle served answer.2 spent request_served)
    as (r & pk & _ & _ & _ & _ & Hr & Ht & _ & Hs).
  by exists r, pk.
Defined.


