(* ===== verification/ReportScenario.v ===== *)
(** * Reports about a re-encryption

    The ring of [PreScenario]: the second member validates reports the first one
    prepares about the third.  The run gives the theorems of [Convictions]
    concrete instances, and shows what a lost history does. *)
From S2P Require Import Prelude Algebra Interpolation Primitives Pairing Toy Codec Common Dkg Context Sigma Shares Pre Pet SignDerivation Bls Signer.
From S2P Require Import DkgSpec Feldman PreTheorems.
From S2P Require Import ReportCodec ReportStatements ReportDkg ReportPet Evidence Identity NodeState Envelope Responses Auth Routes Bulletin RingState PetNode Reporting Relay PetProtocol PreNode SignHelpers Registry PreInitiator PetAdmission PetHonest PreRelease PreCollect Convictions PreScenario.
Import PreRun.

Module ReportRun.

#[local] Existing Instances plain_hex list_order run_ecdsa run_document_json run_pet_json run_authz run_jwt run_posts.
#[local] Existing Instances run_document_posts run_display example_state_json.

#[local] Instance run_history : AuthzHistory := {| authz_anchor_time _ := Ok 1500; authz_check_at _ _ _ := Ok false |}.
#[local] Instance run_derivations : DerivationPosts Post := {| KeyDerivation_try_from _ := None |}.

(** The members sign with BLS. *)
Definition bls : ThresholdSigner ToyF ToyG1 (G2Point ToyG2) (G2Point ToyG2) unit unit := ThresholdBlsSigner.
#[local] Existing Instance bls.

(** The route of the third member is spelled in capitals. *)
Definition capitals : bytes := mjoin (repeat (bstr "CC") 32%nat).
Definition canonical : bytes := mjoin (repeat (bstr "cc") 32%nat).

Definition node_post (peer_id : bytes) : option Post := Some (NodePost (MkNodeInfo peer_id [] [] [])).
Definition read_node (third : bytes) (key : bytes) : option Post :=
  if bool_decide (key = bstr "01") then node_post (bstr "aa")
  else if bool_decide (key = bstr "02") then node_post (bstr "bb")
  else if bool_decide (key = bstr "03") then node_post third else None.

Definition view (third : bytes) (s : map_storage) : ReportingView map_storage Post :=
  MkReportingView (bstr "02") [Byte.xbb] (bstr "chain") 0 s (fun _ => Some (RingPost ring)) (read_node third)
    (fun _ => Some (DocumentPost doc)) (fun _ => None).

Definition context (s : map_storage) : ReportValidationContext map_storage Post :=
  validation_context (view (bstr "cc") s) (Some [Byte.xaa]) None 1502 (IndependentSigner true) None None None.

(** No DKG evidence is confirmed. *)
Definition no_dkg (e : ReportEnvelope) (c : ReportValidationContext map_storage Post) (r : RingPayload)
    (ev : InvalidCryptoResponse) : report_result unit := Err (InvalidReport "unsupported").

(** ** A false answer *)

Definition answer_fields (m : PreMessage) : bytes * bytes * bytes * Z * bytes :=
  match m with PreReencryptResponse _ _ sh ch pf t sig => (sh, ch, pf, t, sig) | _ => ([], [], [], 0, []) end.
Definition fields : bytes * bytes * bytes * Z := (answer_fields served).1.
Definition statement (sh : bytes) : PreReencryptResponseStatement :=
  context_statement (collected_context node request resolved []) 3 sh fields.1.1.2 fields.1.2 fields.2.

Definition report (sh : bytes) : ReportEnvelope :=
  let st := statement sh in
  invalid_crypto_envelope (MkInvalidCryptoResponseObservation (bstr "ring") (bstr "03") (bstr "cc") 1491
    (EvPre st (Byte.x03 :: PreReencryptResponseStatement_canonical_bytes st)) None None None) ring (bstr "01") (bstr "chain").

(** The third member signed the generator as its share. *)
Definition false_report : ReportEnvelope := report (g_serialize (generator (G:=ToyG1))).

(** ** A refresh after the honest answer *)

Definition new_cs : list ToyF := [toy_F 10; toy_F 5].
Definition new_poly_hex : bytes :=
  hex_encode (match PubPoly_to_bytes (G:=ToyG1) (MkPubPoly (commit_all new_cs)) with Ok b => b | _ => [] end).
Definition refreshed : RingShareBundle := MkRingShareBundle [] new_poly_hex 1500.
Definition key : bytes := g_serialize ring_point.
Definition after : map_storage := (save_by_ring_key refreshed key (storage 2 (bstr "02"))).2.

Lemma refresh_saved : save_all key [refreshed] (storage 2 (bstr "02")) = (Ok tt, after).
Proof. reflexivity. Qed.

(** ** A refresh that loses its write to the history *)

(** A storage that refuses to write the history of retired polynomials. *)
Definition refuses_history : LocalStorage map_storage.
Proof.
  refine {| get s k := Ok (s.1 k); get_encrypted s k := Ok (s.2 k);
            set k v s := match k with RingPolyHistoryKey _ => (Err "disk full"%string, s) | _ => (Ok tt, (update s.1 k v, s.2)) end;
            set_encrypted k v s := (Ok tt, (s.1, update s.2 k v));
            storage_delete k s := (Ok tt, (erase s.1 k, erase s.2 k)) |}.
  - intros s k v s'. destruct k; intros [= <-]; cbn; unfold update; by rewrite decide_True.
  - intros s k v s' [= <-]. cbn. unfold update. by rewrite decide_True.
  - intros s k v r s' j E Hj. destruct k; injection E as _ <-; try done; cbn; unfold update; by rewrite decide_False.
  - intros s k v r s' j [= _ <-] Hj. cbn. unfold update. by rewrite decide_False.
  - intros s k s' [= <-]. cbn. unfold erase. by rewrite !decide_True.
  - intros s k r s' j [= _ <-] Hj. cbn. unfold erase. by rewrite !decide_False.
Defined.

Definition lost : map_storage := (save_by_ring_key (LocalStorage0:=refuses_history) refreshed key (storage 2 (bstr "02"))).2.

(** ** An offline member *)

Definition offline : ReportObservation :=
  ObsNodeOffline (MkOfflineObservation (bstr "ring") (bstr "03") canonical (bstr "pre") 0 Current Current 1491 (bstr "req")).

Lemma honest_report_decodes :
  InvalidCryptoResponse_from_canonical_bytes (re_payload (report fields.1.1.1)) =
  Ok (EvPre (statement fields.1.1.1) (Byte.x03 :: PreReencryptResponseStatement_canonical_bytes (statement fields.1.1.1))).
Proof. vm_compute. reflexivity. Qed.
End ReportRun.
Import ReportRun.

#[local] Existing Instances plain_hex list_order run_ecdsa run_document_json run_pet_json run_authz run_jwt run_posts.
#[local] Existing Instances run_document_posts run_display example_state_json run_history run_derivations.

Lemma conviction_sound_witness :
  exists evidence ring, InvalidCryptoResponse_from_canonical_bytes (re_payload false_report) = Ok evidence /\
    read_ring (fun _ => Some (RingPost PreRun.ring)) (bstr "ring") = Ok ring /\
    (attributed false_report (context (storage 2 (bstr "02"))) (signed_statements evidence) (evidence_signed_at evidence) /\
       answer_fault (TS:=bls) false_report (context (storage 2 (bstr "02"))) ring evidence \/
     signed_statements evidence = [] /\ no_dkg false_report (context (storage 2 (bstr "02"))) ring evidence = Ok tt).
Proof.
  destruct (conviction_sound (TS:=bls) no_dkg false_report (context (storage 2 (bstr "02"))))
    as (_ & _ & [[[=] _]|[[_ H]|[[=] _]]]); [vm_compute; reflexivity|exact H].
Defined.

Lemma honest_answer_not_convicted_witness :
  registry_validate (TS:=bls) no_dkg (report fields.1.1.1) (context after) <> Ok tt \/
  some_write_lost (point_to_string ring_point) [refreshed] (storage 2 (bstr "02")) \/
  exists e m1 m2, vc_inline_document (context after) = Some e /\ document_message doc = Ok m1 /\
    document_message (evidence_document (ring_id doc) (timestamp doc) e) = Ok m2 /\ collision sha256 m1 m2.
Proof.
  apply (honest_answer_not_convicted node 1 request toy_rng idle 3 fields.1.1.1 fields.1.1.2 fields.1.2 fields.2
    (answer_fields served).2 answer.2 spent resolved
    (MkPubPoly (commit_all cs)) 3 poly_hex key ring_point (storage 2 (bstr "02")) [refreshed] no_dkg (report fields.1.1.1)
    (context after) (Byte.x03 :: PreReencryptResponseStatement_canonical_bytes (statement fields.1.1.1))).
  - rewrite request_served. vm_compute. reflexivity.
  - exact request_resolved.
  - exact third_serves.
  - done.
  - vm_compute. by repeat split.
  - done.
  - intros _ d E. exact E.
  - vm_compute. reflexivity.
  - vm_compute. reflexivity.
  - vm_compute. reflexivity.
  - exists (bundle 2). split; vm_compute; reflexivity.
  - exact refresh_saved.
  - apply Forall_singleton. repeat split; vm_compute; reflexivity || discriminate.
  - cbn. lia.
  - apply Forall_singleton. vm_compute. split; discriminate.
  - reflexivity.
  - exact honest_report_decodes.
Defined.

(** A lost write to the history convicts an honest member.  The refresh succeeds
    although the retired polynomial could not be recorded, and the validator then
    confirms the report of the answer that the third member gave, rightly, under
    the polynomial before the refresh. *)
Lemma lost_history_convicts :
  save_by_ring_key (LocalStorage0:=refuses_history) refreshed key (storage 2 (bstr "02")) = (Ok tt, lost) /\
  registry_validate (LS:=refuses_history) (TS:=bls) no_dkg (report fields.1.1.1) (context lost) = Ok tt.
Proof. split; [reflexivity|vm_compute; reflexivity]. Qed.

(** The third member escapes by spelling its route in capitals. *)
Lemma capital_route_unreported :
  capitals <> canonical /\
  forall prepared, create_report (TS:=bls) no_dkg (view capitals (storage 2 (bstr "02"))) (Some 1502) offline
    <> Ok prepared.
Proof.
  split; [by vm_compute|].
  apply (respelled_route_unreported no_dkg (view capitals (storage 2 (bstr "02"))) (Some 1502) offline (bstr "03")
    (MkNodeRoute (bstr "03") canonical) (MkNodeInfo capitals [] [] [])); [vm_compute; reflexivity|reflexivity|by vm_compute|done].
Qed.
