(* ===== verification/SignScenario.v ===== *)
(** * A complete threshold signature

    A ring of three members with threshold two, over the toy group without
    cofactor, built with the FROST signer.  A caller asks for a signature under a
    key derived from the ring's; the first member coordinates it, the second
    cannot be reached and the third answers both rounds.  The run gives the
    theorems of [SignRelease] and [SignCollect] concrete instances. *)
From S2P Require Import Prelude Algebra Interpolation Primitives Pairing Toy Codec Common Dkg Context Sigma Shares Pre Pet SignDerivation Frost Signer SignerContract.
From S2P Require Import ReportCodec ReportStatements ReportDkg ReportPet Evidence Identity NodeState Envelope Collection Responses Auth Routes Bulletin RingState PetNode Reporting Relay PetProtocol PreNode SignHelpers Registry SignNode SignResponder PreInitiator SignInitiator SignRelease SignCollect.
Import NonceStates.

Module SignRun.

(** ** Instances of the parameters *)

#[local] Existing Instances plain_hex list_order example_state_json.

#[local] Instance e_blst : Blst ToyF ToyE ToyF ToyE.
Proof.
  refine {|
    blst_scalar_of x := x; blst_point_of Q := Q;
    blst_scalar_from_bytes_le := toy_fr_deserialize;
    blst_scalar_to_bytes_le := toy_fr_serialize;
    blst_scalar_add := fadd; blst_scalar_mul := fmul;
    blst_from_compressed := g_deserialize;
    blst_to_compressed := g_serialize;
    blst_point_mul := g_mul;
    blst_scalar_from_ok := toy_fr_deserialize_serialize |}; try done.
  intros Q. by apply g_deserialize_serialize.
Defined.

#[local] Instance run_ecdsa : Ecdsa.
Proof.
  refine {| ecdsa_sign key m := Some (key ++ m); ecdsa_verify pk m sig := bool_decide (sig = pk ++ m);
            ecdsa_public key := key |}.
  intros key m sig [= <-]. by apply bool_decide_eq_true.
Defined.

(** An injective encoding of anything countable. *)
Fixpoint bits (p : positive) : bytes :=
  match p with xH => [Byte.x02] | xO p => Byte.x00 :: bits p | xI p => Byte.x01 :: bits p end.

Lemma bits_inj p q : bits p = bits q -> p = q.
Proof. revert q. induction p; intros [] E; try done; injection E as E; f_equal; auto. Qed.

Definition doc_fields (d : RingReshareFinalizeSignDoc) :=
  (doc_domain d, doc_chain_id d, doc_ring_id d, doc_ring_pk d, doc_current_ring_sha256 d, doc_finalized_ring_sha256 d,
   doc_block_number_nonce d).

Definition state_fields (s : RingReshareSignState) :=
  (rss_ring_pk s, rss_peer_node_keys s, rss_threshold s, rss_new_peer_node_keys s, rss_new_threshold s,
   rss_block_number_nonce s, rss_policy_id s, rss_trusted_auth_relay_dids s, rss_allow_trusted_auth_relays s).

#[local] Instance run_prost : Prost.
Proof.
  refine {| SignDoc_encode d := bits (encode (doc_fields d)); SignState_encode s := bits (encode (state_fields s)) |}.
  - intros [] [] E%bits_inj%(inj encode). unfold doc_fields in E. cbn in E. congruence.
  - intros [] [] E%bits_inj%(inj encode). unfold state_fields in E. cbn in E. congruence.
Defined.

Definition frost : ThresholdSigner ToyF ToyE (SchnorrSignature ToyF ToyE) ToyF (FrostNonceCommitment ToyE) (FrostSigningState ToyF) :=
  ThresholdJubjubSigner.
#[local] Existing Instance frost.
Definition contract : SignerContract frost := frost_contract.
#[local] Existing Instance contract.

(** The key polynomial is [10 + 3x]. *)
Definition cs : list ToyF := [toy_F 10; toy_F 3].
Definition ring_point : ToyE := generator ⊙ peval cs fzero.
Definition keys : list bytes := [bstr "01"; bstr "02"; bstr "03"].
Definition ring : RingPayload :=
  MkRingPayload (hex_encode (g_serialize ring_point)) None None keys 2 60 5 None (Some []) (MkUpgradeInfo 0 None None)
    (MkReportingConfig (MkDemeritConfig 1 86400 1 1) [] 3) false None.
Definition account : KeyDerivation := MkKeyDerivation (bstr "ring") (bstr "account-7") (bstr "p") (bstr "r") (bstr "sign").
Definition msg : bytes := bstr "pay".

Inductive Post := RingPost (r : RingPayload) | DerivationPost (d : KeyDerivation).

#[local] Instance run_posts : BulletinPosts Post := {|
  RingPayload_try_from p := match p with RingPost r => Some r | _ => None end;
  NodeInfo_try_from _ := None;
  is_socket_addr _ := false;
|}.
#[local] Instance run_document_posts : DocumentPosts Post := {| DocumentPayload_try_from _ := None |}.
#[local] Instance run_derivations : DerivationPosts Post := {|
  KeyDerivation_try_from p := match p with DerivationPost d => Some d | _ => None end;
|}.
#[local] Instance run_post_json : PostJson Post := {| BulletinPost_try_from _ := None; post_payload _ := [] |}.

#[local] Instance run_document_json : DocumentJson.
Proof.
  refine {| json_secret _ := None; json_proof _ := None; json_pet_tag _ := None; json_pet_tag_proof _ := None;
            PetTag_try_from _ := None |}.
  by intros.
Defined.
#[local] Instance run_pet_json : PetJson := {|
  TagKnowledgeProof_try_from _ := None; Secret_from_str _ := None; EncryptionProof_try_from _ := None;
|}.
#[local] Instance run_authz : Authz := {| request_to_bytes _ := Some []; authz_check _ _ := Ok true |}.
#[local] Instance run_history : AuthzHistory := {| authz_anchor_time _ := Ok 1500; authz_check_at _ _ _ := Ok false |}.
#[local] Instance run_index : RingIndexJson := {| RingIndex_from_slice _ := None |}.
#[local] Instance run_display : PointDisplay ToyE := {| point_to_string := g_serialize |}.
#[local] Instance run_case : UnicodeCase := {| to_lowercase := to_ascii_lowercase; to_lowercase_ascii _ _ := eq_refl |}.
#[local] Instance run_response : SignJson := {| SignResponse_to_vec signature := Some signature |}.

Definition token : BearerToken SignClaims :=
  MkBearerToken SignClaims (bstr "did:key:zK") None 1000 2000 None (bstr "id") (MkSignClaims (bstr "deriv") (sha256 msg)).

#[local] Instance run_jwt : JwtLib SignClaims := {|
  header_is_eddsa _ := Some true;
  decode_insecure _ := Some token;
  decode_signed _ _ := Some token;
  bs58_decode _ := Some ([Byte.xed; Byte.x01] ++ repeat Byte.x07 32);
  ed25519_key_valid _ := true;
  from_ed_components k := Some k;
  decode_same _ _ _ E := E;
|}.

(** ** The nodes *)

Definition poly_bytes : bytes := match PubPoly_to_bytes (G:=ToyE) (ring_poly cs) with Ok b => b | _ => [] end.
Definition poly_hex : bytes := hex_encode poly_bytes.
Definition share (i : Z) : PriShare ToyF := MkPriShare i (peval cs (from_u64 i)).
Definition bundle (i : Z) : RingShareBundle :=
  MkRingShareBundle (match PriShare_to_bytes (share i) with Ok b => b | _ => [] end) poly_hex 0.

Definition storage (i : Z) (key : bytes) : map_storage :=
  (fun _ => None,
   fun k => match k with
            | RingKey _ => Some (RingShareBundle_to_bytes (bundle i))
            | NodeSigningKey => Some key
            | _ => None
            end).

Definition view (i : Z) (key peer : bytes) : ReportingView map_storage Post :=
  MkReportingView key peer (bstr "chain") 0 (storage i key) (fun _ => Some (RingPost ring)) (fun _ => None) (fun _ => None)
    (fun id => if bool_decide (id = bstr "deriv") then Some (DerivationPost account) else None).

Definition app (i : Z) (key peer : bytes) : SignApp map_storage Post :=
  MkSignApp (view i key peer) (fun _ _ => Some (RingPost ring)) 1500 (Some 1500) (Some 1500) (from_secs 5) 1500 (Some 1500) None
    (from_secs 5) (from_secs 5) (Some 1501) (Some false) None [] (fun _ => None).

Definition coordinator : SignApp map_storage Post := app 1 (bstr "01") [Byte.xaa].
Definition third : SignApp map_storage Post := app 3 (bstr "03") [Byte.xcc].

Definition no_dkg (e : ReportEnvelope) (c : ReportValidationContext map_storage Post) (r : RingPayload)
    (ev : InvalidCryptoResponse) : report_result unit := Err (InvalidReport "unsupported").

Definition result_or {A : Type} (d : A) (r : sign_result A) : A := match r with Ok a => a | _ => d end.

(** ** The request *)

Definition ctx : SignContext := CtxPolicy (MkPolicyContext (bstr "jwt") (bstr "deriv") None account None []).
Definition the_request : bytes := bstr "req".
Definition config : RingConfig :=
  MkRingConfig (bstr "ring") (g_serialize ring_point) [bstr "aa"; bstr "bb"; bstr "cc"] keys 2 3 poly_hex.
Definition idle : SignState := MkSignState ∅ ∅ (MkReportingState ∅ []).
Definition peer1 : bytes := [Byte.xaa].

Definition nonce_request : NonceRequest := nonce_request_for the_request 1 config ctx.
Definition round1 : sign_result (option SignMessage * Rng ToyF) * SignState :=
  handle_nonce_request (F:=ToyF) (G:=ToyE) no_dkg third 1 nonce_request peer1 toy_rng idle.
Definition after1 : SignState := round1.2.
Definition nonce_reply : SignMessage :=
  default (MsgSignError [] []) (result_or (None, toy_rng) round1.1).1.

Lemma nonce_served : handle_nonce_request (F:=ToyF) (G:=ToyE) no_dkg third 1 nonce_request peer1 toy_rng idle = (Ok (Some nonce_reply, toy_rng), after1).
Proof. vm_compute. reflexivity. Qed.

(** ** The coordinator *)

Definition options : SigningOptions := MkSigningOptions ∅.
Definition offline : SignArrival := MkSignArrival (Some 1502) (Some (bstr "bb", Err (SignTimeout "Peer exchange timed out"))).
Definition from_third (m : SignMessage) : SignArrival :=
  MkSignArrival (Some 1502) (Some (bstr "cc", Ok (Some (MkAuthenticatedResponse _ m (bstr "cc"))))).

Definition nonce_io : RoundIO := MkRoundIO 0 [offline; from_third nonce_reply] (fun m => m) (fun _ => None).
Definition metadata : bytes := signer_encode_metadata (bstr "p") (bstr "r") (bstr "sign").
Definition material : SigningMaterial ToyF ToyE :=
  MkSigningMaterial (ring_poly cs) (Some (MkDistKeyShare (share 1))) (Some (bstr "account-7")) (Some metadata).
Definition empty_table : SignInitState := MkSignInitState ∅ (MkReportingState ∅ []).
Definition start : SignInitState :=
  MkSignInitState (<[versioned_key 0 the_request := MkResponseEntry _ []
    (list_to_set (extract_node_part <$> contacted [Byte.xaa] options config)) 0]> ∅) (MkReportingState ∅ []).

Definition collected1 : sign_result (CommitmentRound (FrostNonceCommitment ToyE) (FrostSigningState ToyF) * Rng ToyF) * SignInitState :=
  collect_signing_commitments (F:=ToyF) (G:=ToyE) coordinator 1 10 0 [Byte.xaa] the_request config 1 true ctx
    (Some (MkDistKeyShare (share 1))) options msg (Some (bstr "account-7")) (Some metadata) (rd_arrivals nonce_io) (fun m => m)
    toy_rng start.
Definition round : CommitmentRound (FrostNonceCommitment ToyE) (FrostSigningState ToyF) :=
  (result_or (MkCommitmentRound [] None [] false None, toy_rng) collected1.1).1.

Lemma commitments_selected : collected1.1 = Ok (round, toy_rng).
Proof. vm_compute. reflexivity. Qed.

(** ** The answer of the third member *)

Definition sign_request : SignRequest := sign_request_for the_request 1 msg (cr_all_commitments_bytes round) ctx.
Definition round2 : sign_result (option SignMessage) * SignState :=
  handle_sign_request (F:=ToyF) (G:=ToyE) no_dkg third sign_request peer1 after1.
Definition after2 : SignState := round2.2.
Definition share_reply : SignMessage := default (MsgSignError [] []) (result_or None round2.1).

Lemma share_served : handle_sign_request (F:=ToyF) (G:=ToyE) no_dkg third sign_request peer1 after1 = (Ok (Some share_reply), after2).
Proof. vm_compute. reflexivity. Qed.

Definition share_io : RoundIO := MkRoundIO 0 [offline; from_third share_reply] (fun m => m) (fun _ => None).

Lemma third_member : signing_member (F:=ToyF) no_dkg material cs third sign_request peer1 3.
Proof.
  split.
  - intros a (r & (_ & _ & _ & _ & Hd & _) & _ & _ & E1 & E2).
    assert (Some account = Some (rp_key_derivation r)) as [= Hr] by (rewrite <- Hd; vm_compute; reflexivity).
    rewrite <- Hr in E1, E2. by split.
  - intros rk b pb pp sh H1 H2 H3 H4.
    assert (signing_bundle (F:=ToyF) third sign_request rk = Ok (bundle 3)) as E by (vm_compute; reflexivity).
    rewrite E in H1. apply Ok_inj in H1 as <-.
    assert (hex_decode (public_polynomial (bundle 3)) = Some poly_bytes) as E1 by (vm_compute; reflexivity).
    assert (PubPoly_from_bytes (F:=ToyF) poly_bytes = Ok (ring_poly (G:=ToyE) cs)) as E2 by (vm_compute; reflexivity).
    rewrite E1 in H2. injection H2 as <-. rewrite E2 in H3. apply Ok_inj in H3 as <-.
    assert (PriShare_from_bytes (share_bytes (bundle 3)) = Ok (share 3)) as E3 by (vm_compute; reflexivity).
    rewrite E3 in H4. apply Ok_inj in H4 as <-. split_and!; [reflexivity..|].
    intros E4%(f_equal fr_serialize). by vm_compute in E4.
Qed.

(** ** What the rounds need *)

Lemma own_valid : own_share_valid config material cs.
Proof.
  intros ks [= <-]. split; [reflexivity|]. split; [|cbn; lia]. intros E%(f_equal fr_serialize). by vm_compute in E.
Qed.

Lemma key_derived :
  verify_key (ring_poly cs) (sm_derivation material) (sm_metadata material)
  = Ok (FrostTheorems.signing_key (G:=ToyE) cs (Some (bstr "account-7")) (Some metadata)).
Proof. vm_compute. reflexivity. Qed.

Definition own_nonce : list (Z * FrostNonceCommitment ToyE) * option (FrostSigningState ToyF) * Rng ToyF :=
  result_or ([], None, toy_rng) (local_nonce (F:=ToyF) (G:=ToyE) (TS:=frost) 1 1 true (Some (MkDistKeyShare (share 1))) toy_rng).

Lemma third_nonce : nonce_answered (F:=ToyF) (G:=ToyE) no_dkg config (from_third nonce_reply).
Proof.
  exists (MkAuthenticatedResponse _ nonce_reply (bstr "cc")), 3, third, 1%nat, nonce_request, peer1, toy_rng, toy_rng, idle, after1.
  split; [reflexivity|]. split; [vm_compute; reflexivity|]. split; [exact nonce_served|]. vm_compute. reflexivity.
Qed.

Lemma commitment_size (c : FrostNonceCommitment ToyE) b :
  @to_bytes _ nonce_serialize c = Ok b -> 1 <= Z.of_nat (length b) <= MAX_COMMITMENT_SIZE.
Proof.
  intros E. apply Ok_inj in E as <-. rewrite length_app, !g_serialize_length. vm_compute. by split.
Qed.

Lemma nonces_ok :
  nonces_available (G:=ToyE) no_dkg config 1 1 true (Some (MkDistKeyShare (share 1))) (rd_arrivals nonce_io) toy_rng toy_rng.
Proof.
  constructor; [|split; [done|exact commitment_size]].
  exists own_nonce.1.1, own_nonce.1.2, [from_third nonce_reply]. split; [vm_compute; reflexivity|]. split; [cbn; lia|].
  split; [apply (bool_decide_unpack _); vm_compute; exact I|]. split; [apply sublist_cons; reflexivity|].
  split; [apply Forall_singleton, third_nonce|]. vm_compute. discriminate.
Qed.

Lemma own_index : pub_i <$> option_list (compute_local_signature_share material round msg) = [1].
Proof. vm_compute. reflexivity. Qed.

Lemma round_shares : shares_available (G:=ToyE) no_dkg the_request config ctx cs msg 1 material round (rd_arrivals share_io).
Proof.
  unfold shares_available. cbn zeta. exists [from_third share_reply]. split; [apply sublist_cons; reflexivity|]. split; cycle 1.
  { rewrite own_index. split; [apply (bool_decide_unpack _); vm_compute; exact I|].
    rewrite <- (length_fmap pub_i), own_index. vm_compute. discriminate. }
  apply Forall_singleton. exists (MkAuthenticatedResponse _ share_reply (bstr "cc")), 3, third, peer1, after1, after2.
  split; [reflexivity|]. split; [vm_compute; reflexivity|]. split; [exact share_served|exact third_member].
Qed.

Lemma shares_ok r s1 :
  collected1 = (Ok (r, toy_rng), s1) ->
  shares_available (G:=ToyE) no_dkg the_request config ctx cs msg 1 material r (rd_arrivals share_io).
Proof.
  intros E. apply (f_equal fst) in E. rewrite commitments_selected in E. apply Ok_inj, (f_equal fst) in E.
  change (round = r) in E. rewrite <- E. exact round_shares.
Qed.

(** ** The execution of the third member *)

Definition execution : list (sign_event (F:=ToyF)) :=
  [OnNonceRequest third 1 nonce_request peer1 toy_rng ∅ (MkReportingState ∅ []);
   OnSignRequest third sign_request [Byte.xbb] ∅ (MkReportingState ∅ []);
   OnSignRequest third sign_request peer1 ∅ (MkReportingState ∅ []);
   OnSignRequest third sign_request peer1 ∅ (MkReportingState ∅ []);
   OnSweep (from_secs 100)].

Lemma one_nonce : length (run_commitments (run_sign_events (G:=ToyE) no_dkg execution)) = 1%nat /\
  length (run_shares (run_sign_events (G:=ToyE) no_dkg execution)) = 1%nat.
Proof. split; vm_compute; reflexivity. Qed.

Lemma single_NoDup {A} (l : list A) : length l = 1%nat -> NoDup l.
Proof. destruct l as [|x []]; try done. intros _. apply NoDup_singleton. Qed.
End SignRun.
Import SignRun.

#[local] Existing Instances plain_hex list_order example_state_json e_blst run_ecdsa run_prost frost contract run_posts.
#[local] Existing Instances run_document_posts run_derivations run_post_json run_document_json run_pet_json run_authz run_history.
#[local] Existing Instances run_index run_display run_case run_response run_jwt.

Lemma share_authorized_witness :
  exists a state, request_authorized (F:=ToyF) (G:=ToyE) no_dkg third sign_request peer1 a /\
    nonce_taken third sign_request peer1 state after1 after2 /\ share_made (F:=ToyF) (G:=ToyE) third sign_request a state share_reply.
Proof.
  destruct (share_authorized no_dkg third sign_request peer1 after1 share_reply after2 share_served)
    as (a & state & _ & Ha & Hn & _ & _ & Hs).
  by exists a, state.
Defined.

Lemma responder_refines_nonce_store_witness :
  let r := run_sign_events (F:=ToyF) (G:=ToyE) no_dkg execution in
  exists cs used, refines_store r (run_nonce_calls cs) used /\ length used = 1%nat /\ NoDup used.*2.
Proof.
  destruct (responder_refines_nonce_store (TS:=frost) no_dkg execution eq_refl) as (cs & used & R & Hs & Hn). cbn zeta.
  destruct one_nonce as [H1 H2]. exists cs, used. split; [exact R|].
  split; [rewrite <- (Forall2_length _ _ _ (rf_used _ _ _ R)); exact H2|]. apply Hn.
  apply single_NoDup. etrans; [apply length_fmap|].
  etrans; [symmetry; exact (Forall2_length _ _ _ (rf_made _ _ _ R))|exact H1].
Defined.

Lemma signing_served_witness :
  exists response (signature : SchnorrSignature ToyF ToyE) b s',
    initiate_signing (F:=ToyF) (G:=ToyE) coordinator 1 10 0 (fun _ => false) [Byte.xaa] the_request config msg ctx options nonce_io share_io
      toy_rng empty_table = (Ok (response, toy_rng), s') /\
    signer_verify (FrostTheorems.signing_key (G:=ToyE) cs (Some (bstr "account-7")) (Some metadata)) msg signature = Ok tt /\
    @to_bytes _ signature_serialize signature = Ok b /\ SignResponse_to_vec (hex_encode b) = Some response /\
    si_responses s' !! versioned_key 0 the_request = None.
Proof.
  eapply (signing_served no_dkg coordinator 1 10 0 (fun _ => false) [Byte.xaa] the_request config msg ctx options nonce_io share_io
    toy_rng toy_rng empty_table cs material).
  - apply lookup_empty.
  - apply lookup_empty.
  - cbn [si_responses empty_table]. rewrite map_size_empty. lia.
  - by intros m.
  - by intros m.
  - by intros m.
  - vm_compute. reflexivity.
  - reflexivity.
  - exact own_valid.
  - exact key_derived.
  - cbn. lia.
  - split; cbn; lia.
  - cbn. lia.
  - cbn. lia.
  - intros b. by exists None.
  - by eexists.
  - exact nonces_ok.
  - exact shares_ok.
Defined.
