(* ===== verification/DkgScenario.v ===== *)
(** * A refresh with a bad share

    The ring of [PreScenario] refreshes its key.  The third member deals, once
    honestly and once with a share for the first member that is not on its
    polynomial; the second member validates the reports.  The run gives the
    theorems of [DkgConvictions] concrete instances. *)
From S2P Require Import Prelude Algebra Interpolation Primitives Pairing Toy Codec Common WireCommitment Dkg DkgSpec Context Sigma Shares Pre Pet SignDerivation Bls Signer DkgSession.
From S2P Require Import ReportCodec ReportStatements ReportDkg ReportPet Evidence Identity NodeState Envelope Responses Auth Routes Bulletin RingState PetNode Reporting Relay PetProtocol PreNode SignHelpers Registry PreInitiator SignInitiator PetAdmission PreRelease PreCollect DkgEvidence Convictions DkgConvictions PreScenario ReportScenario.
Import PreRun ReportRun.

Module DkgRun.

#[local] Existing Instances plain_hex list_order run_ecdsa run_document_json run_pet_json run_authz run_jwt run_posts.
#[local] Existing Instances run_document_posts run_display example_state_json run_history run_derivations.
#[local] Existing Instance bls.

Definition or_else {E A} (d : A) (r : res E A) : A := match r with Ok a => a | _ => d end.

(** ** The session *)

Definition member (i : Z) (key peer : bytes) : DkgApp map_storage Post :=
  MkDkgApp _ _ key (bstr "chain") peer (storage i key) (fun _ => Some (RingPost ring)) (read_node (bstr "cc")) (Some 1501).
Definition first : DkgApp map_storage Post := member 1 (bstr "01") [Byte.xaa].
Definition third : DkgApp map_storage Post := member 3 (bstr "03") [Byte.xcc].

Definition idle_node (i : Z) : DKGNode ToyF ToyG1 :=
  MkDKGNode i 2 3 Standard 3 2 None [] (MkPolynomialCommitment []) ∅ ∅ None 7 ∅.

Definition attempt (i : Z) (n : DKGNode ToyF ToyG1) : DkgAttempt ToyF ToyG1 :=
  MkDkgAttempt 7 (repeat Byte.x09 32)
    (MkDkgSessionState (KRefresh (ring_pk ring)) Initializing n ∅ false 0 0 None)
    (bstr "ring") keys {[1 := bstr "aa"; 2 := bstr "bb"; 3 := bstr "cc"]} ∅ true false 0 (repeat Byte.x05 16) None None None
    ∅ ∅ ∅ ∅ ∅ (MkReportingState ∅ []) [].

Definition idle : DkgAttempt ToyF ToyG1 := attempt 3 (idle_node 3).

(** ** An honest dealer *)

Definition dealing : list dealer_event := [DealCommitment toy_rng; DealShares keys toy_rng].
Definition dealing_run := dealer_run third dealing idle.
Definition first_share : SignedDkgShare :=
  match dealing_run.1.2 with
  | e :: _ => e
  | [] => MkSignedDkgShare (MkDkgShareStatement [] [] [] [] [] 0 [] 0 [] [] [] Current Current 0 0
            (MkDkgCommitmentStatement [] [] [] [] [] 0 [] 0 [] [] Current Current 0 [] [] [] []) [] [] [] []) []
  end.

Definition share_report (e : SignedDkgShare) : ReportEnvelope :=
  invalid_crypto_envelope (share_observation e (bstr "cc")) ring (bstr "01") (bstr "chain").

Lemma shares_dealt : length dealing_run.1.2 = 2%nat.
Proof. vm_compute. reflexivity. Qed.

Lemma first_share_dealt : ss_statement first_share ∈ ss_statement <$> dealing_run.1.2.
Proof.
  apply list_elem_of_fmap_2. unfold first_share. generalize shares_dealt. destruct dealing_run.1.2; [done|]. intros _. by left.
Qed.

(** ** A dealer that sends a share off its polynomial *)

Definition third_committed : DkgAttempt ToyF ToyG1 := (dealer_run third [DealCommitment toy_rng] idle).2.
Definition third_context : option DkgEvidenceBuildContext := or_else None (evidence_build_context third third_committed).1.
Definition bad_value : bytes := fr_serialize (toy_F 1).
Definition bad_nonce : bytes := repeat Byte.x07 16.
Definition bad_evidence : SignedDkgShare :=
  match third_context, dt_local_signed_commitment third_committed with
  | Some c, Some commitment => or_else first_share (build_share_evidence_with_context third c 3 1 bad_value bad_nonce commitment)
  | _, _ => first_share
  end.

(** The first member has the commitment of the third. *)
Definition first_ready : DkgAttempt ToyF ToyG1 :=
  attempt 1 (set_received_commitments {[3 := commitment (DkgSession.node (dt_session third_committed))]} (idle_node 1)).

Definition no_info : NodeInfo := MkNodeInfo [] [] [] [].
Definition third_info : NodeInfo := or_else no_info (dkg_read_node_info first (bstr "03")).
Definition verified : DkgAttempt ToyF ToyG1 := (verify_share_evidence first 3 1 bad_value bad_nonce (Some bad_evidence) first_ready).2.
Definition validator : ReportValidationContext map_storage Post := context (storage 2 (bstr "02")).

Lemma bad_share_verified :
  (verify_share_evidence first 3 1 bad_value bad_nonce (Some bad_evidence) first_ready).1 = Ok (Some bad_evidence).
Proof. vm_compute. reflexivity. Qed.
Lemma bad_share_refused : share_refused first_ready 3 1 bad_value bad_nonce.
Proof. vm_compute. split; [discriminate|reflexivity]. Qed.
Lemma bad_report_checked :
  routine_checks (share_report bad_evidence) validator ring "DKG invalid-share".
Proof. split; [|split]; [vm_compute; reflexivity..|]. exists (MkCommitteeView keys 2). repeat split; vm_compute; reflexivity. Qed.

Definition binding : DkgReportEvidenceBinding :=
  default (MkDkgReportEvidenceBinding [] [] [] [] 0 [] [] [] []) (dt_report_evidence_binding verified).

Lemma ring_unchanged : same_ring binding validator ring.
Proof.
  constructor; try (vm_compute; reflexivity).
  apply Forall_forall. repeat constructor; apply (bool_decide_unpack _); vm_compute; exact I.
Qed.

Lemma first_listed : receiver_listed ring (ss_statement bad_evidence).
Proof. exists (MkCommitteeView keys 2). split; vm_compute; reflexivity. Qed.

Lemma bad_evidence_filled : share_filled bad_evidence.
Proof. constructor; try split; vm_compute; discriminate || reflexivity. Qed.

Lemma bad_commitment_whole : whole_points (G:=ToyG1) (dc_commitment (ds_commitment_statement (ss_statement bad_evidence))).
Proof. split; vm_compute; [discriminate|reflexivity]. Qed.

Lemma bad_evidence_wf : InvalidCryptoResponse_wf (EvDkgShare (ss_statement bad_evidence) (ss_signature bad_evidence)).
Proof. vm_compute. repeat split; discriminate || reflexivity. Qed.

Lemma bad_report_room : reportable first_ready (ObsInvalidCryptoResponse (share_observation bad_evidence (ni_peer_id third_info))).
Proof. split; [apply not_elem_of_empty|]. cbn. rewrite size_empty. unfold MAX_IN_FLIGHT_REPORTS. lia. Qed.
End DkgRun.
Import DkgRun.

#[local] Existing Instances plain_hex list_order run_ecdsa run_document_json run_pet_json run_authz run_jwt run_posts.
#[local] Existing Instances run_document_posts run_display example_state_json run_history run_derivations.

Lemma honest_dealer_not_convicted_witness :
  length dealing_run.1.2 = 2%nat /\ registry_validate (TS:=bls) no_dkg (share_report first_share) validator <> Ok tt.
Proof.
  split; [exact shares_dealt|].
  apply (honest_dealer_not_convicted third dealing idle dealing_run.1.1 dealing_run.1.2 dealing_run.2 no_dkg
    (share_report first_share) validator (EvDkgShare (ss_statement first_share) (ss_signature first_share))).
  - by split_and!.
  - unfold dealing_run. by destruct (dealer_run third dealing idle) as [[? ?] ?].
  - reflexivity.
  - vm_compute. reflexivity.
  - exact first_share_dealt.
Defined.

